(* ===== verification/_CoqProject ===== *)
-Q . S2P
Prelude.v
Mem.v
Spinlock.v
Block.v
Klibc.v
Printf.v
PrintfFacts.v
NumberRule.v
PrintfParse.v
PrintfThms.v
Bitmap.v
Frame.v
FrameThms.v
Freelist.v
SizedPool.v
SizedThms.v
Pool.v
HeapInv.v
HeapOps.v
ListOps.v
PoolOps.v
PoolMatch.v
PoolFacts.v
PoolInit.v
PoolSpec.v
PoolView.v
PoolRealloc.v
PoolRefine.v
PageTable.v
PageTableFacts.v
PageTableTree.v
FrameSource.v
Unmap.v
PageTableThms.v
PageClone.v
PageFree.v
PoolThms.v
PoolWidth.v
Heap.v
HeapThms.v
Mman.v
MmanThms.v
Kernel.v
Apic.v
Thread.v
Syscall.v
KernelFacts.v
ConsoleFacts.v
SearchThms.v
KernelDemo.v
SocketFacts.v
SocketThms.v
ConnectFacts.v
AcceptFacts.v
ConnectThms.v
ConnectDemo.v
ScheduleThms.v
CreateFacts.v
Descriptors.v
Firmware.v
DescriptorFacts.v
DescriptorThms.v
FirmwareThms.v
Exceptions.v
Kmain.v
ExceptionFacts.v
ExceptionThms.v
CreateRules.v
CreateThms.v
BootThms.v
SwitchFacts.v
SwitchThms.v
TableThms.v
CloneThms.v
HeapSource.v
SyscallThms.v
