(* ===== verification/Prelude.v ===== *)
(** * Verification of the ion-os kernel

    The kernel ([src/kernel/src]) is a small x86-64 kernel: a boot loader hands it a memory map; it
    sets up a bitmap of physical frames, page tables, a heap, the interrupt controllers and threads,
    and serves system calls, among them stream sockets between drivers.  This library models the
    parts that carry its logic, as executable functions over explicit state, and proves what each
    part does, also where that is not what it was meant to do.

    ** How code becomes definitions

    - A [size_t], pointer or [uint64_t] is a [Z] in [[0, 2^64)]; arithmetic that may wrap is written
      [+!], [-!], [*!] ([Prelude]); narrower integers wrap at their width ([u32], [s32], ...).
    - Memory is a finite map from addresses to bytes ([Mem]); words are little-endian; an access to an
      address that is not mapped is a fault.
    - Code runs in a state and error monad [M S A := S -> option (A * S)]: [None] is a fault (or a
      divergence where a loop has fuel).  [runs c s Q] says that [c] returns from [s] and that its
      result and final state satisfy [Q]: every theorem stated with it is one of total correctness.
    - A loop whose bound is visible is a [forM] or structural recursion; the others take fuel, and the
      theorems of total correctness show that it is enough: [pool_fuel] is more than the pool's size in
      least blocks (a free list has at most one node per block), [mman_fuel] is the same of the manager,
      [str_fuel] is past the cap that [strlen] has itself, and the two waiting loops of the sockets take
      the number of turns after which the other side has acted.  [large_fuel], for the manager's list of
      large blocks, is past the number of nodes that the kernel heap has room for.
    - Objects above the heap (threads, sockets, contexts) are records in finite maps from addresses
      ([Kernel]): two pointers to one object are two uses of one key, so aliasing is the code's.
      Byte buffers, descriptor arrays and register frames stay in the byte memory.
    - What is not under [src] is a parameter: the boot loader's memory map and answers ([BootInfo],
      [Start]), the addresses the linker picks and the strings the compiler places ([Image], [Tables],
      [Messages]), what fresh memory holds ([Garbage]), and what a device answers when it is asked.

    ** The parts and their files

    - Vocabulary: [Prelude] (words, the monad, [runs], hint database), [Mem], [Klibc] ([libs/klibc.cpp]:
      memory and string functions, with what they write as lists of bytes).
    - Printing ([number], [skip_atoi], [vsprintf] of [libs/klibc.cpp]): [Printf], [PrintfFacts],
      [NumberRule], [PrintfParse], [PrintfThms].
    - Spin lock ([arch/x86_64/spinlock.hpp]): [Spinlock], both as steps of any number of processors
      interleaved at will and as the sequential functions the other parts call.
    - Frames: [Bitmap] ([libs/bitmap.cpp]), [Frame] ([mm/frame.cpp], [mm/hhdm.hpp]), [FrameThms].
    - Kernel heap: [Block] ([mm/alloc/block.hpp], [area.hpp]), [Freelist] ([mm/alloc/freelist.hpp]),
      [Pool] ([mm/heap/pool.cpp]); the invariant of boundary tags and free lists [HeapInv] with the
      rules of the operations on it [HeapOps], [ListOps], [PoolOps], [PoolMatch], [PoolFacts],
      [PoolInit], [PoolSpec], [PoolRealloc]; the abstract heap [PoolView]; the pool with its owner as
      a state machine [PoolRefine]; the properties [PoolThms], and those of requests near [2^64]
      [PoolWidth].  [Heap] and [HeapThms] put the pool
      behind its lock ([mm/heap/heap.cpp]).  [SizedPool], [SizedThms]: [mm/heap/sized-pool.cpp].
      [Mman], [MmanThms]: the manager of several areas, which nothing calls ([mm/heap/mman.cpp],
      [mm/alloc/large-blk.hpp]).
    - Page tables ([arch/x86_64/table.cpp]): [PageTable], [PageTableFacts], [PageTableTree], [Unmap],
      [PageTableThms], [PageClone], [PageFree]; the class [FrameSource] is what they need of a frame allocator, and
      the file [FrameSource] shows that the real one keeps it.
    - The kernel's state: [Kernel] (objects, statics, devices, the machine); its rules [KernelFacts],
      [ConsoleFacts] and [SocketFacts].
    - Interrupt controllers and console: [Apic] ([arch/x86_64/apic.cpp] in both modes, [debug.cpp]).
    - Threads: [Thread] ([arch/x86_64/context.cpp], [thread/thread.cpp], [thread/schedule.cpp]);
      [SearchThms], [ScheduleThms] (the scheduler's choice), [CreateFacts], [CreateRules], [CreateThms]
      (new threads), [BootThms] (the first ones), [SwitchFacts], [SwitchThms] (context switches and the
      timer), [TableThms] (the thread tables as a typed structure).
    - System calls and driver sockets: [Syscall] ([hel/dsocket.cpp], [hel/syscall.cpp],
      [arch/x86_64/syscall.cpp]); [SocketThms], [ConnectFacts], [AcceptFacts], [ConnectThms],
      [CloneThms], [SyscallThms], applied in [KernelDemo] and [ConnectDemo] to a concrete kernel.
    - Descriptors and firmware: [Descriptors] ([arch/x86_64/gdt.cpp], [idt.cpp]), [Firmware]
      ([arch/x86_64/acpi.cpp], [hpet.cpp], [arch.cpp]), [DescriptorFacts], [DescriptorThms],
      [FirmwareThms].
    - Exceptions: [Exceptions] (the handlers of [arch/x86_64/idt.cpp]), [ExceptionFacts],
      [ExceptionThms].
    - Start-up: [Kmain] ([main.cpp]).

    ** Interfaces

    [AddressSpace] (what [init_heap] needs of [map_range]), [FrameSource] (what page tables need of
    frames, and that the allocator does not mind other writes), [KernelHeap] (what threads and sockets
    need of the heap: blocks inside its range, apart from the live ones, and nothing else changed),
    [Garbage] and [Image].  The theorems of a client are proved against the class; instances are proved
    for the real implementation ([FrameSource], [HeapSource]) or, where a concrete machine is wanted,
    for a small one.

    ** What the theorems show

    - The pool refines a finite map from addresses to sizes and contents over every history of
      allocations, frees, writes and reallocations, growing ones and aligned ones included, except
      that a block which must grow and finds no room makes the call fault ([PoolRefine] says what the
      owner has to observe); live blocks never overlap; nothing is lost; requests are
      refused exactly when no block fits ([PoolThms]), but those above [2^64 - 16], which wrap around
      to 0 and are granted a few bytes ([PoolWidth]); the [malloc] family keeps this behind the lock
      and gives the interrupt flags back ([HeapThms]); a manager that cannot grow serves small requests
      as the pool does ([MmanThms]); the heap of [init_heap] is one that the threads and sockets can
      rely on, and it grants the next thousand requests of at most a page ([HeapSource]).
    - No frame is handed out twice ([FrameThms]); mapping a page changes that page's translation only,
      and translating it gives the frame mapped ([PageTableThms]); a copied address space has a root of
      its own and shares all lower tables ([PageClone]); a release ends and frees exactly the frames
      the lower half leads to, so that releasing a copy frees those the original still maps ([PageFree]).
    - At most one processor is inside a spin lock, with interrupts off ([Spinlock]).
    - Formatted printing writes the specified text, and decimals are read back up to the first
      character that is no digit ([PrintfThms]).
    - A driver-socket connection is two byte queues; connect and accept meet; the error answers
      change nothing, and which calls reach one is settled, the unset [op] of a new socket and the
      unchecked table index included ([SocketThms], [ConnectThms]).  The dispatcher calls each number's
      implementation and returns to user mode with its answer ([SyscallThms]); a clone that shares everything has its parent's registers, FPU
      state and segments in places of its own ([CloneThms]).
    - The scheduler picks the first thread with the fewest jiffies ([ScheduleThms]); a new thread
      starts at its entry point with clean state, and the first threads are one idle thread for each
      processor and the init thread ([CreateThms], [BootThms]); a thread switched out and in again has
      its registers back, and the timer switches to the scheduler's choice ([SwitchThms]); from [init] on
      every entry of the thread tables is NULL or a thread whose parts are live objects of their kind,
      whatever is created and whenever the timer ticks ([TableThms]).
    - After start-up every vector and every segment register names a descriptor of the right kind
      ([DescriptorThms]); each exception handler prints the registers of its frame and halts or returns
      ([ExceptionThms]); the search of the ACPI tables finds the first with the signature
      ([FirmwareThms]).
    - Where the code departs from its intent the departure is a theorem too: the pool that never
      grows, [unmap] that drops 512 GiB, the race in [spin_unlock], the shared tables of a copy, and
      others.

    ** Not modelled

    The assembly entry points and the linker script; the limine requests, whose answers are parameters;
    the endless waits with [hlt], after which nothing of the thread runs; device timing (what the APIC
    timer has counted down to is an argument, and the other processors are started, not run);
    [invlpg] and the reload of CR3, which do not change memory; names in the ACPI layouts that no code
    reads.  The definition of [mpool_deinit] and
    [kmain] as a whole have no property, and [k_clone_impl] has one for threads that share everything. *)

From Stdlib Require Import ZArith Lia.
From stdpp Require Import prelude gmap.

#[global] Open Scope Z_scope.

(** * Machine words: a [size_t], [uintptr_t] or pointer is a [Z] in [0, 2^64). *)

Definition two64 : Z := 18446744073709551616.
Definition two32 : Z := 4294967296.

(** The value kept by a 64-bit (32-bit) unsigned register. *)
Definition u64 (z : Z) : Z := z mod two64.
Definition u32 (z : Z) : Z := z mod two32.

(** The value of a two's complement [int] or [long] holding the bits of [z]. *)
Definition s64 (z : Z) : Z := (z + two64 / 2) mod two64 - two64 / 2.
Definition s32 (z : Z) : Z := (z + two32 / 2) mod two32 - two32 / 2.

Definition add64 (a b : Z) : Z := u64 (a + b).
Definition sub64 (a b : Z) : Z := u64 (a - b).
Definition mul64 (a b : Z) : Z := u64 (a * b).
Definition lnot64 (a : Z) : Z := u64 (Z.lnot a).

Definition NULL : Z := 0.
Definition PAGE_SIZE : Z := 4096.

Definition b2z (b : bool) : Z := if b then 1 else 0.

Declare Scope word_scope.
Delimit Scope word_scope with w.
Notation "a +! b" := (add64 a b) (at level 50, left associativity) : word_scope.
Notation "a -! b" := (sub64 a b) (at level 50, left associativity) : word_scope.
Notation "a *! b" := (mul64 a b) (at level 40, left associativity) : word_scope.
Notation "~! a" := (lnot64 a) (at level 35, right associativity) : word_scope.
Notation "a &! b" := (Z.land a b) (at level 51, left associativity) : word_scope.
Notation "a |! b" := (Z.lor a b) (at level 52, left associativity) : word_scope.
#[global] Open Scope word_scope.

(** * Stateful code that may fault

    [None] is a fault (an access to unmapped memory) or a loop that has used up its fuel; a
    total-correctness judgement [runs] rules both out. *)

Definition M (St A : Type) : Type := St -> option (A * St).

Definition ret {St A} (a : A) : M St A := fun s => Some (a, s).
Definition bind {St A B} (c : M St A) (k : A -> M St B) : M St B :=
  fun s => match c s with Some (a, s') => k a s' | None => None end.
Definition stuck {St A} : M St A := fun _ => None.
Definition gets {St A} (f : St -> A) : M St A := fun s => Some (f s, s).
Definition modify {St} (f : St -> St) : M St unit := fun s => Some (tt, f s).
Definition of_opt {St A} (o : option A) : M St A := fun s => (fun a => (a, s)) <$> o.

Declare Scope mon_scope.
Delimit Scope mon_scope with mon.
Notation "x <- c ;; k" := (bind c (fun x => k))
  (at level 100, c at next level, right associativity) : mon_scope.
Notation "' p <- c ;; k" := (bind c (fun p => k))
  (at level 20, p pattern, c at level 99, k at level 200, only parsing) : mon_scope.
Notation "c ;; k" := (bind c (fun _ => k))
  (at level 100, k at level 200, right associativity) : mon_scope.
#[global] Open Scope mon_scope.

(** [whenM b c] is [if (b) c;]. *)
Definition whenM {St} (b : bool) (c : M St unit) : M St unit := if b then c else ret tt.

(** [forM n f] runs [f 0; ...; f (n-1)]: a [for] loop counting up. *)
Fixpoint forM_from {St} (n : nat) (i : Z) (f : Z -> M St unit) : M St unit :=
  match n with
  | O => ret tt
  | S n' => f i ;; forM_from n' (i + 1) f
  end.
Definition forM {St} (lo hi : Z) (f : Z -> M St unit) : M St unit :=
  forM_from (Z.to_nat (hi - lo)) lo f.

(** Total correctness: [c] started in [s] returns, in a state and with a value satisfying [Q]. *)
Definition runs {St A} (c : M St A) (s : St) (Q : A -> St -> Prop) : Prop :=
  match c s with Some (a, s') => Q a s' | None => False end.

Ltac split_ands := repeat match goal with |- _ /\ _ => split end.
Ltac destr_ands := repeat match goal with H : _ /\ _ |- _ => destruct H end.

(** * Rules of [runs] *)

Section Runs.
Context {St : Type}.

Lemma runs_ret {A} (a : A) (s : St) Q : Q a s -> runs (ret a) s Q.
Proof. done. Qed.

Lemma runs_bind {A B} (c : M St A) (k : A -> M St B) s Q :
  runs c s (fun a s' => runs (k a) s' Q) -> runs (bind c k) s Q.
Proof. unfold runs, bind. by destruct (c s) as [[??]|]. Qed.

Lemma runs_bind_inv {A B} (c : M St A) (k : A -> M St B) s Q :
  runs (bind c k) s Q -> runs c s (fun a s' => runs (k a) s' Q).
Proof. unfold runs, bind. by destruct (c s) as [[??]|]. Qed.

Lemma runs_mono {A} (c : M St A) s (P Q : A -> St -> Prop) :
  runs c s P -> (forall a s', P a s' -> Q a s') -> runs c s Q.
Proof. unfold runs. destruct (c s) as [[??]|]; naive_solver. Qed.

(** The equation of a run, next to its postcondition. *)
Lemma runs_eq {A} (c : M St A) s (Q : A -> St -> Prop) :
  runs c s Q -> runs c s (fun a s' => c s = Some (a, s') /\ Q a s').
Proof. unfold runs. by destruct (c s) as [[a s']|]. Qed.

Lemma runs_bind_use {A B} (c : M St A) (k : A -> M St B) s (P : A -> St -> Prop) Q :
  runs c s P -> (forall a s', P a s' -> runs (k a) s' Q) -> runs (bind c k) s Q.
Proof. intros. eapply runs_bind, runs_mono; eauto. Qed.

Lemma runs_gets {A} (f : St -> A) s Q : Q (f s) s -> runs (gets f) s Q.
Proof. done. Qed.

Lemma runs_modify (f : St -> St) s Q : Q tt (f s) -> runs (modify f) s Q.
Proof. done. Qed.

Lemma runs_of_opt {A} (o : option A) a (s : St) Q : o = Some a -> Q a s -> runs (of_opt o) s Q.
Proof. intros ->. done. Qed.

Lemma runs_inv {A} (c : M St A) s Q :
  runs c s Q -> exists a s', c s = Some (a, s') /\ Q a s'.
Proof. unfold runs. destruct (c s) as [[a s']|]; naive_solver. Qed.

Lemma runs_intro {A} (c : M St A) s a s' (Q : A -> St -> Prop) :
  c s = Some (a, s') -> Q a s' -> runs c s Q.
Proof. unfold runs. by intros ->. Qed.

(** The loop rule: an invariant indexed by the counter. *)
Lemma runs_forM (Inv : Z -> St -> Prop) lo hi (f : Z -> M St unit) s Q :
  lo <= hi ->
  Inv lo s ->
  (forall i s', lo <= i < hi -> Inv i s' -> runs (f i) s' (fun _ => Inv (i + 1))) ->
  (forall s', Inv hi s' -> Q tt s') ->
  runs (forM lo hi f) s Q.
Proof.
  intros Hle H0 Hstep HQ. unfold forM.
  remember (Z.to_nat (hi - lo)) as n eqn:En.
  assert (Hn : hi = lo + Z.of_nat n) by lia. clear En.
  revert lo s Hle H0 Hstep Hn. induction n as [|n IH]; intros lo s Hle H0 Hstep Hn; simpl.
  - apply runs_ret, HQ. by replace hi with lo by lia.
  - apply runs_bind. eapply runs_mono; [apply (Hstep lo s); [lia|done]|].
    intros [] s' Hs'. apply (IH (lo + 1) s'); [lia|done| |lia].
    intros. apply Hstep; [lia|done].
Qed.
End Runs.

(** * Arithmetic of machine words *)

Lemma u64_small z : 0 <= z < two64 -> u64 z = z.
Proof. apply Z.mod_small. Qed.
Lemma u64_range z : 0 <= u64 z < two64.
Proof. apply Z.mod_pos_bound. unfold two64; lia. Qed.
Lemma u64_u64 z : u64 (u64 z) = u64 z.
Proof. apply u64_small, u64_range. Qed.
Lemma u64_add_l a b : u64 (u64 a + b) = u64 (a + b).
Proof. unfold u64. by rewrite Zplus_mod_idemp_l. Qed.
Lemma u64_sub_self a b : u64 (u64 (a - b) + b) = u64 a.
Proof. rewrite u64_add_l. f_equal. lia. Qed.
Lemma u64_shift z k : u64 (z + k * two64) = u64 z.
Proof. unfold u64. by rewrite Z_mod_plus_full. Qed.
Lemma s64_range z : - (two64 / 2) <= s64 z < two64 / 2.
Proof.
  unfold s64. pose proof (Z.mod_pos_bound (z + two64 / 2) two64 ltac:(unfold two64; lia)).
  change (two64 / 2) with 9223372036854775808 in *. unfold two64 in *. lia.
Qed.
Lemma s64_small z : - (two64 / 2) <= z < two64 / 2 -> s64 z = z.
Proof.
  intros. unfold s64. change (two64 / 2) with 9223372036854775808 in *.
  rewrite Z.mod_small; unfold two64; lia.
Qed.

Create HintDb words.
Create Rewrite HintDb word_rewrites.
#[export] Hint Rewrite u64_u64 u64_add_l : word_rewrites.
#[export] Hint Resolve u64_range s64_range : words.

(** [norm_words] replaces every [u64 x] whose argument provably fits a word, innermost first. *)
Ltac norm_words_unfold := unfold add64, sub64, mul64, NULL in *.
Ltac norm_words_step :=
  match goal with
  | |- context [u64 ?x] =>
      lazymatch x with
      | context [u64 _] => fail
      | _ => rewrite (u64_small x) by (unfold two64 in *; lia)
      end
  end.
Ltac norm_words_hyp H :=
  repeat match type of H with
  | context [u64 ?x] =>
      lazymatch x with
      | context [u64 _] => fail
      | _ => rewrite (u64_small x) in H by (unfold two64 in *; lia)
      end
  end.
Ltac norm_words := norm_words_unfold; repeat norm_words_step.

(** ** Bit operations on a word split at bit 4

    Block sizes and pointers are multiples of 16 and the tag bits are the low three, so every
    tag operation of the allocator acts on the low nibble only. *)

Lemma testbit_low q c i : 0 <= c < 16 -> 0 <= i < 4 -> Z.testbit (16 * q + c) i = Z.testbit c i.
Proof.
  intros Hc Hi. rewrite <- (Z.mod_pow2_bits_low (16 * q + c) 4 i) by lia.
  change (2 ^ 4) with 16. rewrite Z.add_comm, Z.mul_comm, Z_mod_plus_full, Z.mod_small by lia. done.
Qed.
Lemma testbit_high q c i : 0 <= c < 16 -> 4 <= i -> Z.testbit (16 * q + c) i = Z.testbit q (i - 4).
Proof.
  intros Hc Hi. replace i with ((i - 4) + 4) at 1 by lia.
  rewrite <- Z.shiftr_spec by lia. rewrite Z.shiftr_div_pow2 by lia.
  change (2 ^ 4) with 16. do 2 f_equal. rewrite Z.add_comm, Z.mul_comm, Z.div_add by lia.
  rewrite Z.div_small by lia. done.
Qed.
Lemma nibble_range (f : Z -> Z -> Z) c d :
  (f = Z.land \/ f = Z.lor \/ f = Z.ldiff) -> 0 <= c < 16 -> 0 <= d < 16 -> 0 <= f c d < 16.
Proof.
  intros Hf Hc Hd.
  assert (Hc' : c = 0 \/ c = 1 \/ c = 2 \/ c = 3 \/ c = 4 \/ c = 5 \/ c = 6 \/ c = 7 \/ c = 8 \/
    c = 9 \/ c = 10 \/ c = 11 \/ c = 12 \/ c = 13 \/ c = 14 \/ c = 15) by lia.
  assert (Hd' : d = 0 \/ d = 1 \/ d = 2 \/ d = 3 \/ d = 4 \/ d = 5 \/ d = 6 \/ d = 7 \/ d = 8 \/
    d = 9 \/ d = 10 \/ d = 11 \/ d = 12 \/ d = 13 \/ d = 14 \/ d = 15) by lia.
  clear Hc Hd. destruct Hf as [-> | [-> | ->]]; destruct_or?; subst; vm_compute; split; congruence.
Qed.

(** An operator that acts bit by bit acts separately on the nibble and on the rest. *)
Lemma nibble_op (f : Z -> Z -> Z) (g : bool -> bool -> bool) q c r d :
  (f = Z.land \/ f = Z.lor \/ f = Z.ldiff) ->
  (forall a b i, 0 <= i -> Z.testbit (f a b) i = g (Z.testbit a i) (Z.testbit b i)) ->
  0 <= c < 16 -> 0 <= d < 16 ->
  f (16 * q + c) (16 * r + d) = 16 * f q r + f c d.
Proof.
  intros Hf Hg Hc Hd. pose proof (nibble_range f c d Hf Hc Hd) as Hfcd.
  apply Z.bits_inj'. intros i Hi. rewrite Hg by lia.
  destruct (Z_lt_dec i 4) as [Hlt|Hge].
  - rewrite !testbit_low by lia. by rewrite Hg by lia.
  - rewrite !testbit_high by lia. by rewrite Hg by lia.
Qed.

Lemma land_nibble q c d : 0 <= c < 16 -> 0 <= d < 16 -> Z.land (16 * q + c) d = Z.land c d.
Proof.
  intros Hc Hd. replace d with (16 * 0 + d) at 1 by lia.
  rewrite (nibble_op Z.land andb) by (first [tauto | by intros; apply Z.land_spec | lia]).
  rewrite Z.land_0_r. lia.
Qed.
Lemma lor_nibble q c d :
  0 <= c < 16 -> 0 <= d < 16 -> Z.lor (16 * q + c) d = 16 * q + Z.lor c d.
Proof.
  intros Hc Hd. replace d with (16 * 0 + d) at 1 by lia.
  rewrite (nibble_op Z.lor orb) by (first [tauto | by intros; apply Z.lor_spec | lia]).
  rewrite Z.lor_0_r. lia.
Qed.

Lemma land_lnot64 x d : 0 <= x < two64 -> Z.land x (lnot64 d) = Z.ldiff x d.
Proof.
  intros Hx. unfold lnot64, u64. change two64 with (2 ^ 64) in *.
  rewrite <- Z.land_ones by lia.
  rewrite (Z.land_comm (Z.lnot d)), Z.land_assoc, Z.land_ones by lia.
  rewrite (Z.mod_small x) by lia. by rewrite Z.ldiff_land.
Qed.
Lemma land_lnot64_nibble q c d :
  0 <= 16 * q + c < two64 -> 0 <= c < 16 -> 0 <= d < 16 ->
  Z.land (16 * q + c) (lnot64 d) = 16 * q + Z.ldiff c d.
Proof.
  intros Hx Hc Hd. rewrite land_lnot64 by done. replace d with (16 * 0 + d) at 1 by lia.
  rewrite (nibble_op Z.ldiff (fun a b => a && negb b))
    by (first [tauto | by intros; apply Z.ldiff_spec | lia]).
  rewrite Z.ldiff_0_r. lia.
Qed.

(** Masking with [~(2^k - 1)] rounds down to a multiple of [2^k]. *)
Lemma land_align_down x k :
  0 <= x < two64 -> 0 <= k -> Z.land x (lnot64 (Z.ones k)) = x - x mod 2 ^ k.
Proof.
  intros Hx Hk. rewrite land_lnot64, Z.ldiff_ones_r by lia.
  rewrite Z.shiftl_mul_pow2, Z.shiftr_div_pow2 by lia.
  pose proof (Z.div_mod x (2 ^ k)). lia.
Qed.
Lemma align_down_16 x : 0 <= x < two64 -> Z.land x (lnot64 15) = x - x mod 16.
Proof. intros. apply (land_align_down x 4); lia. Qed.
