(* ===== verification/Mem.v ===== *)
(** Mem: the byte-addressed memory that the kernel's pointers range over.

    A memory is a finite map from addresses to bytes.  An address that is not in the map is not
    mapped: reading or writing it is a fault ([None]).  A cell counts for its value modulo 256.
    [size_t] fields are read and written little-endian, as on x86_64. *)

From Stdlib Require Import ZArith Lia.
From stdpp Require Import prelude gmap.
From S2P Require Import Prelude.

Abbreviation mem := (gmap Z Z).

(** ** Definitions *)

Definition load8 (m : mem) (a : Z) : option Z := (fun b => b mod 256) <$> m !! a.
Definition store8 (m : mem) (a v : Z) : option mem :=
  match m !! a with Some _ => Some (<[a := v mod 256]> m) | None => None end.

Fixpoint load_le (n : nat) (m : mem) (a : Z) : option Z :=
  match n with
  | O => Some 0
  | S n' =>
      match load8 m a, load_le n' m (a + 1) with
      | Some b, Some r => Some (b + 256 * r)
      | _, _ => None
      end
  end.
Fixpoint store_le (n : nat) (m : mem) (a v : Z) : option mem :=
  match n with
  | O => Some m
  | S n' =>
      match store8 m a v with
      | Some m' => store_le n' m' (a + 1) (v / 256)
      | None => None
      end
  end.

Definition load64 : mem -> Z -> option Z := load_le 8.
Definition store64 : mem -> Z -> Z -> option mem := store_le 8.

(** Every address of [lo, hi) is mapped. *)
Definition mapped (m : mem) (lo hi : Z) : Prop := forall a, lo <= a < hi -> is_Some (m !! a).

(** [fill lo n v m]: [m] with the [n] bytes from [lo] mapped and holding [v]. *)
Fixpoint fill (lo : Z) (n : nat) (v : Z) (m : mem) : mem :=
  match n with
  | O => m
  | S n' => <[lo := v]> (fill (lo + 1) n' v m)
  end.

(** ** Bytes *)

Lemma load8_range m a b : load8 m a = Some b -> 0 <= b < 256.
Proof.
  unfold load8. destruct (m !! a); simpl; intros; simplify_eq. apply Z.mod_pos_bound. lia.
Qed.
Lemma load8_mapped m a : is_Some (m !! a) -> is_Some (load8 m a).
Proof. intros [v Hv]. unfold load8. rewrite Hv. by eexists. Qed.

Lemma store8_Some m a v : is_Some (m !! a) -> store8 m a v = Some (<[a := v mod 256]> m).
Proof. intros [w Hw]. unfold store8. by rewrite Hw. Qed.
Lemma store8_inv m a v m' :
  store8 m a v = Some m' -> is_Some (m !! a) /\ m' = <[a := v mod 256]> m.
Proof. unfold store8. destruct (m !! a) eqn:E; intros; simplify_eq. split; [by eexists|done]. Qed.

Lemma load8_insert m a v b :
  load8 (<[a := v mod 256]> m) b = if decide (a = b) then Some (v mod 256) else load8 m b.
Proof.
  unfold load8. rewrite lookup_insert. case_decide; simpl; [|done]. by rewrite Zmod_mod.
Qed.

(** ** Words *)

Lemma store_le_Some n m a v :
  mapped m a (a + Z.of_nat n) -> exists m', store_le n m a v = Some m'.
Proof.
  revert m a v. induction n as [|n IH]; intros m a v Hm; cbn [store_le]; [by eexists|].
  rewrite store8_Some by (apply Hm; lia). apply IH.
  intros b Hb. rewrite lookup_insert. case_decide; [by eexists|]. apply Hm. lia.
Qed.

(** A store changes only the bytes it covers, and maps nothing. *)
Lemma store_le_lookup n m a v m' b :
  store_le n m a v = Some m' -> b < a \/ a + Z.of_nat n <= b -> m' !! b = m !! b.
Proof.
  revert m a v. induction n as [|n IH]; intros m a v; cbn [store_le]; intros Hs Hb; [by simplify_eq|].
  destruct (store8 m a v) as [m1|] eqn:E; [|done].
  apply store8_inv in E as [_ ->]. rewrite (IH _ _ _ Hs) by lia.
  apply lookup_insert_ne. lia.
Qed.
Lemma store_le_is_Some n m a v m' b :
  store_le n m a v = Some m' -> is_Some (m' !! b) <-> is_Some (m !! b).
Proof.
  revert m a v. induction n as [|n IH]; intros m a v; cbn [store_le]; intros Hs; [by simplify_eq|].
  destruct (store8 m a v) as [m1|] eqn:E; [|done].
  apply store8_inv in E as [Hsome ->]. rewrite (IH _ _ _ Hs), lookup_insert.
  case_decide; [subst; naive_solver|done].
Qed.

Lemma load_le_ext n m m' a :
  (forall b, a <= b < a + Z.of_nat n -> m' !! b = m !! b) -> load_le n m' a = load_le n m a.
Proof.
  revert a. induction n as [|n IH]; intros a Hext; cbn [load_le]; [done|].
  unfold load8. rewrite (Hext a) by lia. rewrite IH; [done|]. intros. apply Hext. lia.
Qed.

Lemma load_store_le n m a v m' :
  store_le n m a v = Some m' -> load_le n m' a = Some (v mod 256 ^ Z.of_nat n).
Proof.
  revert m a v. induction n as [|n IH]; intros m a v; cbn [store_le load_le]; intros Hs.
  { simpl. by rewrite Z.mod_1_r. }
  destruct (store8 m a v) as [m1|] eqn:E; [|done].
  apply store8_inv in E as [_ ->].
  assert (Hl : load8 m' a = Some (v mod 256)).
  { unfold load8. rewrite (store_le_lookup _ _ _ _ _ a Hs) by lia.
    rewrite lookup_insert_eq. simpl. by rewrite Zmod_mod. }
  rewrite Hl, (IH _ _ _ Hs). f_equal.
  rewrite Nat2Z.inj_succ, Z.pow_succ_r by lia. rewrite Z.rem_mul_r by lia. done.
Qed.

Lemma load_le_Some n m a : mapped m a (a + Z.of_nat n) -> exists v, load_le n m a = Some v.
Proof.
  revert a. induction n as [|n IH]; intros a Hm; cbn [load_le]; [by eexists|].
  destruct (load8_mapped m a) as [b ->]; [apply Hm; lia|].
  destruct (IH (a + 1)) as [r ->]; [|by eexists]. intros b' ?. apply Hm. lia.
Qed.
Lemma load_le_range n m a v : load_le n m a = Some v -> 0 <= v < 256 ^ Z.of_nat n.
Proof.
  revert a v. induction n as [|n IH]; intros a v; cbn [load_le]; [intros; simplify_eq; simpl; lia|].
  destruct (load8 m a) as [b|] eqn:Eb; [|done].
  destruct (load_le n m (a + 1)) as [r|] eqn:Er; [|done].
  intros; simplify_eq. apply load8_range in Eb. apply IH in Er.
  rewrite Nat2Z.inj_succ, Z.pow_succ_r by lia. lia.
Qed.

Lemma load64_range m a v : load64 m a = Some v -> 0 <= v < two64.
Proof. apply load_le_range. Qed.
Lemma load64_store64_eq m a v m' : store64 m a v = Some m' -> load64 m' a = Some (u64 v).
Proof. apply load_store_le. Qed.
Lemma load64_store64_ne m a v m' b :
  store64 m a v = Some m' -> b + 8 <= a \/ a + 8 <= b -> load64 m' b = load64 m b.
Proof.
  intros Hs Hd. apply load_le_ext. intros c Hc. eapply store_le_lookup; [done|]. lia.
Qed.
Lemma store64_Some m a v : mapped m a (a + 8) -> exists m', store64 m a v = Some m'.
Proof. apply (store_le_Some 8). Qed.
Lemma load64_Some m a : mapped m a (a + 8) -> exists v, load64 m a = Some v.
Proof. apply (load_le_Some 8). Qed.
Lemma store64_lookup m a v m' b :
  store64 m a v = Some m' -> b < a \/ a + 8 <= b -> m' !! b = m !! b.
Proof. apply (store_le_lookup 8). Qed.

(** The same word stored in two memories that agree at [b] leaves them so. *)
Lemma store_le_agree n m w a v m' w' b :
  store_le n m a v = Some m' -> store_le n w a v = Some w' -> m !! b = w !! b -> m' !! b = w' !! b.
Proof.
  revert m w a v. induction n as [|n IH]; intros m w a v; cbn [store_le]; [intros; congruence|].
  destruct (store8 m a v) as [m1|] eqn:E1; [|done]. destruct (store8 w a v) as [w1|] eqn:E2; [|done].
  intros Hm Hw Hb. apply (IH _ _ _ _ Hm Hw). apply store8_inv in E1 as [_ ->]. apply store8_inv in E2 as [_ ->].
  rewrite !lookup_insert. by case_decide.
Qed.
Lemma store64_agree m w a v m' w' b :
  store64 m a v = Some m' -> store64 w a v = Some w' -> m !! b = w !! b -> m' !! b = w' !! b.
Proof. apply (store_le_agree 8). Qed.

Lemma mapped_store64 m a v m' lo hi :
  store64 m a v = Some m' -> mapped m lo hi -> mapped m' lo hi.
Proof. intros Hs Hm b Hb. rewrite (store_le_is_Some _ _ _ _ _ _ Hs). by apply Hm. Qed.

Lemma mapped_sub m lo hi lo' hi' : mapped m lo hi -> lo <= lo' -> hi' <= hi -> mapped m lo' hi'.
Proof. intros Hm ? ? a Ha. apply Hm. lia. Qed.

Lemma fill_lookup lo n v m a :
  fill lo n v m !! a = if decide (lo <= a < lo + Z.of_nat n) then Some v else m !! a.
Proof.
  revert lo. induction n as [|n IH]; intros lo; cbn [fill].
  { case_decide; [lia|done]. }
  rewrite lookup_insert, IH. repeat case_decide; try done; lia.
Qed.
Lemma fill_mapped lo n v m : mapped (fill lo n v m) lo (lo + Z.of_nat n).
Proof. intros a Ha. rewrite fill_lookup. case_decide; [by eexists|lia]. Qed.

(** A word of zero bytes. *)
Lemma load_le_zero n m a :
  (forall b, a <= b < a + Z.of_nat n -> m !! b = Some 0) -> load_le n m a = Some 0.
Proof.
  revert a. induction n as [|n IH]; intros a Hz; cbn [load_le]; [done|].
  unfold load8. rewrite (Hz a) by lia. rewrite IH; [done|]. intros b Hb. apply Hz. lia.
Qed.
