(* ===== verification/Spinlock.v ===== *)
(** Spinlock: [spin_lock] and [spin_unlock] ([arch/x86_64/spinlock.hpp]), instruction by
    instruction, on any number of processors. *)

From Stdlib Require Import ZArith Lia.
From stdpp Require Import prelude list.
From S2P Require Import Prelude.

(** [spinlock_t] *)
Record spinlock_t := Spin { lock : Z; rflags : Z }.
Definition SPIN_INIT : spinlock_t := Spin 0 0.

(** The interrupt flag of RFLAGS, and the instruction [cli]. *)
Definition IF_BIT : Z := 512.
Definition cli (flags : Z) : Z := flags &! ~! IF_BIT.

(** [lock btsl $0, x] and [lock btrl $0, x]: the new value and the carry. *)
Definition btsl (x : Z) : Z * bool := (x |! 1, Z.testbit x 0).
Definition btrl (x : Z) : Z * bool := (x &! ~! 1, Z.testbit x 0).

(** The program counter of a processor that takes and releases the lock over and over, with the
    local variable [flags] of the function it is in.  [InLock k] is before instruction [k] of
    [spin_lock], [InUnlock k] before instruction [k] of [spin_unlock]. *)
Inductive pc :=
  | Outside
  | InLock (k : nat) (flags : Z)
  | Critical
  | InUnlock (k : nat) (flags : Z).

Record cpu := Cpu { cpc : pc; cflags : Z }.
Record system := System { the_lock : spinlock_t; cpus : list cpu }.

(** One instruction of a processor: the lock and the processor after it. *)
Definition cpu_step (l : spinlock_t) (c : cpu) : spinlock_t * cpu :=
  match cpc c with
  | Outside => (l, Cpu (InLock 0 0) (cflags c))
  (* spin_lock *)
  | InLock 0 _ => (l, Cpu (InLock 1 (cflags c)) (cflags c))
  | InLock 1 f => (l, Cpu (InLock 2 f) (cli (cflags c)))
  | InLock 2 f =>
      let '(v, carry) := btsl (lock l) in
      (Spin v (rflags l), if carry then c else Cpu (InLock 3 f) (cflags c))
  | InLock _ f => (Spin (lock l) f, Cpu Critical (cflags c))
  (* spin_unlock *)
  | Critical => (Spin (fst (btrl (lock l))) (rflags l), Cpu (InUnlock 1 0) (cflags c))
  | InUnlock 1 _ => (l, Cpu (InUnlock 2 (rflags l)) (cflags c))
  | InUnlock _ f => (l, Cpu Outside f)
  end.

(** Processor [i] runs one instruction; a schedule is a list of processors. *)
Definition sys_step (s : system) (i : nat) : system :=
  match cpus s !! i with
  | Some c => let '(l, c') := cpu_step (the_lock s) c in System l (<[i := c']> (cpus s))
  | None => s
  end.
Definition run_schedule (s : system) (sched : list nat) : system := foldl sys_step s sched.

(** The two functions as one processor runs them when no other touches the lock: the lock and the
    processor's flags afterwards.  [spin_lock] on a lock that is taken never returns. *)
Definition spin_lock (l : spinlock_t) (flags : Z) : option (spinlock_t * Z) :=
  let '(v, carry) := btsl (lock l) in
  if carry then None else Some (Spin v flags, cli flags).
Definition spin_unlock (l : spinlock_t) : spinlock_t * Z :=
  (Spin (fst (btrl (lock l))) (rflags l), rflags l).

(** The start: nobody is inside and the lock is [SPIN_INIT]. *)
Definition sys_start (flags : list Z) : system := System SPIN_INIT (Cpu Outside <$> flags).

(** A processor holds the lock from its successful [btsl] to its [btrl]. *)
Definition holds_lock (c : cpu) : bool :=
  match cpc c with
  | InLock k _ => (3 <=? k)%nat
  | Critical => true
  | _ => false
  end.
Definition holders (cs : list cpu) : nat := length (filter (fun c => holds_lock c = true) cs).

(** ** Lemmas *)

#[local] Arguments Z.testbit : simpl never.
#[local] Arguments Z.land : simpl never.
#[local] Arguments Z.lor : simpl never.

Lemma holders_insert cs i c c' :
  cs !! i = Some c ->
  (holders (<[i := c']> cs) + Nat.b2n (holds_lock c) = holders cs + Nat.b2n (holds_lock c'))%nat.
Proof.
  intros Hi. destruct (list_elem_of_split_length cs i c Hi) as (l1 & l2 & -> & ->).
  rewrite <- (Nat.add_0_r (length l1)) at 1. rewrite insert_app_r. simpl. unfold holders.
  rewrite !filter_app, !length_app, !filter_cons.
  destruct (decide (holds_lock c = true)) as [->|H1], (decide (holds_lock c' = true)) as [->|H2];
    rewrite ?(not_true_is_false _ H1), ?(not_true_is_false _ H2); simpl; lia.
Qed.

(** The bit of the lock is 1 exactly while somebody holds it. *)
Definition lock_inv (s : system) : Prop :=
  (lock (the_lock s) = 0 /\ holders (cpus s) = 0%nat) \/
  (lock (the_lock s) = 1 /\ holders (cpus s) = 1%nat).

(** Whoever is past [cli] and before [popfq] has interrupts off. *)
Definition masked (c : cpu) : Prop :=
  match cpc c with
  | InLock k _ => (2 <= k)%nat -> Z.testbit (cflags c) 9 = false
  | Critical | InUnlock _ _ => Z.testbit (cflags c) 9 = false
  | Outside => True
  end.

Lemma cli_masks f : Z.testbit (cli f) 9 = false.
Proof.
  unfold cli, IF_BIT, lnot64, u64. rewrite Z.land_spec. change two64 with (2 ^ 64).
  rewrite Z.mod_pow2_bits_low by lia. rewrite Z.lnot_spec by lia. by rewrite andb_false_r.
Qed.

Lemma cpu_step_masked l c : masked c -> masked (cpu_step l c).2.
Proof.
  destruct c as [[|[|[|[|k]]] f| |[|[|k]] f] r]; unfold masked, cpu_step; simpl; intros H;
    try done; try (intros; apply cli_masks); try lia; try (apply H; lia).
  destruct (Z.testbit (lock l) 0); simpl; [done|]. intros _. apply H. lia.
Qed.

(** What one instruction does to the lock's bit and to holding it. *)
Lemma cpu_step_holds l c l' c' :
  cpu_step l c = (l', c') -> lock l = 0 \/ lock l = 1 ->
  (lock l' = lock l /\ holds_lock c' = holds_lock c) \/
  (lock l = 0 /\ lock l' = 1 /\ holds_lock c = false /\ holds_lock c' = true) \/
  (lock l' = 0 /\ holds_lock c = true /\ holds_lock c' = false).
Proof.
  destruct c as [[|[|[|[|k]]] f| |[|[|k]] f] r]; unfold cpu_step, btsl, btrl; simpl;
    intros E Hl; inversion E; subst; clear E; simpl; auto.
  - destruct Hl as [-> | ->]; simpl; auto 6.
  - right. right. destruct Hl as [-> | ->]; vm_compute; auto.
Qed.

Lemma sys_step_inv s i : lock_inv s -> lock_inv (sys_step s i).
Proof.
  intros Hi. unfold sys_step. destruct (cpus s !! i) as [c|] eqn:Hc; [|done].
  destruct (cpu_step (the_lock s) c) as [l' c'] eqn:E.
  pose proof (holders_insert _ _ _ c' Hc) as Hh. unfold lock_inv in *. simpl.
  destruct (cpu_step_holds _ _ _ _ E) as [[-> Heq]|[(H0 & -> & H1 & H2)|(-> & H1 & H2)]].
  - destruct Hi as [[-> _]|[-> _]]; auto.
  - rewrite Heq in Hh. destruct Hi as [[? ?]|[? ?]]; [left|right]; split; try done; lia.
  - rewrite H1, H2 in Hh. simpl in Hh. right. split; [done|]. destruct Hi as [[? ?]|[? ?]]; [lia|congruence].
  - rewrite H1, H2 in Hh. simpl in Hh. left. split; [done|]. destruct Hi as [[? ?]|[? ?]]; lia.
Qed.

Lemma sys_start_inv flags : lock_inv (sys_start flags).
Proof.
  left. split; [done|]. unfold holders, sys_start. simpl.
  induction flags as [|f flags IH]; [done|]. rewrite fmap_cons, filter_cons_False by done. done.
Qed.

Lemma run_schedule_inv s sched : lock_inv s -> lock_inv (run_schedule s sched).
Proof. revert s. induction sched as [|i sched IH]; intros s Hs; [done|]. by apply IH, sys_step_inv. Qed.

Lemma sys_step_masked s i : Forall masked (cpus s) -> Forall masked (cpus (sys_step s i)).
Proof.
  intros Hm. unfold sys_step. destruct (cpus s !! i) as [c|] eqn:Hc; [|done].
  pose proof (cpu_step_masked (the_lock s) c) as Hs. destruct (cpu_step (the_lock s) c) as [l' c'].
  apply Forall_insert; [done|]. apply Hs. exact (Forall_lookup_1 _ _ _ _ Hm Hc).
Qed.

Lemma run_schedule_masked s sched :
  Forall masked (cpus s) -> Forall masked (cpus (run_schedule s sched)).
Proof. revert s. induction sched as [|i sched IH]; intros s Hs; [done|]. by apply IH, sys_step_masked. Qed.

(** Two members of a list that both satisfy a test make it counted twice. *)
Lemma holders_two cs i j c d :
  cs !! i = Some c -> cs !! j = Some d -> i <> j -> holds_lock c = true -> holds_lock d = true ->
  (2 <= holders cs)%nat.
Proof.
  intros Hi Hj Hne Hc Hd. set (o := Cpu Outside 0).
  pose proof (holders_insert cs i c o Hi) as H1.
  assert (Hj' : <[i := o]> cs !! j = Some d) by by rewrite list_lookup_insert_ne.
  pose proof (holders_insert _ j d o Hj') as H2. rewrite Hc in H1. rewrite Hd in H2. simpl in *. lia.
Qed.

(** ** The sequential functions *)

Lemma spin_lock_free l f : lock l = 0 -> spin_lock l f = Some (Spin 1 f, cli f).
Proof. unfold spin_lock, btsl. by intros ->. Qed.

(** They are what the instructions do when one processor runs alone. *)
Lemma spin_lock_runs l f l' f' :
  spin_lock l f = Some (l', f') ->
  run_schedule (System l [Cpu (InLock 0 0) f]) (replicate 4 O) = System l' [Cpu Critical f'].
Proof.
  unfold spin_lock, btsl, run_schedule, sys_step, cpu_step, btsl. simpl.
  destruct (Z.testbit (lock l) 0); [done|]. intros [= <- <-]. done.
Qed.
Lemma spin_lock_spins l f n :
  spin_lock l f = None -> lock l = 0 \/ lock l = 1 ->
  run_schedule (System l [Cpu (InLock 2 f) (cli f)]) (replicate n O) =
  System l [Cpu (InLock 2 f) (cli f)].
Proof.
  unfold spin_lock, btsl. intros Hs [Hl|Hl]; rewrite Hl in Hs; [done|].
  unfold run_schedule. induction n as [|n IH]; [done|]. simpl. unfold sys_step at 2, cpu_step, btsl.
  simpl. rewrite Hl. simpl. destruct l as [x r]. simpl in *. subst x. exact IH.
Qed.
Lemma spin_unlock_runs l f l' f' :
  spin_unlock l = (l', f') ->
  run_schedule (System l [Cpu Critical f]) (replicate 3 O) = System l' [Cpu Outside f'].
Proof. unfold spin_unlock. intros [= <- <-]. done. Qed.

(** ** Properties *)

(** C17: mutual exclusion.  Under every schedule of any number of processors at most one holds
    the lock (from its successful [btsl] to its [btrl]), the lock word is 1 exactly then, and
    whoever is inside has interrupts disabled. *)
Theorem spin_lock_exclusive (flags : list Z) (sched : list nat) :
  let s := run_schedule (sys_start flags) sched in
  (forall i j c d, cpus s !! i = Some c -> cpus s !! j = Some d ->
     holds_lock c = true -> holds_lock d = true -> i = j) /\
  (lock (the_lock s) = 1 <-> exists i c, cpus s !! i = Some c /\ holds_lock c = true) /\
  (forall i c, cpus s !! i = Some c -> cpc c = Critical -> Z.testbit (cflags c) 9 = false).
Proof.
  intros s. pose proof (run_schedule_inv _ sched (sys_start_inv flags)) as Hi. fold s in Hi.
  split; [|split].
  - intros i j c d Hc Hd H1 H2. destruct (decide (i = j)) as [->|Hne]; [done|].
    pose proof (holders_two _ _ _ _ _ Hc Hd Hne H1 H2). destruct Hi as [[? ?]|[? ?]]; lia.
  - split.
    + intros Hl. destruct Hi as [[? _]|[_ Hh]]; [congruence|]. unfold holders in Hh.
      destruct (filter (fun c => holds_lock c = true) (cpus s)) as [|c rest] eqn:E; [done|].
      assert (Hc : c ∈ filter (fun c => holds_lock c = true) (cpus s)) by (rewrite E; left).
      apply list_elem_of_filter in Hc as [H Hin]. apply list_elem_of_lookup in Hin as [i Hin].
      by exists i, c.
    + intros (i & c & Hc & H). pose proof (holders_insert _ _ _ (Cpu Outside 0) Hc) as Hh.
      rewrite H in Hh. simpl in Hh. destruct Hi as [[? ?]|[? ?]]; [lia|done].
  - intros i c Hc Hpc. assert (Hm : Forall masked (cpus s)).
    { apply run_schedule_masked. unfold sys_start. simpl. apply Forall_fmap, Forall_true. done. }
    pose proof (Forall_lookup_1 _ _ _ _ Hm Hc) as H. unfold masked in H. by rewrite Hpc in H.
Qed.

(** Alone, the pair restores the flags.  When one processor uses the lock, after any number
    of instructions it is outside with exactly the RFLAGS it started with, or inside. *)
Lemma spin_unlock_restores (f : Z) (n : nat) (c : cpu) :
  cpus (run_schedule (sys_start [f]) (replicate n O)) !! O = Some c -> cpc c = Outside ->
  cflags c = f.
Proof.
  set (good := fun s : system => exists c, cpus s = [c] /\ 
    match cpc c with
    | Outside => cflags c = f
    | InLock 0 _ => cflags c = f
    | InLock 1 g => g = f
    | InLock _ g => g = f
    | Critical => rflags (the_lock s) = f
    | InUnlock 1 _ => rflags (the_lock s) = f
    | InUnlock _ g => g = f
    end).
  assert (Hstep : forall s, good s -> good (sys_step s O)).
  { intros [l cs] (d & Hcs & Hd). simpl in Hcs. subst cs. unfold sys_step, good. simpl in Hd |- *.
    destruct (cpu_step l d) as [l' d'] eqn:E. exists d'. split; [done|].
    destruct d as [[|[|[|[|k]]] g| |[|[|k]] g] r]; unfold cpu_step, btsl, btrl in E; simpl in *;
      inversion E; subst; simpl; try done.
    destruct (Z.testbit (lock l) 0); done. }
  assert (Hall : forall k s, good s -> good (run_schedule s (replicate k O))).
  { induction k as [|k IH]; intros s Hs; [done|]. by apply IH, Hstep. }
  intros Hc Hpc. destruct (Hall n (sys_start [f])) as (d & Hd & Hg); [by exists (Cpu Outside f)|].
  rewrite Hd in Hc. simpl in Hc. injection Hc as ->. by rewrite Hpc in Hg.
Qed.

(** With two processors the pair does not: [spin_unlock] reads [lock->rflags] after it has
    released the lock.  Processor 0 starts with interrupts on, processor 1 with interrupts off;
    processor 0 ends outside with interrupts off. *)
Lemma spin_unlock_race :
  exists sched c, cpus (run_schedule (sys_start [514; 2]) sched) !! O = Some c /\
    cpc c = Outside /\ Z.testbit 514 9 = true /\ Z.testbit (cflags c) 9 = false.
Proof.
  exists [0; 0; 0; 0; 0; 0; 1; 1; 1; 1; 1; 0; 0]%nat, (Cpu Outside 2).
  split_ands; vm_compute; reflexivity.
Qed.
