(* ===== verification/Block.v ===== *)
(** Block: the boundary-tag blocks of the allocator ([mm/alloc/block.hpp], [mm/alloc/area.hpp]).

    A block at [ptr] has its size, with three tag bits, in the word before it and in the word
    after it.  The operations run on a state that holds the memory next to the manager's own
    structure ([mpool], [mman]), because [blk_trymerge] calls back into the manager. *)

From Stdlib Require Import ZArith Lia.
From stdpp Require Import prelude gmap.
From S2P Require Import Prelude Mem.

(** ** State *)

Record st (X : Type) := St { smem : mem; smgr : X }.
Arguments St {X} _ _.
Arguments smem {X} _.
Arguments smgr {X} _.

Definition with_mem {X} (m : mem) (s : st X) : st X := St m (smgr s).
Definition with_mgr {X} (x : X) (s : st X) : st X := St (smem s) x.

(** A read and a write of a [size_t] or of a pointer through a pointer. *)
Definition ld {X} (a : Z) : M (st X) Z :=
  fun s => (fun v => (v, s)) <$> load64 (smem s) a.
Definition sto {X} (a v : Z) : M (st X) unit :=
  fun s => (fun m => (tt, with_mem m s)) <$> store64 (smem s) a v.

(** ** alloc.hpp and block.hpp: constants and paddings *)

Definition SIZE_4k : Z := 4096.
Definition SIZE_16k : Z := 16384.
Definition SIZE_2M : Z := 2 * 1024 * 1024.
Definition SIZEOF_SIZE_T : Z := 8.
Definition FREELIST_NUM : nat := 8.

Definition FREE_FLAG : Z := 1.
Definition AREA_FLAG : Z := 2.
Definition SIZE_FLAG : Z := 4.
Definition FLAG_BITS : Z := 7.

Definition PADDING (size : Z) : Z :=
  (size +! 2 * SIZEOF_SIZE_T -! 1) &! ~! (2 * SIZEOF_SIZE_T - 1).
Definition PADDING_4k (size : Z) : Z := (size +! SIZE_4k -! 1) &! ~! (SIZE_4k - 1).
Definition PADDING_16k (size : Z) : Z := (size +! SIZE_16k -! 1) &! ~! (SIZE_16k - 1).

Section Block.
Context {X : Type}.
Abbreviation M := (M (st X)).

(** ** block.hpp: the tags *)

Definition blk_prevtail (ptr : Z) : M Z := ld (ptr -! 2 * SIZEOF_SIZE_T).
Definition blk_head (ptr : Z) : M Z := ld (ptr -! SIZEOF_SIZE_T).
Definition blk_tail (ptr size : Z) : M Z := ld (ptr +! size).
Definition blk_nexthead (ptr size : Z) : M Z := ld (ptr +! size +! SIZEOF_SIZE_T).

Definition has_flag (w flag : Z) : bool := negb (w &! flag =? 0).

Definition blk_noprev (ptr : Z) : M bool := w <- blk_prevtail ptr ;; ret (has_flag w AREA_FLAG).
Definition blk_nonext (ptr size : Z) : M bool :=
  w <- blk_nexthead ptr size ;; ret (has_flag w AREA_FLAG).
Definition blk_freed (ptr : Z) : M bool := w <- blk_head ptr ;; ret (has_flag w FREE_FLAG).

(** [blk_update ptr size f] is [blk_head(ptr) = f(blk_head(ptr))], then the same on the tail. *)
Definition blk_update (ptr size : Z) (f : Z -> Z) : M unit :=
  h <- blk_head ptr ;; sto (ptr -! SIZEOF_SIZE_T) (f h) ;;
  t <- blk_tail ptr size ;; sto (ptr +! size) (f t).

Definition blk_setalloced (ptr size : Z) : M unit :=
  blk_update ptr size (fun w => w &! ~! FREE_FLAG).
Definition blk_setfreed (ptr size : Z) : M unit :=
  blk_update ptr size (fun w => w |! FREE_FLAG).

Definition blk_size (ptr : Z) : M Z := w <- blk_head ptr ;; ret (w &! ~! FLAG_BITS).

Definition blk_setsize (ptr size : Z) : M unit :=
  sto (ptr -! SIZEOF_SIZE_T) size ;; sto (ptr +! size) size.

Definition blk_area_is_2M (ptr : Z) : M bool := w <- blk_head ptr ;; ret (has_flag w SIZE_FLAG).
Definition blk_set_area_4k (ptr size : Z) : M unit :=
  blk_update ptr size (fun w => w &! ~! SIZE_FLAG).
Definition blk_set_area_2M (ptr size : Z) : M unit :=
  blk_update ptr size (fun w => w |! SIZE_FLAG).

Definition blk_areaptr (ptr : Z) : M Z :=
  is_2M <- blk_area_is_2M ptr ;;
  ret (if is_2M then ptr &! ~! (SIZE_2M - 1) else ptr &! ~! (SIZE_4k - 1)).
Definition blk_poolptr (ptr : Z) : M Z :=
  area <- blk_areaptr ptr ;; w <- ld area ;; ret (w &! ~! FLAG_BITS).

(** ** block.hpp: the neighbours *)

Definition blk_prev (ptr : Z) : M Z :=
  np <- blk_noprev ptr ;;
  if np then ret NULL
  else w <- blk_prevtail ptr ;; ret (ptr -! 2 * SIZEOF_SIZE_T -! (w &! ~! FLAG_BITS)).
Definition blk_next (ptr : Z) : M Z :=
  size <- blk_size ptr ;;
  nn <- blk_nonext ptr size ;;
  if nn then ret NULL else ret (ptr +! size +! 2 * SIZEOF_SIZE_T).

(** The callback that takes a block off its free list; [None] is a null function pointer. *)
Definition call_detach (detach : option (Z -> M unit)) (ptr : Z) : M unit :=
  match detach with Some f => f ptr | None => ret tt end.

Definition blk_mergeprev (ptr : Z) (detach : option (Z -> M unit)) : M Z :=
  prev <- blk_prev ptr ;;
  s1 <- blk_size ptr ;;
  s2 <- blk_size prev ;;
  call_detach detach prev ;;
  blk_setsize prev (s1 +! s2 +! 2 * SIZEOF_SIZE_T) ;;
  ret prev.
Definition blk_mergenext (ptr : Z) (detach : option (Z -> M unit)) : M Z :=
  next <- blk_next ptr ;;
  s1 <- blk_size ptr ;;
  s2 <- blk_size next ;;
  call_detach detach next ;;
  blk_setsize ptr (s1 +! s2 +! 2 * SIZEOF_SIZE_T) ;;
  ret ptr.

Definition blk_trymerge (ptr : Z) (detach : option (Z -> M unit)) : M Z :=
  is_2M <- blk_area_is_2M ptr ;;
  size <- blk_size ptr ;;
  nn <- blk_nonext ptr size ;;
  ptr1 <- (if nn then ret ptr
           else w <- blk_nexthead ptr size ;;
                if has_flag w FREE_FLAG then blk_mergenext ptr detach else ret ptr) ;;
  np <- blk_noprev ptr1 ;;
  ptr2 <- (if np then ret ptr1
           else w <- blk_prevtail ptr1 ;;
                if has_flag w FREE_FLAG then blk_mergeprev ptr1 detach else ret ptr1) ;;
  whenM is_2M (sz <- blk_size ptr2 ;; blk_set_area_2M ptr2 sz) ;;
  ret ptr2.

Definition blk_split (ptr size : Z) : M Z :=
  is_2M <- blk_area_is_2M ptr ;;
  oldsize <- blk_size ptr ;;
  blk_setsize ptr size ;;
  whenM is_2M (blk_set_area_2M ptr size) ;;
  let offset := size +! 2 * SIZEOF_SIZE_T in
  blk_setsize (ptr +! offset) (oldsize -! offset) ;;
  whenM is_2M (blk_set_area_2M (ptr +! offset) (oldsize -! offset)) ;;
  ret (ptr +! offset).

(** ** area.hpp *)

Definition allocarea_size (ptr : Z) : M Z :=
  w <- ld ptr ;; ret (if has_flag w SIZE_FLAG then SIZE_2M else SIZE_4k).

Definition allocarea_init (addr size pdata : Z) : M unit :=
  let size_flag := if size =? SIZE_2M then SIZE_FLAG else 0 in
  let len := size / SIZEOF_SIZE_T in
  let data := pdata |! AREA_FLAG |! size_flag in
  sto (addr +! (len -! 1) *! SIZEOF_SIZE_T) data ;;
  sto addr data ;;
  let ptr := addr +! 2 * SIZEOF_SIZE_T in
  let size := size -! 4 * SIZEOF_SIZE_T in
  blk_setsize ptr size ;;
  blk_setfreed ptr size ;;
  if negb (size_flag =? 0) then blk_set_area_2M ptr size else blk_set_area_4k ptr size.

Definition allocarea_reinit (addr oldsize newsize : Z) : M Z :=
  if newsize =? oldsize then ret NULL
  else
    let len := newsize / SIZEOF_SIZE_T in
    w <- ld addr ;;
    let data := (w &! ~! FLAG_BITS) |! AREA_FLAG |!
                (if newsize =? SIZE_2M then SIZE_FLAG else 0) in
    sto (addr +! (len -! 1) *! SIZEOF_SIZE_T) data ;;
    sto addr data ;;
    if newsize <? oldsize then ret NULL
    else
      let blk := addr +! oldsize +! SIZEOF_SIZE_T in
      blk_setsize blk (newsize -! oldsize -! 2 * SIZEOF_SIZE_T) ;;
      ret blk.
End Block.

(** ** Rules of the accesses *)

Lemma runs_ld {X} a v (s : st X) Q :
  load64 (smem s) a = Some v -> Q v s -> runs (ld a) s Q.
Proof. unfold runs, ld. by intros ->. Qed.

Lemma runs_sto {X} a v (s : st X) Q :
  mapped (smem s) a (a + 8) ->
  (forall m', store64 (smem s) a v = Some m' -> Q tt (with_mem m' s)) ->
  runs (sto a v) s Q.
Proof.
  intros Hm HQ. destruct (store64_Some _ _ v Hm) as [m' Hs].
  unfold runs, sto. rewrite Hs. simpl. by apply HQ.
Qed.
