(* ===== verification/Klibc.v ===== *)
(** Klibc: the memory and string functions of [libs/klibc.cpp]. *)

From Stdlib Require Import ZArith Lia.
From stdpp Require Import prelude gmap.
From S2P Require Import Prelude Mem Block.

(** ** The functions *)

Section Klibc.
Context {X : Type}.
Abbreviation M := (M (st X)).

(** [*p] and [*p = v] for [p] an [uint8_t *] or a [char *]. *)
Definition ld8 (a : Z) : M Z := m <- gets (@smem _) ;; of_opt (load8 m a).
Definition sto8 (a v : Z) : M unit :=
  m <- gets (@smem _) ;; m' <- of_opt (store8 m a v) ;; modify (with_mem m').

Definition memcpy (dest src n : Z) : M Z :=
  forM 0 n (fun i => v <- ld8 (src +! i) ;; sto8 (dest +! i) v) ;;
  ret dest.

Definition memset (s c n : Z) : M Z :=
  forM 0 n (fun i => sto8 (s +! i) c) ;;
  ret s.

(** [forM] counts up: the loop from [n] down to 1 visits [i = n - k]. *)
Definition memmove (dest src n : Z) : M Z :=
  (if dest <? src then
     forM 0 n (fun i => v <- ld8 (src +! i) ;; sto8 (dest +! i) v)
   else if src <? dest then
     forM 0 n (fun k => v <- ld8 (src +! (n - k - 1)) ;; sto8 (dest +! (n - k - 1)) v)
   else ret tt) ;;
  ret dest.

Fixpoint memcmp_from (k : nat) (s1 s2 i : Z) : M Z :=
  match k with
  | O => ret 0
  | S k' =>
      c1 <- ld8 (s1 +! i) ;; c2 <- ld8 (s2 +! i) ;;
      if negb (c1 =? c2) then ret (if c1 <? c2 then -1 else 1)
      else memcmp_from k' s1 s2 (i + 1)
  end.
Definition memcmp (s1 s2 n : Z) : M Z := memcmp_from (Z.to_nat n) s1 s2 0.

(** [while ( *es && maxlen)]; the byte is read before [maxlen] is tested. *)
Fixpoint strnlen_from (fuel : nat) (s es maxlen : Z) : M Z :=
  match fuel with
  | O => stuck
  | S fuel' =>
      c <- ld8 es ;;
      if negb (c =? 0) && negb (maxlen =? 0)
      then strnlen_from fuel' s (es +! 1) (maxlen -! 1)
      else ret (es -! s)
  end.
Definition strnlen (fuel : nat) (s maxlen : Z) : M Z := strnlen_from fuel s s maxlen.
Definition strlen (fuel : nat) (s : Z) : M Z := strnlen fuel s PAGE_SIZE.
End Klibc.

(** ** What they compute *)

(** The bytes [l] are in memory at [a]. *)
Definition holds (m : mem) (a : Z) (l : list Z) : Prop :=
  forall (i : nat) v, l !! i = Some v -> load8 m (a + Z.of_nat i) = Some v.

(** [m'] is [m] with the bytes [l] at [a]. *)
Definition written (m m' : mem) (a : Z) (l : list Z) : Prop :=
  holds m' a l /\
  (forall b, ~ (a <= b < a + Z.of_nat (length l)) -> m' !! b = m !! b) /\
  (forall lo hi, mapped m lo hi -> mapped m' lo hi).

(** The order of [memcmp]: that of the first bytes that differ. *)
Fixpoint lex_cmp (l1 l2 : list Z) : Z :=
  match l1, l2 with
  | x :: l1', y :: l2' => if x =? y then lex_cmp l1' l2' else if x <? y then -1 else 1
  | _, _ => 0
  end.

(** The length of a string up to its first NUL. *)
Fixpoint str_len (l : list Z) : Z :=
  match l with
  | x :: l' => if x =? 0 then 0 else 1 + str_len l'
  | [] => 0
  end.

Lemma holds_mapped m a l : holds m a l -> mapped m a (a + Z.of_nat (length l)).
Proof.
  intros Hh b Hb. destruct (lookup_lt_is_Some_2 l (Z.to_nat (b - a))) as [v Hv]; [lia|].
  apply Hh in Hv. unfold load8 in Hv. replace (a + Z.of_nat (Z.to_nat (b - a))) with b in Hv by lia.
  destruct (m !! b); [by eexists|done].
Qed.

Lemma holds_frame m m' a l :
  (forall b, a <= b < a + Z.of_nat (length l) -> m' !! b = m !! b) -> holds m a l -> holds m' a l.
Proof.
  intros Hf Hh i v Hi. pose proof (lookup_lt_Some _ _ _ Hi). rewrite <- (Hh _ _ Hi).
  unfold load8. by rewrite Hf by lia.
Qed.

Lemma holds_cons m a x l : holds m a (x :: l) <-> load8 m a = Some x /\ holds m (a + 1) l.
Proof.
  split.
  - intros Hh. split; [by specialize (Hh O x eq_refl); rewrite Z.add_0_r in Hh|].
    intros i v Hi. specialize (Hh (S i) v Hi). by replace (a + 1 + Z.of_nat i) with (a + Z.of_nat (S i)) by lia.
  - intros [Hx Hh] [|i] v Hi; simpl in Hi.
    + injection Hi as ->. by rewrite Z.add_0_r.
    + replace (a + Z.of_nat (S i)) with (a + 1 + Z.of_nat i) by lia. by apply Hh.
Qed.

Lemma holds_app m a l1 l2 :
  holds m a (l1 ++ l2) <-> holds m a l1 /\ holds m (a + Z.of_nat (length l1)) l2.
Proof.
  revert a. induction l1 as [|x l1 IH]; intros a.
  - simpl. rewrite Z.add_0_r. split; [intros H; split; [by intros i v Hi|done]|by intros [_ H]].
  - rewrite <- app_comm_cons, !holds_cons, IH.
    replace (a + 1 + Z.of_nat (length l1)) with (a + Z.of_nat (length (x :: l1))) by (simpl; lia). tauto.
Qed.

Lemma load_le_zeros n m a : holds m a (replicate n 0) -> load_le n m a = Some 0.
Proof.
  revert a. induction n as [|n IH]; intros a Hh; [done|]. cbn [load_le replicate] in *.
  apply holds_cons in Hh as [-> Hh]. by rewrite (IH _ Hh).
Qed.

Section Rules.
Context {X : Type}.
Implicit Types (s : st X).

Lemma runs_ld8 a v s Q : load8 (smem s) a = Some v -> Q v s -> runs (ld8 a) s Q.
Proof. intros H HQ. apply runs_bind, runs_gets. by eapply runs_of_opt. Qed.

Lemma runs_sto8 a v s Q :
  is_Some (smem s !! a) -> Q tt (with_mem (<[a := v mod 256]> (smem s)) s) -> runs (sto8 a v) s Q.
Proof.
  intros H HQ. apply runs_bind, runs_gets, runs_bind. eapply runs_of_opt; [by apply store8_Some|].
  by apply runs_modify.
Qed.

(** The state of a copying loop that has written the bytes [l !! j] for [lo <= j < hi]. *)
Record copied (s0 s : st X) (a : Z) (l : list Z) (lo hi : Z) : Prop := {
  cp_mgr : smgr s = smgr s0;
  cp_in : forall (j : nat) v, lo <= Z.of_nat j < hi -> l !! j = Some v -> 
    smem s !! (a + Z.of_nat j) = Some v;
  cp_out : forall b, ~ (a + lo <= b < a + hi) -> smem s !! b = smem s0 !! b
}.

Lemma copied_start s a l k : copied s s a l k k.
Proof. split; [done| |done]. lia. Qed.

Lemma copied_end s0 s a l :
  Forall (fun v => 0 <= v < 256) l -> mapped (smem s0) a (a + Z.of_nat (length l)) ->
  copied s0 s a l 0 (Z.of_nat (length l)) -> written (smem s0) (smem s) a l.
Proof.
  intros Hb Hm [_ Hin Hout]. unfold written. split_ands.
  - intros i v Hi. pose proof (lookup_lt_Some _ _ _ Hi). unfold load8.
    rewrite (Hin i v ltac:(lia) Hi). simpl. rewrite Z.mod_small; [done|].
    exact (Forall_lookup_1 _ _ _ _ Hb Hi).
  - intros b Hb'. apply Hout. lia.
  - intros lo hi Hmap b Hb'. destruct (decide (a <= b < a + Z.of_nat (length l))).
    + destruct (lookup_lt_is_Some_2 l (Z.to_nat (b - a))) as [v Hv]; [lia|].
      specialize (Hin (Z.to_nat (b - a)) v ltac:(lia) Hv).
      replace (a + Z.of_nat (Z.to_nat (b - a))) with b in Hin by lia. by rewrite Hin.
    + rewrite Hout by lia. by apply Hmap.
Qed.

(** One byte more at either end. *)
Lemma copied_step s0 s a l lo hi lo' hi' (j : nat) v s' :
  copied s0 s a l lo hi -> l !! j = Some v -> 0 <= v < 256 ->
  s' = with_mem (<[a + Z.of_nat j := v mod 256]> (smem s)) s ->
  (lo' = lo /\ hi' = hi + 1 /\ Z.of_nat j = hi) \/ (lo' = lo - 1 /\ hi' = hi /\ Z.of_nat j = lo - 1) ->
  lo <= hi -> copied s0 s' a l lo' hi'.
Proof.
  intros [Hm Hin Hout] Hj Hv -> Hcase Hle. split; [done| |]; simpl.
  - intros k w Hk Hw. destruct (decide (k = j)) as [->|Hne].
    + rewrite lookup_insert_eq. rewrite Hj in Hw. injection Hw as ->. f_equal. by apply Z.mod_small.
    + rewrite lookup_insert_ne by lia. apply Hin; [lia|done].
  - intros b Hb. rewrite lookup_insert_ne by lia. apply Hout. lia.
Qed.

Lemma holds_bytes m a l : holds m a l -> Forall (fun v => 0 <= v < 256) l.
Proof. intros Hh. apply Forall_lookup_2. intros i v Hi. eapply load8_range. by apply Hh. Qed.

(** Byte [i] of the source, if the loop has not written over it. *)
Lemma copied_source s0 s dst src l lo hi (j : nat) v :
  copied s0 s dst l lo hi -> holds (smem s0) src l -> l !! j = Some v ->
  ~ (dst + lo <= src + Z.of_nat j < dst + hi) -> load8 (smem s) (src + Z.of_nat j) = Some v.
Proof.
  intros [_ _ Hout] Hs Hj Hn. rewrite <- (Hs j v Hj). unfold load8. by rewrite Hout.
Qed.

Lemma copied_mapped s0 s dst l lo hi a :
  copied s0 s dst l lo hi -> mapped (smem s0) dst (dst + Z.of_nat (length l)) -> 0 <= lo ->
  hi <= Z.of_nat (length l) -> dst <= a < dst + Z.of_nat (length l) -> is_Some (smem s !! a).
Proof.
  intros [_ Hin Hout] Hm H0 Hhi Ha. destruct (decide (dst + lo <= a < dst + hi)).
  - destruct (lookup_lt_is_Some_2 l (Z.to_nat (a - dst))) as [v Hv]; [lia|].
    specialize (Hin (Z.to_nat (a - dst)) v ltac:(lia) Hv).
    replace (dst + Z.of_nat (Z.to_nat (a - dst))) with a in Hin by lia. by eexists.
  - rewrite Hout by done. by apply Hm.
Qed.

(** The source and destination of a copy. *)
Record copy_args s (dst src : Z) (l : list Z) : Prop := {
  ca_src : holds (smem s) src l;
  ca_dst : mapped (smem s) dst (dst + Z.of_nat (length l));
  ca_s0 : 0 <= src;
  ca_d0 : 0 <= dst;
  ca_s1 : src + Z.of_nat (length l) <= two64;
  ca_d1 : dst + Z.of_nat (length l) <= two64
}.

(** One turn of a copying loop, at index [j]. *)
Lemma runs_copy_byte s0 s dst src l lo hi lo' hi' (i : Z) (Q : unit -> st X -> Prop) :
  copy_args s0 dst src l -> copied s0 s dst l lo hi ->
  0 <= lo <= hi -> hi <= Z.of_nat (length l) -> 0 <= i < Z.of_nat (length l) ->
  (lo' = lo /\ hi' = hi + 1 /\ i = hi) \/ (lo' = lo - 1 /\ hi' = hi /\ i = lo - 1) ->
  ~ (dst + lo <= src + i < dst + hi) ->
  (forall s', copied s0 s' dst l lo' hi' -> Q tt s') ->
  runs (v <- ld8 (src +! i) ;; sto8 (dst +! i) v) s Q.
Proof.
  intros [Hsrc Hdst Hs0 Hd0 Hs1 Hd1] Hc H0 Hhi Hi Hcase Hn HQ. norm_words.
  destruct (lookup_lt_is_Some_2 l (Z.to_nat i)) as [v Hv]; [lia|].
  pose proof (copied_source _ _ _ _ _ _ _ _ _ Hc Hsrc Hv) as Hload.
  rewrite Z2Nat.id in Hload by lia. eapply runs_bind, runs_ld8; [by apply Hload|].
  apply runs_sto8; [eapply copied_mapped; eauto; lia|]. apply HQ.
  eapply copied_step; [exact Hc|exact Hv| | | |].
  - exact (Forall_lookup_1 _ _ _ _ (holds_bytes _ _ _ Hsrc) Hv).
  - by rewrite Z2Nat.id by lia.
  - by rewrite Z2Nat.id by lia.
  - lia.
Qed.

(** Copying upwards is right when the destination is below the source or behind its end. *)
Lemma runs_copy_up s dst src l Q :
  copy_args s dst src l -> dst <= src \/ src + Z.of_nat (length l) <= dst ->
  (forall m', written (smem s) m' dst l -> Q tt (with_mem m' s)) ->
  runs (forM 0 (Z.of_nat (length l)) (fun i => v <- ld8 (src +! i) ;; sto8 (dst +! i) v)) s Q.
Proof.
  intros Ha Hov HQ. apply (runs_forM (fun i s' => copied s s' dst l 0 i)); [lia|apply copied_start| |].
  - intros i s' Hi Hc. apply (runs_copy_byte s s' dst src l 0 i 0 (i + 1) i); try done; lia.
  - intros s' Hc. pose proof (cp_mgr _ _ _ _ _ _ Hc) as Hm. apply copied_end in Hc.
    + apply HQ in Hc. destruct s'. simpl in *. by subst.
    + eapply holds_bytes, ca_src, Ha.
    + apply (ca_dst _ _ _ _ Ha).
Qed.

(** Copying downwards is right when the destination is above the source. *)
Lemma runs_copy_down s dst src l Q :
  copy_args s dst src l -> src <= dst ->
  (forall m', written (smem s) m' dst l -> Q tt (with_mem m' s)) ->
  let n := Z.of_nat (length l) in
  runs (forM 0 n (fun k => v <- ld8 (src +! (n - k - 1)) ;; sto8 (dst +! (n - k - 1)) v)) s Q.
Proof.
  intros Ha Hov HQ n. apply (runs_forM (fun k s' => copied s s' dst l (n - k) n)); [lia| | |].
  - rewrite Z.sub_0_r. apply copied_start.
  - intros k s' Hk Hc. replace (n - (k + 1)) with (n - k - 1) by lia.
    apply (runs_copy_byte s s' dst src l (n - k) n (n - k - 1) n (n - k - 1)); try done; lia.
  - intros s' Hc. pose proof (cp_mgr _ _ _ _ _ _ Hc) as Hm. rewrite Z.sub_diag in Hc.
    apply copied_end in Hc.
    + apply HQ in Hc. destruct s'. simpl in *. by subst.
    + eapply holds_bytes, ca_src, Ha.
    + apply (ca_dst _ _ _ _ Ha).
Qed.

Lemma runs_memcpy s dst src l n Q :
  copy_args s dst src l -> n = Z.of_nat (length l) -> dst <= src \/ src + n <= dst ->
  (forall m', written (smem s) m' dst l -> Q dst (with_mem m' s)) ->
  runs (memcpy dst src n) s Q.
Proof.
  intros Ha -> Hov HQ. apply runs_bind, runs_copy_up; [done|done|]. intros m' Hw.
  by apply runs_ret, HQ.
Qed.

Lemma runs_memmove s dst src l n Q :
  copy_args s dst src l -> n = Z.of_nat (length l) ->
  (forall m', written (smem s) m' dst l -> Q dst (with_mem m' s)) ->
  runs (memmove dst src n) s Q.
Proof.
  intros Ha -> HQ. apply runs_bind. destruct (Z.ltb_spec dst src); [|destruct (Z.ltb_spec src dst)].
  - apply runs_copy_up; [done|lia|]. intros m' Hw. by apply runs_ret, HQ.
  - apply runs_copy_down; [done|lia|]. intros m' Hw. by apply runs_ret, HQ.
  - assert (dst = src) as -> by lia. apply runs_ret, runs_ret.
    replace s with (with_mem (smem s) s) at 1 by by destruct s. apply HQ.
    split; [apply Ha|]. by split.
Qed.

Lemma runs_memset s p c n Q :
  0 <= p -> 0 <= n -> p + n <= two64 -> mapped (smem s) p (p + n) ->
  (forall m', written (smem s) m' p (replicate (Z.to_nat n) (c mod 256)) -> Q p (with_mem m' s)) ->
  runs (memset p c n) s Q.
Proof.
  intros Hp Hn Htop Hm HQ. remember (replicate (Z.to_nat n) (c mod 256)) as l eqn:El.
  assert (Hl : Z.of_nat (length l) = n) by (subst l; rewrite length_replicate; lia).
  assert (Hb : Forall (fun v => 0 <= v < 256) l).
  { subst l. apply Forall_replicate. apply Z.mod_pos_bound. lia. }
  apply runs_bind, (runs_forM (fun i s' => copied s s' p l 0 i)); [lia|apply copied_start| |].
  - intros i s' Hi Hc. norm_words. apply runs_sto8.
    { eapply copied_mapped; [exact Hc|by rewrite Hl|lia..]. }
    eapply (copied_step _ _ _ _ _ _ _ _ (Z.to_nat i) (c mod 256)); [exact Hc| | | |lia|lia].
    + subst l. apply lookup_replicate. split; [done|lia].
    + apply Z.mod_pos_bound. lia.
    + by rewrite Z2Nat.id, Zmod_mod by lia.
  - intros s' Hc. apply runs_ret. pose proof (cp_mgr _ _ _ _ _ _ Hc) as Hmg. rewrite <- Hl in Hc.
    apply copied_end in Hc; [|done|by rewrite Hl].
    apply HQ in Hc. destruct s'. simpl in *. by subst.
Qed.

Lemma runs_memcmp_from k i s p1 p2 l1 l2 Q :
  length l1 = k -> length l2 = k -> holds (smem s) (p1 + i) l1 -> holds (smem s) (p2 + i) l2 ->
  0 <= p1 -> 0 <= p2 -> 0 <= i -> p1 + i + Z.of_nat k <= two64 -> p2 + i + Z.of_nat k <= two64 ->
  Q (lex_cmp l1 l2) s -> runs (memcmp_from k p1 p2 i) s Q.
Proof.
  revert i l1 l2. induction k as [|k IH]; intros i l1 l2 E1 E2 H1 H2 ? ? ? ? ? HQ.
  - destruct l1, l2; done.
  - destruct l1 as [|x l1], l2 as [|y l2]; try done. apply holds_cons in H1 as [Hx H1].
    apply holds_cons in H2 as [Hy H2]. simpl memcmp_from. norm_words.
    eapply runs_bind, runs_ld8; [exact Hx|]. eapply runs_bind, runs_ld8; [exact Hy|].
    simpl in HQ. destruct (x =? y); simpl; [|by apply runs_ret].
    apply (IH (i + 1) l1 l2); try lia; [naive_solver|naive_solver| | |done].
    + by rewrite Z.add_assoc.
    + by rewrite Z.add_assoc.
Qed.

Lemma str_len_range l : 0 <= str_len l <= Z.of_nat (length l).
Proof. induction l as [|x l IH]; simpl; [lia|]. destruct (x =? 0); lia. Qed.

Lemma runs_strnlen_from fuel s p k l maxlen Q :
  holds (smem s) (p + k) l -> 0 ∈ l -> 0 <= p -> 0 <= k -> 0 <= maxlen < two64 ->
  p + k + Z.of_nat (length l) < two64 -> Z.min maxlen (str_len l) < Z.of_nat fuel ->
  Q (k + Z.min maxlen (str_len l)) s ->
  runs (strnlen_from fuel p (p + k) maxlen) s Q.
Proof.
  revert k l maxlen. induction fuel as [|fuel IH]; intros k l maxlen Hh Hz ? ? ? Htop Hf HQ.
  { pose proof (str_len_range l). lia. }
  destruct l as [|x l]; [by apply not_elem_of_nil in Hz|]. apply holds_cons in Hh as [Hx Hh].
  simpl strnlen_from. eapply runs_bind, runs_ld8; [exact Hx|]. simpl in *.
  destruct (Z.eqb_spec x 0) as [->|Hne]; simpl.
  - apply runs_ret. norm_words. rewrite Z.min_r in HQ by lia.
    by replace (p + k - p) with (k + 0) by lia.
  - pose proof (str_len_range l). destruct (Z.eqb_spec maxlen 0) as [->|]; simpl.
    + apply runs_ret. norm_words. rewrite Z.min_l in HQ by lia.
      by replace (p + k - p) with (k + 0) by lia.
    + norm_words. rewrite <- Z.add_assoc. apply (IH (k + 1) l); try lia.
      * by rewrite Z.add_assoc.
      * apply elem_of_cons in Hz as [?|?]; [lia|done].
      * by replace (k + 1 + Z.min (maxlen - 1) (str_len l))
          with (k + Z.min maxlen (1 + str_len l)) by lia.
Qed.
End Rules.
