(* ===== verification/Printf.v ===== *)
(** Printf: [number], [skip_atoi] and [vsprintf] ([libs/klibc.cpp]): definitions.

    A [va_list] is the list of the 64-bit slots still to be read: [va_arg(args, int)] takes the low
    half of a slot, as the x86-64 calling convention lays them out; reading past the last argument
    is stuck.  An [int] that overflows wraps around. *)

From Stdlib Require Import ZArith Lia.
From stdpp Require Import prelude gmap.
From S2P Require Import Prelude Mem Block Klibc.

(** ** Characters and flags *)

Definition isdigit (c : Z) : bool := (48 <=? c) && (c <=? 57).
Definition isalpha (c : Z) : bool := ((97 <=? c) && (c <=? 122)) || ((65 <=? c) && (c <=? 90)).
Definition isupper (c : Z) : bool := (65 <=? c) && (c <=? 90).

Definition ZEROPAD : Z := 1.
Definition SIGN : Z := 2.
Definition PLUS : Z := 4.
Definition SPACE : Z := 8.
Definition LEFT : Z := 16.
Definition SMALL : Z := 32.
Definition SPECIAL : Z := 64.

Definition ch_space : Z := 32.
Definition ch_zero : Z := 48.
Definition ch_percent : Z := 37.

(** [static const char *digits = "0123456789ABCDEF"] *)
Definition digits : list Z := [48; 49; 50; 51; 52; 53; 54; 55; 56; 57; 65; 66; 67; 68; 69; 70].
Definition digit_at (i : Z) : Z := nth (Z.to_nat i) digits 0.

(** [__do_div(n, base)]: the remainder and the new value of [n]. *)
Definition __do_div (n base : Z) : Z * Z := (u64 n mod base, u64 n / base).

(** [while (num != 0) tmp[i++] = (digits[__do_div(num, base)] | locase);] the bytes of [tmp]. *)
Fixpoint tmp_digits (fuel : nat) (num base locase : Z) : option (list Z) :=
  match fuel with
  | O => None
  | S fuel' =>
      if num =? 0 then Some []
      else
        let '(r, q) := __do_div num base in
        (fun l => (digit_at r |! locase) :: l) <$> tmp_digits fuel' q base locase
  end.

Definition has (type flag : Z) : bool := negb (Z.land type flag =? 0).

Section Printf.
Context {X : Type}.
Abbreviation M := (M (st X)).

(** [ *str++ = c ] *)
Definition put (str c : Z) : M Z := sto8 str c ;; ret (str +! 1).

(** [while (size-- > 0) *str++ = c;] the new [size] and [str]. *)
Fixpoint pad_loop (fuel : nat) (size c str : Z) : M (Z * Z) :=
  match fuel with
  | O => stuck
  | S fuel' =>
      if 0 <? size then str' <- put str c ;; pad_loop fuel' (s32 (size - 1)) c str'
      else ret (s32 (size - 1), str)
  end.
Definition pad (size c str : Z) : M (Z * Z) := pad_loop (S (Z.to_nat size)) size c str.

(** [while (i-- > 0) *str++ = tmp[i];] *)
Definition put_rev (tmp : list Z) (str : Z) : M Z :=
  foldr (fun c k p => p' <- put p c ;; k p') ret (rev tmp) str.

(** The decisions [number] takes before it writes: the sign character (0 for none), the value to
    print and the width left. *)
Definition number_sign (num size type : Z) : Z * Z * Z :=
  if has type SIGN then
    if num <? 0 then (45, s64 (- num), s32 (size - 1))
    else if has type PLUS then (43, num, s32 (size - 1))
    else if has type SPACE then (ch_space, num, s32 (size - 1))
    else (0, num, size)
  else (0, num, size).

Definition number_special (base size type : Z) : Z :=
  if has type SPECIAL then
    if base =? 16 then s32 (size - 2) else if base =? 8 then s32 (size - 1) else size
  else size.

Definition put_special (base type locase str : Z) : M Z :=
  if has type SPECIAL then
    if base =? 8 then put str ch_zero
    else if base =? 16 then str' <- put str ch_zero ;; put str' (88 |! locase)
    else ret str
  else ret str.

(** [tmp] has room for 66 digits. *)
Definition TMP_LEN : nat := 66.

Definition number (str num0 base size0 precision0 type0 : Z) : M Z :=
  let locase := Z.land type0 SMALL in
  let type := if has type0 LEFT then Z.land type0 (Z.lnot ZEROPAD) else type0 in
  if (base <? 2) || (16 <? base) then ret NULL
  else
    let c := if has type ZEROPAD then ch_zero else ch_space in
    let '(sign, num, size1) := number_sign num0 size0 type in
    let size2 := number_special base size1 type in
    tmp <- of_opt (if num =? 0 then Some [ch_zero] else tmp_digits (S TMP_LEN) num base locase) ;;
    let i := Z.of_nat (length tmp) in
    let precision := if precision0 <? i then i else precision0 in
    let size3 := s32 (size2 - precision) in
    '(size4, str) <- (if has type (ZEROPAD + LEFT) then ret (size3, str)
                      else pad size3 ch_space str) ;;
    str <- (if sign =? 0 then ret str else put str sign) ;;
    str <- put_special base type locase str ;;
    '(size5, str) <- (if has type LEFT then ret (size4, str) else pad size4 c str) ;;
    '(_, str) <- pad (precision - i) ch_zero str ;;
    str <- put_rev tmp str ;;
    '(_, str) <- pad size5 ch_space str ;;
    ret str.

(** The value and the new [*s]. *)
Fixpoint skip_atoi_loop (fuel : nat) (i s : Z) : M (Z * Z) :=
  match fuel with
  | O => stuck
  | S fuel' =>
      c <- ld8 s ;;
      if isdigit c then skip_atoi_loop fuel' (s32 (i * 10 + c - ch_zero)) (s +! 1)
      else ret (i, s)
  end.
Definition skip_atoi (fuel : nat) (s : Z) : M (Z * Z) := skip_atoi_loop fuel 0 s.

(** ** vsprintf *)

Definition va_arg (args : list Z) : M (Z * list Z) :=
  match args with a :: args' => ret (a, args') | [] => stuck end.

(** From [repeat:]: [fmt] at the first character that is not a flag, and the flags. *)
Fixpoint parse_flags (fuel : nat) (flags fmt : Z) : M (Z * Z) :=
  match fuel with
  | O => stuck
  | S fuel' =>
      let fmt := fmt +! 1 in
      c <- ld8 fmt ;;
      if c =? 45 then parse_flags fuel' (flags |! LEFT) fmt
      else if c =? 43 then parse_flags fuel' (flags |! PLUS) fmt
      else if c =? ch_space then parse_flags fuel' (flags |! SPACE) fmt
      else if c =? 35 then parse_flags fuel' (flags |! SPECIAL) fmt
      else if c =? ch_zero then parse_flags fuel' (flags |! ZEROPAD) fmt
      else ret (flags, fmt)
  end.

(** The field width: [flags], the width (-1 for none), [fmt] and [args]. *)
Definition parse_width (fuel : nat) (flags fmt : Z) (args : list Z) : M (Z * Z * Z * list Z) :=
  c <- ld8 fmt ;;
  if isdigit c then
    '(w, fmt') <- skip_atoi fuel fmt ;; ret (flags, w, fmt', args)
  else if c =? 42 then
    '(a, args') <- va_arg args ;;
    let w := s32 a in
    if w <? 0 then ret (flags |! LEFT, s32 (- w), fmt +! 1, args')
    else ret (flags, w, fmt +! 1, args')
  else ret (flags, -1, fmt, args).

Definition parse_precision (fuel : nat) (fmt : Z) (args : list Z) : M (Z * Z * list Z) :=
  c <- ld8 fmt ;;
  if c =? 46 then
    let fmt := fmt +! 1 in
    c <- ld8 fmt ;;
    '(p, fmt, args) <-
      (if isdigit c then '(p, fmt') <- skip_atoi fuel fmt ;; ret (p, fmt', args)
       else if c =? 42 then '(a, args') <- va_arg args ;; ret (s32 a, fmt +! 1, args')
       else ret (-1, fmt, args)) ;;
    ret (if p <? 0 then 0 else p, fmt, args)
  else ret (-1, fmt, args).

Definition parse_qualifier (fmt : Z) : M (Z * Z) :=
  c <- ld8 fmt ;;
  if (c =? 104) || (c =? 108) || (c =? 76) then ret (c, fmt +! 1) else ret (-1, fmt).

(** [while (--field_width > 0) *str++ = ' ';] *)
Definition pad_pre (field_width str : Z) : M (Z * Z) := pad (s32 (field_width - 1)) ch_space str.

Definition conv_c (str field_width flags : Z) (args : list Z) : M (Z * list Z) :=
  '(w, str) <- (if has flags LEFT then ret (field_width, str)
                else '(w, str') <- pad_pre field_width str ;; ret (s32 (w + 1), str')) ;;
  '(a, args) <- va_arg args ;;
  str <- put str (a mod 256) ;;
  '(_, str) <- pad_pre w str ;;
  ret (str, args).

(** [while (len < field_width--) *str++ = ' ';] the new [field_width] and [str]. *)
Fixpoint pad_to (fuel : nat) (len field_width str : Z) : M (Z * Z) :=
  match fuel with
  | O => stuck
  | S fuel' =>
      if len <? field_width then
        str' <- put str ch_space ;; pad_to fuel' len (s32 (field_width - 1)) str'
      else ret (s32 (field_width - 1), str)
  end.
Definition pad_str (len field_width str : Z) : M (Z * Z) :=
  pad_to (S (Z.to_nat (field_width - len))) len field_width str.

(** [for (i = 0; i < len; ++i) *str++ = *s++;] *)
Fixpoint copy_str (n : nat) (s str : Z) : M Z :=
  match n with
  | O => ret str
  | S n' => c <- ld8 s ;; str' <- put str c ;; copy_str n' (s +! 1) str'
  end.

Definition conv_s (fuel : nat) (str field_width precision flags : Z) (args : list Z)
    : M (Z * list Z) :=
  '(s, args) <- va_arg args ;;
  len <- strnlen fuel s (u64 precision) ;;
  let len := s32 len in
  '(w, str) <- (if has flags LEFT then ret (field_width, str) else pad_str len field_width str) ;;
  str <- copy_str (Z.to_nat len) s str ;;
  '(_, str) <- pad_str len w str ;;
  ret (str, args).

Definition conv_p (str field_width precision flags : Z) (args : list Z) : M (Z * list Z) :=
  let '(w, flags) := if field_width =? -1 then (16, flags |! ZEROPAD) else (field_width, flags) in
  '(a, args) <- va_arg args ;;
  str <- number str (s64 a) 16 w precision flags ;;
  ret (str, args).

(** [*ip = (str - buf)] *)
Definition conv_n (buf str qualifier : Z) (args : list Z) : M (Z * list Z) :=
  '(ip, args) <- va_arg args ;;
  m <- gets (@smem _) ;;
  m' <- of_opt (store_le (if qualifier =? 108 then 8 else 4) m ip (str -! buf)) ;;
  modify (with_mem m') ;;
  ret (str, args).

(** [short] from the bits of [z]. *)
Definition s16 (z : Z) : Z := (z + 32768) mod 65536 - 32768.

(** The value [num] of an integer conversion, as an [unsigned long]. *)
Definition int_arg (qualifier flags a : Z) : Z :=
  if qualifier =? 108 then u64 a
  else if qualifier =? 104 then
    let num := s32 a mod 65536 in if has flags SIGN then u64 (s16 num) else num
  else if has flags SIGN then u64 (s32 a)
  else u32 a.

Definition conv_int (str base field_width precision qualifier flags : Z) (args : list Z)
    : M (Z * list Z) :=
  '(a, args) <- va_arg args ;;
  str <- number str (s64 (int_arg qualifier flags a)) base field_width precision flags ;;
  ret (str, args).

(** The second [switch ( *fmt)]: [str], [fmt] and [args] at the [continue]. *)
Definition convert (fuel : nat) (buf str fmt flags field_width precision qualifier : Z)
    (args : list Z) : M (Z * Z * list Z) :=
  c <- ld8 fmt ;;
  let next (k : M (Z * list Z)) := '(str, args) <- k ;; ret (str, fmt, args) in
  if c =? 99 then next (conv_c str field_width flags args)
  else if c =? 115 then next (conv_s fuel str field_width precision flags args)
  else if c =? 112 then next (conv_p str field_width precision flags args)
  else if c =? 110 then next (conv_n buf str qualifier args)
  else if c =? ch_percent then next (str <- put str ch_percent ;; ret (str, args))
  else if c =? 111 then next (conv_int str 8 field_width precision qualifier flags args)
  else if c =? 120 then
    next (conv_int str 16 field_width precision qualifier (flags |! SMALL) args)
  else if c =? 88 then next (conv_int str 16 field_width precision qualifier flags args)
  else if (c =? 100) || (c =? 105) then
    next (conv_int str 10 field_width precision qualifier (flags |! SIGN) args)
  else if c =? 117 then next (conv_int str 10 field_width precision qualifier flags args)
  else
    str <- put str ch_percent ;;
    if negb (c =? 0) then str <- put str c ;; ret (str, fmt, args)
    else ret (str, fmt -! 1, args).

(** One turn of the [for] loop, up to its [++fmt]. *)
Definition directive (fuel : nat) (buf str fmt c : Z) (args : list Z) : M (Z * Z * list Z) :=
  if negb (c =? ch_percent) then str <- put str c ;; ret (str, fmt, args)
  else
    '(flags, fmt) <- parse_flags fuel 0 fmt ;;
    '(flags, field_width, fmt, args) <- parse_width fuel flags fmt args ;;
    '(precision, fmt, args) <- parse_precision fuel fmt args ;;
    '(qualifier, fmt) <- parse_qualifier fmt ;;
    convert fuel buf str fmt flags field_width precision qualifier args.

Fixpoint vsprintf_loop (turns fuel : nat) (buf str fmt : Z) (args : list Z) : M Z :=
  match turns with
  | O => stuck
  | S turns' =>
      c <- ld8 fmt ;;
      if c =? 0 then ret str
      else
        '(str, fmt, args) <- directive fuel buf str fmt c args ;;
        vsprintf_loop turns' fuel buf str (fmt +! 1) args
  end.

(** [fuel] bounds the length of the format and of every string argument. *)
Definition vsprintf (fuel : nat) (buf fmt : Z) (args : list Z) : M Z :=
  str <- vsprintf_loop fuel fuel buf buf fmt args ;;
  sto8 str 0 ;;
  ret (s32 (str -! buf)).
End Printf.
