(* ===== verification/PrintfFacts.v ===== *)
(** PrintfFacts: what the printing functions write, as lists of characters: the texts, and the
    rules of the loops that write them. *)

From Stdlib Require Import ZArith Lia.
From stdpp Require Import prelude gmap.
From S2P Require Import Prelude Mem Block Klibc Printf.

(** ** The texts *)

(** [c] repeated [n] times (none when [n] is negative). *)
Definition rep (n c : Z) : list Z := replicate (Z.to_nat n) c.

(** The digits [ds], most significant first, denote [n] in base [base], without leading zeros. *)
Definition value_of (base : Z) (ds : list Z) : Z := foldl (fun acc d => acc * base + d) 0 ds.
Record numeral (base n : Z) (ds : list Z) : Prop := {
  nm_range : Forall (fun d => 0 <= d < base) ds;
  nm_value : value_of base ds = n;
  nm_lead : ds = [0] \/ exists d ds', ds = d :: ds' /\ d <> 0
}.

(** The character of a digit: capital letters, or small ones with [SMALL]. *)
Definition digit_char (small : bool) (d : Z) : Z :=
  if d <? 10 then 48 + d else (if small then 97 else 65) + (d - 10).

(** The sign of a conversion and the prefix that [SPECIAL] asks for. *)
Definition sign_text (num type : Z) : list Z :=
  if has type SIGN then
    if num <? 0 then [45] else if has type PLUS then [43] else if has type SPACE then [32] else []
  else [].
Definition special_text (base type : Z) : list Z :=
  if has type SPECIAL then
    if base =? 8 then [48] else if base =? 16 then [48; if has type SMALL then 120 else 88] else []
  else [].

(** The number to print: [num], or its absolute value for a signed conversion. *)
Definition magnitude (num type : Z) : Z := if has type SIGN then Z.abs num else u64 num.

(** Sign and prefix [pre], then the digits [body], in a field of [size] characters. *)
Definition field_text (pre body : list Z) (size type : Z) : list Z :=
  let n := size - Z.of_nat (length (pre ++ body)) in
  if has type LEFT then pre ++ body ++ rep n 32
  else if has type ZEROPAD then pre ++ rep n 48 ++ body
  else rep n 32 ++ pre ++ body.

Definition number_text (num base size precision type : Z) (ds : list Z) : list Z :=
  field_text (sign_text num type ++ special_text base type)
    (rep (precision - Z.of_nat (length ds)) 48 ++ map (digit_char (has type SMALL)) ds) size type.

Lemma field_text_length pre body size type :
  Z.of_nat (length (field_text pre body size type)) =
  Z.max size (Z.of_nat (length (pre ++ body))).
Proof.
  unfold field_text. unfold rep.
  destruct (has type LEFT); [|destruct (has type ZEROPAD)];
    rewrite ?length_app, ?length_replicate, ?length_app; lia.
Qed.

(** The largest [int]. *)
Abbreviation int_max := 2147483647.

(** ** Numerals *)

Lemma value_of_snoc base ds d : value_of base (ds ++ [d]) = value_of base ds * base + d.
Proof. unfold value_of. by rewrite foldl_app. Qed.

Lemma numeral_zero base : 0 < base -> numeral base 0 [0].
Proof. intros H. split; [|done|by left]. repeat constructor; lia. Qed.

Lemma numeral_snoc base n ds d :
  2 <= base -> numeral base n ds -> n <> 0 -> 0 <= d < base -> numeral base (n * base + d) (ds ++ [d]).
Proof.
  intros Hb [Hr Hv Hl] Hn Hd. split.
  - apply Forall_app. split; [done|]. by constructor.
  - by rewrite value_of_snoc, Hv.
  - right. destruct Hl as [->|(x & ds' & -> & Hx)]; [|by exists x, (ds' ++ [d])].
    exfalso. apply Hn. rewrite <- Hv. done.
Qed.

Lemma numeral_one base d : 0 < d < base -> numeral base d [d].
Proof. intros H. split; [repeat constructor; lia|done|]. right. exists d, []. split; [done|lia]. Qed.

Lemma value_of_pos base d ds :
  2 <= base -> 0 < d -> Forall (fun d => 0 <= d < base) ds -> 0 < value_of base (d :: ds).
Proof.
  intros Hb Hd Hr. unfold value_of. simpl foldl. assert (Ha : 0 < 0 * base + d) by lia. revert Ha. generalize (0 * base + d).
  induction Hr as [|x ds Hx _ IH]; intros a Ha; simpl; [done|]. apply IH. nia.
Qed.

(** The last digit of a numeral of two digits or more is the remainder, the others the quotient. *)
Lemma numeral_last base n ds d :
  2 <= base -> ds <> [] -> numeral base n (ds ++ [d]) ->
  numeral base (n / base) ds /\ d = n mod base /\ n / base <> 0.
Proof.
  intros Hb Hne [Hr Hv Hl]. apply Forall_app in Hr as [Hr Hd]. apply Forall_cons in Hd as [Hd _].
  rewrite value_of_snoc in Hv. destruct ds as [|x ds]; [done|].
  assert (Hx : x <> 0).
  { destruct Hl as [Hl|(y & l & Hl & Hy)]; [by destruct ds|]. simpl in Hl. by injection Hl as -> _. }
  pose proof Hr as Hr'. apply Forall_cons in Hr' as [Hx0 Hds].
  pose proof (value_of_pos base x ds Hb ltac:(lia) Hds) as Hpos.
  assert (Hq : n / base = value_of base (x :: ds)) by (symmetry; apply (Z.div_unique _ _ _ d); lia).
  split_ands; [|apply (Z.mod_unique _ _ (value_of base (x :: ds))); lia|lia].
  rewrite Hq. split; [done|done|]. right. by exists x, ds.
Qed.

Lemma numeral_unique base n ds1 ds2 :
  2 <= base -> numeral base n ds1 -> numeral base n ds2 -> ds1 = ds2.
Proof.
  intros Hb. revert n ds2. induction ds1 as [|d1 ds1 IH] using rev_ind; intros n ds2 H1 H2.
  { destruct H1 as [_ _ [?|(?&?&?&_)]]; done. }
  destruct ds2 as [|d2 ds2 _] using rev_ind; [destruct H2 as [_ _ [?|(?&?&?&_)]]; done|].
  assert (Hone : forall d, numeral base n [d] -> n / base = 0 /\ d = n).
  { intros d [Hr Hv _]. apply Forall_cons in Hr as [Hr _]. unfold value_of in Hv. simpl in Hv. subst n.
    split; [apply Z.div_small; lia|lia]. }
  destruct (decide (ds1 = [])) as [->|Hn1], (decide (ds2 = [])) as [->|Hn2].
  - apply Hone in H1 as [_ ->]. by apply Hone in H2 as [_ ->].
  - apply Hone in H1 as [? _]. by apply numeral_last in H2 as (_ & _ & ?).
  - apply Hone in H2 as [? _]. by apply numeral_last in H1 as (_ & _ & ?).
  - apply numeral_last in H1 as (H1 & -> & _); [|done..].
    apply numeral_last in H2 as (H2 & -> & _); [|done..]. f_equal. by eapply IH.
Qed.

(** The characters of [digits] with [locase] or'ed in. *)
Lemma digit_at_char d small :
  0 <= d < 16 -> digit_at d |! (if small : bool then SMALL else 0) = digit_char small d.
Proof.
  intros H. assert (Hin : d ∈ seqZ 0 16) by by apply elem_of_seqZ.
  assert (Hall : Forall (fun d => forall small : bool,
    digit_at d |! (if small then SMALL else 0) = digit_char small d) (seqZ 0 16)).
  { vm_compute. repeat constructor; intros []; reflexivity. }
  rewrite Forall_forall in Hall. by apply Hall.
Qed.

Lemma digit_char_byte small d : 0 <= d < 16 -> 0 <= digit_char small d < 256.
Proof. intros H. unfold digit_char. destruct (Z.ltb_spec d 10), small; lia. Qed.

(** [tmp_digits] finds the numeral: at most as many digits as [num] has bits. *)
Lemma tmp_digits_numeral fuel num base (small : bool) :
  2 <= base <= 16 -> 0 < num < two64 -> num < 2 ^ Z.of_nat fuel ->
  exists ds, numeral base num ds /\ (length ds <= fuel)%nat /\
    tmp_digits (S fuel) num base (if small then SMALL else 0) = Some (rev (map (digit_char small) ds)).
Proof.
  intros Hb. revert num. induction fuel as [|fuel IH]; intros num Hn Hf.
  { change (2 ^ Z.of_nat 0) with 1 in Hf. lia. }
  assert (Hq : 0 <= num / base < num) by (Z.div_mod_to_equations; nia).
  assert (Hq2 : num / base < 2 ^ Z.of_nat fuel).
  { rewrite Nat2Z.inj_succ, Z.pow_succ_r in Hf by lia. Z.div_mod_to_equations; nia. }
  pose proof (Z.mod_pos_bound num base ltac:(lia)) as Hr.
  remember (S fuel) as f1 eqn:Ef. simpl tmp_digits. rewrite (proj2 (Z.eqb_neq num 0)) by lia.
  unfold __do_div. rewrite u64_small by lia. rewrite digit_at_char by lia. subst f1.
  destruct (decide (num / base = 0)) as [Hz|Hnz].
  - exists [num mod base]. assert (Hm : num mod base = num) by (Z.div_mod_to_equations; nia).
    split_ands; [|simpl; lia|].
    + rewrite Hm. apply numeral_one. Z.div_mod_to_equations; nia.
    + simpl tmp_digits. by rewrite Hz.
  - destruct (IH (num / base)) as (ds & Hd & Hlen & ->); [lia|done|].
    exists (ds ++ [num mod base]). split_ands.
    + replace num with (num / base * base + num mod base) at 1 by (Z.div_mod_to_equations; nia).
      by apply numeral_snoc; [lia| |lia|lia].
    + rewrite length_app. simpl. lia.
    + rewrite map_app, rev_app_distr. done.
Qed.

Lemma tmp_digits_mono f g num base locase l :
  (f <= g)%nat -> tmp_digits f num base locase = Some l -> tmp_digits g num base locase = Some l.
Proof.
  revert g num l. induction f as [|f IH]; intros g num l Hle; [done|]. destruct g as [|g]; [lia|].
  simpl. destruct (num =? 0); [done|]. destruct (tmp_digits f _ _ _) as [l'|] eqn:E; [|done].
  intros H. by rewrite (IH g _ _ ltac:(lia) E).
Qed.

(** ** Writing *)

Section Writing.
Context {X : Type}.
Implicit Types (s : st X).

(** [str] points behind the characters [L], the only bytes written since [s0] in a buffer of [N]
    bytes at [buf]. *)
Record out_at s0 (buf N : Z) (L : list Z) s (str : Z) : Prop := {
  oa_mgr : smgr s = smgr s0;
  oa_written : written (smem s0) (smem s) buf L;
  oa_str : str = buf + Z.of_nat (length L);
  oa_fits : Z.of_nat (length L) <= N;
  oa_buf : 0 <= buf;
  oa_top : buf + N < two64;
  oa_mapped : mapped (smem s0) buf (buf + N)
}.

Lemma out_at_start s buf N :
  0 <= buf -> 0 <= N -> buf + N < two64 -> mapped (smem s) buf (buf + N) -> out_at s buf N [] s buf.
Proof.
  intros. split; simpl; try done; lia.
Qed.

Lemma written_snoc m m' a L c :
  written m m' a L -> is_Some (m !! (a + Z.of_nat (length L))) ->
  written m (<[a + Z.of_nat (length L) := c mod 256]> m') a (L ++ [c mod 256]).
Proof.
  intros (Hh & Hout & Hm) Hin. unfold written. split_ands.
  - intros i v Hi. apply lookup_app_Some in Hi as [Hi|[Hle Hi]].
    + pose proof (lookup_lt_Some _ _ _ Hi). rewrite <- (Hh _ _ Hi). rewrite load8_insert.
      rewrite decide_False by lia. done.
    + apply list_lookup_singleton_Some in Hi as [Hi <-]. rewrite load8_insert.
      rewrite decide_True by lia. done.
  - intros b Hb. rewrite length_app in Hb. simpl in Hb. rewrite lookup_insert_ne by lia.
    apply Hout. lia.
  - intros lo hi Hmap b Hb. rewrite lookup_insert. case_decide; [by eexists|]. by apply (Hm lo hi).
Qed.

Lemma runs_put s0 buf N L s str c Q :
  out_at s0 buf N L s str -> Z.of_nat (length L) < N ->
  (forall s' str', out_at s0 buf N (L ++ [c mod 256]) s' str' -> Q str' s') -> runs (put str c) s Q.
Proof.
  intros [Hg Hw -> Hf Hb Ht Hm] Hlt HQ. pose proof Hw as (_ & _ & Hmap). apply runs_bind, runs_sto8.
  - apply (Hmap buf (buf + N)); [done|lia].
  - apply runs_ret. norm_words. apply HQ. split; try done.
    + apply written_snoc; [done|]. apply Hm. lia.
    + rewrite length_app. simpl. lia.
    + rewrite length_app. simpl. lia.
Qed.

(** A rule for [put] of a byte. *)
Lemma runs_put8 s0 buf N L s str c Q :
  out_at s0 buf N L s str -> Z.of_nat (length L) < N -> 0 <= c < 256 ->
  (forall s' str', out_at s0 buf N (L ++ [c]) s' str' -> Q str' s') -> runs (put str c) s Q.
Proof.
  intros Ho Hlt Hc HQ. eapply runs_put; [exact Ho|done|]. intros s' str' H.
  rewrite Z.mod_small in H by done. by apply HQ.
Qed.

Lemma s32_small z : - int_max <= z <= int_max -> s32 z = z.
Proof.
  intros H. unfold s32, two32 in *. change (4294967296 / 2) with 2147483648.
  rewrite Z.mod_small by lia. lia.
Qed.

Lemma rep_cons n c : 0 < n -> rep n c = c :: rep (n - 1) c.
Proof. intros H. unfold rep. by replace (Z.to_nat n) with (S (Z.to_nat (n - 1))) by lia. Qed.
Lemma rep_nil n c : n <= 0 -> rep n c = [].
Proof. intros H. unfold rep. by replace (Z.to_nat n) with O by lia. Qed.
Lemma rep_length n c : Z.of_nat (length (rep n c)) = Z.max 0 n.
Proof. unfold rep. rewrite length_replicate. lia. Qed.

(** The width that [while (size-- > 0)] leaves. *)
Definition spent (size : Z) : Z := if 0 <? size then -1 else size - 1.

Lemma runs_pad_loop fuel s0 buf N L s str size c Q :
  out_at s0 buf N L s str -> Z.of_nat (length (L ++ rep size c)) <= N -> 0 <= c < 256 ->
  - int_max < size < int_max -> size < Z.of_nat fuel -> (0 < fuel)%nat ->
  (forall s' str', out_at s0 buf N (L ++ rep size c) s' str' -> Q (spent size, str') s') ->
  runs (pad_loop fuel size c str) s Q.
Proof.
  revert L s str size. induction fuel as [|fuel IH]; intros L s str size Ho Hlen Hc Hs Hf H0 HQ; [lia|].
  simpl pad_loop. unfold spent in *. destruct (Z.ltb_spec 0 size) as [Hlt|Hge].
  - rewrite (rep_cons size c Hlt) in Hlen, HQ. rewrite length_app in Hlen. simpl in Hlen.
    apply runs_bind. eapply runs_put8; [exact Ho|lia|done|]. intros s1 str1 H1.
    rewrite s32_small by lia. eapply IH; [exact H1| |done|lia|lia|lia|].
    + rewrite !length_app. simpl. lia.
    + intros s' str' H'. rewrite <- app_assoc in H'. apply HQ in H'.
      destruct (Z.ltb_spec 0 (size - 1)); [done|]. by replace (size - 1 - 1) with (-1) by lia.
  - rewrite s32_small by lia. apply runs_ret. rewrite (rep_nil size c Hge), app_nil_r in HQ. by apply HQ.
Qed.

Lemma runs_pad s0 buf N L s str size c Q :
  out_at s0 buf N L s str -> Z.of_nat (length (L ++ rep size c)) <= N -> 0 <= c < 256 ->
  - int_max < size < int_max ->
  (forall s' str', out_at s0 buf N (L ++ rep size c) s' str' -> Q (spent size, str') s') ->
  runs (pad size c str) s Q.
Proof. intros. eapply runs_pad_loop; eauto; lia. Qed.

Lemma runs_put_list l s0 buf N L s str Q :
  out_at s0 buf N L s str -> Z.of_nat (length (L ++ l)) <= N -> Forall (fun c => 0 <= c < 256) l ->
  (forall s' str', out_at s0 buf N (L ++ l) s' str' -> Q str' s') ->
  runs (foldr (fun c k p => p' <- put p c ;; k p') ret l str) s Q.
Proof.
  revert L s str. induction l as [|c l IH]; intros L s str Ho Hlen Hl HQ; simpl.
  - apply runs_ret, HQ. by rewrite app_nil_r.
  - apply Forall_cons in Hl as [Hc Hl]. rewrite length_app in Hlen. simpl in Hlen.
    apply runs_bind. eapply runs_put8; [exact Ho|lia|done|]. intros s1 str1 H1.
    eapply IH; [exact H1|rewrite !length_app; simpl; lia|done|].
    intros s' str' H'. rewrite <- app_assoc in H'. by apply HQ.
Qed.
End Writing.
