(* ===== verification/NumberRule.v ===== *)
(** NumberRule: what [number] ([libs/klibc.cpp]) writes. *)

From Stdlib Require Import ZArith Lia.
From stdpp Require Import prelude gmap.
From S2P Require Import Prelude Mem Block Klibc Printf PrintfFacts.

(** ** Flags *)

Lemma land_pow2 t k : 0 <= k -> Z.land t (2 ^ k) = if Z.testbit t k then 2 ^ k else 0.
Proof.
  intros Hk. apply Z.bits_inj'. intros i Hi. rewrite Z.land_spec, Z.pow2_bits_eqb by done.
  destruct (Z.eqb_spec k i) as [->|Hne].
  - rewrite andb_true_r. destruct (Z.testbit t i); [by rewrite Z.pow2_bits_true|by rewrite Z.bits_0].
  - rewrite andb_false_r. destruct (Z.testbit t k); [by rewrite Z.pow2_bits_false|by rewrite Z.bits_0].
Qed.

Lemma land_small t : Z.land t SMALL = if has t SMALL then SMALL else 0.
Proof.
  unfold has. change SMALL with (2 ^ 5). rewrite land_pow2 by lia. by destruct (Z.testbit t 5).
Qed.

Lemma has_clear t f : Z.land (Z.lnot ZEROPAD) f = f -> has (Z.land t (Z.lnot ZEROPAD)) f = has t f.
Proof. intros H. unfold has. by rewrite <- Z.land_assoc, H. Qed.
Lemma has_cleared t : has (Z.land t (Z.lnot ZEROPAD)) ZEROPAD = false.
Proof. unfold has. rewrite <- Z.land_assoc. change (Z.land (Z.lnot ZEROPAD) ZEROPAD) with 0. by rewrite Z.land_0_r. Qed.
Lemma has_either t : has t (ZEROPAD + LEFT) = has t LEFT || has t ZEROPAD.
Proof.
  unfold has. change (ZEROPAD + LEFT) with (Z.lor LEFT ZEROPAD). rewrite Z.land_lor_distr_r.
  destruct (Z.eqb_spec (Z.land t LEFT) 0) as [->|H1]; simpl.
  - by destruct (Z.land t ZEROPAD).
  - destruct (Z.eqb_spec (Z.lor (Z.land t LEFT) (Z.land t ZEROPAD)) 0) as [H|H]; [|done].
    apply Z.lor_eq_0_iff in H. tauto.
Qed.

(** [number] looks at the flags after [LEFT] has cleared [ZEROPAD]. *)
Definition eff_type (t : Z) : Z := if has t LEFT then Z.land t (Z.lnot ZEROPAD) else t.
Lemma eff_type_has t f : Z.land (Z.lnot ZEROPAD) f = f -> has (eff_type t) f = has t f.
Proof. intros H. unfold eff_type. destruct (has t LEFT); [by apply has_clear|done]. Qed.
Lemma eff_type_zeropad t : has (eff_type t) ZEROPAD = negb (has t LEFT) && has t ZEROPAD.
Proof. unfold eff_type. destruct (has t LEFT); [by apply has_cleared|done]. Qed.

(** ** The decisions *)

Lemma u64_s64 z : u64 (s64 z) = u64 z.
Proof.
  unfold u64, s64. rewrite Zminus_mod, Zmod_mod, <- Zminus_mod. f_equal. lia.
Qed.

Definition sign_char (l : list Z) : Z := match l with c :: _ => c | [] => 0 end.

Lemma number_sign_eq num size t :
  - (two64 / 2) <= num < two64 / 2 -> -1000000000 <= size <= 1000000000 ->
  exists v, number_sign num size (eff_type t) =
      (sign_char (sign_text num t), v, size - Z.of_nat (length (sign_text num t))) /\
    u64 v = magnitude num t /\ (v = 0 <-> magnitude num t = 0).
Proof.
  intros Hn Hs. change (two64 / 2) with 9223372036854775808 in Hn.
  unfold number_sign, sign_text, magnitude.
  rewrite !(eff_type_has t SIGN), !(eff_type_has t PLUS), !(eff_type_has t SPACE) by done.
  assert (Hz : u64 num = 0 -> num = 0).
  { unfold u64, two64. intros H. apply Z.mod_divide in H as [q H]; [lia|done]. }
  destruct (has t SIGN).
  - destruct (Z.ltb_spec num 0) as [Hneg|Hpos].
    + assert (Hu : u64 (s64 (- num)) = - num) by (rewrite u64_s64, u64_small by (unfold two64; lia); lia).
      exists (s64 (- num)). rewrite s32_small by lia. split_ands; [done|lia|].
      split; [intros E; rewrite E in Hu; change (u64 0) with 0 in Hu; lia|lia].
    + exists num. rewrite u64_small by (unfold two64; lia).
      destruct (has t PLUS); [|destruct (has t SPACE)]; rewrite ?s32_small by lia;
        (split_ands; [f_equal; simpl; lia|lia|lia]).
  - exists num. split_ands; [f_equal; simpl; lia|done|]. split; [by intros ->|done].
Qed.

Lemma number_special_eq base size t :
  -1000000000 <= size <= 1000000000 ->
  number_special base size (eff_type t) = size - Z.of_nat (length (special_text base t)).
Proof.
  intros Hs. unfold number_special, special_text. rewrite eff_type_has by done.
  destruct (has t SPECIAL); [|simpl; lia].
  destruct (Z.eqb_spec base 8) as [->|]; [simpl; by rewrite s32_small by lia|].
  destruct (base =? 16); [simpl; by rewrite s32_small by lia|simpl; lia].
Qed.

Lemma sign_text_cases num t : sign_text num t = [] \/
  exists c, sign_text num t = [c] /\ 0 < c < 256.
Proof.
  unfold sign_text. destruct (has t SIGN); [|by left].
  destruct (num <? 0); [right; by exists 45|]. destruct (has t PLUS); [right; by exists 43|].
  destruct (has t SPACE); [right; by exists 32|by left].
Qed.

Section Number.
Context {X : Type}.
Implicit Types (s : st X).

Lemma runs_put_sign s0 buf N L s str num t Q :
  out_at s0 buf N L s str -> Z.of_nat (length (L ++ sign_text num t)) <= N ->
  (forall s' str', out_at s0 buf N (L ++ sign_text num t) s' str' -> Q str' s') ->
  runs (if sign_char (sign_text num t) =? 0 then ret str
        else put str (sign_char (sign_text num t))) s Q.
Proof.
  intros Ho Hlen HQ. destruct (sign_text_cases num t) as [E|(c & E & Hc)]; rewrite E in *; simpl.
  - rewrite app_nil_r in HQ. by apply runs_ret, HQ.
  - rewrite (proj2 (Z.eqb_neq c 0)) by lia. rewrite length_app in Hlen. simpl in Hlen.
    eapply runs_put8; [exact Ho|lia|lia|done].
Qed.

Lemma runs_put_special s0 buf N L s str base t Q :
  out_at s0 buf N L s str -> Z.of_nat (length (L ++ special_text base t)) <= N ->
  (forall s' str', out_at s0 buf N (L ++ special_text base t) s' str' -> Q str' s') ->
  runs (put_special base (eff_type t) (Z.land t SMALL) str) s Q.
Proof.
  intros Ho Hlen HQ. unfold put_special, special_text in *. rewrite eff_type_has by done.
  destruct (has t SPECIAL); [|rewrite app_nil_r in HQ; by apply runs_ret, HQ].
  rewrite length_app in Hlen. destruct (base =? 8); [|destruct (base =? 16)]; simpl in Hlen.
  - eapply runs_put8; [exact Ho|lia|done|done].
  - apply runs_bind. eapply runs_put8; [exact Ho|lia|done|]. intros s1 str1 H1.
    rewrite land_small. eapply runs_put8; [exact H1|rewrite length_app; simpl; lia| |].
    + destruct (has t SMALL); vm_compute; split; congruence.
    + intros s2 str2 H2. rewrite <- app_assoc in H2. apply HQ.
      destruct (has t SMALL); exact H2.
  - rewrite app_nil_r in HQ. by apply runs_ret, HQ.
Qed.

(** Pads only when told to. *)
Lemma runs_pad_if s0 buf N L s str (b : bool) size c Q :
  out_at s0 buf N L s str -> Z.of_nat (length (L ++ (if b then [] else rep size c))) <= N ->
  0 <= c < 256 -> - int_max < size < int_max ->
  (forall s' str', out_at s0 buf N (L ++ (if b then [] else rep size c)) s' str' ->
     Q (if b then size else spent size, str') s') ->
  runs (if b then ret (size, str) else pad size c str) s Q.
Proof.
  intros Ho Hlen Hc Hs HQ. destruct b.
  - rewrite app_nil_r in HQ. by apply runs_ret, HQ.
  - by eapply runs_pad.
Qed.

(** The order in which [number] writes, with its three pads; two of them are always empty. *)
Lemma field_text_split pre zeros ds n t :
  (if has (eff_type t) (ZEROPAD + LEFT) then [] else rep n 32) ++ pre ++
  (if has (eff_type t) LEFT then []
   else rep (if has (eff_type t) (ZEROPAD + LEFT) then n else spent n)
          (if has (eff_type t) ZEROPAD then 48 else 32)) ++
  (zeros ++ ds) ++
  rep (if has (eff_type t) LEFT
       then (if has (eff_type t) (ZEROPAD + LEFT) then n else spent n)
       else spent (if has (eff_type t) (ZEROPAD + LEFT) then n else spent n)) 32 =
  (if has t LEFT then pre ++ (zeros ++ ds) ++ rep n 32
   else if has t ZEROPAD then pre ++ rep n 48 ++ zeros ++ ds
   else rep n 32 ++ pre ++ zeros ++ ds).
Proof.
  rewrite has_either, eff_type_zeropad, !eff_type_has by done.
  assert (Hsp : forall k c, rep (spent k) c = []).
  { intros k c. apply rep_nil. unfold spent. destruct (Z.ltb_spec 0 k); lia. }
  destruct (has t LEFT); simpl; [done|]. destruct (has t ZEROPAD); simpl;
    rewrite !Hsp, ?app_nil_r; done.
Qed.

Lemma digit_bytes small base ds :
  base <= 16 -> Forall (fun d => 0 <= d < base) ds ->
  Forall (fun c => 0 <= c < 256) (map (digit_char small) ds).
Proof.
  intros Hb Hd. apply Forall_map. eapply Forall_impl; [exact Hd|]. intros d H. simpl in H |- *.
  apply digit_char_byte. lia.
Qed.

(** The digits that [number] puts in [tmp]. *)
Lemma number_tmp v num base t :
  2 <= base <= 16 -> u64 v = magnitude num t -> (v = 0 <-> magnitude num t = 0) ->
  exists ds, numeral base (magnitude num t) ds /\ (length ds <= 64)%nat /\
    (if v =? 0 then Some [ch_zero] else tmp_digits (S TMP_LEN) v base (Z.land t SMALL)) =
    Some (rev (map (digit_char (has t SMALL)) ds)).
Proof.
  intros Hb Hu Hz. destruct (Z.eqb_spec v 0) as [Hv|Hv].
  - exists [0]. rewrite (proj1 Hz Hv). split_ands; [apply numeral_zero; lia|simpl; lia|].
    by destruct (has t SMALL).
  - pose proof (u64_range v) as Hr.
    destruct (tmp_digits_numeral 64 (u64 v) base (has t SMALL) Hb) as (ds & Hd & Hlen & E);
      [rewrite Hu in *; lia|change (2 ^ Z.of_nat 64) with two64; lia|].
    exists ds. rewrite <- Hu. split_ands; [done|done|]. rewrite land_small.
    assert (Hsame : forall f, tmp_digits (S f) v base (if has t SMALL then SMALL else 0) =
      tmp_digits (S f) (u64 v) base (if has t SMALL then SMALL else 0)).
    { intros f. simpl tmp_digits. rewrite (proj2 (Z.eqb_neq v 0)) by done.
      rewrite (proj2 (Z.eqb_neq (u64 v) 0)) by lia. unfold __do_div. by rewrite (u64_small (u64 v)). }
    rewrite Hsame. apply (tmp_digits_mono 65); [unfold TMP_LEN; lia|exact E].
Qed.

(** What [number] writes, given room for it. *)
Lemma runs_number s0 buf N L s str num base size precision t :
  out_at s0 buf N L s str -> 2 <= base <= 16 -> - (two64 / 2) <= num < two64 / 2 ->
  -1 <= size <= 100000000 -> -1 <= precision <= 100000000 ->
  exists ds, numeral base (magnitude num t) ds /\ (length ds <= 64)%nat /\
    forall Q, Z.of_nat (length (L ++ number_text num base size precision t ds)) <= N ->
      (forall s' str', out_at s0 buf N (L ++ number_text num base size precision t ds) s' str' ->
         Q str' s') ->
      runs (number str num base size precision t) s Q.
Proof.
  intros Ho Hb Hn Hs Hp.
  destruct (number_sign_eq num size t Hn ltac:(lia)) as (v & Esign & Hu & Hz).
  destruct (number_tmp v num base t Hb Hu Hz) as (ds & Hds & Hlen & Etmp).
  exists ds. split_ands; [done|done|]. intros Q Hfit HQ. unfold number.
  fold (eff_type t). replace ((base <? 2) || (16 <? base)) with false by lia.
  rewrite Esign. rewrite number_special_eq by
    (destruct (sign_text_cases num t) as [E|(c & E & _)]; rewrite E; simpl; lia).
  eapply runs_bind, runs_of_opt; [exact Etmp|]. cbv zeta.
  set (D := map (digit_char (has t SMALL)) ds) in *.
  assert (HD : Z.of_nat (length (rev D)) = Z.of_nat (length ds)) by (unfold D; rewrite length_rev, length_map; done).
  rewrite HD. set (k := Z.of_nat (length ds)) in *.
  assert (Hprec : (if precision <? k then k else precision) = Z.max precision k) by (destruct (Z.ltb_spec precision k); lia).
  rewrite Hprec. set (P := Z.max precision k).
  assert (Hsl : 0 <= Z.of_nat (length (sign_text num t)) <= 1).
  { destruct (sign_text_cases num t) as [E|(c & E & _)]; rewrite E; simpl; lia. }
  assert (Hpl : 0 <= Z.of_nat (length (special_text base t)) <= 2).
  { unfold special_text. repeat case_match; simpl; lia. }
  rewrite s32_small by lia.
  set (pre := sign_text num t ++ special_text base t). set (zeros := rep (precision - k) 48).
  assert (Hzl : Z.of_nat (length zeros) = P - k) by (unfold zeros; rewrite rep_length; lia).
  set (n := size - Z.of_nat (length (sign_text num t)) - Z.of_nat (length (special_text base t)) - P).
  assert (Hn' : n = size - Z.of_nat (length (pre ++ zeros ++ D))).
  { unfold pre. rewrite !length_app. rewrite length_rev in HD. unfold D in *. lia. }
  assert (Htext : number_text num base size precision t ds =
    (if has t LEFT then pre ++ (zeros ++ D) ++ rep n 32
     else if has t ZEROPAD then pre ++ rep n 48 ++ zeros ++ D
     else rep n 32 ++ pre ++ zeros ++ D)) by (unfold number_text, field_text; by rewrite Hn').
  rewrite Htext, <- (field_text_split pre zeros D n t) in Hfit, HQ.
  assert (Hzeros : rep (P - k) 48 = zeros).
  { unfold zeros, rep. f_equal. lia. }
  assert (Hnb : - 150000000 <= n <= 150000000) by (unfold n, P, k; lia).
  change ch_space with 32. change ch_zero with 48.
  clearbody n zeros. clear Htext Hn'. subst pre.
  eapply runs_bind, runs_pad_if; [exact Ho|rewrite ?length_app in *; lia|done|lia|].
  intros s1 str1 H1. cbv beta iota. eapply runs_bind, runs_put_sign; [exact H1|rewrite ?length_app in *; lia|].
  intros s2 str2 H2. eapply runs_bind, runs_put_special; [exact H2|rewrite ?length_app in *; lia|].
  set (m := if has (eff_type t) (ZEROPAD + LEFT) then n else spent n) in *.
  assert (Hm : - 200000000 < m < 200000000) by (unfold m, spent; repeat case_match; lia).
  intros s3 str3 H3. eapply runs_bind, runs_pad_if;
    [exact H3|rewrite ?length_app in *; lia|destruct (has (eff_type t) ZEROPAD); done|lia|].
  intros s4 str4 H4. cbv beta iota. eapply runs_bind, runs_pad;
    [exact H4|rewrite Hzeros; rewrite ?length_app in *; lia|done|lia|].
  rewrite Hzeros. intros s5 str5 H5. cbv beta iota. unfold put_rev. rewrite rev_involutive.
  eapply runs_bind, runs_put_list; [exact H5|rewrite ?length_app in *; lia|eapply digit_bytes, Hds; lia|].
  intros s6 str6 H6. eapply runs_bind, runs_pad; [exact H6|rewrite ?length_app in *; lia|done| |].
  { unfold spent. repeat case_match; lia. }
  intros s7 str7 H7. apply runs_ret, HQ. repeat rewrite <- app_assoc in H7. repeat rewrite <- app_assoc. exact H7.
Qed.
End Number.
