(* ===== verification/PrintfParse.v ===== *)
(** PrintfParse: format strings as lists of pieces, and the rules of the parsing half of
    [vsprintf] ([libs/klibc.cpp]). *)

From Stdlib Require Import ZArith Lia.
From stdpp Require Import prelude gmap.
From S2P Require Import Prelude Mem Block Klibc Printf PrintfFacts NumberRule.

(** ** Formats *)

(** The flag characters [-+ #0] and their flags. *)
Definition flag_bit (c : Z) : option Z :=
  if c =? 45 then Some LEFT else if c =? 43 then Some PLUS else if c =? 32 then Some SPACE
  else if c =? 35 then Some SPECIAL else if c =? 48 then Some ZEROPAD else None.

(** A conversion: its character, and for an integer its base and the flags it adds. *)
Inductive conv := CvInt (c base extra : Z) | CvChar | CvStr | CvPtr | CvPercent.

Definition conv_d := CvInt 100 10 SIGN.
Definition conv_i := CvInt 105 10 SIGN.
Definition conv_u := CvInt 117 10 0.
Definition conv_o := CvInt 111 8 0.
Definition conv_x := CvInt 120 16 SMALL.
Definition conv_X := CvInt 88 16 0.

Definition conv_ok (k : conv) : Prop :=
  match k with
  | CvInt _ _ _ => k ∈ [conv_d; conv_i; conv_u; conv_o; conv_x; conv_X]
  | _ => True
  end.
Definition conv_char (k : conv) : Z :=
  match k with CvInt c _ _ => c | CvChar => 99 | CvStr => 115 | CvPtr => 112 | CvPercent => 37 end.

(** A directive: flag characters, the digits of the width (none for no width), the digits of the
    precision if there is one, the qualifier [h], [l] or [L], and the conversion. *)
Record dir := Dir {
  d_flags : list Z;
  d_width : list Z;
  d_prec : option (list Z);
  d_qual : option Z;
  d_conv : conv
}.

Definition digit_text (ds : list Z) : list Z := map (fun d => 48 + d) ds.
Lemma digit_text_length ds : length (digit_text ds) = length ds.
Proof. apply length_map. Qed.
Definition is_dec (ds : list Z) : Prop := Forall (fun d => 0 <= d < 10) ds /\ value_of 10 ds <= 100000000.

Record dir_ok (d : dir) : Prop := {
  do_flags : Forall (fun c => is_Some (flag_bit c)) (d_flags d);
  do_width : is_dec (d_width d);
  do_lead : forall x l, d_width d = x :: l -> x <> 0;
  do_prec : forall l, d_prec d = Some l -> is_dec l;
  do_qual : forall q, d_qual d = Some q -> q = 104 \/ q = 108 \/ q = 76;
  do_conv : conv_ok (d_conv d)
}.

(** The characters of a directive after its [%]. *)
Definition prec_text (p : option (list Z)) : list Z :=
  match p with Some l => 46 :: digit_text l | None => [] end.
Definition qual_text (q : option Z) : list Z := match q with Some c => [c] | None => [] end.
Definition dir_text (d : dir) : list Z :=
  d_flags d ++ digit_text (d_width d) ++ prec_text (d_prec d) ++ qual_text (d_qual d) ++
  [conv_char (d_conv d)].

(** What the parser makes of them. *)
Definition flags_of (fl : list Z) : Z := foldl (fun a c => a |! default 0 (flag_bit c)) 0 fl.
Definition width_of (ds : list Z) : Z := match ds with [] => -1 | _ => value_of 10 ds end.
Definition prec_of (p : option (list Z)) : Z :=
  match p with Some ((_ :: _) as l) => value_of 10 l | Some [] => 0 | None => -1 end.
Definition qual_of (q : option Z) : Z := default (-1) q.

(** ** Strings in memory *)


Lemma value_of_cons_range ds :
  Forall (fun d => 0 <= d < 10) ds -> forall a, 0 <= a -> a <= foldl (fun acc d => acc * 10 + d) a ds.
Proof.
  induction 1 as [|d ds Hd _ IH]; intros a Ha; simpl; [lia|]. specialize (IH (a * 10 + d)). lia.
Qed.

Section Parse.
Context {X : Type}.
Implicit Types (s : st X).

Lemma runs_skip_atoi_loop fuel s i a ds c Q :
  holds (smem s) a (digit_text ds ++ [c]) -> isdigit c = false ->
  Forall (fun d => 0 <= d < 10) ds -> 0 <= i -> 0 <= a -> a + Z.of_nat (length ds) < two64 ->
  foldl (fun acc d => acc * 10 + d) i ds <= int_max -> (length ds < fuel)%nat ->
  Q (foldl (fun acc d => acc * 10 + d) i ds, a + Z.of_nat (length ds)) s ->
  runs (skip_atoi_loop fuel i a) s Q.
Proof.
  revert i a fuel. induction ds as [|d ds IH]; intros i a fuel Hh Hc Hd Hi Ha Htop Hv Hf HQ;
    (destruct fuel as [|fuel]; [simpl in Hf; lia|]); simpl skip_atoi_loop; simpl in Hh, HQ, Htop, Hf, Hv.
  - apply holds_cons in Hh as [Hx _]. eapply runs_bind, runs_ld8; [exact Hx|]. rewrite Hc.
    apply runs_ret. by rewrite Z.add_0_r in HQ.
  - apply holds_cons in Hh as [Hx Hh]. apply Forall_cons in Hd as [Hd Hds].
    pose proof (value_of_cons_range ds Hds (i * 10 + d) ltac:(lia)) as Hmono.
    eapply runs_bind, runs_ld8; [exact Hx|].
    replace (isdigit (48 + d)) with true by (unfold isdigit; lia).
    rewrite s32_small by (unfold ch_zero; lia). norm_words.
    replace (i * 10 + (48 + d) - ch_zero) with (i * 10 + d) by (unfold ch_zero; lia).
    apply IH; try done; try lia.
    by replace (a + 1 + Z.of_nat (length ds)) with (a + Z.of_nat (S (length ds))) by lia.
Qed.

Lemma runs_skip_atoi fuel s a ds c Q :
  holds (smem s) a (digit_text ds ++ [c]) -> isdigit c = false -> is_dec ds ->
  0 <= a -> a + Z.of_nat (length ds) < two64 -> (length ds < fuel)%nat ->
  Q (value_of 10 ds, a + Z.of_nat (length ds)) s -> runs (skip_atoi fuel a) s Q.
Proof.
  intros Hh Hc [Hd Hv] Ha Ht Hf HQ. eapply runs_skip_atoi_loop; try done. unfold value_of in Hv. lia.
Qed.

Lemma runs_parse_flags fuel s flags a fl c Q :
  holds (smem s) (a + 1) (fl ++ [c]) -> Forall (fun c => is_Some (flag_bit c)) fl ->
  flag_bit c = None -> 0 <= a -> a + 1 + Z.of_nat (length fl) < two64 -> (length fl < fuel)%nat ->
  Q (foldl (fun a c => a |! default 0 (flag_bit c)) flags fl, a + 1 + Z.of_nat (length fl)) s ->
  runs (parse_flags fuel flags a) s Q.
Proof.
  revert flags a fuel. induction fl as [|f fl IH]; intros flags a fuel Hh Hfl Hc Ha Ht Hf HQ;
    (destruct fuel as [|fuel]; [simpl in Hf; lia|]); simpl parse_flags; simpl in Hh, HQ, Ht, Hf; norm_words;
    apply holds_cons in Hh as [Hx Hh]; (eapply runs_bind, runs_ld8; [exact Hx|]).
  - unfold flag_bit, ch_space, ch_zero in *. repeat case_match; try done. apply runs_ret.
    by rewrite Z.add_0_r in HQ.
  - apply Forall_cons in Hfl as [[b Hb] Hfl]. rewrite Hb in HQ. simpl in HQ.
    assert (Hrec : runs (parse_flags fuel (flags |! b) (a + 1)) s Q).
    { apply IH; try done; try lia.
      by replace (a + 1 + 1 + Z.of_nat (length fl)) with (a + 1 + Z.of_nat (S (length fl))) by lia. }
    unfold flag_bit, ch_space, ch_zero in *. repeat case_match; simplify_eq; try done.
Qed.

(** A character that ends flags, widths and precisions. *)
Record ends (c : Z) : Prop := {
  en_flag : flag_bit c = None;
  en_digit : isdigit c = false;
  en_star : c <> 42
}.

Lemma runs_parse_width fuel s flags a ds c args Q :
  holds (smem s) a (digit_text ds ++ [c]) -> ends c -> is_dec ds -> 0 <= a ->
  a + Z.of_nat (length ds) < two64 -> (length ds < fuel)%nat ->
  Q (flags, width_of ds, a + Z.of_nat (length ds), args) s ->
  runs (parse_width fuel flags a args) s Q.
Proof.
  intros Hh [_ Hc Hst] Hd Ha Ht Hf HQ. unfold parse_width, width_of in *. destruct ds as [|d ds].
  - simpl in Hh, HQ. rewrite Z.add_0_r in HQ. apply holds_cons in Hh as [Hx _].
    eapply runs_bind, runs_ld8; [exact Hx|]. rewrite Hc, (proj2 (Z.eqb_neq c 42)) by done.
    by apply runs_ret.
  - pose proof Hh as Hh'. simpl in Hh'. apply holds_cons in Hh' as [Hx _].
    pose proof Hd as [Hd0 _]. apply Forall_cons in Hd0 as [Hd0 _].
    eapply runs_bind, runs_ld8; [exact Hx|]. replace (isdigit (48 + d)) with true by (unfold isdigit; lia).
    eapply runs_bind, runs_skip_atoi; [exact Hh|done..|]. by apply runs_ret.
Qed.

Lemma runs_parse_precision fuel s a p c args Q :
  holds (smem s) a (prec_text p ++ [c]) -> ends c -> c <> 46 -> (forall l, p = Some l -> is_dec l) ->
  0 <= a -> a + Z.of_nat (length (prec_text p)) < two64 -> (length (prec_text p) < fuel)%nat ->
  Q (prec_of p, a + Z.of_nat (length (prec_text p)), args) s ->
  runs (parse_precision fuel a args) s Q.
Proof.
  intros Hh [_ Hc Hst] Hdot Hp Ha Ht Hf HQ. unfold parse_precision. destruct p as [l|].
  - specialize (Hp l eq_refl). simpl in Hh, Ht, Hf, HQ. rewrite digit_text_length in Ht, Hf, HQ.
    apply holds_cons in Hh as [Hx Hh]. eapply runs_bind, runs_ld8; [exact Hx|]. norm_words. change (46 =? 46) with true.
    cbn iota. pose proof Hp as [Hd Hv]. destruct l as [|d l].
    + simpl in Hh, HQ. apply holds_cons in Hh as [Hy _]. eapply runs_bind, runs_ld8; [exact Hy|].
      rewrite Hc, (proj2 (Z.eqb_neq c 42)) by done. by apply runs_bind, runs_ret, runs_ret.
    + pose proof Hh as Hh'. simpl in Hh'. apply holds_cons in Hh' as [Hy _].
      pose proof (value_of_cons_range _ Hd 0 ltac:(lia)) as Hge.
      apply Forall_cons in Hd as [Hd _]. eapply runs_bind, runs_ld8; [exact Hy|].
      replace (isdigit (48 + d)) with true by (unfold isdigit; lia). apply runs_bind.
      eapply runs_bind, runs_skip_atoi; [exact Hh|done|done|lia|lia|lia|]. apply runs_ret, runs_ret.
      fold (value_of 10 (d :: l)) in Hge. replace (value_of 10 (d :: l) <? 0) with false by lia.
      by replace (a + 1 + Z.of_nat (length (d :: l))) with (a + Z.of_nat (S (length (d :: l)))) by lia.
  - simpl in Hh, HQ. rewrite Z.add_0_r in HQ. apply holds_cons in Hh as [Hx _].
    eapply runs_bind, runs_ld8; [exact Hx|]. rewrite (proj2 (Z.eqb_neq c 46)) by done. by apply runs_ret.
Qed.

Lemma runs_parse_qualifier s a q c Q :
  holds (smem s) a (qual_text q ++ [c]) -> (forall x, q = Some x -> x = 104 \/ x = 108 \/ x = 76) ->
  c <> 104 -> c <> 108 -> c <> 76 -> 0 <= a -> a + Z.of_nat (length (qual_text q)) < two64 ->
  Q (qual_of q, a + Z.of_nat (length (qual_text q))) s -> runs (parse_qualifier a) s Q.
Proof.
  intros Hh Hq H1 H2 H3 Ha Ht HQ. unfold parse_qualifier. destruct q as [x|]; simpl in Hh, HQ, Ht;
    apply holds_cons in Hh as [Hx _]; (eapply runs_bind, runs_ld8; [exact Hx|]).
  - replace ((x =? 104) || (x =? 108) || (x =? 76)) with true by (specialize (Hq x eq_refl); lia).
    norm_words. by apply runs_ret.
  - replace ((c =? 104) || (c =? 108) || (c =? 76)) with false by lia.
    rewrite Z.add_0_r in HQ. by apply runs_ret.
Qed.
End Parse.

(** The characters that end a directive. *)
Lemma conv_char_ends k :
  conv_ok k -> ends (conv_char k) /\ conv_char k <> 46 /\ conv_char k <> 104 /\
    conv_char k <> 108 /\ conv_char k <> 76.
Proof.
  destruct k as [c b e| | | |]; try by (split; [split|]).
  intros H. unfold conv_ok in H. rewrite !elem_of_cons, elem_of_nil in H.
  destruct H as [H|[H|[H|[H|[H|[H|[]]]]]]]; injection H as -> -> ->; (split; [by split|done]).
Qed.
