(* ===== verification/PrintfThms.v ===== *)
(** PrintfThms: the properties of the printing functions ([libs/klibc.cpp]). *)

From Stdlib Require Import ZArith Lia.
From stdpp Require Import prelude gmap.
From S2P Require Import Prelude Mem Block Klibc Printf PrintfFacts NumberRule PrintfParse.

(** ** The text of a format *)

(** A format is a list of literal characters and directives. *)
Inductive piece := Lit (c : Z) | Conv (d : dir).

Definition piece_ok (p : piece) : Prop :=
  match p with Lit c => 0 < c < 256 /\ c <> 37 | Conv d => dir_ok d end.
Definition piece_text (p : piece) : list Z :=
  match p with Lit c => [c] | Conv d => ch_percent :: dir_text d end.
Definition format_text (ps : list piece) : list Z := concat (map piece_text ps).

(** [body] in a field of [w] characters, on the left with [LEFT]. *)
Definition plain_text (body : list Z) (w flags : Z) : list Z :=
  let n := w - Z.of_nat (length body) in
  if has flags LEFT then body ++ rep n 32 else rep n 32 ++ body.

(** The part of a string that a precision lets through. *)
Definition cut (prec : Z) (l : list Z) : list Z := if prec <? 0 then l else take (Z.to_nat prec) l.

(** What a directive prints and which arguments it leaves; [str_at a l] says that the string [l]
    is at [a]. *)
Definition conv_text (str_at : Z -> list Z -> Prop) (d : dir) (args out args' : list Z) : Prop :=
  let fl := flags_of (d_flags d) in
  let w := width_of (d_width d) in
  let p := prec_of (d_prec d) in
  match d_conv d with
  | CvInt _ base extra =>
      let fl := fl |! extra in
      exists a ds, args = a :: args' /\
        let num := s64 (int_arg (qual_of (d_qual d)) fl a) in
        numeral base (magnitude num fl) ds /\ out = number_text num base w p fl ds
  | CvPtr =>
      let fl' := if w =? -1 then fl |! ZEROPAD else fl in
      exists a ds, args = a :: args' /\ numeral 16 (magnitude (s64 a) fl') ds /\
        out = number_text (s64 a) 16 (if w =? -1 then 16 else w) p fl' ds
  | CvChar => exists a, args = a :: args' /\ out = plain_text [a mod 256] w fl
  | CvStr => exists a l, args = a :: args' /\ str_at a l /\ out = plain_text (cut p l) w fl
  | CvPercent => args' = args /\ out = [ch_percent]
  end.

Inductive text_of (str_at : Z -> list Z -> Prop) : list piece -> list Z -> list Z -> Prop :=
  | text_nil args : text_of str_at [] args []
  | text_lit c ps args out : text_of str_at ps args out -> text_of str_at (Lit c :: ps) args (c :: out)
  | text_conv d ps args args' o out :
      conv_text str_at d args o args' -> text_of str_at ps args' out ->
      text_of str_at (Conv d :: ps) args (o ++ out).

(** The string [l], ended by a NUL, is at [a], away from the [n] bytes at [buf]. *)
Record str_apart (m : mem) (buf n a : Z) (l : list Z) : Prop := {
  sa_holds : holds m a (l ++ [0]);
  sa_chars : Forall (fun c => 0 < c) l;
  sa_apart : a + Z.of_nat (length l) + 1 <= buf \/ buf + n <= a;
  sa_base : 0 <= a;
  sa_top : a + Z.of_nat (length l) + 1 < two64
}.

(** ** Conversions *)

Lemma plain_text_length body w fl :
  Z.of_nat (length (plain_text body w fl)) = Z.max w (Z.of_nat (length body)).
Proof.
  unfold plain_text, rep. destruct (has fl LEFT); rewrite length_app, length_replicate; lia.
Qed.

Lemma width_of_range ds : is_dec ds -> -1 <= width_of ds <= 100000000.
Proof.
  intros [Hd Hv]. pose proof (value_of_cons_range ds Hd 0 ltac:(lia)) as H.
  unfold width_of, value_of in *. destruct ds; lia.
Qed.
Lemma prec_of_range p : (forall l, p = Some l -> is_dec l) -> -1 <= prec_of p <= 100000000.
Proof.
  intros Hp. destruct p as [l|]; simpl; [|lia]. destruct (Hp l eq_refl) as [Hd Hv].
  pose proof (value_of_cons_range l Hd 0 ltac:(lia)) as H. unfold value_of in *. destruct l; lia.
Qed.

Section Convert.
Context {X : Type}.
Implicit Types (s : st X).

Lemma out_at_holds s0 buf N L s str a l :
  out_at s0 buf N L s str -> holds (smem s0) a l ->
  a + Z.of_nat (length l) <= buf \/ buf + N <= a -> holds (smem s) a l.
Proof.
  intros [_ (_ & Hout & _) _ Hf _ _ _] Hh Hd. eapply holds_frame; [|exact Hh].
  intros b Hb. apply Hout. lia.
Qed.

Lemma runs_conv_c s0 buf N L s str w fl a args Q :
  out_at s0 buf N L s str -> -1 <= w <= 100000000 ->
  Z.of_nat (length (L ++ plain_text [a mod 256] w fl)) <= N ->
  (forall s' str', out_at s0 buf N (L ++ plain_text [a mod 256] w fl) s' str' -> Q (str', args) s') ->
  runs (conv_c str w fl (a :: args)) s Q.
Proof.
  intros Ho Hw Hlen HQ. pose proof (Z.mod_pos_bound a 256 ltac:(lia)) as Ha.
  unfold conv_c, pad_pre, plain_text in *. change (Z.of_nat (length [a mod 256])) with 1 in *.
  rewrite (s32_small (w - 1)) by lia. destruct (has fl LEFT).
  - apply runs_bind, runs_ret. cbv beta iota. apply runs_bind, runs_ret. apply runs_bind.
    rewrite !length_app in Hlen. simpl in Hlen.
    eapply runs_put8; [exact Ho|lia|done|]. intros s1 str1 H1. rewrite s32_small by lia.
    apply runs_bind. eapply runs_pad; [exact H1| |done|lia|].
    + rewrite !length_app. simpl. unfold ch_space. lia.
    + intros s2 str2 H2. apply runs_ret, HQ. rewrite <- app_assoc in H2. exact H2.
  - assert (Hsp : spent (w - 1) <= 0 /\ -4 <= spent (w - 1)).
    { unfold spent. destruct (Z.ltb_spec 0 (w - 1)); lia. }
    rewrite !length_app in Hlen. simpl in Hlen.
    apply runs_bind, runs_bind. eapply runs_pad; [exact Ho| |done|lia|].
    { rewrite length_app. unfold ch_space. lia. }
    intros s1 str1 H1. rewrite s32_small by lia. apply runs_ret. cbv beta iota.
    apply runs_bind, runs_ret. apply runs_bind.
    eapply runs_put8; [exact H1| |done|].
    { rewrite length_app. unfold ch_space. lia. }
    intros s2 str2 H2. rewrite s32_small by lia. apply runs_bind.
    rewrite Z.add_simpl_r. eapply runs_pad; [exact H2| |done|lia|].
    + rewrite (rep_nil (spent _)) by lia. rewrite app_nil_r, !length_app. simpl. unfold ch_space. lia.
    + intros s3 str3 H3. apply runs_ret, HQ. rewrite (rep_nil (spent (w - 1))) in H3 by lia.
      rewrite app_nil_r, <- app_assoc in H3. exact H3.
Qed.

(** [while (len < field_width--)]. *)
Lemma runs_pad_str s0 buf N L s str len w Q :
  out_at s0 buf N L s str -> 0 <= len <= 100000000 -> -10 <= w <= 100000000 ->
  Z.of_nat (length (L ++ rep (w - len) 32)) <= N ->
  (forall s' str' w', out_at s0 buf N (L ++ rep (w - len) 32) s' str' -> w' <= len ->
     -1 <= w' \/ w' = w - 1 -> Q (w', str') s') ->
  runs (pad_str len w str) s Q.
Proof.
  unfold pad_str. remember (S (Z.to_nat (w - len))) as f eqn:Ef. intros Ho Hl Hw Hfit HQ.
  assert (Hf : w - len < Z.of_nat f) by lia. assert (H0 : (0 < f)%nat) by lia. clear Ef.
  revert L s str w Ho Hw Hfit HQ Hf. induction f as [|f IH]; intros; [lia|]. simpl pad_to.
  destruct (Z.ltb_spec len w).
  - rewrite rep_cons in Hfit, HQ by lia. rewrite length_app in Hfit. simpl in Hfit. apply runs_bind.
    eapply runs_put8; [exact Ho|lia|done|]. intros s1 str1 H1. rewrite s32_small by lia.
    replace (w - len - 1) with (w - 1 - len) in * by lia. destruct f as [|f]; [lia|].
    eapply IH; [lia|exact H1|lia| | |lia].
    + rewrite <- app_assoc, length_app. simpl. lia.
    + intros s' str' w' H' ? ?. rewrite <- app_assoc in H'. apply HQ; [exact H'|lia|lia].
  - rewrite s32_small by lia. rewrite rep_nil, app_nil_r in HQ by lia. apply runs_ret, HQ; [done|lia|lia].
Qed.

Lemma runs_copy_str l s0 buf N L s str a Q :
  out_at s0 buf N L s str -> holds (smem s0) a l -> Forall (fun c => 0 < c) l ->
  a + Z.of_nat (length l) <= buf \/ buf + N <= a ->
  0 <= a -> a + Z.of_nat (length l) < two64 -> Z.of_nat (length (L ++ l)) <= N ->
  (forall s' str', out_at s0 buf N (L ++ l) s' str' -> Q str' s') ->
  runs (copy_str (length l) a str) s Q.
Proof.
  revert L s str a. induction l as [|c l IH]; intros L s str a Ho Hh Hc Hd Ha Ht Hfit HQ; simpl copy_str.
  - apply runs_ret, HQ. by rewrite app_nil_r.
  - pose proof (out_at_holds _ _ _ _ _ _ _ _ Ho Hh Hd) as Hs. apply holds_cons in Hs as [Hx _].
    apply holds_cons in Hh as [_ Hh]. apply Forall_cons in Hc as [Hc0 Hc]. rewrite length_app in Hfit.
    simpl in Hd, Ht, Hfit. eapply runs_bind, runs_ld8; [exact Hx|]. apply runs_bind.
    eapply runs_put8; [exact Ho|lia|by eapply load8_range|]. intros s1 str1 H1. norm_words.
    eapply IH; [exact H1|done|done|lia|lia|lia|rewrite <- app_assoc, length_app; simpl; lia|].
    intros s2 str2 H2. rewrite <- app_assoc in H2. by apply HQ.
Qed.

Lemma str_len_app l : Forall (fun c => 0 < c) l -> str_len (l ++ [0]) = Z.of_nat (length l).
Proof.
  induction 1 as [|c l Hc _ IH]; simpl; [done|]. rewrite (proj2 (Z.eqb_neq c 0)) by lia. rewrite IH. lia.
Qed.

Lemma runs_conv_s fuel s0 buf N L s str w p fl a l args Q :
  out_at s0 buf N L s str -> str_apart (smem s0) buf N a l -> -1 <= w <= 100000000 ->
  -1 <= p <= 100000000 -> Z.of_nat (length l) <= 100000000 -> (length l < fuel)%nat ->
  Z.of_nat (length (L ++ plain_text (cut p l) w fl)) <= N ->
  (forall s' str', out_at s0 buf N (L ++ plain_text (cut p l) w fl) s' str' -> Q (str', args) s') ->
  runs (conv_s fuel str w p fl (a :: args)) s Q.
Proof.
  intros Ho [Hh Hc Hd Ha Ht] Hw Hp Hl Hf Hfit HQ. unfold conv_s. apply runs_bind, runs_ret.
  cbv beta iota. assert (Hlen : Z.min (u64 p) (str_len (l ++ [0])) = Z.of_nat (length (cut p l))).
  { rewrite str_len_app by done. unfold cut. destruct (Z.ltb_spec p 0).
    - assert (p = -1) as -> by lia. change (u64 (-1)) with 18446744073709551615. lia.
    - rewrite u64_small by (unfold two64; lia). rewrite length_take. lia. }
  assert (Hcl : (length (cut p l) <= length l)%nat).
  { unfold cut. destruct (p <? 0); [done|]. rewrite length_take. lia. }
  assert (Hcut : exists l', l = cut p l ++ l').
  { unfold cut. destruct (p <? 0); [exists []; by rewrite app_nil_r|].
    exists (drop (Z.to_nat p) l). by rewrite take_drop. }
  set (t := cut p l) in *. clearbody t. destruct Hcut as [l' ->].
  apply runs_bind. unfold strnlen.
  pose proof (out_at_holds _ _ _ _ _ _ a _ Ho Hh) as Hs. rewrite length_app in Hs. simpl in Hs.
  replace a with (a + 0) at 2 by lia.
  eapply (runs_strnlen_from fuel s a 0); [rewrite Z.add_0_r; apply Hs; lia|set_solver|lia|lia| |rewrite length_app; simpl; lia| |].
  { apply u64_range. }
  { rewrite Hlen. lia. }
  rewrite Hlen, Z.add_0_l. rewrite s32_small by lia. cbv zeta.
  apply Forall_app in Hc as [Hc _]. rewrite <- app_assoc in Hh. apply holds_app in Hh as [Hh _].
  rewrite Nat2Z.id. rewrite !length_app in *. unfold plain_text in *.
  set (n := w - Z.of_nat (length t)) in *.
  destruct (has fl LEFT).
  - rewrite length_app in Hfit. apply runs_bind, runs_ret. cbv beta iota. apply runs_bind.
    eapply runs_copy_str; [exact Ho|exact Hh|done|lia|lia|lia|rewrite length_app; lia|].
    intros s1 str1 H1. apply runs_bind. eapply runs_pad_str; [exact H1|lia|lia| |].
    + fold n. rewrite !length_app. lia.
    + intros s2 str2 w2 H2 _ _. apply runs_ret, HQ. rewrite <- app_assoc in H2. exact H2.
  - rewrite length_app in Hfit. apply runs_bind. eapply runs_pad_str; [exact Ho|lia|lia| |].
    { fold n. rewrite !length_app. lia. }
    intros s1 str1 w1 H1 Hw1 Hw2. cbv beta iota. apply runs_bind. fold n in H1.
    eapply runs_copy_str; [exact H1|exact Hh|done|lia|lia|lia|rewrite !length_app; lia|].
    intros s2 str2 H2. apply runs_bind. eapply runs_pad_str; [exact H2|lia|lia| |].
    + rewrite (rep_nil (w1 - _)) by lia. rewrite app_nil_r, !length_app. lia.
    + intros s3 str3 w3 H3 _ _. apply runs_ret, HQ. rewrite (rep_nil (w1 - _)) in H3 by lia.
      rewrite app_nil_r, <- app_assoc in H3. exact H3.
Qed.

(** Strings that [conv_s] can print with this much fuel. *)
Definition printable (m : mem) (fuel : nat) (buf N a : Z) (l : list Z) : Prop :=
  str_apart m buf N a l /\ Z.of_nat (length l) <= 100000000 /\ (length l < fuel)%nat.

(** [number], when the numeral is known. *)
Lemma runs_number_text s0 buf N L s str num base w p fl ds Q :
  out_at s0 buf N L s str -> 2 <= base <= 16 -> -1 <= w <= 100000000 -> -1 <= p <= 100000000 ->
  numeral base (magnitude (s64 num) fl) ds ->
  Z.of_nat (length (L ++ number_text (s64 num) base w p fl ds)) <= N ->
  (forall s' str', out_at s0 buf N (L ++ number_text (s64 num) base w p fl ds) s' str' -> Q str' s') ->
  runs (number str (s64 num) base w p fl) s Q.
Proof.
  intros Ho Hb Hw Hp Hds Hfit HQ.
  destruct (runs_number s0 buf N L s str (s64 num) base w p fl Ho Hb (s64_range num) Hw Hp)
    as (ds' & Hds' & _ & Hr).
  rewrite (numeral_unique base _ _ _ ltac:(lia) Hds' Hds) in Hr. by apply Hr.
Qed.

Lemma runs_conv_int s0 buf N L s str base w p q fl a ds args Q :
  out_at s0 buf N L s str -> 2 <= base <= 16 -> -1 <= w <= 100000000 -> -1 <= p <= 100000000 ->
  let num := s64 (int_arg q fl a) in
  numeral base (magnitude num fl) ds ->
  Z.of_nat (length (L ++ number_text num base w p fl ds)) <= N ->
  (forall s' str', out_at s0 buf N (L ++ number_text num base w p fl ds) s' str' ->
     Q (str', args) s') ->
  runs (conv_int str base w p q fl (a :: args)) s Q.
Proof.
  intros Ho Hb Hw Hp num Hds Hfit HQ. unfold conv_int. apply runs_bind, runs_ret. cbv beta iota.
  apply runs_bind. eapply runs_number_text; [exact Ho|lia|lia|lia|exact Hds|exact Hfit|].
  intros s1 str1 H1. by apply runs_ret, HQ.
Qed.

Lemma runs_convert fuel s0 buf N L s str fmt d args o args' Q :
  out_at s0 buf N L s str -> dir_ok d -> load8 (smem s) fmt = Some (conv_char (d_conv d)) ->
  conv_text (printable (smem s0) fuel buf N) d args o args' ->
  Z.of_nat (length (L ++ o)) <= N ->
  (forall s' str', out_at s0 buf N (L ++ o) s' str' -> Q (str', fmt, args') s') ->
  runs (convert fuel buf str fmt (flags_of (d_flags d)) (width_of (d_width d)) (prec_of (d_prec d))
          (qual_of (d_qual d)) args) s Q.
Proof.
  intros Ho [_ Hw _ Hp _ Hk] Hc Ht Hfit HQ. unfold convert. eapply runs_bind, runs_ld8; [exact Hc|].
  apply width_of_range in Hw. apply prec_of_range in Hp. unfold conv_text in Ht.
  set (fl := flags_of (d_flags d)) in *. set (w := width_of (d_width d)) in *.
  set (p := prec_of (d_prec d)) in *. set (q := qual_of (d_qual d)) in *. clearbody fl w p q.
  destruct (d_conv d) as [c base extra| | | |]; cbv zeta in Ht |- *.
  - destruct Ht as (a & ds & -> & Hds & ->). unfold conv_ok in Hk.
    rewrite !elem_of_cons, elem_of_nil in Hk. cbn [conv_char].
    destruct Hk as [Hk|[Hk|[Hk|[Hk|[Hk|[Hk|[]]]]]]]; injection Hk as -> -> ->; rewrite ?Z.lor_0_r in *;
      (apply runs_bind; eapply runs_conv_int; [exact Ho|lia|lia|lia|exact Hds|exact Hfit|];
       intros s1 str1 H1; by apply runs_ret, HQ).
  - destruct Ht as (a & -> & ->). apply runs_bind. eapply runs_conv_c; [exact Ho|lia|done|].
    intros s1 str1 H1. by apply runs_ret, HQ.
  - destruct Ht as (a & l & -> & (Hl1 & Hl2 & Hl3) & ->). apply runs_bind.
    eapply runs_conv_s; [exact Ho|exact Hl1|lia|lia|done|done|done|].
    intros s1 str1 H1. by apply runs_ret, HQ.
  - destruct Ht as (a & ds & -> & Hds & ->). simpl (_ =? _). cbn iota. apply runs_bind. unfold conv_p.
    destruct (Z.eqb_spec w (-1)) as [->|Hne]; apply runs_bind, runs_ret; cbv beta iota; apply runs_bind.
    + eapply (runs_number_text _ _ _ _ _ _ a); [exact Ho|lia|lia|lia|exact Hds|exact Hfit|].
      intros s1 str1 H1. apply runs_ret, runs_ret. by apply HQ.
    + eapply (runs_number_text _ _ _ _ _ _ a); [exact Ho|lia|lia|lia|exact Hds|exact Hfit|].
      intros s1 str1 H1. apply runs_ret, runs_ret. by apply HQ.
  - destruct Ht as (-> & ->). simpl (_ =? _). cbn iota. rewrite length_app in Hfit. simpl in Hfit.
    apply runs_bind, runs_bind. eapply runs_put8; [exact Ho|lia|done|].
    intros s1 str1 H1. by apply runs_ret, runs_ret, HQ.
Qed.

Lemma dir_text_length d : length (dir_text d) =
  (length (d_flags d) + (length (d_width d) + (length (prec_text (d_prec d)) +
   (length (qual_text (d_qual d)) + 1))))%nat.
Proof. unfold dir_text. rewrite !length_app, digit_text_length. done. Qed.

(** The first character of what follows a part of a directive. *)
Lemma holds_stop m a l r c r' : holds m a (l ++ r) -> r = c :: r' -> holds m a (l ++ [c]).
Proof. intros Hh ->. replace (l ++ c :: r') with ((l ++ [c]) ++ r') in Hh by by rewrite <- app_assoc.
  by apply holds_app in Hh as [Hh _]. Qed.

(** The tails of a directive start with a character that ends the part before. *)
Lemma tail_qual d : dir_ok d -> exists c r,
  qual_text (d_qual d) ++ [conv_char (d_conv d)] = c :: r /\ ends c /\ c <> 46.
Proof.
  intros Hd. destruct (conv_char_ends _ (do_conv _ Hd)) as (He & Hdot & _).
  destruct (d_qual d) as [q|] eqn:Eq; simpl; [|by eexists _, _].
  eexists _, _. split; [done|]. destruct (do_qual _ Hd q Eq) as [->|[->| ->]]; (split; [by split|done]).
Qed.
Lemma tail_prec d : dir_ok d -> exists c r,
  prec_text (d_prec d) ++ qual_text (d_qual d) ++ [conv_char (d_conv d)] = c :: r /\ ends c.
Proof.
  intros Hd. destruct (tail_qual d Hd) as (c & r & E & He & _).
  destruct (d_prec d) as [l|]; simpl; [|by eexists _, _]. eexists _, _. split; [done|by split].
Qed.
Lemma tail_width d : dir_ok d -> exists c r,
  digit_text (d_width d) ++ prec_text (d_prec d) ++ qual_text (d_qual d) ++ [conv_char (d_conv d)] = c :: r /\
  flag_bit c = None.
Proof.
  intros Hd. destruct (tail_prec d Hd) as (c & r & E & [He _ _]).
  destruct (d_width d) as [|x l] eqn:Ew; simpl; [by eexists _, _|].
  eexists _, _. split; [done|]. destruct (do_width _ Hd) as [Hr _]. rewrite Ew in Hr.
  apply Forall_cons in Hr as [Hx _]. pose proof (do_lead _ Hd x l Ew). unfold flag_bit.
  repeat (case_match; [lia|]). done.
Qed.

Lemma runs_directive fuel s0 buf N L s str fmt d args o args' Q :
  out_at s0 buf N L s str -> dir_ok d -> holds (smem s) (fmt + 1) (dir_text d) ->
  0 <= fmt -> fmt + 1 + Z.of_nat (length (dir_text d)) < two64 -> (length (dir_text d) < fuel)%nat ->
  conv_text (printable (smem s0) fuel buf N) d args o args' -> Z.of_nat (length (L ++ o)) <= N ->
  (forall s' str', out_at s0 buf N (L ++ o) s' str' ->
     Q (str', fmt + Z.of_nat (length (dir_text d)), args') s') ->
  runs (directive fuel buf str fmt ch_percent args) s Q.
Proof.
  intros Ho Hd Hh Hf Htop Hfuel Ht Hfit HQ. rewrite dir_text_length in *. unfold dir_text in Hh.
  destruct (tail_width d Hd) as (c1 & r1 & E1 & Hc1). destruct (tail_prec d Hd) as (c2 & r2 & E2 & Hc2).
  destruct (tail_qual d Hd) as (c3 & r3 & E3 & Hc3 & Hdot).
  destruct (conv_char_ends _ (do_conv _ Hd)) as (_ & _ & Hq1 & Hq2 & Hq3).
  pose proof (holds_stop _ _ _ _ _ _ Hh E1) as H1. apply holds_app in Hh as [_ Hh].
  pose proof (holds_stop _ _ _ _ _ _ Hh E2) as H2. apply holds_app in Hh as [_ Hh].
  rewrite digit_text_length in Hh.
  pose proof (holds_stop _ _ _ _ _ _ Hh E3) as H3. apply holds_app in Hh as [_ Hh].
  pose proof Hh as H4. apply holds_app in Hh as [_ Hh]. apply holds_cons in Hh as [Hc _].
  unfold directive. simpl (negb _). cbn iota. apply runs_bind.
  eapply runs_parse_flags; [exact H1|apply Hd|done|lia|lia|lia|]. cbv beta iota. apply runs_bind.
  eapply runs_parse_width; [exact H2|done|apply Hd|lia|lia|lia|]. cbv beta iota. apply runs_bind.
  eapply runs_parse_precision; [exact H3|done|done|apply Hd|lia|lia|lia|]. cbv beta iota. apply runs_bind.
  eapply runs_parse_qualifier; [exact H4|apply Hd|done|done|done|lia|lia|]. cbv beta iota.
  eapply runs_convert; [exact Ho|done|exact Hc|exact Ht|done|]. intros s' str' H'.
  match goal with |- Q (_, ?x, _) _ => replace x with (fmt + Z.of_nat
    (length (d_flags d) + (length (d_width d) + (length (prec_text (d_prec d)) +
      (length (qual_text (d_qual d)) + 1))))) by lia end.
  by apply HQ.
Qed.

Lemma runs_vsprintf_loop turns fuel s0 buf N L s str fmt ps args out Q :
  out_at s0 buf N L s str -> Forall piece_ok ps ->
  holds (smem s0) fmt (format_text ps ++ [0]) ->
  fmt + Z.of_nat (length (format_text ps)) + 1 <= buf \/ buf + N <= fmt ->
  0 <= fmt -> fmt + Z.of_nat (length (format_text ps)) + 1 < two64 ->
  (length (format_text ps) < turns)%nat -> (length (format_text ps) < fuel)%nat ->
  text_of (printable (smem s0) fuel buf N) ps args out -> Z.of_nat (length (L ++ out)) <= N ->
  (forall s' str', out_at s0 buf N (L ++ out) s' str' -> Q str' s') ->
  runs (vsprintf_loop turns fuel buf str fmt args) s Q.
Proof.
  intros Ho Hps Hh Hd Hf Htop Ht Hfu Htext. revert turns L s str fmt Ho Hps Hh Hd Hf Htop Ht Hfu.
  induction Htext as [args|c ps args out Htext IH|d ps args args' o out Hc Htext IH];
    intros turns L s str fmt Ho Hps Hh Hd Hf Htop Ht Hfu Hfit HQ;
    (destruct turns as [|turns]; [lia|]); simpl vsprintf_loop;
    (assert (Hs : holds (smem s) fmt (format_text _ ++ [0])) by
       (eapply out_at_holds; [exact Ho|exact Hh|rewrite length_app; change (length [0]) with 1%nat; lia])).
  - apply holds_cons in Hs as [Hx _]. eapply runs_bind, runs_ld8; [exact Hx|].
    apply runs_ret, HQ. by rewrite app_nil_r.
  - apply Forall_cons in Hps as [[Hc Hp] Hps]. simpl in Hs, Hh, Hd, Htop, Ht, Hfu.
    apply holds_cons in Hs as [Hx _]. apply holds_cons in Hh as [_ Hh]. rewrite length_app in Hfit. simpl in Hfit.
    eapply runs_bind, runs_ld8; [exact Hx|]. rewrite (proj2 (Z.eqb_neq c 0)) by lia.
    apply runs_bind. unfold directive. unfold ch_percent. rewrite (proj2 (Z.eqb_neq c 37)) by done. simpl (negb _). cbn iota.
    apply runs_bind. eapply runs_put8; [exact Ho|lia|lia|]. intros s1 str1 H1. apply runs_ret. cbv beta iota.
    norm_words. fold (format_text ps) in *. eapply IH; [exact H1|done|exact Hh|lia|lia|lia|lia|lia| |].
    + rewrite <- app_assoc, length_app. simpl. lia.
    + intros s2 str2 H2. rewrite <- app_assoc in H2. by apply HQ.
  - apply Forall_cons in Hps as [Hdo Hps].
    change (format_text (Conv d :: ps)) with ((ch_percent :: dir_text d) ++ format_text ps) in *.
    rewrite !length_app in *. simpl (length (_ :: _)) in *.
    rewrite <- app_assoc in Hs, Hh. apply holds_app in Hs as [Hs _]. apply holds_app in Hh as [_ Hh].
    apply holds_cons in Hs as [Hx Hs]. eapply runs_bind, runs_ld8; [exact Hx|].
    change (ch_percent =? 0) with false. cbn iota. apply runs_bind.
    eapply runs_directive; [exact Ho|exact Hdo|exact Hs|lia|lia|lia|exact Hc|rewrite length_app; lia|].
    intros s1 str1 H1. cbv beta iota. norm_words.
    replace (fmt + Z.of_nat (length (dir_text d)) + 1) with (fmt + Z.of_nat (length (ch_percent :: dir_text d)))
      by (simpl; lia).
    eapply IH; [exact H1|exact Hps|exact Hh|simpl; lia|lia|simpl; lia|lia|lia|rewrite !length_app; lia|].
    intros s2 str2 H2. rewrite <- app_assoc in H2. by apply HQ.
Qed.
End Convert.

(** ** Properties *)

(** C22: [number].  For a base from 2 to 16 it writes exactly the text of the number (sign, prefix,
    zeros up to the precision, digits without superfluous leading zeros in the chosen case, padded
    to the width on the side and with the character that the flags ask for) and returns the
    address behind it; for any other base it returns NULL and writes nothing. *)
Theorem number_correct {X} (s : st X) (buf N num base size precision t : Z) :
  0 <= buf -> 0 <= N -> buf + N < two64 -> mapped (smem s) buf (buf + N) ->
  - (two64 / 2) <= num < two64 / 2 -> -1 <= size <= 100000000 -> -1 <= precision <= 100000000 ->
  (forall ds, numeral base (magnitude num t) ds ->
     Z.of_nat (length (number_text num base size precision t ds)) <= N) ->
  (2 <= base <= 16 -> exists ds s', numeral base (magnitude num t) ds /\
     let text := number_text num base size precision t ds in
     number buf num base size precision t s = Some (buf + Z.of_nat (length text), s') /\
     written (smem s) (smem s') buf text /\ smgr s' = smgr s) /\
  (base < 2 \/ 16 < base -> number buf num base size precision t s = Some (NULL, s)).
Proof.
  intros Hb HN Htop Hm Hn Hs Hp Hfit. split; intros Hbase.
  - destruct (runs_number s buf N [] s buf num base size precision t (out_at_start s buf N Hb HN Htop Hm)
      Hbase Hn Hs Hp) as (ds & Hds & _ & Hr).
    specialize (Hr (fun p s' => p = buf + Z.of_nat (length (number_text num base size precision t ds)) /\
      written (smem s) (smem s') buf (number_text num base size precision t ds) /\ smgr s' = smgr s)).
    assert (H : runs (number buf num base size precision t) s (fun p s' =>
      p = buf + Z.of_nat (length (number_text num base size precision t ds)) /\
      written (smem s) (smem s') buf (number_text num base size precision t ds) /\ smgr s' = smgr s)).
    { apply Hr; [by apply Hfit|]. intros s' p [Hg Hw -> _ _ _ _]. done. }
    apply runs_inv in H as (p & s' & E & -> & Hw & Hg). by exists ds, s'.
  - unfold number. by replace ((base <? 2) || (16 <? base)) with true by lia.
Qed.

Definition print_state : st unit := St (fill 1000 64 0 ∅) tt.

(** [number(buf, -42, 10, 6, -1, SIGN | ZEROPAD)] prints "-00042". *)
Lemma number_correct_witness :
  exists ds s', numeral 10 42 ds /\
    number 1000 (-42) 10 6 (-1) 3 print_state =
      Some (1000 + Z.of_nat (length (number_text (-42) 10 6 (-1) 3 ds)), s').
Proof.
  assert (Hnum : numeral 10 42 [4; 2]).
  { split; [repeat constructor; lia|done|]. right. by exists 4, [2]. }
  destruct (number_correct print_state 1000 64 (-42) 10 6 (-1) 3) as [H _]; try done; try lia.
  - change 1064 with (1000 + Z.of_nat 64). apply fill_mapped.
  - intros ds Hds. rewrite (numeral_unique 10 42 ds [4; 2] ltac:(lia) Hds Hnum). vm_compute. congruence.
  - destruct H as (ds & s' & Hds & E & _); [lia|]. exists ds, s'. split; [exact Hds|exact E].
Defined.

(** ** Reading a number back *)

(** The text that stands before the digits of a decimal: blanks of the field, and the sign. *)
Definition lead_text (num size precision t : Z) (ds : list Z) : list Z :=
  let body := Z.max precision (Z.of_nat (length ds)) in
  (if has t LEFT || has t ZEROPAD then []
   else rep (size - Z.of_nat (length (sign_text num t)) - body) 32) ++ sign_text num t.

(** A decimal is that, zeros and the digits, and the blanks after them. *)
Lemma decimal_text num size precision t ds :
  Forall (fun d => 0 <= d < 10) ds -> exists k j,
    number_text num 10 size precision t ds =
      lead_text num size precision t ds ++ digit_text (replicate k 0 ++ ds) ++ replicate j 32.
Proof.
  intros Hds. assert (Hd : map (digit_char (has t SMALL)) ds = digit_text ds).
  { apply map_ext_in. intros d Hd%list_elem_of_In. rewrite Forall_forall in Hds. apply Hds in Hd.
    unfold digit_char. by replace (d <? 10) with true by lia. }
  assert (Hz : forall n, digit_text (replicate n 0) = replicate n 48) by (intros n; apply (fmap_replicate (fun d => 48 + d))).
  assert (Hsp : special_text 10 t = []) by (unfold special_text; by destruct (has t SPECIAL)).
  unfold number_text, field_text, lead_text. rewrite Hd, Hsp, app_nil_r.
  set (z := Z.to_nat (precision - Z.of_nat (length ds))).
  assert (Hlen : Z.of_nat (length (sign_text num t ++ rep (precision - Z.of_nat (length ds)) 48 ++ digit_text ds)) =
    Z.of_nat (length (sign_text num t)) + Z.max precision (Z.of_nat (length ds))).
  { unfold rep. rewrite !length_app, length_replicate, digit_text_length. lia. }
  rewrite Hlen, Z.sub_add_distr. unfold digit_text in *. destruct (has t LEFT); simpl orb; cbn iota.
  - exists z. eexists. rewrite map_app, Hz. unfold rep. by rewrite <- !app_assoc.
  - destruct (has t ZEROPAD); simpl orb; cbn iota.
    + eexists (_ + z)%nat, 0%nat. rewrite map_app, Hz, replicate_add, app_nil_r. unfold rep. by rewrite <- !app_assoc.
    + exists z, 0%nat. rewrite map_app, Hz, app_nil_r. unfold rep. by rewrite <- !app_assoc.
Qed.

(** What stands before the digits starts with no digit. *)
Lemma lead_text_head num size precision t ds c :
  head (lead_text num size precision t ds) = Some c -> isdigit c = false.
Proof.
  unfold lead_text, rep, sign_text.
  assert (Hs : forall c, head (if has t SIGN then if num <? 0 then [45] else if has t PLUS then [43]
      else if has t SPACE then [32] else [] else []) = Some c -> isdigit c = false).
  { intros x. repeat case_match; by intros [= <-]. }
  destruct (has t LEFT || has t ZEROPAD); [apply Hs|].
  destruct (Z.to_nat _); [apply Hs|]. by intros [= <-].
Qed.

Lemma value_of_zeros k ds : value_of 10 (replicate k 0 ++ ds) = value_of 10 ds.
Proof.
  unfold value_of. rewrite foldl_app. f_equal. induction k as [|k IH]; [done|]. simpl. exact IH.
Qed.

(** Reading digits in front of a text that does not go on with one. *)
Lemma runs_skip_atoi_text {X} (s : st X) fuel a ds post Q :
  holds (smem s) a (digit_text ds ++ post ++ [0]) -> (forall c, head post = Some c -> isdigit c = false) ->
  Forall (fun d => 0 <= d < 10) ds -> 0 <= a -> a + Z.of_nat (length ds) < two64 ->
  value_of 10 ds <= int_max -> (length ds < fuel)%nat ->
  Q (value_of 10 ds, a + Z.of_nat (length ds)) s -> runs (skip_atoi fuel a) s Q.
Proof.
  intros Hh Hp Hd Ha Htop Hv Hf HQ. unfold skip_atoi.
  assert (Hstop : exists c, holds (smem s) a (digit_text ds ++ [c]) /\ isdigit c = false).
  { destruct post as [|x post]; [by exists 0|]. exists x. split; [|by apply Hp].
    change ((x :: post) ++ [0]) with ([x] ++ post ++ [0]) in Hh. rewrite app_assoc in Hh.
    by apply holds_app in Hh as [Hh _]. }
  destruct Hstop as (c & Hs & Hc). by eapply (runs_skip_atoi_loop fuel s 0 a ds c).
Qed.

(** The NUL that ends a text just printed. *)
Lemma runs_end_text {X} (s0 s : st X) buf N L e Q :
  out_at s0 buf N L s e -> mapped (smem s0) buf (buf + N) -> Z.of_nat (length L) < N ->
  (forall s', holds (smem s') buf (L ++ [0]) -> Q tt s') -> runs (sto8 e 0) s Q.
Proof.
  intros Ho Hm Hlt HQ. pose proof (oa_str _ _ _ _ _ _ Ho) as He.
  pose proof (oa_written _ _ _ _ _ _ Ho) as (Hh & Hout & Hmap).
  apply runs_sto8; [apply (Hmap _ _ Hm); lia|]. apply HQ, holds_app. rewrite <- He. split.
  - eapply holds_frame; [|exact Hh]. intros b Hb. simpl. apply lookup_insert_ne. lia.
  - intros [|i] v Hi; [|by destruct i]. injection Hi as <-. rewrite Z.add_0_r. simpl.
    rewrite load8_insert. by rewrite decide_True by done.
Qed.

(** A decimal as the digits it starts with, and the rest. *)
Lemma decimal_split num size precision t n ds :
  numeral 10 n ds -> exists dg post,
    number_text num 10 size precision t ds = digit_text dg ++ post /\
    Forall (fun d => 0 <= d < 10) dg /\ (forall c, head post = Some c -> isdigit c = false) /\
    value_of 10 dg = (if decide (dg = []) then 0 else n) /\
    (lead_text num size precision t ds = [] -> dg <> []).
Proof.
  intros Hds. pose proof (nm_range _ _ _ Hds) as Hd.
  destruct (decimal_text num size precision t ds Hd) as (k & j & Htext).
  destruct (lead_text num size precision t ds) as [|x l] eqn:El.
  - assert (Hne : replicate k 0 ++ ds <> []).
    { destruct (nm_lead _ _ _ Hds) as [->|(x & l & -> & _)]; by destruct (replicate k 0). }
    exists (replicate k 0 ++ ds), (replicate j 32). split_ands; try done.
    + apply Forall_app. split; [apply Forall_replicate; lia|done].
    + destruct j; by intros c [= <-].
    + rewrite decide_False, value_of_zeros by done. apply Hds.
  - exists [], ((x :: l) ++ digit_text (replicate k 0 ++ ds) ++ replicate j 32). split_ands; try done.
    intros c [= <-]. eapply (lead_text_head num size precision t ds). by rewrite El.
Qed.

Lemma lead_text_none num size precision t ds :
  sign_text num t = [] -> size = -1 \/ has t LEFT = true \/ has t ZEROPAD = true ->
  lead_text num size precision t ds = [].
Proof.
  intros Hsg Hpad. unfold lead_text. rewrite Hsg, app_nil_r.
  destruct Hpad as [->|[->| ->]]; [|done|by rewrite orb_true_r]. destruct (_ || _); [done|]. unfold rep.
  by replace (Z.to_nat _) with 0%nat by (simpl; lia).
Qed.

(** C23: printing and reading back.  Whatever the flags, the width and the precision, what
    [skip_atoi] makes of a decimal that [number] printed, when the number's magnitude is at most
    [INT_MAX - 48] (above, [skip_atoi]'s [int] overflows): it reads the digits [pre] the text
    starts with and stops behind them.  It has then read the number itself if there are any, and
    0, without moving, if there are none; and there are some whenever no sign is printed and the
    field is not filled with blanks on the left. *)
Theorem number_skip_atoi {X} (s : st X) (fuel : nat) (buf N num size precision t : Z) :
  0 <= buf -> 0 <= N -> buf + N < two64 -> mapped (smem s) buf (buf + N) -> (Z.to_nat N < fuel)%nat ->
  - (two64 / 2) <= num < two64 / 2 -> -1 <= size <= 100000000 -> -1 <= precision <= 100000000 ->
  magnitude num t <= int_max - 48 ->
  (forall ds, numeral 10 (magnitude num t) ds ->
     Z.of_nat (length (number_text num 10 size precision t ds)) < N) ->
  exists ds pre post s', numeral 10 (magnitude num t) ds /\
    number_text num 10 size precision t ds = pre ++ post /\
    Forall (fun c => isdigit c = true) pre /\ (forall c, head post = Some c -> isdigit c = false) /\
    (sign_text num t = [] -> size = -1 \/ has t LEFT = true \/ has t ZEROPAD = true -> pre <> []) /\
    (e <- number buf num 10 size precision t ;; sto8 e 0 ;; skip_atoi fuel buf) s =
      Some ((if decide (pre = []) then 0 else magnitude num t, buf + Z.of_nat (length pre)), s').
Proof.
  intros Hb HN Htop Hm Hf Hn Hsz Hpr Hmag Hfit.
  destruct (runs_number s buf N [] s buf num 10 size precision t (out_at_start s buf N Hb HN Htop Hm))
    as (ds & Hds & Hlen & Hr); [lia|done..|]. specialize (Hfit ds Hds).
  destruct (decimal_split num size precision t _ ds Hds) as (dg & post & Htext & Hdg & Hpost & Hv & Hlead).
  assert (Hnil : digit_text dg = [] <-> dg = []) by (by destruct dg).
  assert (Hpos : 0 <= magnitude num t) by (rewrite <- (nm_value _ _ _ Hds); apply value_of_cons_range; [apply Hds|lia]).
  assert (Hrun : runs (e <- number buf num 10 size precision t ;; sto8 e 0 ;; skip_atoi fuel buf) s
    (fun r _ => r = (value_of 10 dg, buf + Z.of_nat (length dg)))).
  { apply runs_bind, Hr; [simpl; lia|]. intros s1 e H1. simpl in H1.
    apply runs_bind. eapply runs_end_text; [exact H1|done|lia|]. intros s2 Hh2.
    rewrite Htext, <- app_assoc in Hh2. rewrite Htext, length_app, digit_text_length in Hfit.
    eapply runs_skip_atoi_text; try done; try lia. rewrite Hv. case_decide; lia. }
  apply runs_inv in Hrun as (r & s' & E & ->). exists ds, (digit_text dg), post, s'. split_ands; try done.
  - apply Forall_map. eapply Forall_impl; [exact Hdg|]. intros d. unfold isdigit. simpl. lia.
  - intros Hsg Hpad. rewrite Hnil. apply Hlead. by apply lead_text_none.
  - rewrite E, digit_text_length, Hv. by destruct dg.
Qed.

Lemma number_skip_atoi_witness :
  exists ds pre post s', numeral 10 (magnitude 90210 1) ds /\
    number_text 90210 10 8 (-1) 1 ds = pre ++ post /\ pre <> [] /\
    (e <- number 1000 90210 10 8 (-1) 1 ;; sto8 e 0 ;; skip_atoi 66 1000) (St (fill 1000 65 0 ∅) tt) =
      Some ((if decide (pre = []) then 0 else magnitude 90210 1, 1000 + Z.of_nat (length pre)), s').
Proof.
  assert (Hnum : numeral 10 90210 [9; 0; 2; 1; 0]).
  { split; [repeat constructor; lia|done|]. right. by exists 9, [0; 2; 1; 0]. }
  destruct (number_skip_atoi (St (fill 1000 65 0 ∅) tt) 66 1000 65 90210 8 (-1) 1)
    as (ds & pre & post & s' & A & B & _ & _ & C & D); try done; try lia.
  - change (1000 + 65) with (1000 + Z.of_nat 65). apply fill_mapped.
  - intros ds Hds. rewrite (numeral_unique 10 90210 ds [9; 0; 2; 1; 0] ltac:(lia) Hds Hnum). by vm_compute.
  - exists ds, pre, post, s'. split; [exact A|]. split; [exact B|]. split; [|exact D].
    apply C; [reflexivity|]. right. right. reflexivity.
Defined.

(** What [vsprintf] writes, for the code that prints the buffer. *)
Lemma runs_vsprintf {X} (s : st X) fuel buf N fmt ps args out Q :
  0 <= buf -> buf + N < two64 -> mapped (smem s) buf (buf + N) -> N <= int_max ->
  Forall piece_ok ps -> str_apart (smem s) buf N fmt (format_text ps) ->
  (length (format_text ps) < fuel)%nat ->
  text_of (printable (smem s) fuel buf N) ps args out -> Z.of_nat (length out) < N ->
  (forall s', written (smem s) (smem s') buf (out ++ [0]) -> smgr s' = smgr s -> Q (Z.of_nat (length out)) s') ->
  runs (vsprintf fuel buf fmt args) s Q.
Proof.
  intros Hb Htop Hm HN Hps [Hh _ Hd Hf0 Hft] Hfu Htext Hfit HQ. unfold vsprintf. apply runs_bind.
  eapply (runs_vsprintf_loop fuel fuel s buf N [] s buf fmt ps args out);
    [by apply out_at_start; try lia|done|exact Hh|lia|lia|lia|lia|lia|exact Htext|simpl; lia|].
  intros s1 str1 [Hg Hw -> Hfit1 _ _ _]. simpl in Hw, Hfit1 |- *. pose proof Hw as (_ & _ & Hmap).
  apply runs_bind, runs_sto8; [apply (Hmap _ _ Hm); lia|]. apply runs_ret.
  unfold sub64. replace (buf + Z.of_nat (length out) - buf) with (Z.of_nat (length out)) by lia.
  rewrite u64_small by (unfold two64; lia). rewrite s32_small by lia. apply HQ; [|done].
  apply (written_snoc _ _ _ _ 0 Hw). apply Hm. lia.
Qed.

(** C24: [vsprintf].  For every format made of literal characters and the directives
    [%\[-+ #0\]\[width\]\[.precision\]\[hlL\]] with [d i u o x X c s p %], it writes exactly the
    text of the format with its arguments, ended by a NUL, returns the length of the text, and
    writes nothing else. *)
Theorem vsprintf_correct {X} (s : st X) (fuel : nat) (buf N fmt : Z) (ps : list piece)
    (args out : list Z) :
  0 <= buf -> buf + N < two64 -> mapped (smem s) buf (buf + N) -> N <= int_max ->
  Forall piece_ok ps -> str_apart (smem s) buf N fmt (format_text ps) ->
  (length (format_text ps) < fuel)%nat ->
  text_of (printable (smem s) fuel buf N) ps args out -> Z.of_nat (length out) < N ->
  exists s', vsprintf fuel buf fmt args s = Some (Z.of_nat (length out), s') /\
    written (smem s) (smem s') buf (out ++ [0]) /\ smgr s' = smgr s.
Proof.
  intros Hb Htop Hm HN Hps Hf Hfu Htext Hfit.
  assert (H : runs (vsprintf fuel buf fmt args) s (fun r s' => r = Z.of_nat (length out) /\
    written (smem s) (smem s') buf (out ++ [0]) /\ smgr s' = smgr s)) by by eapply runs_vsprintf.
  apply runs_inv in H as (r & s' & E & -> & Hw & Hg). by exists s'.
Qed.

(** The format "n=%05d|%s" at 2000 and the string "ab" at 3000. *)
Definition vs_format : list piece :=
  [Lit 110; Lit 61; Conv (Dir [48] [5] None None conv_d); Lit 124; Conv (Dir [] [] None None CvStr)].
Definition vs_mem : mem :=
  foldr (fun '(a, v) m => <[a := v]> m) (fill 1000 64 0 ∅)
    (zip (seqZ 2000 10) (format_text vs_format ++ [0]) ++ zip (seqZ 3000 3) [97; 98; 0]).

(** Deciding [mapped] and [holds]. *)
Lemma mapped_check m lo n :
  forallb (fun a => bool_decide (is_Some (m !! a))) (seqZ lo n) = true -> mapped m lo (lo + n).
Proof.
  intros Hf a Ha. rewrite forallb_forall in Hf. specialize (Hf a).
  rewrite bool_decide_eq_true in Hf. apply Hf, list_elem_of_In, elem_of_seqZ. lia.
Qed.
Lemma holds_check m a l :
  forallb (fun '(i, v) => bool_decide (load8 m i = Some v)) (zip (seqZ a (Z.of_nat (length l))) l) = true ->
  holds m a l.
Proof.
  intros Hf i v Hi. rewrite forallb_forall in Hf. specialize (Hf (a + Z.of_nat i, v)). simpl in Hf.
  rewrite bool_decide_eq_true in Hf. apply Hf, list_elem_of_In, list_elem_of_lookup. exists i.
  apply lookup_zip_Some. simpl. split; [|done]. apply lookup_seqZ. apply lookup_lt_Some in Hi. lia.
Qed.

Lemma vs_format_ok : Forall piece_ok vs_format.
Proof.
  assert (Hdec : is_dec []) by (split; [constructor|vm_compute; congruence]).
  unfold vs_format. rewrite !Forall_cons. split; [|split; [|split; [|split; [|split; [|by constructor]]]]].
  1, 2, 4: (simpl; lia).
  - split; simpl; [|split; [repeat constructor; lia|vm_compute; congruence]|by intros x l [= <- _]|done|done|left].
    repeat constructor. by exists ZEROPAD.
  - split; simpl; [constructor|exact Hdec|done|done|done|done].
Qed.

Lemma vsprintf_correct_witness :
  exists s', vsprintf 20 1000 2000 [42; 3000] (St vs_mem tt) = Some (10, s').
Proof.
  assert (Hnum : numeral 10 42 [4; 2]).
  { split; [repeat constructor; lia|done|]. right. by exists 4, [2]. }
  assert (Hstr : str_apart vs_mem 1000 64 3000 [97; 98]).
  { split; [apply holds_check; vm_compute; reflexivity|repeat constructor|simpl; lia|lia|done]. }
  destruct (vsprintf_correct (St vs_mem tt) 20 1000 64 2000 vs_format [42; 3000]
    [110; 61; 48; 48; 48; 52; 50; 124; 97; 98]) as (s' & E & _); try done.
  - apply (mapped_check _ 1000 64). vm_compute. reflexivity.
  - exact vs_format_ok.
  - split; [apply holds_check; vm_compute; reflexivity|repeat constructor; simpl; lia|simpl; lia|lia|done].
  - simpl; lia.
  - apply text_lit, text_lit.
    apply (text_conv _ (Dir [48] [5] None None conv_d) _ [42; 3000] [3000] [48; 48; 48; 52; 50] [124; 97; 98]).
    + exists 42, [4; 2]. split; [reflexivity|]. split; [|vm_compute; reflexivity].
      match goal with |- numeral _ ?n _ => replace n with 42 by (vm_compute; reflexivity) end.
      exact Hnum.
    + apply text_lit. apply (text_conv _ (Dir [] [] None None CvStr) _ [3000] [] [97; 98] []); [|constructor].
      exists 3000, [97; 98]. split; [done|]. split; [|done]. split; [exact Hstr|]. simpl. lia.
  - exists s'. exact E.
Defined.
