(* ===== verification/Bitmap.v ===== *)
(** Bitmap: the bitmap class ([libs/bitmap.cpp]) over the byte-addressed memory. *)

From Stdlib Require Import ZArith Lia.
From stdpp Require Import prelude gmap.
From S2P Require Import Prelude Mem Block Klibc.

(** The fields of the class.  [size] is compared with bit indices and divided by 8. *)
Record bitmap := Bitmap { bm_data : Z; bm_size : Z }.

Abbreviation BM := (M (st bitmap)).

Definition this {A} (f : bitmap -> A) : BM A := gets (fun s => f (smgr s)).

Definition SIZE_MAX : Z := two64 - 1.

(** [void bitmap::init(std::uint8_t *data, std::size_t size)] *)
Definition bitmap_init (data size : Z) : BM unit :=
  modify (with_mgr (Bitmap data size)) ;;
  memset data 0 (size / 1 / 8) ;;
  ret tt.

Definition bitmap_get (index : Z) : BM bool :=
  data <- this bm_data ;;
  byte <- ld8 (data +! index / 8) ;;
  ret (negb (byte &! Z.shiftl 1 (index mod 8) =? 0)).

Definition bitmap_set (index : Z) (value : bool) : BM unit :=
  data <- this bm_data ;;
  byte <- ld8 (data +! index / 8) ;;
  sto8 (data +! index / 8)
    (if value then byte |! Z.shiftl 1 (index mod 8)
     else byte &! Z.lnot (Z.shiftl 1 (index mod 8))).

(** The loop of [find_range] over the bits of one byte: the new [count] and [start_index], or the
    result. *)
Fixpoint find_bits (n : nat) (byte : Z) (value : bool) (length byte_idx bit count start : Z)
  : (Z * Z) + Z :=
  match n with
  | O => inl (count, start)
  | S n' =>
      if Bool.eqb (Z.testbit byte bit) value then
        let start := if count =? 0 then byte_idx * 8 + bit else start in
        let count := count + 1 in
        if count =? length then inr start
        else find_bits n' byte value length byte_idx (bit + 1) count start
      else find_bits n' byte value length byte_idx (bit + 1) 0 start
  end.

(** The body of the outer loop: one byte. *)
Definition find_byte (byte : Z) (value : bool) (length byte_idx count start : Z) : (Z * Z) + Z :=
  let byte_match := if value then 255 else 0 in
  if byte =? b2z (byte_match =? 0) then inl (0, start)
  else if byte =? byte_match then
    if length <? 8 then inr (byte_idx * 8)
    else
      let start := if count =? 0 then byte_idx * 8 else start in
      let count := count + 8 in
      if length <=? count then inr start else inl (count, start)
  else find_bits 8 byte value length byte_idx 0 count start.

Fixpoint find_loop (n : nat) (value : bool) (length byte_idx count start : Z) : BM Z :=
  match n with
  | O => ret SIZE_MAX
  | S n' =>
      data <- this bm_data ;;
      byte <- ld8 (data +! byte_idx) ;;
      match find_byte byte value length byte_idx count start with
      | inr r => ret r
      | inl (count, start) => find_loop n' value length (byte_idx + 1) count start
      end
  end.

Definition bitmap_find_range (value : bool) (length : Z) : BM Z :=
  size <- this bm_size ;;
  find_loop (Z.to_nat (size / 8)) value length 0 0 0.

Definition bitmap_set_range (start end_ : Z) (value : bool) : BM unit :=
  size <- this bm_size ;;
  if (end_ <=? start) || (size <=? start) then ret tt
  else
    let start_word := (start +! 7) / 8 in
    let end_word := end_ / 8 in
    forM start (Z.min (start_word *! 8) end_) (fun i => bitmap_set i value) ;;
    if end_word <? start_word then ret tt
    else
      data <- this bm_data ;;
      forM start_word end_word (fun i => sto8 (data +! i) (if value then 255 else 0)) ;;
      forM (end_word *! 8) end_ (fun i => bitmap_set i value).

(** ** The abstract bitmap: the value of bit [i] *)

Definition bit_at (m : mem) (data i : Z) : option bool :=
  (fun byte => Z.testbit byte (i mod 8)) <$> load8 m (data + i / 8).

(** [n] bytes of bitmap at [data], not wrapping around. *)
Record bm_ok (m : mem) (b : bitmap) (n : Z) : Prop := {
  bo_data : 0 <= bm_data b;
  bo_top : bm_data b + n <= two64;
  bo_n : 8 * n < two64;
  bo_mapped : mapped m (bm_data b) (bm_data b + n)
}.

(** [m'] is [m] with the bits of [P] set to [value]; memory outside the [n] bytes is unchanged. *)
Record bits_set (m m' : mem) (data n : Z) (P : Z -> Prop) (value : bool) : Prop := {
  bs_in : forall i, 0 <= i < 8 * n -> P i -> bit_at m' data i = Some value;
  bs_out : forall i, 0 <= i < 8 * n -> ~ P i -> bit_at m' data i = bit_at m data i;
  bs_else : forall a, ~ (data <= a < data + n) -> m' !! a = m !! a;
  bs_mapped : forall lo hi, mapped m lo hi -> mapped m' lo hi
}.

(** All of [length] bits from [r] have the value. *)
Definition bit_run (m : mem) (data : Z) (value : bool) (r length : Z) : Prop :=
  forall i, r <= i < r + length -> bit_at m data i = Some value.

(** ** Bits of bytes *)

Lemma byte_bit_set byte k (value : bool) j :
  0 <= byte < 256 -> 0 <= k < 8 -> 0 <= j < 8 ->
  let byte' := if value then Z.lor byte (Z.shiftl 1 k) else Z.land byte (Z.lnot (Z.shiftl 1 k)) in
  Z.testbit (byte' mod 256) j = if decide (j = k) then value else Z.testbit byte j.
Proof.
  intros Hb Hk Hj byte'. change 256 with (2 ^ 8). rewrite Z.mod_pow2_bits_low by lia.
  assert (Hs : Z.testbit (Z.shiftl 1 k) j = bool_decide (j = k)).
  { rewrite Z.shiftl_1_l, Z.pow2_bits_eqb by lia. case_bool_decide; [by subst; apply Z.eqb_refl|].
    apply Z.eqb_neq. lia. }
  subst byte'. destruct value.
  - rewrite Z.lor_spec, Hs. case_bool_decide; case_decide; try done.
    + apply orb_true_r.
    + apply orb_false_r.
  - rewrite Z.land_spec, Z.lnot_spec, Hs by lia. case_bool_decide; case_decide; try done; simpl.
    + apply andb_false_r.
    + apply andb_true_r.
Qed.

Lemma testbit_land byte k :
  0 <= k < 8 -> negb (Z.land byte (Z.shiftl 1 k) =? 0) = Z.testbit byte k.
Proof.
  intros Hk. rewrite Z.shiftl_1_l. destruct (Z.testbit byte k) eqn:E.
  - apply negb_true_iff, Z.eqb_neq. intros H.
    assert (Hb : Z.testbit (Z.land byte (2 ^ k)) k = true).
    { rewrite Z.land_spec, E, Z.pow2_bits_true by lia. done. }
    by rewrite H, Z.bits_0 in Hb.
  - apply negb_false_iff, Z.eqb_eq, Z.bits_inj'. intros j Hj.
    rewrite Z.land_spec, Z.pow2_bits_eqb, Z.bits_0 by lia.
    destruct (Z.eqb_spec k j) as [->|]; [by rewrite E|apply andb_false_r].
Qed.

Lemma index_split i n : 0 <= i < 8 * n -> 0 <= i / 8 < n /\ 0 <= i mod 8 < 8.
Proof. intros. Z.div_mod_to_equations; lia. Qed.

(** ** Rules of the bit operations *)

Section Bits.
Implicit Types (s : st bitmap).
Context (n : Z).

Lemma bit_at_Some m b i : bm_ok m b n -> 0 <= i < 8 * n -> is_Some (bit_at m (bm_data b) i).
Proof.
  intros [Hd Ht Hn Hm] Hi. destruct (index_split i n Hi) as [Hq _].
  destruct (load8_mapped m (bm_data b + i / 8)) as [v Hv]; [apply Hm; lia|].
  unfold bit_at. rewrite Hv. by eexists.
Qed.

Lemma bits_set_refl m data P v : (forall i, 0 <= i < 8 * n -> ~ P i) -> bits_set m m data n P v.
Proof. intros HP. split; try done. intros i Hi Hp. by destruct (HP i Hi). Qed.

Lemma bits_set_trans m m1 m2 data P P1 P2 v :
  (forall i, Decision (P2 i)) -> bits_set m m1 data n P1 v -> bits_set m1 m2 data n P2 v ->
  (forall i, 0 <= i < 8 * n -> P i <-> P1 i \/ P2 i) -> bits_set m m2 data n P v.
Proof.
  intros Hdec [I1 O1 E1 M1] [I2 O2 E2 M2] HP. split.
  - intros i Hi Hp. destruct (Hdec i); [by apply I2|]. rewrite O2 by done. apply I1; [done|].
    apply HP in Hp as [?|?]; done.
  - intros i Hi Hp. rewrite HP in Hp by done. rewrite O2, O1 by tauto. done.
  - intros a Ha. by rewrite E2, E1.
  - auto.
Qed.

Lemma bm_ok_set m m' b P v : bm_ok m b n -> bits_set m m' (bm_data b) n P v -> bm_ok m' b n.
Proof. intros [? ? ? ?] [_ _ _ Hm]. split; auto. Qed.

(** Storing one byte of the bitmap sets the bits it holds. *)
Lemma store_byte m b q byte (P : Z -> Prop) v :
  bm_ok m b n -> 0 <= q < n ->
  (forall i, 0 <= i < 8 * n -> i / 8 = q -> P i -> Z.testbit (byte mod 256) (i mod 8) = v) ->
  (forall i, 0 <= i < 8 * n -> i / 8 = q -> ~ P i ->
     Some (Z.testbit (byte mod 256) (i mod 8)) = bit_at m (bm_data b) i) ->
  (forall i, P i -> i / 8 = q) ->
  bits_set m (<[bm_data b + q := byte mod 256]> m) (bm_data b) n P v.
Proof.
  intros [Hd Ht Hn Hm] Hq HP HnP Hrng.
  assert (Hat : forall i, i / 8 = q ->
    bit_at (<[bm_data b + q := byte mod 256]> m) (bm_data b) i
      = Some (Z.testbit (byte mod 256) (i mod 8))).
  { intros i <-. unfold bit_at, load8. rewrite lookup_insert_eq. simpl. by rewrite Zmod_mod. }
  split.
  - intros i Hi Hp. rewrite Hat by auto. f_equal. auto.
  - intros i Hi Hp. destruct (decide (i / 8 = q)); [rewrite Hat; auto|].
    unfold bit_at, load8. by rewrite lookup_insert_ne by lia.
  - intros a Ha. by rewrite lookup_insert_ne by lia.
  - intros lo hi Hmap a Ha. destruct (decide (a = bm_data b + q)) as [->|].
    + by rewrite lookup_insert_eq.
    + rewrite lookup_insert_ne by done. by apply Hmap.
Qed.

Lemma runs_bitmap_get s i Q :
  bm_ok (smem s) (smgr s) n -> 0 <= i < 8 * n ->
  (forall v, bit_at (smem s) (bm_data (smgr s)) i = Some v -> Q v s) -> runs (bitmap_get i) s Q.
Proof.
  intros Hok Hi HQ. pose proof Hok as [Hd Ht Hn Hm]. destruct (index_split i n Hi) as [Hq Hr].
  destruct (load8_mapped (smem s) (bm_data (smgr s) + i / 8)) as [byte Hb]; [apply Hm; lia|].
  unfold bitmap_get. apply runs_bind, runs_gets. norm_words.
  eapply runs_bind, runs_ld8; [exact Hb|]. apply runs_ret, HQ.
  unfold bit_at. rewrite Hb. simpl. by rewrite testbit_land.
Qed.

Lemma runs_bitmap_set s i v Q :
  bm_ok (smem s) (smgr s) n -> 0 <= i < 8 * n ->
  (forall m', bits_set (smem s) m' (bm_data (smgr s)) n (fun j => j = i) v ->
     Q tt (with_mem m' s)) ->
  runs (bitmap_set i v) s Q.
Proof.
  intros Hok Hi HQ. pose proof Hok as [Hd Ht Hn Hm]. destruct (index_split i n Hi) as [Hq Hr].
  destruct (load8_mapped (smem s) (bm_data (smgr s) + i / 8)) as [byte Hb]; [apply Hm; lia|].
  pose proof (load8_range _ _ _ Hb) as Hbr.
  unfold bitmap_set. apply runs_bind, runs_gets. norm_words.
  eapply runs_bind, runs_ld8; [exact Hb|]. apply runs_sto8; [apply Hm; lia|]. apply HQ.
  apply store_byte; try done.
  - intros j Hj Ej ->. rewrite (byte_bit_set byte (i mod 8) v) by lia. by rewrite decide_True.
  - intros j Hj Ej Hne. destruct (index_split j n Hj).
    rewrite (byte_bit_set byte (i mod 8) v) by lia.
    rewrite decide_False by (Z.div_mod_to_equations; lia). unfold bit_at. by rewrite Ej, Hb.
  - intros j ->. done.
Qed.

(** A loop over bit indices. *)
Lemma runs_set_bits s lo hi v Q :
  bm_ok (smem s) (smgr s) n -> 0 <= lo -> hi <= 8 * n ->
  (forall m', bits_set (smem s) m' (bm_data (smgr s)) n (fun j => lo <= j < hi) v ->
     Q tt (with_mem m' s)) ->
  runs (forM lo hi (fun i => bitmap_set i v)) s Q.
Proof.
  intros Hok Hlo Hhi HQ. destruct (decide (hi < lo)) as [Hlt|Hle].
  { unfold forM. replace (Z.to_nat (hi - lo)) with 0%nat by lia. apply runs_ret.
    replace s with (with_mem (smem s) s) by by destruct s. apply HQ. apply bits_set_refl. lia. }
  apply (runs_forM (fun i s' => smgr s' = smgr s /\
    bits_set (smem s) (smem s') (bm_data (smgr s)) n (fun j => lo <= j < i) v)); [lia| | |].
  - split; [done|]. apply bits_set_refl. lia.
  - intros i s' Hi [Hmg Hb]. apply runs_bitmap_set; [rewrite Hmg; by eapply bm_ok_set|lia|].
    intros m' Hb'. split; [done|]. rewrite Hmg in Hb'. simpl.
    eapply bits_set_trans; [|exact Hb|exact Hb'|]; [intros; apply _|].
    intros; cbv beta; lia.
  - intros s' [Hmg Hb]. apply HQ in Hb. destruct s'. simpl in *. by subst.
Qed.

(** A loop over whole bytes. *)
Lemma runs_set_bytes s lo hi (v : bool) Q :
  bm_ok (smem s) (smgr s) n -> 0 <= lo -> lo <= hi <= n ->
  (forall m', bits_set (smem s) m' (bm_data (smgr s)) n (fun j => 8 * lo <= j < 8 * hi) v ->
     Q tt (with_mem m' s)) ->
  runs (forM lo hi (fun i => sto8 (bm_data (smgr s) +! i) (if v then 255 else 0))) s Q.
Proof.
  intros Hok Hlo Hhi HQ. pose proof Hok as [Hd Ht Hn Hm].
  apply (runs_forM (fun i s' => smgr s' = smgr s /\
    bits_set (smem s) (smem s') (bm_data (smgr s)) n (fun j => 8 * lo <= j < 8 * i) v)); [lia| | |].
  - split; [done|]. apply bits_set_refl. lia.
  - intros i s' Hi [Hmg Hb]. pose proof (bm_ok_set _ _ _ _ _ Hok Hb) as Hok'. norm_words.
    apply runs_sto8; [apply (bo_mapped _ _ _ Hok'); lia|]. split; [done|]. simpl.
    eapply bits_set_trans; [|exact Hb|eapply (store_byte _ _ i _ (fun j => j / 8 = i) v)|];
      [intros; apply _|done|lia| | |done|].
    + intros j Hj <- _. destruct v; [|by rewrite Z.bits_0].
      change (255 mod 256) with (Z.ones 8). apply Z.ones_spec_low. destruct (index_split j n Hj). lia.
    + intros j Hj Hji Hnj. done.
    + intros j Hj. cbv beta. Z.div_mod_to_equations; lia.
  - intros s' [Hmg Hb]. apply HQ in Hb. destruct s'. simpl in *. by subst.
Qed.

Lemma runs_set_range s lo hi v Q :
  bm_ok (smem s) (smgr s) n -> 0 <= lo < bm_size (smgr s) -> hi <= 8 * n ->
  (forall m', bits_set (smem s) m' (bm_data (smgr s)) n (fun j => lo <= j < hi) v ->
     Q tt (with_mem m' s)) ->
  runs (bitmap_set_range lo hi v) s Q.
Proof.
  intros Hok Hlo Hhi HQ. pose proof Hok as [Hd Ht Hn Hm]. unfold bitmap_set_range.
  apply runs_bind, runs_gets. replace (bm_size (smgr s) <=? lo) with false by lia.
  destruct (Z.leb_spec hi lo) as [Hle|Hlt]; simpl.
  { apply runs_ret. replace s with (with_mem (smem s) s) by by destruct s.
    apply HQ, bits_set_refl. lia. }
  set (sw := (lo +! 7) / 8). set (ew := hi / 8).
  assert (Hsw : sw = (lo + 7) / 8 /\ 0 <= sw /\ 8 * sw < two64 /\ lo <= 8 * sw < lo + 8).
  { unfold sw. destruct (decide (lo + 7 < two64)).
    - norm_words. split_ands; try done; unfold two64 in *; Z.div_mod_to_equations; lia.
    - exfalso. unfold two64 in *. lia. }
  destruct Hsw as (_ & Hsw0 & Hsw1 & Hsw2).
  assert (Hew : 0 <= ew /\ 8 * ew <= hi < 8 * ew + 8) by (unfold ew; Z.div_mod_to_equations; lia).
  norm_words. apply runs_bind, runs_set_bits; [done|lia|lia|]. intros m1 B1.
  pose proof (bm_ok_set _ _ _ _ _ Hok B1) as Hok1.
  destruct (Z.ltb_spec ew sw) as [Hgt|Hge].
  { apply runs_ret, HQ. destruct B1 as [I O E M]. split; [| |done|done].
    - intros i Hi Hp. apply I; [done|lia].
    - intros i Hi Hp. apply O; [done|lia]. }
  apply runs_bind, runs_gets. cbn [smgr with_mem].
  apply runs_bind, (runs_set_bytes (with_mem m1 s)); [done|lia|lia|]. intros m2 B2. simpl in B2.
  pose proof (bm_ok_set _ _ _ _ _ Hok1 B2) as Hok2.
  apply runs_set_bits; [done|lia|lia|]. intros m3 B3. simpl in B3. apply HQ.
  assert (B12 : bits_set (smem s) m2 (bm_data (smgr s)) n
    (fun j => lo <= j < Z.min (sw * 8) hi \/ 8 * sw <= j < 8 * ew) v).
  { eapply bits_set_trans; [|exact B1|exact B2|]; [intros; apply _|done]. }
  eapply bits_set_trans; [|exact B12|exact B3|]; [intros; apply _|].
  intros i Hi. cbv beta. lia.
Qed.
End Bits.

(** ** The search *)

Section Find.
Context (B : Z -> bool) (v : bool) (L : Z).

(** [length] bits from [r] have the value. *)
Definition run_at (r : Z) : Prop := forall i, r <= i < r + L -> B i = v.

(** After the bits before [p]: the last [count] of them have the value. *)
Record scan_ok (p count start : Z) : Prop := {
  sc_range : 0 <= count < L /\ count <= p;
  sc_run : forall i, p - count <= i < p -> B i = v;
  sc_start : 0 < count -> start = p - count
}.

(** No run ends at [p] or before, and the current run cannot be extended downwards. *)
Record scan_full (p count : Z) : Prop := {
  sf_none : forall r, 0 <= r -> r + L <= p -> ~ run_at r;
  sf_max : p = count \/ B (p - count - 1) <> v
}.

Lemma scan_start : 0 < L -> scan_ok 0 0 0 /\ scan_full 0 0.
Proof. intros HL. split; split; try lia; auto. Qed.

(** [k] more bits with the value. *)
Lemma scan_hit k p c st :
  scan_ok p c st -> 0 < k -> (forall i, p <= i < p + k -> B i = v) ->
  let st' := if c =? 0 then p else st in
  (L <= c + k -> run_at st' /\ 0 <= st' /\ st' + L <= p + k) /\
  (c + k < L -> scan_ok (p + k) (c + k) st' /\ (scan_full p c -> scan_full (p + k) (c + k))).
Proof.
  intros [Hr Hrun Hst] Hk HB st'.
  assert (Hst' : st' = p - c) by (subst st'; destruct (Z.eqb_spec c 0); [lia|apply Hst; lia]).
  assert (Hrun' : forall i, p - c <= i < p + k -> B i = v).
  { intros i Hi. destruct (decide (p <= i)); [apply HB; lia|]. apply Hrun. lia. }
  split.
  - intros HL. split; [|lia]. intros i Hi. apply Hrun'. lia.
  - intros HL. split.
    + split; [lia| |lia]. intros i Hi. apply Hrun'. lia.
    + intros [Hn Hm]. split.
      * intros r Hr0 Hr1 Hra. destruct (decide (r + L <= p)); [by eapply Hn|].
        destruct Hm as [?|Hm]; [lia|]. apply Hm, Hra. lia.
      * replace (p + k - (c + k) - 1) with (p - c - 1) by lia. destruct Hm; [left; lia|by right].
Qed.

(** [k] more bits without it. *)
Lemma scan_miss k p c st :
  scan_ok p c st -> 0 < k -> (forall i, p <= i < p + k -> B i <> v) ->
  scan_ok (p + k) 0 st /\ (scan_full p c -> scan_full (p + k) 0).
Proof.
  intros [Hr Hrun Hst] Hk HB. split.
  - split; [lia|lia|lia].
  - intros [Hn Hm]. split.
    + intros r Hr0 Hr1 Hra. destruct (decide (r + L <= p)); [by eapply Hn|].
      destruct (decide (p <= r + L - 1)) as [Hp|]; [|lia].
      apply (HB (r + L - 1)); [lia|]. apply Hra. lia.
    + right. apply HB. lia.
Qed.

(** What a part of the search that ends at bit [q] returns. *)
Definition found_or_scanned (p c q : Z) (res : (Z * Z) + Z) : Prop :=
  match res with
  | inr r => run_at r /\ 0 <= r /\ r + L <= q
  | inl (c', st') => scan_ok q c' st' /\ (v = true -> scan_full p c -> scan_full q c')
  end.

Lemma find_bits_ok k byte byte_idx bit c st :
  (forall j, bit <= j < bit + Z.of_nat k -> Z.testbit byte j = B (byte_idx * 8 + j)) ->
  scan_ok (byte_idx * 8 + bit) c st ->
  found_or_scanned (byte_idx * 8 + bit) c (byte_idx * 8 + bit + Z.of_nat k)
    (find_bits k byte v L byte_idx bit c st).
Proof.
  revert bit c st. induction k as [|k IH]; intros bit c st Hbits Hs.
  { simpl. by rewrite Z.add_0_r. }
  pose proof (Hbits bit ltac:(lia)) as Hb. cbn [find_bits]. rewrite Hb.
  assert (Hq : byte_idx * 8 + bit + Z.of_nat (S k) = byte_idx * 8 + (bit + 1) + Z.of_nat k) by lia.
  rewrite Hq. clear Hq.
  assert (Hnext : forall j, bit + 1 <= j < bit + 1 + Z.of_nat k ->
    Z.testbit byte j = B (byte_idx * 8 + j)) by (intros; apply Hbits; lia).
  destruct (Bool.eqb (B (byte_idx * 8 + bit)) v) eqn:E.
  - apply eqb_prop in E.
    destruct (scan_hit 1 _ _ _ Hs ltac:(lia)) as [Hend Hgo].
    { intros i Hi. by replace i with (byte_idx * 8 + bit) by lia. }
    cbv zeta. pose proof (sc_range _ _ _ Hs). destruct (Z.eqb_spec (c + 1) L) as [HL|HL].
    + destruct (Hend ltac:(lia)) as (? & ? & ?). simpl. split_ands; try done. lia.
    + destruct (Hgo ltac:(lia)) as [Hs' Hf'].
      specialize (IH (bit + 1) (c + 1) (if c =? 0 then byte_idx * 8 + bit else st) Hnext).
      rewrite Z.add_assoc in IH |- *. specialize (IH Hs').
      unfold found_or_scanned in *. destruct (find_bits _ _ _ _ _ _ _ _) as [[c' st']|r]; [|done].
      destruct IH. auto.
  - apply eqb_false_iff in E.
    destruct (scan_miss 1 _ _ _ Hs ltac:(lia)) as [Hs' Hf'].
    { intros i Hi. by replace i with (byte_idx * 8 + bit) by lia. }
    specialize (IH (bit + 1) 0 st Hnext). rewrite Z.add_assoc in IH |- *. specialize (IH Hs').
    unfold found_or_scanned in *. destruct (find_bits _ _ _ _ _ _ _ _) as [[c' st']|r]; [|done].
    destruct IH. auto.
Qed.

Lemma find_byte_ok byte byte_idx c st :
  0 < L -> 0 <= byte_idx ->
  (forall j, 0 <= j < 8 -> Z.testbit byte j = B (byte_idx * 8 + j)) ->
  scan_ok (byte_idx * 8) c st ->
  found_or_scanned (byte_idx * 8) c (byte_idx * 8 + 8) (find_byte byte v L byte_idx c st).
Proof.
  intros HL Hk Hbits Hs. unfold find_byte.
  assert (HB : forall i, byte_idx * 8 <= i < byte_idx * 8 + 8 ->
    B i = Z.testbit byte (i - byte_idx * 8)).
  { intros i Hi. rewrite Hbits by lia. f_equal. lia. }
  destruct (Z.eqb_spec byte (b2z ((if v then 255 else 0) =? 0))) as [Ereset|_].
  - simpl. split; [split; lia|]. intros Hv. rewrite Hv in Ereset. simpl in Ereset. subst byte.
    apply (scan_miss 8 _ _ st Hs); [lia|]. intros i Hi.
    by rewrite HB, Z.bits_0, Hv by lia.
  - destruct (Z.eqb_spec byte (if v then 255 else 0)) as [Efull|_].
    + assert (Hall : forall i, byte_idx * 8 <= i < byte_idx * 8 + 8 -> B i = v).
      { intros i Hi. rewrite HB by lia. subst byte. destruct v; simpl; [|apply Z.bits_0].
        change 255 with (Z.ones 8). apply Z.ones_spec_low. lia. }
      destruct (Z.ltb_spec L 8).
      * simpl. split_ands; [|lia|lia]. intros i Hi. apply Hall. lia.
      * destruct (scan_hit 8 _ _ _ Hs ltac:(lia) Hall) as [Hend Hgo]. cbv zeta.
        destruct (Z.leb_spec L (c + 8)); [by apply Hend|].
        destruct (Hgo ltac:(lia)) as [Hs' Hf']. simpl. auto.
    + pose proof (find_bits_ok 8 byte byte_idx 0 c st) as Hb. rewrite Z.add_0_r in Hb.
      apply Hb; [|done]. intros. apply Hbits. lia.
Qed.
End Find.

Section FindRange.
Implicit Types (s : st bitmap).

(** The bits of a bitmap in memory as a function. *)
Definition bits_of (m : mem) (data : Z) (i : Z) : bool := default false (bit_at m data i).

Lemma runs_find_loop k s n v L byte_idx c st Q :
  bm_ok (smem s) (smgr s) n -> 0 < L -> 0 <= byte_idx -> byte_idx + Z.of_nat k <= n ->
  let B := bits_of (smem s) (bm_data (smgr s)) in
  scan_ok B v L (byte_idx * 8) c st ->
  (forall r, run_at B v L r -> 0 <= r -> r + L <= (byte_idx + Z.of_nat k) * 8 -> Q r s) ->
  ((v = true -> scan_full B v L (byte_idx * 8) c ->
      forall r, 0 <= r -> r + L <= (byte_idx + Z.of_nat k) * 8 -> ~ run_at B v L r) ->
   Q SIZE_MAX s) ->
  runs (find_loop k v L byte_idx c st) s Q.
Proof.
  intros Hok HL. revert byte_idx c st Q. induction k as [|k IH]; intros byte_idx c st Q H0 Hk B Hs HQ1 HQ2.
  { apply runs_ret, HQ2. intros _ Hf r Hr Hle. apply (sf_none _ _ _ _ _ Hf); [done|lia]. }
  pose proof Hok as [Hd Ht Hn Hm]. simpl find_loop. apply runs_bind, runs_gets. norm_words.
  destruct (load8_mapped (smem s) (bm_data (smgr s) + byte_idx)) as [byte Hb]; [apply Hm; lia|].
  eapply runs_bind, runs_ld8; [exact Hb|].
  pose proof (find_byte_ok B v L byte byte_idx c st HL H0) as Hfb.
  assert (Hbits : forall j, 0 <= j < 8 -> Z.testbit byte j = B (byte_idx * 8 + j)).
  { intros j Hj. unfold B, bits_of, bit_at.
    replace ((byte_idx * 8 + j) / 8) with byte_idx by (Z.div_mod_to_equations; lia).
    replace ((byte_idx * 8 + j) mod 8) with j by (Z.div_mod_to_equations; lia).
    by rewrite Hb. }
  specialize (Hfb Hbits Hs). destruct (find_byte _ _ _ _ _ _) as [[c' st']|r]; simpl in Hfb.
  - destruct Hfb as [Hs' Hf']. replace (byte_idx * 8 + 8) with ((byte_idx + 1) * 8) in * by lia.
    apply IH; [lia|lia|done| |].
    + intros r Hr Hr0 Hle. apply HQ1; [done|done|lia].
    + intros Hno. apply HQ2. intros Hv Hf r Hr Hle. apply Hno; [done|auto|done|lia].
  - apply runs_ret. destruct Hfb as (? & ? & ?). apply HQ1; [done|done|lia].
Qed.

Lemma runs_find_range s n v L Q :
  bm_ok (smem s) (smgr s) n -> 0 < L -> 0 <= bm_size (smgr s) <= 8 * n ->
  let B := bits_of (smem s) (bm_data (smgr s)) in
  let bits := bm_size (smgr s) / 8 * 8 in
  (forall r, run_at B v L r -> 0 <= r -> r + L <= bits -> Q r s) ->
  ((v = true -> forall r, 0 <= r -> r + L <= bits -> ~ run_at B v L r) -> Q SIZE_MAX s) ->
  runs (bitmap_find_range v L) s Q.
Proof.
  intros Hok HL Hsz B bits HQ1 HQ2. unfold bitmap_find_range. apply runs_bind, runs_gets.
  assert (Hk : Z.of_nat (Z.to_nat (bm_size (smgr s) / 8)) = bm_size (smgr s) / 8)
    by (Z.div_mod_to_equations; lia).
  destruct (scan_start B v L HL) as [Hs Hf].
  apply (runs_find_loop _ s n v L 0 0 0); try done; rewrite ?Hk; simpl.
  - Z.div_mod_to_equations; lia.
  - intros r Hr Hr0 Hle. by apply HQ1.
  - intros Hno. apply HQ2. intros Hv. exact (Hno Hv Hf).
Qed.
End FindRange.
