(* ===== verification/Frame.v ===== *)
(** Frame: the physical frame allocator ([mm/frame.cpp]) and the direct map ([mm/hhdm.hpp]). *)

From Stdlib Require Import ZArith Lia.
From stdpp Require Import prelude gmap.
From S2P Require Import Prelude Mem Block Klibc Bitmap.

(** [struct limine_memmap_entry]; the boot loader supplies an array of these. *)
Record region := Region { rg_base : Z; rg_length : Z; rg_type : Z }.

Section Frame.
(** The offset of the direct map and the type number of usable regions are the boot loader's. *)
Context (physical_memory_offset LIMINE_MEMMAP_USABLE : Z).

Definition phys_to_virt (phys_addr : Z) : Z := phys_addr +! physical_memory_offset.
Definition virt_to_phys (virt_addr : Z) : Z := virt_addr -! physical_memory_offset.

Definition usable (r : region) : bool := rg_type r =? LIMINE_MEMMAP_USABLE.

(** The loop [for (i = entry_count - 1;; i--)] from index [i - 1] down; below index 0 it reads
    outside the array. *)
Fixpoint memory_size_from (i : nat) (entries : list region) : option Z :=
  match i with
  | O => None
  | S i' =>
      match entries !! i' with
      | Some r => if usable r then Some (rg_base r +! rg_length r) else memory_size_from i' entries
      | None => None
      end
  end.
Definition get_memory_size (entries : list region) : option Z :=
  memory_size_from (length entries) entries.

(** The first loop of [init]: the address of the first region that can hold the bitmap, or 0. *)
Fixpoint bitmap_region (bitmap_size : Z) (entries : list region) : Z :=
  match entries with
  | [] => 0
  | r :: rest =>
      if usable r && (bitmap_size <=? rg_length r) then rg_base r
      else bitmap_region bitmap_size rest
  end.

(** The second loop of [init]; the counter [origin_frames] is never read. *)
Fixpoint mark_usable (entries : list region) : BM unit :=
  match entries with
  | [] => ret tt
  | r :: rest =>
      (if usable r then
         let start_frame := rg_base r / PAGE_SIZE in
         let frame_count := rg_length r / PAGE_SIZE in
         bitmap_set_range start_frame (start_frame +! frame_count) true
       else ret tt) ;;
      mark_usable rest
  end.

Definition bitmap_bytes (memory_size : Z) : Z := (memory_size / PAGE_SIZE +! 7) / 8.

Definition frame_init (entries : list region) : BM unit :=
  memory_size <- of_opt (get_memory_size entries) ;;
  let bitmap_size := bitmap_bytes memory_size in
  let bitmap_address := bitmap_region bitmap_size entries in
  bitmap_init (phys_to_virt bitmap_address) bitmap_size ;;
  mark_usable entries ;;
  let bitmap_frame_start := bitmap_address / PAGE_SIZE in
  let bitmap_frame_count := (bitmap_size +! PAGE_SIZE -! 1) / PAGE_SIZE in
  let bitmap_frame_end := bitmap_frame_start +! bitmap_frame_count in
  bitmap_set_range bitmap_frame_start bitmap_frame_end false.

(** [find_range(count, true)]: the parameters of [find_range] are [(bool value, size_t count)]. *)
Definition alloc_frames (count : Z) : BM Z :=
  frame_index <- bitmap_find_range (negb (count =? 0)) (b2z true) ;;
  if frame_index =? SIZE_MAX then ret 0
  else
    bitmap_set_range frame_index (frame_index +! count) false ;;
    ret (frame_index *! PAGE_SIZE).

Definition free_frames (addr count : Z) : BM unit :=
  let frame_index := addr / PAGE_SIZE in
  bitmap_set_range frame_index (frame_index +! count) true.

(** ** Rules *)

(** A bitmap of [n] bytes whose frames' addresses fit a word. *)
Record frames_ok (s : st bitmap) (n : Z) : Prop := {
  fo_bm : bm_ok (smem s) (smgr s) n;
  fo_size : 0 <= bm_size (smgr s) <= n;
  fo_addr : 8 * n * PAGE_SIZE < two64
}.

(** The frames that [find_range] looks at. *)
Definition searched (s : st bitmap) (i : Z) : Prop := 0 <= i < bm_size (smgr s) / 8 * 8.
Definition frame_free (s : st bitmap) (i : Z) : Prop :=
  bit_at (smem s) (bm_data (smgr s)) i = Some true.

Lemma searched_lt s n i : frames_ok s n -> searched s i -> 0 <= i < bm_size (smgr s) /\ i < 8 * n.
Proof. intros [_ Hs _] Hi. unfold searched in Hi. Z.div_mod_to_equations; lia. Qed.

Lemma bits_of_true s n i :
  frames_ok s n -> 0 <= i < 8 * n ->
  bits_of (smem s) (bm_data (smgr s)) i = true <-> frame_free s i.
Proof.
  intros [Hok _ _] Hi. unfold bits_of, frame_free.
  destruct (bit_at_Some n _ _ _ Hok Hi) as [v ->]. simpl. naive_solver.
Qed.

(** [set_range] with any arguments in range of the bitmap's bytes: a start at [size] or beyond
    changes nothing. *)
Lemma runs_set_range_any s n lo hi v Q :
  bm_ok (smem s) (smgr s) n -> 0 <= lo -> hi <= 8 * n ->
  (forall m', bits_set (smem s) m' (bm_data (smgr s)) n
     (fun j => lo <= j < hi /\ lo < bm_size (smgr s)) v -> Q tt (with_mem m' s)) ->
  runs (bitmap_set_range lo hi v) s Q.
Proof.
  intros Hok Hlo Hhi HQ. destruct (decide (lo < bm_size (smgr s))) as [Hlt|Hge].
  - apply (runs_set_range n); [done|lia|done|]. intros m' [I O E M]. apply HQ. split; [| |done|done].
    + intros i Hi [Hp _]. by apply I.
    + intros i Hi Hp. apply O; [done|tauto].
  - unfold bitmap_set_range. apply runs_bind, runs_gets.
    replace (bm_size (smgr s) <=? lo) with true by lia. rewrite orb_true_r. apply runs_ret.
    replace s with (with_mem (smem s) s) by by destruct s. apply HQ, bits_set_refl. lia.
Qed.

Lemma runs_alloc_frame s n Q :
  frames_ok s n ->
  (forall i m', searched s i -> frame_free s i ->
     bits_set (smem s) m' (bm_data (smgr s)) n (fun j => j = i) false ->
     Q (i * PAGE_SIZE) (with_mem m' s)) ->
  ((forall i, searched s i -> ~ frame_free s i) -> Q 0 s) ->
  runs (alloc_frames 1) s Q.
Proof.
  intros Hf HQ1 HQ2. pose proof Hf as [Hok Hsz Had]. unfold alloc_frames. simpl negb. simpl b2z.
  apply runs_bind, (runs_find_range _ n); [done|lia|lia| |].
  - intros r Hr Hr0 Hle. assert (Hs : searched s r) by (unfold searched; lia).
    destruct (searched_lt _ _ _ Hf Hs) as [Hrs Hrn].
    assert (Hfree : frame_free s r) by (apply (bits_of_true s n); [done|lia|apply Hr; lia]).
    unfold PAGE_SIZE in *. replace (r =? SIZE_MAX) with false by (unfold SIZE_MAX; lia).
    norm_words. apply runs_bind, (runs_set_range n); [done|lia|lia|].
    intros m' [I O E M]. apply runs_ret. norm_words. apply HQ1; [done|done|]. split; [| |done|done].
    + intros i Hi ->. apply I; [done|lia].
    + intros i Hi Hne. apply O; [done|lia].
  - intros Hno. replace (SIZE_MAX =? SIZE_MAX) with true by done. apply runs_ret, HQ2.
    intros i Hi Hfree. pose proof Hi as Hi'. destruct (searched_lt _ _ _ Hf Hi).
    unfold searched in Hi'. apply (Hno eq_refl i); [lia|lia|].
    intros j Hj. replace j with i by lia. apply (bits_of_true s n); [done|lia|done].
Qed.

Lemma runs_free_frame s n i Q :
  frames_ok s n -> 0 <= i < 8 * n -> i < bm_size (smgr s) ->
  (forall m', bits_set (smem s) m' (bm_data (smgr s)) n (fun j => j = i) true ->
     Q tt (with_mem m' s)) ->
  runs (free_frames (i * PAGE_SIZE) 1) s Q.
Proof.
  intros [Hok Hsz Had] Hi Hlt HQ. unfold free_frames, PAGE_SIZE in *. rewrite Z.div_mul by lia.
  norm_words. apply (runs_set_range n); [done|lia|lia|]. intros m' [I O E M]. apply HQ.
  split; [| |done|done].
  - intros j Hj ->. apply I; [done|lia].
  - intros j Hj Hne. apply O; [done|lia].
Qed.

(** ** Initialisation *)

Definition first_frame (r : region) : Z := rg_base r / PAGE_SIZE.
Definition end_frame (r : region) : Z := rg_base r / PAGE_SIZE + rg_length r / PAGE_SIZE.

(** Frame [i] lies in a usable region. *)
Definition usable_frame (entries : list region) (i : Z) : Prop :=
  Exists (fun r => usable r = true /\ first_frame r <= i < end_frame r) entries.

(** The memory map that the boot loader promises: usable regions are page-aligned, the last one
    ends highest, one of them can hold the bitmap, and the bitmap is mapped by the direct map. *)
Record map_ok (m : mem) (entries : list region) (size addr : Z) : Prop := {
  mo_size : get_memory_size entries = Some size;
  mo_range : 0 <= size < two64 - 8 * PAGE_SIZE;
  mo_regions : Forall (fun r => usable r = true -> 0 <= rg_base r /\ 0 <= rg_length r /\
    rg_base r mod PAGE_SIZE = 0 /\ rg_length r mod PAGE_SIZE = 0 /\
    rg_base r + rg_length r <= size) entries;
  mo_addr : bitmap_region (bitmap_bytes size) entries = addr;
  mo_fits : Exists (fun r => usable r = true /\ bitmap_bytes size <= rg_length r) entries;
  mo_top : phys_to_virt addr + bitmap_bytes size <= two64;
  mo_mapped : mapped m (phys_to_virt addr) (phys_to_virt addr + bitmap_bytes size)
}.

Lemma bitmap_bytes_ok size :
  0 <= size < two64 - 8 * PAGE_SIZE ->
  0 <= bitmap_bytes size /\ size / PAGE_SIZE <= 8 * bitmap_bytes size /\
  8 * bitmap_bytes size <= size / PAGE_SIZE + 7.
Proof.
  intros H. unfold bitmap_bytes, PAGE_SIZE in *.
  assert (0 <= size / 4096 < two64 / 4096) by (unfold two64 in *; Z.div_mod_to_equations; lia).
  change (two64 / 4096) with 4503599627370496 in *. norm_words. Z.div_mod_to_equations; lia.
Qed.

(** The region that [init] picks. *)
Lemma bitmap_region_ok k entries :
  Exists (fun r => usable r = true /\ k <= rg_length r) entries ->
  exists r, r ∈ entries /\ usable r = true /\ k <= rg_length r /\
    bitmap_region k entries = rg_base r.
Proof.
  induction entries as [|r rest IH]; intros Hex; [by apply Exists_nil in Hex|].
  simpl. destruct (usable r && (k <=? rg_length r)) eqn:E.
  - apply andb_true_iff in E as [Hu Hk]. exists r. split_ands; try done; [left|lia].
  - apply Exists_cons in Hex as [[Hu Hk]|Hex].
    + rewrite Hu in E. simpl in E. lia.
    + destruct (IH Hex) as (r' & Hin & ?). exists r'. split; [by right|done].
Qed.

Lemma runs_mark_usable s n entries size Q :
  bm_ok (smem s) (smgr s) n -> size / PAGE_SIZE <= 8 * n ->
  Forall (fun r => usable r = true -> 0 <= rg_base r /\ 0 <= rg_length r /\
    rg_base r mod PAGE_SIZE = 0 /\ rg_length r mod PAGE_SIZE = 0 /\
    rg_base r + rg_length r <= size) entries ->
  (forall m', bits_set (smem s) m' (bm_data (smgr s)) n
     (fun j => Exists (fun r => usable r = true /\ first_frame r <= j < end_frame r /\
                               first_frame r < bm_size (smgr s)) entries) true ->
     Q tt (with_mem m' s)) ->
  runs (mark_usable entries) s Q.
Proof.
  revert s Q. induction entries as [|r rest IH]; intros s Q Hok Hsz Hall HQ; simpl.
  { apply runs_ret. replace s with (with_mem (smem s) s) by by destruct s.
    apply HQ, bits_set_refl. intros i _ []%Exists_nil. }
  apply Forall_cons in Hall as [Hr Hall]. apply runs_bind.
  destruct (usable r) eqn:Hu.
  - destruct (Hr eq_refl) as (Hb & Hl & Hb4 & Hl4 & Htop). pose proof Hok as [_ _ Hn _].
    assert (He : 0 <= first_frame r /\ first_frame r <= end_frame r <= 8 * n).
    { unfold first_frame, end_frame, PAGE_SIZE in *. Z.div_mod_to_equations; lia. }
    unfold first_frame, end_frame in He. norm_words.
    apply (runs_set_range_any _ n); [done|lia|lia|]. intros m1 B1.
    pose proof (bm_ok_set n _ _ _ _ _ Hok B1) as Hok1.
    apply IH; [done|done|done|]. intros m2 B2. simpl in B2. apply HQ.
    eapply bits_set_trans; [|exact B1|exact B2|]; [intros; apply _|].
    intros i Hi. cbv beta. rewrite Exists_cons, Hu. unfold first_frame, end_frame. tauto.
  - apply runs_ret, IH; [done..|]. intros m2 [I O E M]. apply HQ. split; [| |done|done].
    + intros i Hi Hp. apply I; [done|]. apply Exists_cons in Hp as [[Hp _]|Hp]; [congruence|done].
    + intros i Hi Hp. apply O; [done|]. intros Hp'. apply Hp. apply Exists_cons. by right.
Qed.

(** [memset] clears the part of the bitmap that [find_range] looks at. *)
Lemma runs_bitmap_init s data size Q :
  0 <= data -> 0 <= size -> data + size <= two64 -> mapped (smem s) data (data + size) ->
  (forall m', (forall i, 0 <= i < size / 8 * 8 -> bit_at m' data i = Some false) ->
     (forall lo hi, mapped (smem s) lo hi -> mapped m' lo hi) ->
     (forall a, ~ (data <= a < data + size) -> m' !! a = smem s !! a) ->
     Q tt (St m' (Bitmap data size))) ->
  runs (bitmap_init data size) s Q.
Proof.
  intros Hd Hs Ht Hm HQ. unfold bitmap_init. rewrite Z.div_1_r.
  assert (Hsz : 0 <= size / 8 <= size) by (Z.div_mod_to_equations; lia).
  apply runs_bind, runs_modify, runs_bind, runs_memset; simpl; try lia.
  { eapply mapped_sub; [exact Hm|lia..]. }
  intros m' (Hh & Ho & Hmap). apply runs_ret, HQ; [|done|].
  - intros i Hi. destruct (index_split i (size / 8)) as [Hq _]; [lia|]. unfold bit_at.
    rewrite <- (Z2Nat.id (i / 8)) by lia. rewrite (Hh (Z.to_nat (i / 8)) 0).
    + simpl. by rewrite Z.bits_0.
    + apply lookup_replicate. split; [done|lia].
  - intros a Ha. apply Ho. rewrite length_replicate. lia.
Qed.

Lemma runs_frame_init s entries size addr Q :
  map_ok (smem s) entries size addr -> 0 <= physical_memory_offset < two64 ->
  (forall s', frames_ok s' (bitmap_bytes size) ->
     (forall i, searched s' i -> frame_free s' i <->
        usable_frame entries i /\
        ~ (addr <= i * PAGE_SIZE < addr + bitmap_bytes size)) ->
     smgr s' = Bitmap (phys_to_virt addr) (bitmap_bytes size) ->
     (forall lo hi, mapped (smem s) lo hi -> mapped (smem s') lo hi) ->
     (forall a, ~ (phys_to_virt addr <= a < phys_to_virt addr + bitmap_bytes size) ->
        smem s' !! a = smem s !! a) -> Q tt s') ->
  runs (frame_init entries) s Q.
Proof.
  intros [Hsize Hrange Hall Haddr Hfits Htop Hmap] Hoff HQ.
  destruct (bitmap_bytes_ok size Hrange) as (Hn0 & Hn1 & Hn2). set (n := bitmap_bytes size) in *.
  destruct (bitmap_region_ok n entries Hfits) as (r0 & Hin & Hu0 & Hlen0 & Hr0).
  pose proof (proj1 (Forall_forall _ _) Hall r0 Hin Hu0) as (Hb0 & Hl0 & Hb4 & Hl4 & Htop0).
  rewrite Hr0 in Haddr. subst addr.
  assert (Hdata : 0 <= phys_to_virt (rg_base r0)) by apply u64_range.
  unfold frame_init. eapply runs_bind, runs_of_opt; [exact Hsize|]. fold n. rewrite Hr0.
  apply runs_bind, runs_bitmap_init; [done|done|done|done|]. intros m1 Hz1 Hm1 Ho1.
  set (s1 := St m1 _). assert (Hok1 : bm_ok (smem s1) (smgr s1) n).
  { split; simpl; try lia; [|by apply Hm1]. unfold PAGE_SIZE in *. unfold two64 in *.
    Z.div_mod_to_equations; lia. }
  apply runs_bind, (runs_mark_usable s1 n entries size); [done|lia|done|]. intros m2 B2.
  pose proof (bm_ok_set n _ _ _ _ _ Hok1 B2) as Hok2.
  unfold PAGE_SIZE in *. norm_words. set (cnt := (n + 4096 - 1) / 4096).
  assert (Hcnt : n <= cnt * 4096 < n + 4096) by (unfold cnt; Z.div_mod_to_equations; lia).
  assert (Hfr : 0 <= rg_base r0 / 4096 /\ rg_base r0 / 4096 + cnt <= 8 * n /\
    rg_base r0 / 4096 * 4096 = rg_base r0) by (Z.div_mod_to_equations; lia).
  norm_words. apply (runs_set_range_any _ n); [done|lia|lia|]. intros m3 B3.
  pose proof (bm_ok_set n _ _ _ _ _ Hok2 B3) as Hok3. apply HQ;
    [| |done|by intros lo hi H; apply B3, B2, Hm1|
     by intros a Ha; simpl; rewrite (bs_else _ _ _ _ _ _ B3), (bs_else _ _ _ _ _ _ B2), Ho1].
  { split; simpl; [done|lia|]. unfold two64, PAGE_SIZE in *. Z.div_mod_to_equations; lia. }
  intros i Hi. unfold searched in Hi. simpl in Hi. unfold frame_free. simpl.
  assert (Hin8 : 0 <= i < 8 * n) by (Z.div_mod_to_equations; lia).
  assert (Hisz : i < n) by (Z.div_mod_to_equations; lia).
  set (P2 := fun j : Z => Exists _ entries) in B2.
  assert (HP2 : P2 i <-> usable_frame entries i).
  { unfold P2, usable_frame. simpl. rewrite !Exists_exists.
    split; intros (r & Hr & Hur & Hi'); exists r; split_ands; try done; lia. }
  rewrite <- HP2. clear HP2. simpl in B3.
  destruct (decide (rg_base r0 / 4096 <= i < rg_base r0 / 4096 + cnt)) as [Hb|Hb].
  - rewrite (bs_in _ _ _ _ _ _ B3) by (done || lia).
    split; [done|]. intros [_ Hno]. destruct Hno. unfold PAGE_SIZE. lia.
  - rewrite (bs_out _ _ _ _ _ _ B3) by (done || lia).
    assert (Hno : ~ (rg_base r0 <= i * PAGE_SIZE < rg_base r0 + n)) by (unfold PAGE_SIZE; lia).
    assert (Hdec : P2 i \/ ~ P2 i) by (unfold P2; destruct (decide (Exists
      (fun r => usable r = true /\ first_frame r <= i < end_frame r /\
        first_frame r < bm_size (smgr s1)) entries)); auto).
    destruct Hdec as [Hp|Hp].
    + rewrite (bs_in _ _ _ _ _ _ B2) by done. tauto.
    + rewrite (bs_out _ _ _ _ _ _ B2) by done. simpl. rewrite Hz1 by (simpl; lia). naive_solver.
Qed.
End Frame.
