(* ===== verification/FrameThms.v ===== *)
(** FrameThms: the properties of the bitmap and of the frame allocator. *)

From Stdlib Require Import ZArith Lia.
From stdpp Require Import prelude gmap.
From S2P Require Import Prelude Mem Block Klibc Bitmap Frame.

(** ** A frame allocator and its users as a state machine *)

(** The frames handed out and not yet given back.  [alloc_frames] answers 0 both when it fails and
    when it hands out frame 0. *)
Definition hand_out (r : Z) (A : gset Z) : gset Z := if decide (r = 0) then A else A ∪ {[r]}.

Inductive frame_reach (off usable_type : Z) (m0 : mem) (entries : list region)
  : st bitmap -> gset Z -> Prop :=
  | frame_reach_init b0 s size addr :
      map_ok off usable_type m0 entries size addr -> 0 <= off < two64 ->
      frame_init off usable_type entries (St m0 b0) = Some (tt, s) ->
      frame_reach off usable_type m0 entries s ∅
  | frame_reach_alloc s A r s' :
      frame_reach off usable_type m0 entries s A -> alloc_frames 1 s = Some (r, s') ->
      frame_reach off usable_type m0 entries s' (hand_out r A)
  | frame_reach_free s A a s' :
      frame_reach off usable_type m0 entries s A -> a ∈ A -> free_frames a 1 s = Some (tt, s') ->
      frame_reach off usable_type m0 entries s' (A ∖ {[a]}).

(** The address of a frame the allocator may hand out: usable, and not the bitmap's own. *)
Definition frame_addr_ok (usable_type : Z) (entries : list region) (size addr a : Z) : Prop :=
  exists i, a = i * PAGE_SIZE /\ usable_frame usable_type entries i /\
    ~ (addr <= i * PAGE_SIZE < addr + bitmap_bytes size).

(** The invariant of the machine. *)
Record frame_inv (off usable_type : Z) (m0 : mem) (entries : list region) (size addr : Z)
  (s : st bitmap) (A : gset Z) : Prop := {
  fi_map : map_ok off usable_type m0 entries size addr;
  fi_ok : frames_ok s (bitmap_bytes size);
  fi_free : forall i, searched s i -> frame_free s i ->
    (i * PAGE_SIZE ∉ A) /\ frame_addr_ok usable_type entries size addr (i * PAGE_SIZE);
  fi_used : forall a, a ∈ A -> exists i, a = i * PAGE_SIZE /\ searched s i /\
    frame_addr_ok usable_type entries size addr a
}.

(** *** A concrete machine: one usable region of 64 pages. *)

Definition demo_entries : list region := [Region 0 0 1; Region 4096 (64 * 4096) 0].
Definition demo_frames_mem : mem := fill 4096 9 255 ∅.

Lemma demo_map : map_ok 0 0 demo_frames_mem demo_entries (65 * 4096) 4096.
Proof.
  split; try done.
  - repeat constructor; try done.
  - apply Exists_cons. right. apply Exists_cons. left. done.
  - apply (fill_mapped 4096 9 255 ∅).
Qed.

Definition isSome {A} (o : option A) : bool := match o with Some _ => true | None => false end.

(** A bitmap of 8 bytes at address 64 in which only frame 1 is free. *)
Definition one_free : st bitmap := St (<[64 := 2]> (fill 64 8 0 ∅)) (Bitmap 64 8).

Lemma one_free_ok : bm_ok (smem one_free) (smgr one_free) 8.
Proof.
  split; try done. intros a Ha. unfold one_free. simpl smem. destruct (decide (a = 64)) as [->|].
  - by rewrite lookup_insert_eq.
  - rewrite lookup_insert_ne by done. by apply (fill_mapped 64 8 0 ∅).
Qed.

(** ** Invariance *)

Section Inv.
Context (off usable_type : Z) (m0 : mem) (entries : list region).

Lemma frame_step_ok s m' n i v :
  frames_ok s n -> bits_set (smem s) m' (bm_data (smgr s)) n (fun j => j = i) v ->
  frames_ok (with_mem m' s) n.
Proof. intros [Hok Hs Ha] Hb. split; [by eapply bm_ok_set|done|done]. Qed.

(** After a step on bit [i], the other frames are as free as before. *)
Lemma frame_free_step s m' n i j v :
  frames_ok s n -> bits_set (smem s) m' (bm_data (smgr s)) n (fun j => j = i) v ->
  searched s j -> frame_free (with_mem m' s) j <-> (j = i /\ v = true) \/ (j <> i /\ frame_free s j).
Proof.
  intros Hf [I O _ _] Hj. destruct (searched_lt _ _ _ Hf Hj) as [Hr1 Hr2]. unfold frame_free. simpl.
  destruct (decide (j = i)) as [->|Hne].
  - rewrite I by (done || lia). naive_solver.
  - rewrite O by (done || lia). naive_solver.
Qed.

Lemma frame_inv_init b0 s size addr :
  map_ok off usable_type m0 entries size addr -> 0 <= off < two64 ->
  frame_init off usable_type entries (St m0 b0) = Some (tt, s) ->
  frame_inv off usable_type m0 entries size addr s ∅.
Proof.
  intros Hm Hoff E.
  assert (Hr : runs (frame_init off usable_type entries) (St m0 b0)
    (fun _ s' => frame_inv off usable_type m0 entries size addr s' ∅)).
  { eapply runs_frame_init; [done|done|]. intros s' Hf Hfree _ _ _. split; try done.
    intros i Hi Hfr. split; [set_solver|]. apply Hfree in Hfr; [|done]. by exists i. }
  unfold runs in Hr. by rewrite E in Hr.
Qed.

(** Frame [i] is handed out. *)
Lemma frame_inv_take s A size addr i m' :
  frame_inv off usable_type m0 entries size addr s A -> searched s i -> frame_free s i ->
  bits_set (smem s) m' (bm_data (smgr s)) (bitmap_bytes size) (fun j => j = i) false ->
  frame_inv off usable_type m0 entries size addr (with_mem m' s) (hand_out (i * PAGE_SIZE) A).
Proof.
  intros [Hm Hf Hfree Hused] Hi Hfr Hb. destruct (Hfree i Hi Hfr) as [Hna Hok]. unfold hand_out.
  split; [done|by eapply frame_step_ok| |].
  - intros j Hj Hfj. apply (frame_free_step _ _ _ _ _ _ Hf Hb Hj) in Hfj as [[_ ?]|[Hne Hfj]]; [done|].
    destruct (Hfree j Hj Hfj) as [Hnj Hokj]. split; [|done].
    case_decide; [done|]. unfold PAGE_SIZE in *. rewrite not_elem_of_union, not_elem_of_singleton.
    split; [done|lia].
  - intros a Ha. case_decide; [by apply Hused|].
    apply elem_of_union in Ha as [Ha| ->%elem_of_singleton]; [by apply Hused|]. by exists i.
Qed.

Lemma frame_inv_alloc s A size addr :
  frame_inv off usable_type m0 entries size addr s A ->
  runs (alloc_frames 1) s (fun r s' =>
    frame_inv off usable_type m0 entries size addr s' (hand_out r A) /\
    (r <> 0 -> (r ∉ A) /\ frame_addr_ok usable_type entries size addr r)).
Proof.
  intros Hinv. pose proof Hinv as [Hm Hf Hfree Hused].
  apply (runs_alloc_frame s (bitmap_bytes size)); [done| |].
  - intros i m' Hi Hfr Hb. split; [by apply frame_inv_take|]. intros _. by apply Hfree.
  - intros Hno. unfold hand_out. rewrite decide_True by done. by split.
Qed.

Lemma frame_inv_free s A a size addr :
  frame_inv off usable_type m0 entries size addr s A -> a ∈ A ->
  runs (free_frames a 1) s (fun _ s' => frame_inv off usable_type m0 entries size addr s' (A ∖ {[a]})).
Proof.
  intros [Hm Hf Hfree Hused] Ha. destruct (Hused a Ha) as (i & -> & Hi & Hok).
  destruct (searched_lt _ _ _ Hf Hi) as [Hr1 Hr2].
  apply (runs_free_frame s (bitmap_bytes size)); [done|lia|lia|]. intros m' Hb.
  split; [done|by eapply frame_step_ok| |].
  - intros j Hj Hfj. apply (frame_free_step _ _ _ _ _ _ Hf Hb Hj) in Hfj as [[-> _]|[Hne Hfj]].
    + split; [set_solver|done].
    + destruct (Hfree j Hj Hfj) as [Hnj Hokj]. split; [set_solver|done].
  - intros b Hbin. apply Hused. set_solver.
Qed.

Lemma frame_reach_inv s A :
  frame_reach off usable_type m0 entries s A ->
  exists size addr, frame_inv off usable_type m0 entries size addr s A.
Proof.
  induction 1 as [b0 s size addr Hm Hoff E|s A r s' _ (size & addr & IH) E|s A a s' _ (size & addr & IH) Ha E].
  - exists size, addr. by eapply frame_inv_init.
  - exists size, addr. pose proof (frame_inv_alloc _ _ _ _ IH) as Hr.
    unfold runs in Hr. rewrite E in Hr. tauto.
  - exists size, addr. pose proof (frame_inv_free _ _ _ _ _ IH Ha) as Hr.
    unfold runs in Hr. by rewrite E in Hr.
Qed.
End Inv.

(** ** Properties *)

(** C12: frames are not shared.  After [frame::init] on the boot loader's memory map and any
    sequence of one-frame allocations and of frees of frames in use, the next one-frame
    [alloc_frames] returns; unless it answers 0, the frame it hands out is page-aligned, lies in a
    usable region, is not one of the bitmap's own and is not in use. *)
Theorem frames_never_shared (off usable_type : Z) (m0 : mem) (entries : list region)
  (s : st bitmap) (A : gset Z) :
  frame_reach off usable_type m0 entries s A ->
  exists size addr r s', alloc_frames 1 s = Some (r, s') /\
    get_memory_size usable_type entries = Some size /\
    bitmap_region usable_type (bitmap_bytes size) entries = addr /\
    (r <> 0 -> (r ∉ A) /\ frame_addr_ok usable_type entries size addr r) /\
    frame_reach off usable_type m0 entries s' (hand_out r A).
Proof.
  intros Hr. destruct (frame_reach_inv _ _ _ _ _ _ Hr) as (size & addr & Hi).
  pose proof (frame_inv_alloc _ _ _ _ _ _ _ _ Hi) as Ha. apply runs_inv in Ha as (r & s' & E & _ & Hn).
  exists size, addr, r, s'. pose proof (fi_map _ _ _ _ _ _ _ _ Hi) as [Hs _ _ Had _ _ _].
  split_ands; try done. by eapply frame_reach_alloc.
Qed.

Lemma frames_never_shared_witness :
  exists s size addr r s', alloc_frames 1 s = Some (r, s') /\
    get_memory_size 0 demo_entries = Some size /\
    bitmap_region 0 (bitmap_bytes size) demo_entries = addr /\
    (r <> 0 -> r ∉ (∅ : gset Z) /\ frame_addr_ok 0 demo_entries size addr r).
Proof.
  assert (Hsome : isSome (frame_init 0 0 demo_entries (St demo_frames_mem (Bitmap 0 0))) = true)
    by (vm_compute; reflexivity).
  destruct (frame_init 0 0 demo_entries (St demo_frames_mem (Bitmap 0 0))) as [[[] s]|] eqn:E;
    [|discriminate Hsome].
  exists s.
  destruct (frames_never_shared 0 0 demo_frames_mem demo_entries s ∅) as (size & addr & r & s' & H1 & H2 & H3 & H4 & _).
  - apply (frame_reach_init 0 0 demo_frames_mem demo_entries (Bitmap 0 0) s _ _ demo_map); [unfold two64; lia|exact E].
  - exists size, addr, r, s'. exact (conj H1 (conj H2 (conj H3 H4))).
Defined.

(** C13: [frame::init].  On a memory map as the boot loader promises it, initialisation returns
    (even though the loop of [get_memory_size] has no lower bound), and among the frames that the
    allocator searches exactly those of the usable regions are free, less the bitmap's own. *)
Theorem frame_init_correct (off usable_type : Z) (m : mem) (b0 : bitmap) (entries : list region)
  (size addr : Z) :
  map_ok off usable_type m entries size addr -> 0 <= off < two64 ->
  exists s, frame_init off usable_type entries (St m b0) = Some (tt, s) /\
    forall i, searched s i -> frame_free s i <->
      usable_frame usable_type entries i /\
      ~ (addr <= i * PAGE_SIZE < addr + bitmap_bytes size).
Proof.
  intros Hm Hoff.
  assert (Hr : runs (frame_init off usable_type entries) (St m b0) (fun _ s' =>
    forall i, searched s' i -> frame_free s' i <->
      usable_frame usable_type entries i /\
      ~ (addr <= i * PAGE_SIZE < addr + bitmap_bytes size))).
  { eapply runs_frame_init; [done|done|]. intros s' _ H _ _ _. exact H. }
  apply runs_inv in Hr as ([] & s' & E & H). by exists s'.
Qed.

Lemma frame_init_correct_witness :
  exists s, frame_init 0 0 demo_entries (St demo_frames_mem (Bitmap 0 0)) = Some (tt, s) /\
    forall i, searched s i -> frame_free s i <->
      usable_frame 0 demo_entries i /\
      ~ (4096 <= i * PAGE_SIZE < 4096 + bitmap_bytes (65 * 4096)).
Proof.
  apply (frame_init_correct 0 0 demo_frames_mem (Bitmap 0 0) demo_entries (65 * 4096) 4096 demo_map).
  by vm_compute.
Defined.

(** [set_range] sets exactly the bits from [start] to [end], and touches no byte outside the
    bitmap: the loop over the bits of the first byte, the loop over whole bytes and the loop over
    the bits of the last byte cover the range. *)
Lemma bitmap_set_range_correct (s : st bitmap) (n lo hi : Z) (v : bool) :
  bm_ok (smem s) (smgr s) n -> 0 <= lo < bm_size (smgr s) -> hi <= 8 * n ->
  exists m', bitmap_set_range lo hi v s = Some (tt, with_mem m' s) /\
    bits_set (smem s) m' (bm_data (smgr s)) n (fun j => lo <= j < hi) v.
Proof.
  intros Hok Hlo Hhi.
  assert (Hr : runs (bitmap_set_range lo hi v) s (fun _ s' => exists m', s' = with_mem m' s /\
    bits_set (smem s) m' (bm_data (smgr s)) n (fun j => lo <= j < hi) v)).
  { apply (runs_set_range n); [done..|]. intros m' H. by exists m'. }
  apply runs_inv in Hr as ([] & s' & E & m' & -> & H). by exists m'.
Qed.

(** [find_range] is sound for both values and complete for [true]: it always returns; an
    index it finds starts a run of [count] bits with the value inside the searched part, and when
    it looks for set bits and finds none there is no such run. *)
Lemma bitmap_find_range_correct (s : st bitmap) (n count : Z) (v : bool) :
  bm_ok (smem s) (smgr s) n -> 0 < count -> 0 <= bm_size (smgr s) <= 8 * n ->
  exists r, bitmap_find_range v count s = Some (r, s) /\
    let B := bits_of (smem s) (bm_data (smgr s)) in
    let bits := bm_size (smgr s) / 8 * 8 in
    (run_at B v count r /\ 0 <= r /\ r + count <= bits) \/
    (r = SIZE_MAX /\ (v = true -> forall k, 0 <= k -> k + count <= bits -> ~ run_at B v count k)).
Proof.
  intros Hok Hc Hs. set (B := bits_of (smem s) (bm_data (smgr s))).
  assert (Hr : runs (bitmap_find_range v count) s (fun r s' => s' = s /\
    ((run_at B v count r /\ 0 <= r /\ r + count <= bm_size (smgr s) / 8 * 8) \/
     (r = SIZE_MAX /\ (v = true -> forall k, 0 <= k -> k + count <= bm_size (smgr s) / 8 * 8 ->
        ~ run_at B v count k))))).
  { apply (runs_find_range s n); [done..| |]; intros; split; auto. }
  apply runs_inv in Hr as (r & s' & E & -> & H). by exists r.
Qed.

(** ** What the code does not do *)

(** [alloc_frames(2)] hands out frame 2, which is in use: it searches for one free frame only. *)
Lemma alloc_frames_two_overlaps :
  fst <$> alloc_frames 2 one_free = Some (1 * PAGE_SIZE) /\
  bit_at (smem one_free) 64 2 = Some false.
Proof. split; vm_compute; reflexivity. Qed.

(** Looking for 7 clear bits after a byte 0x01, [find_range] misses those of that byte. *)
Definition byte_01 : st bitmap := St (<[64 := 1]> ∅) (Bitmap 64 8).

Lemma find_range_false_incomplete :
  fst <$> bitmap_find_range false 7 byte_01 = Some SIZE_MAX /\
  forall i, 1 <= i < 8 -> bit_at (smem byte_01) 64 i = Some false.
Proof.
  split; [vm_compute; reflexivity|]. intros i Hi.
  assert (i = 1 \/ i = 2 \/ i = 3 \/ i = 4 \/ i = 5 \/ i = 6 \/ i = 7) as Hc by lia.
  destruct_or! Hc; subst i; vm_compute; reflexivity.
Qed.
