(* ===== verification/Freelist.v ===== *)
(** Freelist: the doubly linked free lists of the allocator ([mm/alloc/freelist.hpp]).

    A node lives in the payload of a free block: [next] at offset 0, [prev] at offset 8.  A list
    head is a field of the manager; an operation that takes [freelist_t *list_p] takes the head's
    value here and returns the new one. *)

From Stdlib Require Import ZArith Lia.
From stdpp Require Import prelude gmap.
From S2P Require Import Prelude Mem Block.

Definition FREELIST_MAXBLKSIZE : Z := 16384.

(** [__builtin_clz] on a 32-bit unsigned argument that is not 0. *)
Definition clz32 (x : Z) : Z := 31 - Z.log2 (u32 x).

Definition freelists_size2id (size : Z) : Z :=
  if size <? 64 then 0
  else if size <? 256 then 1
  else if FREELIST_MAXBLKSIZE <=? size then -1
  else (32 - 9) - clz32 size + 2.

Definition PADDING_DOWN (size to : Z) : Z := size / to *! to.
Definition PADDING_UP (size to : Z) : Z := PADDING_DOWN (size +! to -! 1) to.

Section Freelist.
Context {X : Type}.
Abbreviation M := (M (st X)).

Definition next_of (ptr : Z) : M Z := ld ptr.
Definition prev_of (ptr : Z) : M Z := ld (ptr +! 8).
Definition set_next (ptr v : Z) : M unit := sto ptr v.
Definition set_prev (ptr v : Z) : M unit := sto (ptr +! 8) v.

(** The pointer updates shared by the two [detach] functions:
    [if (ptr->next) ptr->next->prev = ptr->prev; if (ptr->prev) ptr->prev->next = ptr->next;] *)
Definition unlink (ptr : Z) : M unit :=
  n <- next_of ptr ;;
  whenM (negb (n =? NULL)) (p <- prev_of ptr ;; set_prev n p) ;;
  p <- prev_of ptr ;;
  whenM (negb (p =? NULL)) (n <- next_of ptr ;; set_next p n).

Definition freelist_detach (list ptr : Z) : M Z :=
  if list =? ptr then next_of ptr
  else unlink ptr ;; ret list.

(** [lists[id]] and its assignment; every use has [0 <= id < FREELIST_NUM]. *)
Definition list_get (lists : list Z) (id : Z) : Z := nth (Z.to_nat id) lists NULL.
Definition list_set (lists : list Z) (id v : Z) : list Z := <[Z.to_nat id := v]> lists.

(** Returns the new array of heads; the C function returns [ptr] itself. *)
Definition freelists_detach (lists : list Z) (id ptr : Z) : M (list Z) :=
  if list_get lists id =? ptr
  then n <- next_of ptr ;; ret (list_set lists id n)
  else unlink ptr ;; ret lists.

(** The traversals.  [fits] is the test on the candidate block.  A traversal returns the first
    node that fits, or NULL. *)
Fixpoint list_search (fuel : nat) (fits : Z -> M bool) (list : Z) : M Z :=
  match fuel with
  | O => stuck
  | S fuel' =>
      if list =? NULL then ret NULL
      else ok <- fits list ;;
           if ok then ret list
           else n <- next_of list ;; list_search fuel' fits n
  end.

Definition match_with (fuel : nat) (fits : Z -> M bool) (list_p : Z) : M (Z * Z) :=
  list <- list_search fuel fits list_p ;;
  if list =? NULL then ret (list_p, NULL)
  else list_p' <- freelist_detach list_p list ;; ret (list_p', list).

Fixpoint matches_with (n : nat) (fuel : nat) (fits : Z -> M bool) (lists : list Z) (id : Z)
  : M (list Z * Z) :=
  match n with
  | O => ret (lists, NULL)
  | S n' =>
      list <- list_search fuel fits (list_get lists id) ;;
      if list =? NULL then matches_with n' fuel fits lists (id + 1)
      else lists' <- freelists_detach lists id list ;; ret (lists', list)
  end.

(** [tgt_size >= size] *)
Definition fits_size (size list : Z) : M bool :=
  tgt_size <- blk_size list ;; ret (size <=? tgt_size).

(** The macro [aligned_size_of(ptr, align)], a signed [long]. *)
Definition aligned_size_of (ptr align : Z) : M Z :=
  size <- blk_size ptr ;;
  ret (s64 (s64 size - s64 (PADDING_UP ptr align -! ptr))).
Definition fits_aligned (size align list : Z) : M bool :=
  tgt_size <- aligned_size_of list align ;; ret (s64 size <=? tgt_size).

Definition freelist_match (fuel : nat) (list_p size : Z) : M (Z * Z) :=
  match_with fuel (fits_size size) list_p.
Definition freelists_match (fuel : nat) (lists : list Z) (size : Z) : M (list Z * Z) :=
  let id := freelists_size2id size in
  if id <? 0 then ret (lists, NULL)
  else matches_with (FREELIST_NUM - Z.to_nat id) fuel (fits_size size) lists id.
Definition freelist_aligned_match (fuel : nat) (list_p size align : Z) : M (Z * Z) :=
  match_with fuel (fits_aligned size align) list_p.
Definition freelists_aligned_match (fuel : nat) (lists : list Z) (size align : Z)
  : M (list Z * Z) :=
  let id := freelists_size2id size in
  if id <? 0 then ret (lists, NULL)
  else matches_with (FREELIST_NUM - Z.to_nat id) fuel (fits_aligned size align) lists id.

(** Returns the new head. *)
Definition freelist_put (list_p ptr : Z) : M Z :=
  set_next ptr list_p ;;
  set_prev ptr NULL ;;
  n <- next_of ptr ;;
  whenM (negb (n =? NULL)) (set_prev n ptr) ;;
  ret ptr.

Definition freelists_put (lists : list Z) (ptr : Z) : M (list Z * bool) :=
  size <- blk_size ptr ;;
  let id := freelists_size2id size in
  if id <? 0 then ret (lists, false)
  else head <- freelist_put (list_get lists id) ptr ;;
       ret (list_set lists id head, true).
End Freelist.

(** ** The size classes *)

Lemma size2id_mid size :
  256 <= size < 16384 -> freelists_size2id size = Z.log2 size - 6.
Proof.
  intros H. unfold freelists_size2id, FREELIST_MAXBLKSIZE, clz32, u32.
  rewrite Z.mod_small by (unfold two32; lia).
  destruct (Z.ltb_spec size 64), (Z.ltb_spec size 256), (Z.leb_spec 16384 size); lia.
Qed.

Lemma log2_mid size : 256 <= size < 16384 -> 8 <= Z.log2 size < 14.
Proof.
  intros H. split.
  - change 8 with (Z.log2 256). apply Z.log2_le_mono. lia.
  - apply Z.log2_lt_pow2; simpl; lia.
Qed.

Lemma size2id_range size : -1 <= freelists_size2id size < 8.
Proof.
  destruct (decide (256 <= size < 16384)).
  - rewrite size2id_mid by done. pose proof (log2_mid size). lia.
  - unfold freelists_size2id, FREELIST_MAXBLKSIZE.
    destruct (Z.ltb_spec size 64), (Z.ltb_spec size 256), (Z.leb_spec 16384 size); lia.
Qed.

Lemma size2id_large size : freelists_size2id size < 0 <-> 16384 <= size.
Proof.
  destruct (decide (256 <= size < 16384)).
  - rewrite size2id_mid by done. pose proof (log2_mid size). lia.
  - unfold freelists_size2id, FREELIST_MAXBLKSIZE.
    destruct (Z.ltb_spec size 64), (Z.ltb_spec size 256), (Z.leb_spec 16384 size); lia.
Qed.

(** A block that is large enough for a request is never in a lower class than the request. *)
Lemma size2id_mono s t :
  s <= t -> 0 <= freelists_size2id t -> freelists_size2id s <= freelists_size2id t.
Proof.
  intros Hst Ht.
  assert (Ht' : t < 16384) by (pose proof (size2id_large t); lia). clear Ht.
  destruct (decide (256 <= t)) as [Ht2|Ht2].
  - destruct (decide (256 <= s)).
    + rewrite !size2id_mid by lia. pose proof (Z.log2_le_mono s t). lia.
    + pose proof (log2_mid t). rewrite (size2id_mid t) by lia.
      unfold freelists_size2id, FREELIST_MAXBLKSIZE.
      destruct (Z.ltb_spec s 64), (Z.ltb_spec s 256), (Z.leb_spec 16384 s); lia.
  - unfold freelists_size2id, FREELIST_MAXBLKSIZE.
    destruct (Z.ltb_spec s 64), (Z.ltb_spec s 256), (Z.leb_spec 16384 s); try lia;
    destruct (Z.ltb_spec t 64), (Z.ltb_spec t 256), (Z.leb_spec 16384 t); lia.
Qed.
