(* ===== verification/SizedPool.v ===== *)
(** SizedPool: the pool of equal elements ([mm/heap/sized-pool.cpp]). *)

From Stdlib Require Import ZArith Lia.
From stdpp Require Import prelude gmap.
From S2P Require Import Prelude Mem Block.

Record sized_mpool := SPool {
  sp_area : Z;
  sp_total : Z;
  sp_bsize : Z;
  sp_len : Z;
  sp_nalloced : Z;
  sp_freelist : Z
}.

Abbreviation SM := (M (st sized_mpool)).

Definition sp_set_freelist (v : Z) (p : sized_mpool) : sized_mpool :=
  SPool (sp_area p) (sp_total p) (sp_bsize p) (sp_len p) (sp_nalloced p) v.

(** The functions take the pool by pointer; [pool == NULL] is not a state of this model. *)
Definition sized_mpool_init (ptr bsize len : Z) : SM unit :=
  modify (with_mgr (SPool ptr (bsize *! len) bsize len 0 ptr)) ;;
  forM 1 len (fun i => sto (ptr +! (i - 1) *! bsize) (ptr +! i *! bsize)) ;;
  sto (ptr +! (len -! 1) *! bsize) NULL.

Definition sized_mpool_alloc : SM Z :=
  pool <- gets (@smgr _) ;;
  if sp_freelist pool =? NULL then ret NULL
  else
    next <- ld (sp_freelist pool) ;;
    modify (with_mgr (sp_set_freelist next pool)) ;;
    ret (sp_freelist pool).

Definition sized_mpool_free (ptr : Z) : SM unit :=
  if ptr =? NULL then ret tt
  else
    pool <- gets (@smgr _) ;;
    sto ptr (sp_freelist pool) ;;
    modify (with_mgr (sp_set_freelist ptr pool)).

Definition sized_mpool_inpool (ptr : Z) : SM bool :=
  if ptr =? NULL then ret false
  else
    pool <- gets (@smgr _) ;;
    ret (negb ((ptr <? sp_area pool) || (sp_area pool +! sp_total pool <=? ptr))).

(** ** The abstract pool *)

(** Element [i] of the pool. *)
Definition slot (p : sized_mpool) (i : Z) : Z := sp_area p + i * sp_bsize p.

(** The free list: each node's first word is the address of the next. *)
Fixpoint sll (m : mem) (l : list Z) : Prop :=
  match l with
  | [] => True
  | x :: l' => load64 m x = Some (hd NULL l') /\ sll m l'
  end.

(** The area of a pool of [len] elements of [bsize] bytes, the size a multiple of 8 or not. *)
Record slots_ok (m : mem) (p : sized_mpool) : Prop := {
  so_base : 0 < sp_area p;
  so_bsize : 8 <= sp_bsize p;
  so_len : 0 < sp_len p;
  so_total : sp_total p = sp_bsize p * sp_len p;
  so_top : sp_area p + sp_bsize p * sp_len p < two64;
  so_mapped : mapped m (sp_area p) (sp_area p + sp_bsize p * sp_len p)
}.

(** [F] is the list of the numbers of the free elements, in the order of the free list. *)
Record spool_ok (s : st sized_mpool) (F : list Z) : Prop := {
  sk_slots : slots_ok (smem s) (smgr s);
  sk_range : Forall (fun i => 0 <= i < sp_len (smgr s)) F;
  sk_nodup : NoDup F;
  sk_head : sp_freelist (smgr s) = hd NULL (slot (smgr s) <$> F);
  sk_list : sll (smem s) (slot (smgr s) <$> F)
}.

(** ** Lemmas *)

Lemma slot_range m p i :
  slots_ok m p -> 0 <= i < sp_len p ->
  sp_area p <= slot p i /\ slot p i + sp_bsize p <= sp_area p + sp_bsize p * sp_len p.
Proof. intros [] Hi. unfold slot. nia. Qed.

Lemma slot_sep m p i j :
  slots_ok m p -> i <> j -> slot p i + 8 <= slot p j \/ slot p j + 8 <= slot p i.
Proof. intros [] Hne. unfold slot. destruct (Z.lt_total i j) as [?|[?|?]]; [left; nia|done|right; nia]. Qed.

Lemma slot_inj m p i j : slots_ok m p -> slot p i = slot p j -> i = j.
Proof. intros [] E. unfold slot in E. nia. Qed.

Lemma slot_mapped m p i : slots_ok m p -> 0 <= i < sp_len p -> mapped m (slot p i) (slot p i + 8).
Proof.
  intros Hs Hi. pose proof (slot_range _ _ _ Hs Hi). destruct Hs.
  eapply mapped_sub; [exact so_mapped0|lia..].
Qed.

(** A store to an element that is not on the list leaves the list. *)
Lemma sll_store m m' p i v F :
  slots_ok m p -> i ∉ F -> store64 m (slot p i) v = Some m' ->
  sll m (slot p <$> F) -> sll m' (slot p <$> F).
Proof.
  intros Hs Hi Hst. induction F as [|j F IH]; [done|]. rewrite fmap_cons.
  apply not_elem_of_cons in Hi as [Hne Hi]. intros [Hj HF]. split; [|by apply IH].
  rewrite <- Hj. eapply load64_store64_ne; [done|].
  destruct (slot_sep _ _ _ _ Hs Hne); lia.
Qed.

Lemma slots_store m m' p a v : slots_ok m p -> store64 m a v = Some m' -> slots_ok m' p.
Proof. intros [] H. split; try done. by eapply mapped_store64. Qed.

(** The numbers from [lo] on. *)
Definition upto (lo : Z) (n : nat) : list Z := (fun k => lo + Z.of_nat k) <$> seq 0 n.

Lemma upto_S lo n : upto lo (S n) = lo :: upto (lo + 1) n.
Proof.
  unfold upto. simpl. f_equal; [lia|]. rewrite <- fmap_S_seq, <- list_fmap_compose.
  apply list_fmap_ext. intros. simpl. lia.
Qed.
Lemma upto_in lo n i : i ∈ upto lo n <-> lo <= i < lo + Z.of_nat n.
Proof.
  unfold upto. rewrite list_elem_of_fmap. split.
  - intros (k & -> & Hk%elem_of_seq). lia.
  - intros Hi. exists (Z.to_nat (i - lo)). split; [lia|]. apply elem_of_seq. lia.
Qed.
Lemma upto_nodup lo n : NoDup (upto lo n).
Proof. unfold upto. apply NoDup_fmap_2; [intros ???; lia|apply NoDup_seq]. Qed.

(** The links that [init] has written below [k]: element [i] points to element [i + 1]. *)
Definition linked (m : mem) (p : sized_mpool) (k : Z) : Prop :=
  forall i, 0 <= i < k -> load64 m (slot p i) = Some (slot p (i + 1)).

Lemma linked_store m m' p k j v :
  slots_ok m p -> linked m p k -> k <= j -> store64 m (slot p j) v = Some m' -> linked m' p k.
Proof.
  intros Hs Hl Hj Hst i Hi. rewrite <- Hl by done. eapply load64_store64_ne; [done|].
  destruct (slot_sep _ _ i j Hs); lia.
Qed.

Lemma linked_sll m p k lo n :
  linked m p k -> load64 m (slot p k) = Some NULL -> 0 <= lo -> lo + Z.of_nat n = k + 1 ->
  sll m (slot p <$> upto lo n).
Proof.
  intros Hl Hk. revert lo. induction n as [|n IH]; intros lo Hlo Hn; [done|].
  rewrite upto_S, fmap_cons. split; [|apply IH; lia].
  destruct n as [|n].
  - simpl. by replace lo with k by lia.
  - rewrite upto_S, fmap_cons. simpl. apply Hl. lia.
Qed.

Section Rules.
Implicit Types (s : st sized_mpool).

Lemma runs_sized_init s ptr bsize len Q :
  slots_ok (smem s) (SPool ptr (bsize * len) bsize len 0 ptr) ->
  (forall s', spool_ok s' (upto 0 (Z.to_nat len)) -> 
     smgr s' = SPool ptr (bsize * len) bsize len 0 ptr -> Q tt s') ->
  runs (sized_mpool_init ptr bsize len) s Q.
Proof.
  intros Hs HQ. pose proof Hs as [Hb Hbs Hl _ Htop Hm]. simpl in *.
  unfold sized_mpool_init. assert (Htot : bsize *! len = bsize * len) by (norm_words; done).
  rewrite Htot. set (p := SPool ptr (bsize * len) bsize len 0 ptr) in *.
  apply runs_bind, runs_modify, runs_bind.
  apply (runs_forM (fun i s' => smgr s' = p /\ slots_ok (smem s') p /\ linked (smem s') p (i - 1))).
  - lia.
  - split_ands; try done. intros i Hi. lia.
  - intros i s' Hi (Hmg & Hs' & Hlk).
    assert (Hi1 : ptr +! (i - 1) *! bsize = slot p (i - 1)).
    { unfold slot. simpl. assert (0 <= (i - 1) * bsize < bsize * len) by nia. norm_words. lia. }
    assert (Hi2 : ptr +! i *! bsize = slot p (i - 1 + 1)).
    { unfold slot. simpl. assert (0 <= i * bsize < bsize * len) by nia. norm_words. lia. }
    rewrite Hi1, Hi2. apply runs_sto; [eapply slot_mapped; [done|simpl; lia]|].
    intros m' Hst. simpl. split_ands; [done|by eapply slots_store|].
    intros j Hj. destruct (decide (j = i - 1)) as [->|].
    + rewrite (load64_store64_eq _ _ _ _ Hst). f_equal. apply u64_small.
      pose proof (slot_range _ _ (i - 1 + 1) Hs'). simpl in *. nia.
    + eapply linked_store; [exact Hs'|exact Hlk| |exact Hst|]; lia.
  - intros s' (Hmg & Hs' & Hlk).
    assert (Hlast : ptr +! (len -! 1) *! bsize = slot p (len - 1)).
    { unfold slot. simpl. assert (0 <= (len - 1) * bsize < bsize * len) by nia.
      assert (len < two64) by nia. norm_words. lia. }
    rewrite Hlast. apply runs_sto; [eapply slot_mapped; [done|simpl; lia]|].
    intros m' Hst. apply HQ; [|by simpl]. split; simpl; rewrite ?Hmg.
    + by eapply slots_store.
    + apply Forall_forall. intros i Hi%upto_in. simpl. lia.
    + apply upto_nodup.
    + simpl. replace (Z.to_nat len) with (S (Z.to_nat (len - 1))) by lia. rewrite upto_S. simpl.
      unfold slot. simpl. lia.
    + apply (linked_sll _ _ (len - 1)); try lia.
      * apply (linked_store _ _ _ _ _ _ Hs' Hlk (Z.le_refl _) Hst).
      * apply (load64_store64_eq _ _ _ _ Hst).
Qed.

Lemma runs_sized_alloc s F Q :
  spool_ok s F ->
  match F with
  | [] => Q NULL s
  | i :: F' => forall s', spool_ok s' F' -> smem s' = smem s ->
      smgr s' = sp_set_freelist (hd NULL (slot (smgr s) <$> F')) (smgr s) -> Q (slot (smgr s) i) s'
  end ->
  runs sized_mpool_alloc s Q.
Proof.
  intros [Hs Hr Hn Hh Hl] HQ. unfold sized_mpool_alloc. apply runs_bind, runs_gets. rewrite Hh.
  destruct F as [|i F]; simpl hd.
  - by apply runs_ret.
  - apply Forall_cons in Hr as [Hi Hr]. apply NoDup_cons in Hn as [Hni Hn]. destruct Hl as [Hli Hl].
    destruct (slot_range _ _ _ Hs Hi) as [Hlo _]. pose proof (so_base _ _ Hs).
    simpl. replace (slot (smgr s) i =? NULL) with false by (unfold NULL; lia).
    eapply runs_bind, runs_ld; [exact Hli|]. apply runs_bind, runs_modify, runs_ret.
    apply HQ; [|done|done]. split; simpl; try done. by destruct Hs.
Qed.

Lemma runs_sized_free s F i Q :
  spool_ok s F -> 0 <= i < sp_len (smgr s) -> i ∉ F ->
  (forall s', spool_ok s' (i :: F) -> 
     smgr s' = sp_set_freelist (slot (smgr s) i) (smgr s) -> Q tt s') ->
  runs (sized_mpool_free (slot (smgr s) i)) s Q.
Proof.
  intros [Hs Hr Hn Hh Hl] Hi HiF HQ. unfold sized_mpool_free.
  destruct (slot_range _ _ _ Hs Hi) as [Hlo _]. pose proof (so_base _ _ Hs).
  replace (slot (smgr s) i =? NULL) with false by (unfold NULL; lia).
  apply runs_bind, runs_gets, runs_bind, runs_sto; [by eapply slot_mapped|]. intros m' Hst.
  apply runs_modify, HQ; [|done]. split; simpl.
  - apply (slots_store _ _ _ _ _ Hs) in Hst. by destruct Hst.
  - by constructor.
  - by constructor.
  - done.
  - change (slot (sp_set_freelist _ (smgr s))) with (slot (smgr s)).
    change (list_fmap Z Z (slot (smgr s)) F) with (slot (smgr s) <$> F).
    split; [|by eapply sll_store].
    rewrite (load64_store64_eq _ _ _ _ Hst). f_equal. rewrite u64_small; [done|].
    rewrite Hh. destruct F as [|j F]; simpl; [unfold NULL, two64; lia|].
    apply Forall_cons in Hr as [Hj _]. destruct (slot_range _ _ _ Hs Hj). pose proof (so_top _ _ Hs).
    destruct Hs. lia.
Qed.
End Rules.
