(* ===== verification/SizedThms.v ===== *)
(** SizedThms: the properties of the pool of equal elements. *)

From Stdlib Require Import ZArith Lia.
From stdpp Require Import prelude gmap.
From S2P Require Import Prelude Mem Block SizedPool.

(** A pool and its users: elements handed out and not given back are [A], and their owners write
    to them as they like. *)
Inductive sized_reach (m0 : mem) (ptr bsize len : Z) : st sized_mpool -> gset Z -> Prop :=
  | sized_reach_init p0 s :
      slots_ok m0 (SPool ptr (bsize * len) bsize len 0 ptr) ->
      sized_mpool_init ptr bsize len (St m0 p0) = Some (tt, s) ->
      sized_reach m0 ptr bsize len s ∅
  | sized_reach_alloc s A r s' :
      sized_reach m0 ptr bsize len s A -> sized_mpool_alloc s = Some (r, s') ->
      sized_reach m0 ptr bsize len s' (if decide (r = NULL) then A else {[r]} ∪ A)
  | sized_reach_free s A a s' :
      sized_reach m0 ptr bsize len s A -> a ∈ A -> sized_mpool_free a s = Some (tt, s') ->
      sized_reach m0 ptr bsize len s' (A ∖ {[a]})
  | sized_reach_write s A a k v m' :
      sized_reach m0 ptr bsize len s A -> a ∈ A -> 0 <= k < bsize ->
      store8 (smem s) (a + k) v = Some m' ->
      sized_reach m0 ptr bsize len (with_mem m' s) A.

(** The invariant: the free and the handed out elements are together all of them, once each. *)
Record sized_inv (ptr bsize len : Z) (s : st sized_mpool) (A : gset Z) (F : list Z) : Prop := {
  si_ok : spool_ok s F;
  si_fields : sp_area (smgr s) = ptr /\ sp_bsize (smgr s) = bsize /\ sp_len (smgr s) = len;
  si_all : forall a, a ∈ A <-> exists i, 0 <= i < len /\ (i ∉ F) /\ a = slot (smgr s) i;
}.

(** A concrete pool of 4 elements of 24 bytes. *)
Definition demo_slots_mem : mem := fill 4096 96 0 ∅.
Definition demo_slots : st sized_mpool :=
  match sized_mpool_init 4096 24 4 (St demo_slots_mem (SPool 0 0 0 0 0 0)) with
  | Some (_, s) => s
  | None => St ∅ (SPool 0 0 0 0 0 0)
  end.

Lemma demo_slots_ok : slots_ok demo_slots_mem (SPool 4096 (24 * 4) 24 4 0 4096).
Proof. split; try done. apply (fill_mapped 4096 96 0 ∅). Qed.

Lemma demo_slots_init :
  sized_mpool_init 4096 24 4 (St demo_slots_mem (SPool 0 0 0 0 0 0)) = Some (tt, demo_slots).
Proof.
  assert (Hr : runs (sized_mpool_init 4096 24 4) (St demo_slots_mem (SPool 0 0 0 0 0 0))
    (fun _ _ => True)) by (by apply runs_sized_init; [apply demo_slots_ok|]).
  apply runs_inv in Hr as ([] & s & E & _). unfold demo_slots. by rewrite E.
Qed.

Section Inv.
Context (m0 : mem) (ptr bsize len : Z).

Lemma upto_all i : 0 < len -> i ∈ upto 0 (Z.to_nat len) <-> 0 <= i < len.
Proof. intros. rewrite upto_in. lia. Qed.

Lemma sized_inv_init p0 s :
  slots_ok m0 (SPool ptr (bsize * len) bsize len 0 ptr) ->
  sized_mpool_init ptr bsize len (St m0 p0) = Some (tt, s) ->
  sized_inv ptr bsize len s ∅ (upto 0 (Z.to_nat len)).
Proof.
  intros Hs E. pose proof (so_len _ _ Hs) as Hl. simpl in Hl.
  assert (Hr : runs (sized_mpool_init ptr bsize len) (St m0 p0)
    (fun _ s' => sized_inv ptr bsize len s' ∅ (upto 0 (Z.to_nat len)))).
  { apply runs_sized_init; [done|]. intros s' Hok Hmg. split; [done|by rewrite Hmg|].
    intros a. split; [set_solver|]. intros (i & Hi & Hn & _). destruct Hn. by apply upto_all. }
  unfold runs in Hr. by rewrite E in Hr.
Qed.

Lemma sized_inv_alloc s A F :
  sized_inv ptr bsize len s A F ->
  runs sized_mpool_alloc s (fun r s' =>
    (r = NULL /\ F = [] /\ sized_inv ptr bsize len s' A F) \/
    (exists i F', F = i :: F' /\ r = slot (smgr s) i /\ r <> NULL /\ (r ∉ A) /\
       sized_inv ptr bsize len s' ({[r]} ∪ A) F')).
Proof.
  intros [Hok Hf Hall]. pose proof Hok as [Hs Hr Hn _ _]. eapply runs_sized_alloc; [exact Hok|].
  destruct F as [|i F].
  - left. split_ands; done.
  - intros s' Hok' _ Hmg. right. exists i, F.
    apply Forall_cons in Hr as [Hi Hr]. apply NoDup_cons in Hn as [Hni Hn].
    destruct (slot_range _ _ _ Hs Hi) as [Hlo _]. pose proof (so_base _ _ Hs). destruct Hf as (Hf1 & Hf2 & Hf3).
    assert (Hsl : forall j, slot (smgr s') j = slot (smgr s) j) by (intros; by rewrite Hmg).
    split_ands; try done; [unfold NULL; lia| |].
    + rewrite Hall. intros (j & Hj & HjF & E). apply (slot_inj _ _ _ _ Hs) in E as <-. set_solver.
    + split; [done|by rewrite Hmg|]. intros a. rewrite elem_of_union, elem_of_singleton, Hall. split.
      * intros [->|(j & Hj & HjF & ->)].
        -- exists i. rewrite Hsl. split_ands; [lia|lia|done|done].
        -- exists j. rewrite Hsl. set_solver.
      * intros (j & Hj & HjF & ->). rewrite Hsl. destruct (decide (j = i)) as [->|]; [by left|].
        right. exists j. set_solver.
Qed.

Lemma sized_inv_free s A F a :
  sized_inv ptr bsize len s A F -> a ∈ A ->
  runs (sized_mpool_free a) s (fun _ s' => exists F', sized_inv ptr bsize len s' (A ∖ {[a]}) F').
Proof.
  intros [Hok (Hf1 & Hf2 & Hf3) Hall] Ha. pose proof Hok as [Hs _ _ _ _].
  apply Hall in Ha as (i & Hi & HiF & ->).
  eapply runs_sized_free; [exact Hok|by rewrite Hf3|done|]. intros s' Hok' Hmg. exists (i :: F).
  assert (Hsl : forall j, slot (smgr s') j = slot (smgr s) j) by (intros; by rewrite Hmg).
  split; [done|by rewrite Hmg|]. intros a. rewrite elem_of_difference, elem_of_singleton, Hall. split.
  - intros [(j & Hj & HjF & ->) Hne]. exists j. rewrite Hsl. split_ands; try lia.
    apply not_elem_of_cons. split; [congruence|done].
  - intros (j & Hj & HjF & ->). rewrite Hsl. apply not_elem_of_cons in HjF as [Hne HjF]. split.
    + by exists j.
    + intros E. by apply (slot_inj _ _ _ _ Hs) in E.
Qed.

Lemma sized_inv_write s A F a k v m' :
  sized_inv ptr bsize len s A F -> a ∈ A -> 0 <= k < bsize ->
  store8 (smem s) (a + k) v = Some m' -> sized_inv ptr bsize len (with_mem m' s) A F.
Proof.
  intros [Hok (Hf1 & Hf2 & Hf3) Hall] Ha Hk Hst. pose proof Hok as [Hs Hr Hn Hh Hl].
  apply Hall in Ha as (i & Hi & HiF & ->). apply store8_inv in Hst as [Hsome ->].
  split; [|done|done]. split; simpl; try done.
  - pose proof (so_mapped _ _ Hs) as Hm. destruct Hs. split; try done. intros b Hb. destruct (decide (slot (smgr s) i + k = b)) as [->|].
    + rewrite lookup_insert_eq. by eexists.
    + rewrite lookup_insert_ne by done.
      by apply Hm.
  - clear Hh Hok Hall. induction F as [|j F IH]; [done|]. rewrite fmap_cons in Hl |- *. destruct Hl as [Hj Hl].
    apply not_elem_of_cons in HiF as [Hne HiF]. apply Forall_cons in Hr as [Hjr Hr].
    apply NoDup_cons in Hn as [_ Hn]. split; [|by apply IH].
    rewrite <- Hj. apply load_le_ext. intros b Hb. apply lookup_insert_ne.
    pose proof (so_bsize _ _ Hs). unfold slot in *. rewrite Hf1, Hf2 in *. clear - Hb Hne Hk H.
    destruct (Z.lt_total i j) as [Hij|[?|Hij]]; [|done|].
    + pose proof (Z.mul_le_mono_nonneg_r (i + 1) j bsize). lia.
    + pose proof (Z.mul_le_mono_nonneg_r (j + 1) i bsize). lia.
Qed.

Lemma sized_reach_inv s A :
  sized_reach m0 ptr bsize len s A -> exists F, sized_inv ptr bsize len s A F.
Proof.
  induction 1 as [p0 s Hs E|s A r s' _ (F & IH) E|s A a s' _ (F & IH) Ha E|s A a k v m' _ (F & IH) Ha Hk Hst].
  - eexists. by eapply sized_inv_init.
  - pose proof (sized_inv_alloc _ _ _ IH) as Hr. unfold runs in Hr. rewrite E in Hr.
    destruct Hr as [(-> & _ & H)|(i & F' & _ & _ & Hn & _ & H)].
    + exists F. by rewrite decide_True.
    + exists F'. by rewrite decide_False.
  - pose proof (sized_inv_free _ _ _ _ IH Ha) as Hr. unfold runs in Hr. by rewrite E in Hr.
  - exists F. by eapply sized_inv_write.
Qed.
End Inv.

(** ** Property *)

(** C16: elements are not shared and none is lost.  In every state that allocations, frees of
    elements in use and writes to elements in use can reach, [sized_mpool_alloc] returns; it
    answers NULL exactly when every element is in use, and else an element that is not. *)
Theorem sized_pool_correct (m0 : mem) (ptr bsize len : Z) (s : st sized_mpool) (A : gset Z) :
  sized_reach m0 ptr bsize len s A ->
  exists r s', sized_mpool_alloc s = Some (r, s') /\
    (r = NULL <-> forall i, 0 <= i < len -> ptr + i * bsize ∈ A) /\
    (r <> NULL -> r ∉ A /\ exists i, 0 <= i < len /\ r = ptr + i * bsize).
Proof.
  intros Hr. destruct (sized_reach_inv _ _ _ _ _ _ Hr) as (F & Hi). pose proof Hi as [Hok (Hf1 & Hf2 & Hf3) Hall].
  assert (Hslot : forall i, slot (smgr s) i = ptr + i * bsize) by (intros; unfold slot; congruence).
  pose proof (sized_inv_alloc _ _ _ _ _ _ Hi) as Ha. apply runs_inv in Ha as (r & s' & E & Hcase).
  exists r, s'. split; [done|]. destruct Hcase as [(-> & -> & _)|(i & F' & -> & -> & Hn & HnA & _)].
  - split; [|done]. split; [|done]. intros _ i Hir. apply Hall. exists i. split_ands; [lia|lia| |done].
    apply not_elem_of_nil.
  - pose proof (sk_range _ _ Hok) as Hrg. apply Forall_cons in Hrg as [Hir _]. rewrite Hf3 in Hir.
    rewrite Hslot in *. split; [|intros _; split; [done|by exists i]].
    split; [done|]. intros Hfull. by destruct (HnA (Hfull i Hir)).
Qed.

Lemma sized_pool_correct_witness :
  exists r s', sized_mpool_alloc demo_slots = Some (r, s') /\
    (r = NULL <-> forall i, 0 <= i < 4 -> 4096 + i * 24 ∈ (∅ : gset Z)) /\
    (r <> NULL -> r ∉ (∅ : gset Z) /\ exists i, 0 <= i < 4 /\ r = 4096 + i * 24).
Proof.
  apply (sized_pool_correct demo_slots_mem 4096 24 4 demo_slots ∅).
  eapply sized_reach_init; [apply demo_slots_ok|apply demo_slots_init].
Defined.
