(* ===== verification/Pool.v ===== *)
(** Pool: the memory pool of the kernel heap ([mm/heap/pool.cpp], [struct mpool] of
    [mm/alloc/alloc.hpp]): definitions. *)

From Stdlib Require Import ZArith Lia.
From stdpp Require Import prelude gmap.
From S2P Require Import Prelude Mem Block Klibc Freelist.

(** [cb_reqmem_t] and [cb_delmem_t]: functions the pool's owner supplies. *)
Definition cb_reqmem_t : Type := Z -> Z -> mem -> option (Z * mem).
Definition cb_delmem_t : Type := Z -> Z -> mem -> option mem.

Record mpool := Mpool {
  mp_ptr : Z;
  mp_size : Z;
  mp_alloced_size : Z;
  mp_cb_reqmem : option cb_reqmem_t;
  mp_cb_delmem : option cb_delmem_t;
  mp_large_blk : Z;
  mp_freed : list Z
}.

Definition set_ptr v p := Mpool v (mp_size p) (mp_alloced_size p) (mp_cb_reqmem p)
  (mp_cb_delmem p) (mp_large_blk p) (mp_freed p).
Definition set_size v p := Mpool (mp_ptr p) v (mp_alloced_size p) (mp_cb_reqmem p)
  (mp_cb_delmem p) (mp_large_blk p) (mp_freed p).
Definition set_alloced v p := Mpool (mp_ptr p) (mp_size p) v (mp_cb_reqmem p)
  (mp_cb_delmem p) (mp_large_blk p) (mp_freed p).
Definition set_cbs r d p := Mpool (mp_ptr p) (mp_size p) (mp_alloced_size p) r d
  (mp_large_blk p) (mp_freed p).
Definition set_large v p := Mpool (mp_ptr p) (mp_size p) (mp_alloced_size p) (mp_cb_reqmem p)
  (mp_cb_delmem p) v (mp_freed p).
Definition set_freed v p := Mpool (mp_ptr p) (mp_size p) (mp_alloced_size p) (mp_cb_reqmem p)
  (mp_cb_delmem p) (mp_large_blk p) v.

(** An all-zero structure, the value of a [static struct mpool] and of [(struct mpool){}]. *)
Definition mpool_zero : mpool := Mpool NULL 0 0 None None NULL (replicate FREELIST_NUM NULL).

Abbreviation PM := (M (st mpool)).

(** A block takes at least 32 bytes of the area, so no free list is longer than this. *)
Definition pool_fuel (p : mpool) : nat := S (Z.to_nat (mp_size p / 32)).

Definition field {A} (f : mpool -> A) : PM A := gets (fun s => f (smgr s)).
Definition assign (f : mpool -> mpool) : PM unit := modify (fun s => with_mgr (f (smgr s)) s).

Definition run_reqmem (f : cb_reqmem_t) (ptr size : Z) : PM Z :=
  fun s => match f ptr size (smem s) with Some (r, m) => Some (r, with_mem m s) | None => None end.
Definition run_delmem (f : cb_delmem_t) (ptr size : Z) : PM unit :=
  fun s => match f ptr size (smem s) with Some m => Some (tt, with_mem m s) | None => None end.

Definition _detach (ptr : Z) : PM unit :=
  size <- blk_size ptr ;;
  let id := freelists_size2id size in
  if id <? 0 then
    large <- field mp_large_blk ;;
    large' <- freelist_detach large ptr ;;
    assign (set_large large')
  else
    freed <- field mp_freed ;;
    freed' <- freelists_detach freed id ptr ;;
    assign (set_freed freed').

(** [pool] is a [static struct mpool], so the test [pool == NULL] is left out. *)
Definition mpool_init (ptr size : Z) : PM bool :=
  if (ptr =? NULL) || (size =? 0) then ret false
  else if negb (size &! (2 * SIZEOF_SIZE_T - 1) =? 0) then ret false
  else
    assign (set_ptr ptr) ;;
    assign (set_size size) ;;
    assign (set_alloced 0) ;;
    assign (set_cbs None None) ;;
    assign (set_large NULL) ;;
    assign (set_freed (replicate FREELIST_NUM NULL)) ;;
    allocarea_init ptr size NULL ;;
    large <- field mp_large_blk ;;
    large' <- freelist_put large (ptr +! 2 * SIZEOF_SIZE_T) ;;
    assign (set_large large') ;;
    ret true.

Definition mpool_deinit : PM unit :=
  cb <- field mp_cb_delmem ;;
  ptr <- field mp_ptr ;;
  size <- field mp_size ;;
  match cb with Some f => run_delmem f ptr size | None => ret tt end ;;
  assign (fun _ => mpool_zero).

Definition mpool_alloced_size : PM Z := field mp_alloced_size.
Definition mpool_total_size : PM Z := field mp_size.
Definition mpool_setcb (reqmem : option cb_reqmem_t) (delmem : option cb_delmem_t) : PM unit :=
  assign (set_cbs reqmem delmem).

Definition put_large (ptr : Z) : PM unit :=
  large <- field mp_large_blk ;;
  large' <- freelist_put large ptr ;;
  assign (set_large large').

Definition mpool_reqmem (size : Z) : PM bool :=
  cb <- field mp_cb_reqmem ;;
  match cb with
  | None => ret false
  | Some reqmem =>
      let memsize := PADDING_16k size in
      pptr <- field mp_ptr ;;
      psize <- field mp_size ;;
      mem <- run_reqmem reqmem (pptr +! psize) memsize ;;
      if mem =? NULL then ret false
      else if negb (mem =? pptr) then
        cbd <- field mp_cb_delmem ;;
        match cbd with Some delmem => run_delmem delmem mem memsize | None => ret tt end ;;
        ret false
      else
        ptr <- allocarea_reinit pptr psize (psize +! memsize) ;;
        assign (set_size (psize +! memsize)) ;;
        ptr <- blk_trymerge ptr (Some _detach) ;;
        sz <- blk_size ptr ;;
        blk_setfreed ptr sz ;;
        put_large ptr ;;
        ret true
  end.

Definition do_free (ptr : Z) : PM unit :=
  size <- blk_size ptr ;;
  blk_setfreed ptr size ;;
  freed <- field mp_freed ;;
  '(freed', puted) <- freelists_put freed ptr ;;
  assign (set_freed freed') ;;
  whenM (negb puted) (put_large ptr).

Definition try_split_and_free (ptr size : Z) : PM bool :=
  bs <- blk_size ptr ;;
  if size +! 8 * SIZEOF_SIZE_T <=? bs then
    new_ptr <- blk_split ptr size ;;
    do_free new_ptr ;;
    ret true
  else ret false.

(** [freelists_match(pool->freed, size) ?: freelist_match(&pool->large_blk, size)], with the
    pool's heads updated; likewise for the aligned search. *)
Definition match_freed (find : nat -> list Z -> PM (list Z * Z)) : PM Z :=
  fuel <- field pool_fuel ;;
  freed <- field mp_freed ;;
  '(freed', ptr) <- find fuel freed ;;
  assign (set_freed freed') ;;
  ret ptr.
Definition match_large (find : nat -> Z -> PM (Z * Z)) : PM Z :=
  fuel <- field pool_fuel ;;
  large <- field mp_large_blk ;;
  '(large', ptr) <- find fuel large ;;
  assign (set_large large') ;;
  ret ptr.

(** The operator [?:] between the two searches. *)
Definition match_any (find1 : nat -> list Z -> PM (list Z * Z)) (find2 : nat -> Z -> PM (Z * Z))
  : PM Z :=
  p <- match_freed find1 ;; if p =? NULL then match_large find2 else ret p.

Definition min_size (size : Z) : Z := if size =? 0 then 2 * SIZEOF_SIZE_T else PADDING size.

(** The end of both allocation functions: [size = blk_size(ptr); blk_setalloced(ptr, size);
    pool->alloced_size += size; return ptr;] *)
Definition finish_alloc (ptr : Z) : PM Z :=
  size <- blk_size ptr ;;
  blk_setalloced ptr size ;;
  alloced <- field mp_alloced_size ;;
  assign (set_alloced (alloced +! size)) ;;
  ret ptr.

Definition mpool_alloc (size0 : Z) : PM Z :=
  let size := min_size size0 in
  ptr <- match_any (fun fuel freed => freelists_match fuel freed size)
                   (fun fuel large => freelist_match fuel large size) ;;
  if ptr =? NULL then
    ok <- mpool_reqmem size ;;
    if negb ok then ret NULL
    else
      ptr <- match_large (fun fuel large => freelist_match fuel large size) ;;
      try_split_and_free ptr size ;;
      finish_alloc ptr
  else
    try_split_and_free ptr size ;;
    finish_alloc ptr.

(** From [size_t offset = ...] to the end of [mpool_aligned_alloc]. *)
Definition carve_aligned (ptr size align : Z) : PM Z :=
  let offset := PADDING_UP ptr align -! ptr in
  ptr' <- (if 0 <? offset then
             new_ptr <- blk_split ptr (offset -! 2 * SIZEOF_SIZE_T) ;;
             do_free ptr ;;
             ret new_ptr
           else ret ptr) ;;
  try_split_and_free ptr' size ;;
  finish_alloc ptr'.

Definition mpool_aligned_alloc (size0 align : Z) : PM Z :=
  if negb (align &! (align -! 1) =? 0) then ret NULL
  else if align <? 2 * SIZEOF_SIZE_T then mpool_alloc size0
  else
    let size := min_size size0 in
    ptr <- match_any (fun fuel freed => freelists_aligned_match fuel freed size align)
                     (fun fuel large => freelist_aligned_match fuel large size align) ;;
    if ptr =? NULL then
      ok <- mpool_reqmem (size +! align) ;;
      if negb ok then ret NULL
      else
        ptr <- match_large (fun fuel large => freelist_aligned_match fuel large size align) ;;
        carve_aligned ptr size align
    else carve_aligned ptr size align.

Definition mpool_free (ptr : Z) : PM unit :=
  if ptr =? NULL then ret tt
  else
    size <- blk_size ptr ;;
    alloced <- field mp_alloced_size ;;
    assign (set_alloced (alloced -! size)) ;;
    ptr' <- blk_trymerge ptr (Some _detach) ;;
    do_free ptr'.

Definition mpool_msize (ptr : Z) : PM Z :=
  if ptr =? NULL then ret 0 else blk_size ptr.

(** The second half of both reallocation functions: grow into the next block when it is free and
    long enough, else allocate, copy and free. *)
Definition next_fits (ptr size newsize : Z) : PM bool :=
  next <- blk_next ptr ;;
  if next =? NULL then ret false
  else
    freed <- blk_freed next ;;
    if freed then
      nsize <- blk_size next ;;
      let total_size := size +! 2 * SIZEOF_SIZE_T +! nsize in
      ret (newsize <=? total_size)
    else ret false.

Definition grow_or_move (ptr size newsize : Z) (alloc : PM Z) : PM Z :=
  fits <- next_fits ptr size newsize ;;
  if fits then
    ptr' <- blk_mergenext ptr (Some _detach) ;;
    try_split_and_free ptr' newsize ;;
    ret ptr'
  else
    new_ptr <- alloc ;;
    memcpy new_ptr ptr size ;;
    mpool_free ptr ;;
    ret new_ptr.

Definition mpool_realloc (ptr newsize0 : Z) : PM Z :=
  if ptr =? NULL then mpool_alloc newsize0
  else
    let newsize := min_size newsize0 in
    size <- blk_size ptr ;;
    if newsize <=? size then try_split_and_free ptr newsize ;; ret ptr
    else grow_or_move ptr size newsize (mpool_alloc newsize).

Definition mpool_aligned_realloc (ptr newsize0 align : Z) : PM Z :=
  if ptr =? NULL then mpool_aligned_alloc newsize0 align
  else if negb (align &! (align -! 1) =? 0) then ret NULL
  else if align <? 2 * SIZEOF_SIZE_T then mpool_realloc ptr newsize0
  else
    let newsize := min_size newsize0 in
    size <- blk_size ptr ;;
    if newsize <=? size then try_split_and_free ptr newsize ;; ret ptr
    else grow_or_move ptr size newsize (mpool_aligned_alloc newsize align).
