(* ===== verification/HeapInv.v ===== *)
(** HeapInv: the invariant of the boundary-tag heap and its preservation lemmas.

    The abstract state of an area is the list of its blocks in address order.  [heap_ok] relates
    it to the memory (tags, free lists) and to the list heads of the manager. *)

From Stdlib Require Import ZArith Lia.
From stdpp Require Import prelude gmap.
From S2P Require Import Prelude Mem Block Freelist.

(** ** Definitions *)

(** A block.  [bflag] is its FREE tag, [blisted] says that it is on a free list (the two differ
    only in the middle of an operation), and [bdata] is what the owner of the block has written:
    the first [length bdata] bytes of the payload. *)
Record blk := Blk {
  bptr : Z;
  bsz : Z;
  bflag : bool;
  blisted : bool;
  bdata : list Z
}.

(** [chain p bs e]: the payload of the first block of [bs] is at [p], the blocks are contiguous
    (16 bytes of tags between two payloads), and a block after the last would be at [e]. *)
Fixpoint chain (p : Z) (bs : list blk) (e : Z) : Prop :=
  match bs with
  | [] => p = e
  | b :: bs' => bptr b = p /\ chain (p + bsz b + 16) bs' e
  end.

Definition blk_ok (b : blk) : Prop :=
  16 <= bsz b /\ bsz b mod 16 = 0 /\ Z.of_nat (length (bdata b)) <= bsz b /\
  (blisted b = true -> bflag b = true /\ bdata b = []).

(** A tag word of [b]; the 2M flag is not used by a pool and may have either value. *)
Definition tagw (b : blk) (w : Z) : Prop :=
  exists s : bool, w = bsz b + (b2z (bflag b) + 4 * b2z s).

Definition tagged (m : mem) (b : blk) : Prop :=
  (exists w, load64 m (bptr b - 8) = Some w /\ tagw b w) /\
  (exists w, load64 m (bptr b + bsz b) = Some w /\ tagw b w).

Definition data_ok (m : mem) (b : blk) : Prop :=
  forall (i : nat) v, bdata b !! i = Some v -> load8 m (bptr b + Z.of_nat i) = Some v.

(** The nodes [l] are linked in [m]: forward from every node, backward from every node but the
    first (the code leaves a stale [prev] in the head of a list). *)
Fixpoint dll (m : mem) (l : list Z) : Prop :=
  match l with
  | [] => True
  | x :: l' =>
      load64 m x = Some (hd NULL l') /\
      match l' with [] => True | y :: _ => load64 m (y + 8) = Some x end /\
      dll m l'
  end.

Definition head_of (large : Z) (freed : list Z) (id : Z) : Z :=
  if id <? 0 then large else list_get freed id.

(** [ls id] is the free list number [id]; -1 is the list of large blocks. *)
Record lists_ok (m : mem) (large : Z) (freed : list Z) (bs : list blk) (ls : Z -> list Z)
  : Prop := {
  lo_len : length freed = FREELIST_NUM;
  lo_head : forall id, -1 <= id < 8 -> head_of large freed id = hd NULL (ls id);
  lo_dll : forall id, -1 <= id < 8 -> dll m (ls id);
  lo_nodup : forall id, -1 <= id < 8 -> NoDup (ls id);
  lo_in : forall id x, -1 <= id < 8 ->
    x ∈ ls id <-> exists b, b ∈ bs /\ bptr b = x /\ blisted b = true /\
                            freelists_size2id (bsz b) = id
}.

(** The geometry of an area of [size] bytes at [base].  [out] is the rest of the memory, which the
    allocator never touches. *)
Record area_ok (base size : Z) (out m : mem) (bs : list blk) : Prop := {
  ao_base : 64 <= base;
  ao_align : base mod 16 = 0;
  ao_top : base + size < two64;
  ao_mapped : mapped m base (base + size);
  ao_first : exists w, load64 m base = Some w /\ has_flag w AREA_FLAG = true;
  ao_last : exists w, load64 m (base + size - 8) = Some w /\ has_flag w AREA_FLAG = true;
  ao_chain : chain (base + 16) bs (base + size);
  ao_blk : Forall blk_ok bs;
  ao_tags : Forall (tagged m) bs;
  ao_data : Forall (data_ok m) bs;
  ao_out : forall a, a < base \/ base + size <= a -> m !! a = out !! a
}.

Definition heap_ok (base size : Z) (out m : mem) (large : Z) (freed : list Z) (bs : list blk) : Prop :=
  area_ok base size out m bs /\ exists ls, lists_ok m large freed bs ls.

(** Between two operations a block is tagged free exactly when it is listed. *)
Definition quiet (bs : list blk) : Prop := Forall (fun b => bflag b = blisted b) bs.

(** Two neighbours are never both free. *)
Fixpoint coalesced (bs : list blk) : Prop :=
  match bs with
  | b :: ((c :: _) as bs') => ~ (bflag b = true /\ bflag c = true) /\ coalesced bs'
  | _ => True
  end.

(** What the owner of the heap sees: the allocated blocks, in address order. *)
Definition live (bs : list blk) : list (Z * Z * list Z) :=
  (fun b => (bptr b, bsz b, bdata b)) <$> filter (fun b => blisted b = false) bs.
Definition live_bytes (bs : list blk) : Z :=
  foldr (fun b n => (if blisted b then 0 else bsz b) + n) 0 bs.

Definition set_flag (f : bool) (b : blk) : blk := Blk (bptr b) (bsz b) f (blisted b) (bdata b).
Definition set_listed (f : bool) (b : blk) : blk := Blk (bptr b) (bsz b) (bflag b) f (bdata b).
Definition set_data (d : list Z) (b : blk) : blk := Blk (bptr b) (bsz b) (bflag b) (blisted b) d.

(** ** Chains *)

Lemma chain_app p l r e : chain p (l ++ r) e <-> exists q, chain p l q /\ chain q r e.
Proof.
  revert p. induction l as [|b l IH]; intros p; simpl; [naive_solver|]. rewrite IH. naive_solver.
Qed.

Lemma chain_le p bs e : Forall blk_ok bs -> chain p bs e -> p <= e.
Proof.
  revert p. induction bs as [|b bs IH]; intros p Hok Hc; simpl in Hc; [lia|].
  apply Forall_cons in Hok as [[Hb _] Hok]. destruct Hc as [_ Hc]. apply IH in Hc; [lia|done].
Qed.

Lemma chain_in p bs e b :
  Forall blk_ok bs -> chain p bs e -> b ∈ bs -> p <= bptr b /\ bptr b + bsz b + 16 <= e.
Proof.
  intros Hok Hc Hb. apply list_elem_of_split in Hb as (l & r & ->).
  apply Forall_app in Hok as [Hl [Hb Hr]%Forall_cons].
  apply chain_app in Hc as (q & Hcl & [<- Hcr]).
  apply chain_le in Hcl; [|done]. apply chain_le in Hcr; [|done]. lia.
Qed.

(** Distinct blocks have disjoint extents. *)
Definition sep (b c : blk) : Prop := bptr b + bsz b + 16 <= bptr c \/ bptr c + bsz c + 16 <= bptr b.

Lemma chain_sep p bs e b c :
  Forall blk_ok bs -> chain p bs e -> b ∈ bs -> c ∈ bs -> b = c \/ sep b c.
Proof.
  revert p. induction bs as [|d bs IH]; intros p Hok Hc Hb Hc'; [by apply not_elem_of_nil in Hb|].
  pose proof Hok as Hok'. apply Forall_cons in Hok' as [Hd Hok'].
  destruct Hc as [Hp Hc]. unfold sep.
  apply elem_of_cons in Hb as [->|Hb]; apply elem_of_cons in Hc' as [->|Hc']; [by left| | |].
  - right. pose proof (chain_in _ _ _ _ Hok' Hc Hc'). lia.
  - right. pose proof (chain_in _ _ _ _ Hok' Hc Hb). lia.
  - by eapply IH.
Qed.

Lemma chain_align p bs e :
  Forall blk_ok bs -> p mod 16 = 0 -> chain p bs e -> Forall (fun b => bptr b mod 16 = 0) bs.
Proof.
  revert p. induction bs as [|b bs IH]; intros p Hok Hp Hc; [by constructor|].
  apply Forall_cons in Hok as [Hb Hok]. destruct Hc as [<- Hc]. constructor; [done|].
  apply (IH (bptr b + bsz b + 16)); [done| |done]. destruct Hb as (? & ? & _).
  rewrite Zplus_mod, (Zplus_mod (bptr b)). rewrite Hp. by rewrite H0.
Qed.

(** Every block takes 32 bytes or more, which bounds the length of any free list. *)
Lemma chain_length p bs e : Forall blk_ok bs -> chain p bs e -> 32 * Z.of_nat (length bs) <= e - p.
Proof.
  revert p. induction bs as [|b bs IH]; intros p Hok Hc; simpl in *; [lia|].
  apply Forall_cons in Hok as [[Hb _] Hok]. destruct Hc as [_ Hc]. apply IH in Hc; [lia|done].
Qed.

(** ** Linked lists under a change of memory *)

Lemma dll_frame m m' l :
  (forall x, x ∈ l -> load64 m' x = load64 m x) ->
  (forall x, x ∈ tail l -> load64 m' (x + 8) = load64 m (x + 8)) ->
  dll m l -> dll m' l.
Proof.
  induction l as [|x l IH]; [done|]. intros Hn Hp (H1 & H2 & H3). simpl in Hp. cbn [dll]. split_ands.
  - rewrite Hn; [done|left].
  - destruct l as [|y l]; [done|]. rewrite Hp; [done|left].
  - apply IH; [| |done]; intros y Hy; [apply Hn; by right|]. apply Hp.
    destruct l; simpl in Hy |- *; [done|by right].
Qed.

(** Taking [x] out of the middle of a list: its neighbours are linked to each other. *)
Lemma dll_unlink m m' l1 p x l2 :
  NoDup (l1 ++ p :: x :: l2) ->
  Forall (fun y => y mod 16 = 0) (l1 ++ p :: x :: l2) ->
  dll m (l1 ++ p :: x :: l2) ->
  load64 m' p = Some (hd NULL l2) ->
  (forall z, head l2 = Some z -> load64 m' (z + 8) = Some p) ->
  (forall a, a mod 8 = 0 -> a <> p -> (forall z, head l2 = Some z -> a <> z + 8) ->
     load64 m' a = load64 m a) ->
  dll m' (l1 ++ p :: l2).
Proof.
  intros Hnd Hal Hd Hp Hz Hfr. revert Hnd Hal Hd. induction l1 as [|w l1 IH]; intros Hnd Hal Hd.
  - simpl in *. destruct Hd as (_ & _ & _ & _ & Hd).
    apply NoDup_cons in Hnd as [Hnp Hnd]. apply NoDup_cons in Hnd as [Hnx Hnd].
    apply Forall_cons in Hal as [Hap Hal]. apply Forall_cons in Hal as [_ Hal].
    rewrite Forall_forall in Hal.
    split_ands; [done|destruct l2; [done|by apply Hz]|].
    apply (dll_frame m); [| |done].
    + intros y Hy. pose proof (Hal y Hy) as Ha.
      apply Hfr; [by Z.div_mod_to_equations; lia|set_solver|].
      intros z Ez E.
      destruct l2 as [|z' l2]; [done|]. simpl in Ez. simplify_eq.
      pose proof (Hal z ltac:(left)). Z.div_mod_to_equations; lia.
    + intros y Hy. destruct l2 as [|z l2]; [by apply not_elem_of_nil in Hy|]. simpl in Hy.
      pose proof (Hal y ltac:(by right)) as Ha.
      apply Hfr.
      * Z.div_mod_to_equations; lia.
      * intros E. Z.div_mod_to_equations; lia.
      * intros z' [= <-] E. assert (y = z) as -> by lia. apply NoDup_cons in Hnd as [? _]. done.
  - simpl in Hnd, Hal, Hd. destruct Hd as (Hd1 & Hd2 & Hd3).
    apply NoDup_cons in Hnd as [Hnw Hnd]. pose proof Hal as Hal0. apply Forall_cons in Hal as [Haw Hal].
    assert (Hwl : forall z, head l2 = Some z -> z mod 16 = 0).
    { intros z Ez. destruct l2 as [|z' l2]; [done|]. simpl in Ez. simplify_eq.
      rewrite Forall_forall in Hal. apply Hal. set_solver. }
    simpl. split_ands.
    + rewrite Hfr; [| |set_solver|].
      * rewrite Hd1. by destruct l1.
      * Z.div_mod_to_equations; lia.
      * intros z Ez E. pose proof (Hwl z Ez). Z.div_mod_to_equations; lia.
    + assert (Hy : forall y, y mod 16 = 0 -> (forall z, head l2 = Some z -> y <> z) ->
        load64 m (y + 8) = Some w -> load64 m' (y + 8) = Some w).
      { intros y Hy Hyz Hl. rewrite Forall_forall in Hal0. pose proof (Hal0 p ltac:(set_solver)).
        rewrite <- Hl. apply Hfr; [Z.div_mod_to_equations; lia|Z.div_mod_to_equations; lia|].
        intros z Ez E. apply (Hyz z Ez). lia. }
      rewrite Forall_forall in Hal.
      destruct l1 as [|y l1]; simpl in Hd2 |- *.
      * apply Hy; [apply Hal; set_solver| |done]. intros z Ez ->.
        destruct l2; simpl in Ez; simplify_eq. simpl in Hnd.
        apply NoDup_cons in Hnd as [Hnd _]. set_solver.
      * apply Hy; [apply Hal; set_solver| |done]. intros z Ez ->.
        destruct l2; simpl in Ez; simplify_eq. simpl in Hnd.
        apply NoDup_cons in Hnd as [Hnd _]. set_solver.
    + by apply IH.
Qed.

(** ** Frames *)

Lemma load64_frame m m' a :
  (forall b, a <= b < a + 8 -> m' !! b = m !! b) -> load64 m' a = load64 m a.
Proof. apply (load_le_ext 8). Qed.

Lemma tagged_frame m m' b :
  (forall a, bptr b - 8 <= a < bptr b \/ bptr b + bsz b <= a < bptr b + bsz b + 8 ->
     m' !! a = m !! a) ->
  tagged m b -> tagged m' b.
Proof.
  intros Hfr [(w1 & H1 & T1) (w2 & H2 & T2)]. split; [exists w1|exists w2]; (split; [|done]).
  - rewrite <- H1. apply load64_frame. intros. apply Hfr. lia.
  - rewrite <- H2. apply load64_frame. intros. apply Hfr. lia.
Qed.

Lemma data_frame m m' b :
  Z.of_nat (length (bdata b)) <= bsz b ->
  (bdata b <> [] -> forall a, bptr b <= a < bptr b + bsz b -> m' !! a = m !! a) ->
  data_ok m b -> data_ok m' b.
Proof.
  intros Hlen Hfr Hd i v Hi. rewrite <- (Hd _ _ Hi). unfold load8.
  pose proof (lookup_lt_Some _ _ _ Hi). rewrite Hfr; [done| |lia].
  destruct (bdata b); [done|congruence].
Qed.

Lemma chain_det p bs e e' : chain p bs e -> chain p bs e' -> e = e'.
Proof. revert p. induction bs as [|b bs IH]; simpl; intros; [congruence|]. naive_solver. Qed.

(** Where the blocks before and after a given segment lie. *)
Lemma chain_mid p l mid r e :
  Forall blk_ok (l ++ mid ++ r) -> chain p (l ++ mid ++ r) e ->
  exists x y, chain p l x /\ chain x mid y /\ chain y r e /\ p <= x <= y /\ y <= e /\
    (forall c, c ∈ l -> p <= bptr c /\ bptr c + bsz c + 16 <= x) /\
    (forall c, c ∈ r -> y <= bptr c /\ bptr c + bsz c + 16 <= e).
Proof.
  intros Hok Hc. apply Forall_app in Hok as [Hl [Hm Hr]%Forall_app].
  apply chain_app in Hc as (x & Hcl & (y & Hcm & Hcr)%chain_app). exists x, y.
  split_ands; eauto using chain_le, chain_in.
Qed.

Lemma chain_one p l b r e :
  Forall blk_ok (l ++ b :: r) -> chain p (l ++ b :: r) e ->
  (forall c, c ∈ l -> bptr c + bsz c + 16 <= bptr b) /\
  (forall c, c ∈ r -> bptr b + bsz b + 16 <= bptr c).
Proof.
  intros Hok Hc. destruct (chain_mid p l [b] r e Hok Hc) as (x & y & _ & [Hx Hy] & _ & _ & _ & Hl & Hr).
  simpl in Hy. subst. split; intros c Hin; [apply Hl in Hin; lia|apply Hr in Hin; lia].
Qed.

(** A change confined to the payload heads of listed blocks keeps the area in order. *)
Lemma area_frame base size out m m' bs :
  area_ok base size out m bs ->
  mapped m' base (base + size) ->
  (forall a, (forall d, d ∈ bs -> blisted d = true -> a < bptr d \/ bptr d + 16 <= a) ->
     m' !! a = m !! a) ->
  area_ok base size out m' bs.
Proof.
  intros [Hb Hal Htop Hmap Hf Hla Hch Hok Htg Hdt Hout] Hmap' Hfr.
  assert (Hin : forall d, d ∈ bs -> blk_ok d /\ base + 16 <= bptr d /\ bptr d + bsz d + 16 <= base + size).
  { intros d Hd. split; [by eapply Forall_forall|by eapply chain_in]. }
  split; try done.
  - destruct Hf as (w & Hw & Hfl). exists w. split; [|done]. rewrite <- Hw.
    apply load64_frame. intros. apply Hfr. intros d Hd _. destruct (Hin d Hd) as [[??] ?]. lia.
  - destruct Hla as (w & Hw & Hfl). exists w. split; [|done]. rewrite <- Hw.
    apply load64_frame. intros. apply Hfr. intros d Hd _. destruct (Hin d Hd) as [[??] ?]. lia.
  - rewrite Forall_forall in Htg |- *. intros c Hc. apply (tagged_frame m); [|by apply Htg].
    intros a Ha. apply Hfr. intros d Hd _.
    destruct (Hin d Hd) as [[??] ?]. destruct (Hin c Hc) as [[??] ?].
    destruct (chain_sep _ _ _ c d Hok Hch Hc Hd) as [->|[?|?]]; lia.
  - rewrite Forall_forall in Hdt |- *. intros c Hc.
    destruct (Hin c Hc) as [(?&?&?&Hl) ?].
    apply (data_frame m); [done| |by apply Hdt]. intros Hne a Ha. apply Hfr. intros d Hd Hdl.
    destruct (Hin d Hd) as [(?&?&?&?) ?].
    destruct (chain_sep _ _ _ c d Hok Hch Hc Hd) as [->|[?|?]]; [|lia..].
    destruct (Hl Hdl). congruence.
  - intros a Ha. rewrite <- Hout by done. apply Hfr. intros d Hd _.
    destruct (Hin d Hd) as [[? _] ?]. lia.
Qed.

(** Exchanging a run of unlisted blocks for another run of unlisted blocks that covers the same
    bytes: the change of memory is confined to these bytes. *)
Lemma heap_replace base size out m m' large freed l b mid mid' r q :
  heap_ok base size out m large freed (l ++ (b :: mid) ++ r) ->
  chain (bptr b) (b :: mid) q -> chain (bptr b) mid' q ->
  Forall (fun c => blisted c = false) (b :: mid) -> Forall (fun c => blisted c = false) mid' ->
  Forall blk_ok mid' -> Forall (tagged m') mid' -> Forall (data_ok m') mid' ->
  mapped m' base (base + size) ->
  (forall a, a < bptr b - 8 \/ q - 8 <= a -> m' !! a = m !! a) ->
  heap_ok base size out m' large freed (l ++ mid' ++ r).
Proof.
  intros [[Hb Hal Htop Hmap Hf Hla Hch Hok Htg Hdt Hout] [ls Hls]] Hq Hq' Hu Hu' Hok' Htg' Hdt' Hmap' Hfr.
  destruct (chain_mid _ _ _ _ _ Hok Hch) as (x & y & Hcl & Hcm & Hcr & Hxy & Hye & Hl & Hr).
  assert (x = bptr b) as -> by (by destruct Hcm).
  assert (y = q) as -> by (by eapply chain_det).
  apply Forall_app in Hok as [Hokl [Hokm Hokr]%Forall_app].
  apply Forall_app in Htg as [Htgl [Htgm Htgr]%Forall_app].
  apply Forall_app in Hdt as [Hdtl [Hdtm Hdtr]%Forall_app].
  assert (Hlr : forall c, c ∈ l \/ c ∈ r -> blk_ok c /\
    (bptr c + bsz c + 16 <= bptr b \/ q <= bptr c)).
  { rewrite Forall_forall in Hokl, Hokr. intros c [Hc|Hc].
    - split; [by apply Hokl|]. apply Hl in Hc. lia.
    - split; [by apply Hokr|]. apply Hr in Hc. lia. }
  split; [split; try done|].
  - destruct Hf as (w & Hw & Hfl). exists w. split; [|done]. rewrite <- Hw.
    apply load64_frame. intros. apply Hfr. lia.
  - destruct Hla as (w & Hw & Hfl). exists w. split; [|done]. rewrite <- Hw.
    apply load64_frame. intros. apply Hfr. lia.
  - apply chain_app. eexists. split; [done|]. apply chain_app. eauto.
  - rewrite !Forall_app. eauto.
  - assert (Hin : forall c, c ∈ l \/ c ∈ r -> tagged m c -> tagged m' c).
    { intros c Hc. destruct (Hlr c Hc) as [[? _] ?]. apply tagged_frame. intros. apply Hfr. lia. }
    rewrite !Forall_app, !Forall_forall in *. naive_solver.
  - assert (Hin : forall c, c ∈ l \/ c ∈ r -> data_ok m c -> data_ok m' c).
    { intros c Hc. destruct (Hlr c Hc) as [(?&?&?&?) ?]. apply data_frame; [done|].
      intros. apply Hfr. lia. }
    rewrite !Forall_app, !Forall_forall in *. naive_solver.
  - intros a Ha. rewrite <- Hout by done. apply Hfr. lia.
  - exists ls. destruct Hls as [Hlen Hhd Hdll Hnd Hino].
    rewrite Forall_forall in Hu, Hu'.
    assert (Hnode : forall id y, -1 <= id < 8 -> y ∈ ls id ->
      exists c, (c ∈ l \/ c ∈ r) /\ bptr c = y).
    { intros id y Hid Hy. apply Hino in Hy as (c & Hc & Hcp & Hcl' & _); [|done]. exists c.
      split; [|done]. rewrite !elem_of_app in Hc. destruct Hc as [?|[Hc|?]]; [tauto| |tauto].
      apply Hu in Hc. congruence. }
    split; try done.
    + intros id Hid. apply (dll_frame m); [| |by apply Hdll].
      * intros y Hy. destruct (Hnode id y Hid Hy) as (c & Hc & <-).
        destruct (Hlr c Hc) as [[? _] ?]. apply load64_frame. intros. apply Hfr. lia.
      * intros y Hy. assert (Hy' : y ∈ ls id).
        { destruct (ls id); [by apply not_elem_of_nil in Hy|by right]. }
        destruct (Hnode id y Hid Hy') as (c & Hc & <-).
        destruct (Hlr c Hc) as [[? _] ?]. apply load64_frame. intros. apply Hfr. lia.
    + intros id y Hid. rewrite Hino by done. split; intros (c & Hc & ? & Hcl' & ?); exists c;
        (split_ands; [|done..]); rewrite !elem_of_app in *;
        (destruct Hc as [?|[Hc|?]]; [tauto| |tauto]); [apply Hu in Hc|apply Hu' in Hc]; congruence.
Qed.

(** ** Taking a block off its list and putting it back *)

Lemma blk_in_cases (l r : list blk) b c : c ∈ l ++ b :: r <-> c = b \/ (c ∈ l \/ c ∈ r).
Proof. rewrite elem_of_app, elem_of_cons. tauto. Qed.

(** Exchanging a block for one with the same extent and tag, and no more data. *)
Lemma area_update base size out m l b b' r :
  area_ok base size out m (l ++ b :: r) ->
  bptr b' = bptr b -> bsz b' = bsz b -> bflag b' = bflag b ->
  bdata b' = bdata b \/ bdata b' = [] ->
  (blisted b' = true -> bflag b' = true /\ bdata b' = []) ->
  area_ok base size out m (l ++ b' :: r).
Proof.
  intros [Hb Hal Htop Hmap Hf Hla Hch Hok Htg Hdt Hout] Ep Es Ef Ed Hl.
  apply Forall_app in Hok as [Hokl [Hokb Hokr]%Forall_cons].
  apply Forall_app in Htg as [Htgl [Htgb Htgr]%Forall_cons].
  apply Forall_app in Hdt as [Hdtl [Hdtb Hdtr]%Forall_cons].
  apply chain_app in Hch as (x & Hcl & Hx & Hcr).
  split; try done; rewrite ?Forall_app, ?Forall_cons; split_ands; try done.
  - apply chain_app. exists x. split; [done|]. cbn [chain]. rewrite Ep, Es. done.
  - destruct Hokb as (?&?&?&?). unfold blk_ok. rewrite Es. split_ands; try done.
    destruct Ed as [-> | ->]; simpl; lia.
  - unfold tagged, tagw in *. by rewrite Ep, Es, Ef.
  - unfold data_ok in *. rewrite Ep. destruct Ed as [-> | ->]; [done|].
    intros i v Hi. by rewrite lookup_nil in Hi.
Qed.

Definition node_ranges (l : list Z) (a : Z) : Prop := forall y, y ∈ l -> a < y \/ y + 16 <= a.

(** Every node is the payload of a listed block. *)
Lemma node_block m large freed bs ls id x :
  lists_ok m large freed bs ls -> -1 <= id < 8 -> x ∈ ls id ->
  exists b, b ∈ bs /\ bptr b = x /\ blisted b = true /\ freelists_size2id (bsz b) = id.
Proof. intros H Hid Hx. by apply (lo_in _ _ _ _ _ H) in Hx. Qed.

(** Two nodes of different lists, or the node of a block and another block, do not overlap. *)
Lemma dll_other base size out m m' large freed bs ls id l' :
  area_ok base size out m bs -> lists_ok m large freed bs ls ->
  -1 <= id < 8 ->
  (forall y, y ∈ l' -> exists d, d ∈ bs /\ bptr d = y /\
     (forall c, c ∈ bs -> blisted c = true -> freelists_size2id (bsz c) = id -> c <> d)) ->
  (forall a, node_ranges l' a -> m' !! a = m !! a) ->
  dll m' (ls id).
Proof.
  intros Ha Hls Hid Hl' Hfr.
  assert (H : forall x a, x ∈ ls id -> x <= a < x + 16 -> m' !! a = m !! a).
  { intros x a Hx Hax. apply Hfr. intros y Hy. destruct (Hl' y Hy) as (d & Hd & <- & Hne).
    destruct (node_block _ _ _ _ _ _ _ Hls Hid Hx) as (c & Hc & <- & Hcl & Hcid).
    pose proof (Hne c Hc Hcl Hcid).
    pose proof (proj1 (Forall_forall _ _) (ao_blk _ _ _ _ _ Ha)) as Hok.
    destruct (Hok _ Hc) as [? _]. destruct (Hok _ Hd) as [? _].
    destruct (chain_sep _ _ _ c d (ao_blk _ _ _ _ _ Ha) (ao_chain _ _ _ _ _ Ha) Hc Hd)
      as [->|[?|?]]; [done|lia|lia]. }
  apply (dll_frame m); [| |by apply (lo_dll _ _ _ _ _ Hls)].
  - intros x Hx. apply load64_frame. intros. apply (H x); [done|lia].
  - intros x Hx. assert (Hx' : x ∈ ls id).
    { destruct (ls id); [by apply not_elem_of_nil in Hx|by right]. }
    apply load64_frame. intros. apply (H x); [done|lia].
Qed.

Lemma heap_unlist base size out m m' large freed large' freed' l b r ls l1 l2 :
  let id := freelists_size2id (bsz b) in
  area_ok base size out m (l ++ b :: r) ->
  lists_ok m large freed (l ++ b :: r) ls ->
  blisted b = true -> ls id = l1 ++ bptr b :: l2 ->
  dll m' (l1 ++ l2) -> mapped m' base (base + size) ->
  (forall a, node_ranges (l1 ++ l2) a -> m' !! a = m !! a) ->
  length freed' = FREELIST_NUM ->
  (forall id', -1 <= id' < 8 ->
     head_of large' freed' id' = if decide (id' = id) then hd NULL (l1 ++ l2)
                                 else head_of large freed id') ->
  heap_ok base size out m' large' freed' (l ++ set_listed false b :: r).
Proof.
  intros id Ha Hls Hb Hl Hdll Hmap Hfr Hlen Hhd.
  pose proof (size2id_range (bsz b)) as Hid. fold id in Hid.
  assert (Hsub : forall y, y ∈ l1 ++ l2 -> exists d, d ∈ l ++ b :: r /\ bptr d = y /\
    blisted d = true /\ freelists_size2id (bsz d) = id).
  { intros y Hy. apply (node_block m large freed _ ls); [done..|]. rewrite Hl. set_solver. }
  assert (Hfr' : area_ok base size out m' (l ++ b :: r)).
  { apply (area_frame _ _ _ m); [done|done|]. intros a Hout. apply Hfr. intros y Hy.
    destruct (Hsub y Hy) as (d & Hd & <- & Hdl & _). by apply Hout. }
  split.
  { eapply area_update; [done|..]; simpl; auto. done. }
  exists (fun id' => if decide (id' = id) then l1 ++ l2 else ls id').
  pose proof (lo_nodup _ _ _ _ _ Hls id Hid) as Hnd. rewrite Hl in Hnd.
  assert (Hbn : bptr b ∉ l1 ++ l2).
  { rewrite <- Permutation_middle in Hnd. by apply NoDup_cons in Hnd as [? _]. }
  split; [done| | | |].
  - intros id' Hid'. rewrite Hhd by done. case_decide; [done|]. by apply (lo_head _ _ _ _ _ Hls).
  - intros id' Hid'. case_decide as Hne; [done|].
    eapply (dll_other base size out m m' _ _ _ ls id' (l1 ++ l2)); try done.
    intros y Hy. destruct (Hsub y Hy) as (d & Hd & Hdp & Hdl & Hdi). exists d. split_ands; try done.
    intros c _ _ Hc ->. congruence.
  - intros id' Hid'. case_decide as Hne; [|by apply (lo_nodup _ _ _ _ _ Hls)].
    rewrite <- Permutation_middle in Hnd. by apply NoDup_cons in Hnd as [_ ?].
  - intros id' x Hid'.
    destruct (chain_one _ _ _ _ _ (ao_blk _ _ _ _ _ Ha) (ao_chain _ _ _ _ _ Ha)) as [Hll Hrr].
    pose proof (proj1 (Forall_forall _ _) (ao_blk _ _ _ _ _ Ha)) as Hok.
    assert (Hother : forall c, c ∈ l \/ c ∈ r -> bptr c <> bptr b).
    { intros c Hc. destruct (Hok c) as [? _]; [apply blk_in_cases; tauto|].
      destruct (Hok b) as [? _]; [apply blk_in_cases; tauto|].
      destruct Hc as [Hc|Hc]; [apply Hll in Hc|apply Hrr in Hc]; lia. }
    transitivity (x ∈ ls id' /\ x <> bptr b).
    + case_decide as E; [subst id'|].
      * rewrite Hl, !elem_of_app, elem_of_cons. set_solver.
      * split; [|tauto]. intros Hx. split; [done|]. intros ->.
        destruct (node_block _ _ _ _ _ _ _ Hls Hid' Hx) as (c & Hc & Hcp & _ & Hci).
        apply blk_in_cases in Hc as [->|Hc]; [done|]. by apply Hother in Hc.
    + rewrite (lo_in _ _ _ _ _ Hls) by done. split.
      * intros [(c & Hc & <- & Hcl & Hci) Hne]. exists c. split_ands; try done.
        apply blk_in_cases in Hc as [->|Hc]; [done|]. apply blk_in_cases. tauto.
      * intros (c & Hc & <- & Hcl & Hci). apply blk_in_cases in Hc as [->|Hc]; [done|].
        split; [|by apply Hother]. exists c. split_ands; try done. apply blk_in_cases. tauto.
Qed.

Definition to_listed (b : blk) : blk := set_listed true (set_data [] b).

Lemma heap_list base size out m m' large freed large' freed' l b r ls :
  let id := freelists_size2id (bsz b) in
  area_ok base size out m (l ++ b :: r) ->
  lists_ok m large freed (l ++ b :: r) ls ->
  blisted b = false -> bflag b = true ->
  dll m' (bptr b :: ls id) -> mapped m' base (base + size) ->
  (forall a, node_ranges (bptr b :: ls id) a -> m' !! a = m !! a) ->
  length freed' = FREELIST_NUM ->
  (forall id', -1 <= id' < 8 ->
     head_of large' freed' id' = if decide (id' = id) then bptr b else head_of large freed id') ->
  heap_ok base size out m' large' freed' (l ++ to_listed b :: r).
Proof.
  intros id Ha Hls Hb Hbf Hdll Hmap Hfr Hlen Hhd.
  pose proof (size2id_range (bsz b)) as Hid. fold id in Hid.
  assert (Hsub : forall y, y ∈ bptr b :: ls id -> exists d, d ∈ l ++ b :: r /\ bptr d = y /\
    (d = b \/ blisted d = true /\ freelists_size2id (bsz d) = id)).
  { intros y [->|Hy]%elem_of_cons.
    - exists b. split_ands; [apply blk_in_cases; tauto|done|by left].
    - destruct (node_block _ _ _ _ _ _ _ Hls Hid Hy) as (d & ? & ? & ?). eauto 10. }
  destruct (chain_one _ _ _ _ _ (ao_blk _ _ _ _ _ Ha) (ao_chain _ _ _ _ _ Ha)) as [Hll Hrr].
  pose proof (proj1 (Forall_forall _ _) (ao_blk _ _ _ _ _ Ha)) as Hok.
  assert (Hother : forall c, c ∈ l \/ c ∈ r -> bptr c <> bptr b).
  { intros c Hc. destruct (Hok c) as [? _]; [apply blk_in_cases; tauto|].
    destruct (Hok b) as [? _]; [apply blk_in_cases; tauto|].
    destruct Hc as [Hc|Hc]; [apply Hll in Hc|apply Hrr in Hc]; lia. }
  split.
  { apply (area_frame _ _ _ m); [by eapply area_update; eauto|done|].
    intros a Hout. apply Hfr. intros y Hy. destruct (Hsub y Hy) as (d & Hd & <- & [->|[Hdl _]]).
    - apply (Hout (to_listed b)); [apply blk_in_cases; tauto|done].
    - apply Hout; [|done]. apply blk_in_cases in Hd as [->|Hd]; [congruence|].
      apply blk_in_cases. tauto. }
  exists (fun id' => if decide (id' = id) then bptr b :: ls id else ls id').
  split; [done| | | |].
  - intros id' Hid'. rewrite Hhd by done. case_decide; [done|]. by apply (lo_head _ _ _ _ _ Hls).
  - intros id' Hid'. case_decide as Hne; [done|].
    eapply (dll_other base size out m m' _ _ _ ls id' (bptr b :: ls id)); try done.
    intros y Hy. destruct (Hsub y Hy) as (d & Hd & Hdp & Hdd). exists d. split_ands; try done.
    intros c _ Hcl Hc ->. destruct Hdd as [->|[? ?]]; congruence.
  - intros id' Hid'. case_decide as Hne; [|by apply (lo_nodup _ _ _ _ _ Hls)].
    apply NoDup_cons. split; [|by apply (lo_nodup _ _ _ _ _ Hls)]. intros Hx.
    destruct (node_block _ _ _ _ _ _ _ Hls Hid Hx) as (c & Hc & Hcp & Hcl & _).
    apply blk_in_cases in Hc as [->|Hc]; [congruence|]. by apply Hother in Hc.
  - intros id' x Hid'.
    transitivity ((x = bptr b /\ id' = id) \/ x ∈ ls id').
    + case_decide as E; [subst id'|]; rewrite ?elem_of_cons; tauto.
    + rewrite (lo_in _ _ _ _ _ Hls) by done. split.
      * intros [[-> ->]|(c & Hc & <- & Hcl & Hci)].
        -- exists (to_listed b). split_ands; try done. apply blk_in_cases. tauto.
        -- exists c. split_ands; try done. apply blk_in_cases in Hc as [->|Hc]; [congruence|].
           apply blk_in_cases. tauto.
      * intros (c & Hc & <- & Hcl & Hci). apply blk_in_cases in Hc as [->|Hc].
        -- left. done.
        -- right. exists c. split_ands; try done. apply blk_in_cases. tauto.
Qed.
