(* ===== verification/HeapOps.v ===== *)
(** HeapOps: rules for the block operations of [Block] on a heap that satisfies [heap_ok]. *)

From Stdlib Require Import ZArith Lia.
From stdpp Require Import prelude gmap.
From S2P Require Import Prelude Mem Block Freelist HeapInv.

(** [two_tags m m' p sz v1 v2]: [m'] is [m] with the head word of the block at [p] set to [v1] and
    its tail word to [v2]. *)
Record two_tags (m m' : mem) (p sz v1 v2 : Z) : Prop := {
  tt_head : load64 m' (p - 8) = Some v1;
  tt_tail : load64 m' (p + sz) = Some v2;
  tt_else : forall a, ~ (p - 8 <= a < p) -> ~ (p + sz <= a < p + sz + 8) -> m' !! a = m !! a;
  tt_mapped : forall lo hi, mapped m lo hi -> mapped m' lo hi
}.

(** The multiples of [sizeof(size_t)] that occur in the code. *)
Ltac sizes :=
  change (2 * SIZEOF_SIZE_T) with 16 in *; change (4 * SIZEOF_SIZE_T) with 32 in *;
  change (8 * SIZEOF_SIZE_T) with 64 in *; unfold SIZEOF_SIZE_T in *.

(** ** Tag words *)

Lemma nibble_cases (f s : bool) :
  0 <= b2z f + 4 * b2z s < 16 /\
  Z.land (b2z f + 4 * b2z s) 1 = b2z f /\ Z.land (b2z f + 4 * b2z s) 2 = 0 /\
  Z.ldiff (b2z f + 4 * b2z s) 7 = 0 /\ Z.ldiff (b2z f + 4 * b2z s) 1 = 4 * b2z s /\
  Z.lor (b2z f + 4 * b2z s) 1 = 1 + 4 * b2z s /\ Z.lor (b2z f + 4 * b2z s) 4 = b2z f + 4 /\
  Z.ldiff (b2z f + 4 * b2z s) 4 = b2z f.
Proof. destruct f, s; vm_compute; repeat split; congruence. Qed.

Section Tags.
Context (b : blk) (Hsz : bsz b mod 16 = 0) (Hlo : 0 <= bsz b) (Hhi : bsz b + 16 < two64).

Lemma tag_split w : tagw b w -> exists q s,
  bsz b = 16 * q /\ w = 16 * q + (b2z (bflag b) + 4 * b2z s) /\ 0 <= w < two64.
Proof using Hsz Hlo Hhi.
  intros [s ->]. exists (bsz b / 16), s. destruct (nibble_cases (bflag b) s) as [? _].
  split_ands; Z.div_mod_to_equations; lia.
Qed.

Ltac tag_tac H :=
  apply tag_split in H as (q & s & Hq & -> & Hr);
  destruct (nibble_cases (bflag b) s) as (N0 & N1 & N2 & N3 & N4 & N5 & N6 & N7);
  unfold FLAG_BITS, FREE_FLAG, AREA_FLAG, SIZE_FLAG, has_flag, tagw in *; cbn [bsz bflag set_flag];
  rewrite ?land_lnot64_nibble, ?land_nibble, ?lor_nibble by lia.

Lemma tag_range w : tagw b w -> 0 <= w < two64.
Proof using Hsz Hlo Hhi. intros H. by apply tag_split in H as (? & ? & _ & _ & ?). Qed.
Lemma tag_size w : tagw b w -> w &! ~! FLAG_BITS = bsz b.
Proof using Hsz Hlo Hhi. intros H. tag_tac H. lia. Qed.
Lemma tag_free w : tagw b w -> has_flag w FREE_FLAG = bflag b.
Proof using Hsz Hlo Hhi. intros H. tag_tac H. rewrite N1. by destruct (bflag b). Qed.
Lemma tag_area w : tagw b w -> has_flag w AREA_FLAG = false.
Proof using Hsz Hlo Hhi. intros H. tag_tac H. by rewrite N2. Qed.
Lemma tag_setalloced w : tagw b w -> tagw (set_flag false b) (w &! ~! FREE_FLAG).
Proof using Hsz Hlo Hhi. intros H. tag_tac H. exists s. rewrite N4, Hq. simpl. lia. Qed.
Lemma tag_setfreed w : tagw b w -> tagw (set_flag true b) (w |! FREE_FLAG).
Proof using Hsz Hlo Hhi. intros H. tag_tac H. exists s. rewrite N5, Hq. simpl. lia. Qed.
Lemma tag_set_2M w : tagw b w -> tagw b (w |! SIZE_FLAG).
Proof using Hsz Hlo Hhi. intros H. tag_tac H. exists true. rewrite N6, Hq. simpl. lia. Qed.
Lemma tag_set_4k w : tagw b w -> tagw b (w &! ~! SIZE_FLAG).
Proof using Hsz Hlo Hhi. intros H. tag_tac H. exists false. rewrite N7, Hq. simpl. lia. Qed.
End Tags.

Lemma tag_new p sz l d (s : bool) : tagw (Blk p sz false l d) (sz + 4 * b2z s).
Proof. exists s. simpl. lia. Qed.

(** What [heap_ok] says of one block. *)
Record blk_facts (base size : Z) (m : mem) (b : blk) : Prop := {
  bf_ok : blk_ok b;
  bf_base : 64 <= base;
  bf_lo : base + 16 <= bptr b;
  bf_hi : bptr b + bsz b + 16 <= base + size;
  bf_top : base + size < two64;
  bf_align : bptr b mod 16 = 0;
  bf_tags : tagged m b;
  bf_data : data_ok m b;
  bf_mapped : mapped m base (base + size)
}.

Lemma area_blk base size out m bs b : area_ok base size out m bs -> b ∈ bs -> blk_facts base size m b.
Proof.
  intros [Hb Hal Htop Hmap Hf Hla Hch Hok Htg Hdt Hout] Hin.
  pose proof (chain_in _ _ _ _ Hok Hch Hin).
  assert (Hal' : (base + 16) mod 16 = 0) by (Z.div_mod_to_equations; lia).
  pose proof (chain_align _ _ _ Hok Hal' Hch) as Hall.
  rewrite Forall_forall in Hok, Htg, Hdt, Hall.
  split; auto; lia.
Qed.


(** ** Raw rules *)

Section Raw.
Context {X : Type}.
Implicit Types (s : st X).

(** The stores of one [blk_setsize] or of one flag update. *)
Lemma two_tags_stores m m1 m2 p sz v1 v2 :
  0 <= sz -> 0 <= v1 < two64 -> 0 <= v2 < two64 ->
  store64 m (p - 8) v1 = Some m1 -> store64 m1 (p + sz) v2 = Some m2 ->
  two_tags m m2 p sz v1 v2.
Proof.
  intros Hsz Hv1 Hv2 H1 H2. split.
  - rewrite (load64_store64_ne _ _ _ _ _ H2) by lia.
    rewrite (load64_store64_eq _ _ _ _ H1). by rewrite u64_small.
  - rewrite (load64_store64_eq _ _ _ _ H2). by rewrite u64_small.
  - intros a Ha1 Ha2. rewrite (store64_lookup _ _ _ _ _ H2), (store64_lookup _ _ _ _ _ H1) by lia.
    done.
  - intros lo hi Hm. by eapply mapped_store64, mapped_store64.
Qed.

Lemma runs_blk_setsize p sz s Q :
  8 <= p -> 0 <= sz -> p + sz + 8 <= two64 ->
  mapped (smem s) (p - 8) (p + sz + 8) ->
  (forall m', two_tags (smem s) m' p sz sz sz -> Q tt (with_mem m' s)) ->
  runs (blk_setsize p sz) s Q.
Proof.
  intros Hp Hsz Hhi Hmap HQ. unfold blk_setsize, SIZEOF_SIZE_T. norm_words.
  apply runs_bind, runs_sto; [eapply mapped_sub; eauto; lia|]. intros m1 H1.
  apply runs_sto.
  { eapply mapped_store64; [exact H1|]. eapply mapped_sub; eauto; lia. }
  intros m2 H2. apply (HQ m2). eapply two_tags_stores; eauto; lia.
Qed.

Lemma runs_blk_update p sz f s w1 w2 Q :
  8 <= p -> 0 <= sz -> p + sz + 8 <= two64 ->
  mapped (smem s) (p - 8) (p + sz + 8) ->
  load64 (smem s) (p - 8) = Some w1 -> load64 (smem s) (p + sz) = Some w2 ->
  0 <= f w1 < two64 -> 0 <= f w2 < two64 ->
  (forall m', two_tags (smem s) m' p sz (f w1) (f w2) -> Q tt (with_mem m' s)) ->
  runs (blk_update p sz f) s Q.
Proof.
  intros Hp Hsz Hhi Hmap Hl1 Hl2 Hf1 Hf2 HQ.
  unfold blk_update, blk_head, blk_tail, SIZEOF_SIZE_T. norm_words.
  eapply runs_bind, runs_ld; [done|].
  apply runs_bind, runs_sto; [eapply mapped_sub; eauto; lia|]. intros m1 H1.
  eapply runs_bind, runs_ld.
  { simpl. rewrite (load64_store64_ne _ _ _ _ _ H1) by lia. done. }
  apply runs_sto.
  { eapply mapped_store64; [exact H1|]. eapply mapped_sub; eauto; lia. }
  intros m2 H2. apply (HQ m2). eapply two_tags_stores; eauto; lia.
Qed.

(** [blk_setsize] followed by the 2M flag, as [blk_split] does it. *)
Lemma runs_retag {A} p sz (big : bool) (k : M (st X) A) s Q :
  8 <= p -> 0 <= sz -> sz mod 16 = 0 -> p + sz + 8 < two64 ->
  mapped (smem s) (p - 8) (p + sz + 8) ->
  (forall m', two_tags (smem s) m' p sz (sz + 4 * b2z big) (sz + 4 * b2z big) ->
     runs k (with_mem m' s) Q) ->
  runs (blk_setsize p sz ;; whenM big (blk_set_area_2M p sz) ;; k) s Q.
Proof.
  intros Hp Hsz Hal Hhi Hmap HQ. apply runs_bind, runs_blk_setsize; [lia..|done|].
  intros m1 [T1 T2 T3 T4]. apply runs_bind. destruct big; simpl.
  - assert (Hor : sz |! SIZE_FLAG = sz + 4).
    { unfold SIZE_FLAG. replace sz with (16 * (sz / 16) + 0) at 1
        by (Z.div_mod_to_equations; lia).
      rewrite lor_nibble by lia. change (Z.lor 0 4) with 4. Z.div_mod_to_equations; lia. }
    eapply (runs_blk_update _ _ _ (with_mem m1 s)); simpl; eauto; try lia.
    intros m2 [U1 U2 U3 U4]. apply (HQ m2). simpl in *. rewrite Hor in *.
    split; simpl; [by rewrite Z.mul_1_r|by rewrite Z.mul_1_r| |eauto].
    intros. rewrite U3, T3 by done. done.
  - apply runs_ret. apply (HQ m1). split; simpl; rewrite ?Z.add_0_r; auto.
Qed.
End Raw.

(** ** Rules on a heap *)

Section Heap.
Context {X : Type} (base size : Z) (out : mem).
Implicit Types (s : st X) (m : mem).

Lemma blk_head_word m bs b :
  area_ok base size out m bs -> b ∈ bs ->
  exists w, load64 m (bptr b -! SIZEOF_SIZE_T) = Some w /\ tagw b w.
Proof.
  intros Ha Hb. pose proof (area_blk _ _ _ _ _ _ Ha Hb) as F.
  destruct (bf_tags _ _ _ _ F) as [(w & Hw & Ht) _]. exists w. split; [|done].
  destruct F as [[? _] ? ? ? ? _ _ _ _]. unfold SIZEOF_SIZE_T. norm_words. done.
Qed.

Lemma runs_blk_size s bs b Q :
  area_ok base size out (smem s) bs -> b ∈ bs -> Q (bsz b) s -> runs (blk_size (bptr b)) s Q.
Proof.
  intros Ha Hb HQ. destruct (blk_head_word _ _ _ Ha Hb) as (w & Hw & Ht).
  destruct (area_blk _ _ _ _ _ _ Ha Hb) as [(?&?&?&?) ? ? ? ? _ _ _ _].
  unfold blk_size, blk_head. eapply runs_bind, runs_ld; [done|]. apply runs_ret.
  rewrite (tag_size b) by (done || lia). done.
Qed.

Lemma runs_blk_freed s bs b Q :
  area_ok base size out (smem s) bs -> b ∈ bs -> Q (bflag b) s -> runs (blk_freed (bptr b)) s Q.
Proof.
  intros Ha Hb HQ. destruct (blk_head_word _ _ _ Ha Hb) as (w & Hw & Ht).
  destruct (area_blk _ _ _ _ _ _ Ha Hb) as [(?&?&?&?) ? ? ? ? _ _ _ _].
  unfold blk_freed, blk_head. eapply runs_bind, runs_ld; [done|]. apply runs_ret.
  rewrite (tag_free b) by (done || lia). done.
Qed.

Lemma runs_blk_area_is_2M s bs b Q :
  area_ok base size out (smem s) bs -> b ∈ bs ->
  (forall big, Q big s) -> runs (blk_area_is_2M (bptr b)) s Q.
Proof.
  intros Ha Hb HQ. destruct (blk_head_word _ _ _ Ha Hb) as (w & Hw & Ht).
  unfold blk_area_is_2M, blk_head. eapply runs_bind, runs_ld; [done|]. apply runs_ret, HQ.
Qed.

(** A flag update on an unlisted block. *)
Lemma runs_flag_update s large freed l b b' r f Q :
  heap_ok base size out (smem s) large freed (l ++ b :: r) ->
  blisted b = false -> blisted b' = false ->
  bptr b' = bptr b -> bsz b' = bsz b -> bdata b' = bdata b ->
  (forall w, tagw b w -> tagw b' (f w)) ->
  (forall m', heap_ok base size out m' large freed (l ++ b' :: r) -> Q tt (with_mem m' s)) ->
  runs (blk_update (bptr b) (bsz b) f) s Q.
Proof.
  intros Hh Hu Hu' Ep Es Ed Hf HQ. pose proof Hh as [Ha _].
  assert (Hb : b ∈ l ++ b :: r) by (apply blk_in_cases; tauto).
  destruct (area_blk _ _ _ _ _ _ Ha Hb) as [(?&?&?&?) ? ? ? ? ? [(w1&Hw1&Ht1) (w2&Hw2&Ht2)] Hd Hm].
  pose proof (Hf _ Ht1) as Ht1'. pose proof (Hf _ Ht2) as Ht2'.
  assert (Hr : forall w, tagw b' w -> 0 <= w < two64).
  { intros w. apply tag_range; rewrite Es; lia. }
  eapply runs_blk_update; eauto; try lia.
  { eapply mapped_sub; eauto; lia. }
  intros m' [T1 T2 T3 T4]. apply HQ.
  apply (heap_replace _ _ _ _ m' _ _ l b [] [b'] r (bptr b + bsz b + 16) Hh);
    repeat constructor; simpl; try done; rewrite ?Ep, ?Es; try lia.
  - by rewrite Ed.
  - congruence.
  - congruence.
  - by eauto.
  - by eauto.
  - intros i v Hi. rewrite Ep. rewrite Ed in Hi. pose proof (lookup_lt_Some _ _ _ Hi).
    rewrite <- (Hd _ _ Hi). unfold load8. rewrite T3 by lia. done.
  - by apply T4.
  - intros a Ha'. apply T3; lia.
Qed.

Lemma runs_blk_setfreed s large freed l b r Q :
  heap_ok base size out (smem s) large freed (l ++ b :: r) -> blisted b = false ->
  (forall m', heap_ok base size out m' large freed (l ++ set_flag true b :: r) ->
     Q tt (with_mem m' s)) ->
  runs (blk_setfreed (bptr b) (bsz b)) s Q.
Proof.
  intros Hh Hu HQ. pose proof Hh as [Ha _].
  destruct (area_blk _ _ _ _ _ b Ha) as [(?&?&?&?) ? ? ? ? _ _ _ _]; [apply blk_in_cases; tauto|].
  eapply (runs_flag_update s large freed l b (set_flag true b) r); eauto.
  intros. apply tag_setfreed; try done; lia.
Qed.
Lemma runs_blk_setalloced s large freed l b r Q :
  heap_ok base size out (smem s) large freed (l ++ b :: r) -> blisted b = false ->
  (forall m', heap_ok base size out m' large freed (l ++ set_flag false b :: r) ->
     Q tt (with_mem m' s)) ->
  runs (blk_setalloced (bptr b) (bsz b)) s Q.
Proof.
  intros Hh Hu HQ. pose proof Hh as [Ha _].
  destruct (area_blk _ _ _ _ _ b Ha) as [(?&?&?&?) ? ? ? ? _ _ _ _]; [apply blk_in_cases; tauto|].
  eapply (runs_flag_update s large freed l b (set_flag false b) r); eauto.
  intros. apply tag_setalloced; try done; lia.
Qed.
Lemma runs_blk_set_area_2M s large freed l b r Q :
  heap_ok base size out (smem s) large freed (l ++ b :: r) -> blisted b = false ->
  (forall m', heap_ok base size out m' large freed (l ++ b :: r) -> Q tt (with_mem m' s)) ->
  runs (blk_set_area_2M (bptr b) (bsz b)) s Q.
Proof.
  intros Hh Hu HQ. pose proof Hh as [Ha _].
  destruct (area_blk _ _ _ _ _ b Ha) as [(?&?&?&?) ? ? ? ? _ _ _ _]; [apply blk_in_cases; tauto|].
  eapply (runs_flag_update s large freed l b (b) r); eauto.
  intros. apply tag_set_2M; try done; lia.
Qed.
Lemma runs_blk_set_area_4k s large freed l b r Q :
  heap_ok base size out (smem s) large freed (l ++ b :: r) -> blisted b = false ->
  (forall m', heap_ok base size out m' large freed (l ++ b :: r) -> Q tt (with_mem m' s)) ->
  runs (blk_set_area_4k (bptr b) (bsz b)) s Q.
Proof.
  intros Hh Hu HQ. pose proof Hh as [Ha _].
  destruct (area_blk _ _ _ _ _ b Ha) as [(?&?&?&?) ? ? ? ? _ _ _ _]; [apply blk_in_cases; tauto|].
  eapply (runs_flag_update s large freed l b (b) r); eauto.
  intros. apply tag_set_4k; try done; lia.
Qed.

(** Splitting an unlisted block. *)
Lemma runs_blk_split s large freed l b r sz Q :
  heap_ok base size out (smem s) large freed (l ++ b :: r) -> blisted b = false ->
  16 <= sz -> sz mod 16 = 0 -> sz + 32 <= bsz b ->
  (forall m', heap_ok base size out m' large freed
     (l ++ Blk (bptr b) sz false false (take (Z.to_nat sz) (bdata b)) ::
           Blk (bptr b + sz + 16) (bsz b - sz - 16) false false [] :: r) ->
     Q (bptr b + sz + 16) (with_mem m' s)) ->
  runs (blk_split (bptr b) sz) s Q.
Proof.
  intros Hh Hu Hlo Hal Hhi HQ. pose proof Hh as [Ha _].
  assert (Hb : b ∈ l ++ b :: r) by (apply blk_in_cases; tauto).
  destruct (area_blk _ _ _ _ _ _ Ha Hb) as [(?&?&?&?) ? ? ? ? ? _ Hd Hm].
  unfold blk_split. eapply runs_bind, runs_blk_area_is_2M; [done..|]. intros big.
  eapply runs_bind, runs_blk_size; [done..|].
  apply runs_retag; try lia. { eapply mapped_sub; eauto; lia. }
  intros m1 [T1 T2 T3 T4]. cbv zeta. sizes. norm_words.
  apply runs_retag; simpl; try (Z.div_mod_to_equations; lia).
  { apply T4. eapply mapped_sub; eauto; lia. }
  intros m2 [U1 U2 U3 U4]. simpl in *. apply runs_ret.
  replace (bptr b + (sz + 16)) with (bptr b + sz + 16) in * by lia.
  replace (bsz b - (sz + 16)) with (bsz b - sz - 16) in * by lia.
  apply (HQ m2). clear HQ.
  apply (heap_replace _ _ _ _ m2 _ _ l b [] [_; _] r (bptr b + bsz b + 16) Hh);
    repeat constructor; simpl; try done; try lia; try (Z.div_mod_to_equations; lia).
  - rewrite length_take. lia.
  - eexists. split; [|apply (tag_new _ _ _ _ big)].
    rewrite <- T1. apply load64_frame. intros. apply U3; lia.
  - eexists. split; [|apply (tag_new _ _ _ _ big)].
    rewrite <- T2. apply load64_frame. intros. apply U3; lia.
  - eexists. split; [exact U1|apply (tag_new _ _ _ _ big)].
  - eexists. split; [exact U2|apply (tag_new _ _ _ _ big)].
  - intros i v Hi. simpl in Hi |- *. apply lookup_take_Some in Hi as [Hi Hlt].
    rewrite <- (Hd _ _ Hi). unfold load8. rewrite U3, T3 by lia. done.
  - auto.
  - intros a Ha'. rewrite U3, T3 by lia. done.
Qed.

(** [blk_setsize] with the joint size of two unlisted neighbours merges them. *)
Lemma runs_merge s large freed l b c r Q :
  heap_ok base size out (smem s) large freed (l ++ b :: c :: r) ->
  blisted b = false -> blisted c = false ->
  (forall m', heap_ok base size out m' large freed
     (l ++ Blk (bptr b) (bsz b + bsz c + 16) false false (bdata b) :: r) ->
     Q tt (with_mem m' s)) ->
  runs (blk_setsize (bptr b) (bsz b + bsz c + 16)) s Q.
Proof.
  intros Hh Hub Huc HQ. pose proof Hh as [Ha _].
  assert (Hb : b ∈ l ++ b :: c :: r) by (apply blk_in_cases; tauto).
  assert (Hc : c ∈ l ++ b :: c :: r) by set_solver.
  destruct (area_blk _ _ _ _ _ _ Ha Hb) as [(?&?&?&?) ? ? ? ? ? _ Hd Hm].
  destruct (area_blk _ _ _ _ _ _ Ha Hc) as [(?&?&?&?) ? ? ? ? ? _ _ _].
  assert (Hbc : bptr c = bptr b + bsz b + 16).
  { pose proof (ao_chain _ _ _ _ _ Ha) as Hch.
    apply chain_app in Hch as (x & _ & <- & Hcc & _). done. }
  apply runs_blk_setsize; try lia. { eapply mapped_sub; eauto; lia. }
  intros m' [T1 T2 T3 T4]. apply HQ. clear HQ.
  apply (heap_replace _ _ _ _ m' _ _ l b [c] [_] r (bptr c + bsz c + 16) Hh);
    repeat constructor; simpl; try done; try lia; try (Z.div_mod_to_equations; lia).
  - eexists. split; [exact T1|]. exists false. simpl. lia.
  - eexists. split; [exact T2|]. exists false. simpl. lia.
  - intros i v Hi. simpl in Hi |- *. pose proof (lookup_lt_Some _ _ _ Hi).
    rewrite <- (Hd _ _ Hi). unfold load8. rewrite T3 by lia. done.
  - auto.
  - intros a Ha'. apply T3; lia.
Qed.
End Heap.
