(* ===== verification/ListOps.v ===== *)
(** ListOps: rules for the free-list operations of [Freelist], and for the words next to a block. *)

From Stdlib Require Import ZArith Lia.
From stdpp Require Import prelude gmap.
From S2P Require Import Prelude Mem Block Freelist HeapInv HeapOps.

(** The nodes of a list are aligned, mapped and not NULL. *)
Definition node_ok (m : mem) (x : Z) : Prop :=
  x mod 16 = 0 /\ 0 < x /\ x + 16 < two64 /\ mapped m x (x + 16).
Definition nodes_ok (m : mem) (l : list Z) : Prop := Forall (node_ok m) l.

Lemma nodes_ok_in m l x : nodes_ok m l -> x ∈ l -> node_ok m x.
Proof. intros H. by apply Forall_forall. Qed.

Lemma dll_next m l1 x l2 : dll m (l1 ++ x :: l2) -> load64 m x = Some (hd NULL l2).
Proof. induction l1 as [|y l1 IH]; intros H; [by destruct H|]. apply IH, H. Qed.
Lemma dll_prev m l1 p x l2 : dll m (l1 ++ p :: x :: l2) -> load64 m (x + 8) = Some p.
Proof. induction l1 as [|y l1 IH]; intros H; [by destruct H as (_ & ? & _)|]. apply IH, H. Qed.
Lemma dll_tail m x l : dll m (x :: l) -> dll m l.
Proof. by intros (_ & _ & ?). Qed.

(** What a list operation may do to the memory. *)
Record list_frame (m m' : mem) (l : list Z) : Prop := {
  lf_dll : dll m' l;
  lf_else : forall a, node_ranges l a -> m' !! a = m !! a;
  lf_mapped : forall lo hi, mapped m lo hi -> mapped m' lo hi
}.

Section ListOps.
Context {X : Type}.
Implicit Types (s : st X).

Lemma runs_next x s v Q : load64 (smem s) x = Some v -> Q v s -> runs (next_of x) s Q.
Proof. apply runs_ld. Qed.
Lemma runs_prev x s v Q :
  0 < x -> x + 16 < two64 -> load64 (smem s) (x + 8) = Some v -> Q v s -> runs (prev_of x) s Q.
Proof. intros. unfold prev_of. norm_words. by eapply runs_ld. Qed.
Lemma runs_set_prev x v s Q :
  0 < x -> x + 16 < two64 -> mapped (smem s) x (x + 16) ->
  (forall m', store64 (smem s) (x + 8) v = Some m' -> Q tt (with_mem m' s)) ->
  runs (set_prev x v) s Q.
Proof.
  intros ? ? Hm ?. unfold set_prev. norm_words. apply runs_sto; [|done].
  eapply mapped_sub; [exact Hm|lia..].
Qed.

Lemma runs_unlink l1 p x l2 s Q :
  dll (smem s) (l1 ++ p :: x :: l2) -> NoDup (l1 ++ p :: x :: l2) ->
  nodes_ok (smem s) (l1 ++ p :: x :: l2) ->
  (forall m', list_frame (smem s) m' (l1 ++ p :: l2) -> Q tt (with_mem m' s)) ->
  runs (unlink x) s Q.
Proof.
  intros Hd Hnd Hok HQ.
  assert (Hal : Forall (fun y => y mod 16 = 0) (l1 ++ p :: x :: l2)).
  { eapply Forall_impl; [exact Hok|]. by intros ? [? _]. }
  destruct (nodes_ok_in _ _ p Hok) as (Hp1 & Hp2 & Hp3 & Hp4); [set_solver|].
  destruct (nodes_ok_in _ _ x Hok) as (Hx1 & Hx2 & Hx3 & Hx4); [set_solver|].
  pose proof (dll_prev _ _ _ _ _ Hd) as Hxp.
  assert (Hxn : load64 (smem s) x = Some (hd NULL l2)).
  { apply (dll_next _ (l1 ++ [p])). by rewrite <- app_assoc. }
  assert (Hpx : p <> x).
  { apply NoDup_app in Hnd as (_ & _ & Hnd). apply NoDup_cons in Hnd as [Hnd _]. set_solver. }
  unfold unlink. eapply runs_bind, runs_next; [done|]. apply runs_bind.
  destruct l2 as [|z l2]; simpl hd in *.
  - simpl. apply runs_ret. eapply runs_bind, runs_prev; [done..|].
    replace (p =? NULL) with false by (unfold NULL; lia). simpl.
    eapply runs_bind, runs_next; [done|]. apply runs_sto; [eapply mapped_sub; [exact Hp4|lia..]|].
    intros m' Hs. apply HQ. split.
    + eapply (dll_unlink (smem s)); try done.
      * rewrite (load64_store64_eq _ _ _ _ Hs). by rewrite u64_small by (unfold NULL, two64; lia).
      * intros a Ha Hne _. eapply load64_store64_ne; [done|]. Z.div_mod_to_equations; lia.
    + intros a Ha. pose proof (Ha p ltac:(set_solver)). eapply store64_lookup; [done|]. lia.
    + intros lo hi. by eapply mapped_store64.
  - destruct (nodes_ok_in _ _ z Hok) as (Hz1 & Hz2 & Hz3 & Hz4); [set_solver|].
    assert (Hzx : z <> x /\ z <> p).
    { apply NoDup_app in Hnd as (_ & _ & Hnd). apply NoDup_cons in Hnd as [Hnp Hnd].
      apply NoDup_cons in Hnd as [Hnx _]. set_solver. }
    replace (z =? NULL) with false by (unfold NULL; lia). simpl.
    eapply runs_bind, runs_prev; [done..|]. apply runs_set_prev; [done..|]. intros m1 Hs1.
    eapply runs_bind, runs_prev; [done|done| |].
    { simpl. rewrite (load64_store64_ne _ _ _ _ _ Hs1); [done|]. Z.div_mod_to_equations; lia. }
    replace (p =? NULL) with false by (unfold NULL; lia). simpl.
    eapply runs_bind, runs_next.
    { simpl. rewrite (load64_store64_ne _ _ _ _ _ Hs1); [done|]. Z.div_mod_to_equations; lia. }
    apply runs_sto; [eapply mapped_store64, mapped_sub; [done|exact Hp4|lia..]|].
    intros m2 Hs2. apply HQ. simpl in Hs2. split.
    + eapply (dll_unlink (smem s)); try done.
      * rewrite (load64_store64_eq _ _ _ _ Hs2). by rewrite u64_small by lia.
      * intros z' [= <-]. rewrite (load64_store64_ne _ _ _ _ _ Hs2) by
          (Z.div_mod_to_equations; lia).
        rewrite (load64_store64_eq _ _ _ _ Hs1). by rewrite u64_small by lia.
      * intros a Ha Hne Hnz. pose proof (Hnz z eq_refl).
        rewrite (load64_store64_ne _ _ _ _ _ Hs2) by (Z.div_mod_to_equations; lia).
        eapply load64_store64_ne; [done|]. Z.div_mod_to_equations; lia.
    + intros a Ha. pose proof (Ha p ltac:(set_solver)). pose proof (Ha z ltac:(set_solver)).
      rewrite (store64_lookup _ _ _ _ _ Hs2) by lia. eapply store64_lookup; [done|]. lia.
    + intros lo hi ?. by eapply mapped_store64, mapped_store64.
Qed.

Lemma list_frame_refl m l : dll m l -> list_frame m m l.
Proof. by split. Qed.

(** [freelist_detach] on the head that the list has, for any of its nodes. *)
Lemma runs_freelist_detach l1 x l2 s Q :
  dll (smem s) (l1 ++ x :: l2) -> NoDup (l1 ++ x :: l2) -> nodes_ok (smem s) (l1 ++ x :: l2) ->
  (forall m', list_frame (smem s) m' (l1 ++ l2) -> Q (hd NULL (l1 ++ l2)) (with_mem m' s)) ->
  runs (freelist_detach (hd NULL (l1 ++ x :: l2)) x) s Q.
Proof.
  intros Hd Hnd Hok HQ. unfold freelist_detach.
  destruct l1 as [|y l1]; simpl hd.
  - rewrite Z.eqb_refl. eapply runs_next; [by apply (dll_next _ [])|].
    destruct s as [m x']. apply (HQ m), list_frame_refl. by eapply dll_tail.
  - assert (y <> x).
    { simpl in Hnd. apply NoDup_cons in Hnd as [Hnd _]. set_solver. }
    replace (y =? x) with false by lia.
    destruct (exists_last (l := y :: l1)) as (l1' & p & E); [done|].
    change (y :: l1 ++ x :: l2) with ((y :: l1) ++ x :: l2) in *.
    change (y :: l1 ++ l2) with ((y :: l1) ++ l2) in *.
    assert (Hhd : y = hd NULL ((y :: l1) ++ l2)) by done. rewrite Hhd. clear Hhd.
    rewrite E in *. rewrite <- !app_assoc in *. simpl in *.
    apply runs_bind. eapply runs_unlink; [done..|]. intros m' Hf. apply runs_ret. by apply HQ.
Qed.

(** [freelists_detach], in terms of the array of heads. *)
Lemma runs_freelists_detach lists id l1 x l2 s Q :
  0 <= id < 8 -> length lists = FREELIST_NUM ->
  list_get lists id = hd NULL (l1 ++ x :: l2) ->
  dll (smem s) (l1 ++ x :: l2) -> NoDup (l1 ++ x :: l2) -> nodes_ok (smem s) (l1 ++ x :: l2) ->
  (forall m' lists', list_frame (smem s) m' (l1 ++ l2) -> length lists' = FREELIST_NUM ->
     (forall id', 0 <= id' < 8 -> list_get lists' id' =
        if decide (id' = id) then hd NULL (l1 ++ l2) else list_get lists id') ->
     Q lists' (with_mem m' s)) ->
  runs (freelists_detach lists id x) s Q.
Proof.
  intros Hid Hlen Hget Hd Hnd Hok HQ. unfold freelists_detach. rewrite Hget.
  destruct l1 as [|y l1]; simpl hd.
  - rewrite Z.eqb_refl. eapply runs_bind, runs_next; [by apply (dll_next _ [])|].
    apply runs_ret. destruct s as [m x'].
    apply (HQ m); [by apply list_frame_refl; eapply dll_tail|by unfold list_set; rewrite length_insert|].
    intros id' Hid'. unfold list_get, list_set. rewrite !nth_lookup.
    unfold FREELIST_NUM in Hlen.
    case_decide as E; [subst; by rewrite list_lookup_insert_eq by lia|].
    by rewrite list_lookup_insert_ne by lia.
  - assert (y <> x).
    { simpl in Hnd. apply NoDup_cons in Hnd as [Hnd _]. set_solver. }
    replace (y =? x) with false by lia.
    destruct (exists_last (l := y :: l1)) as (l1' & p & E); [done|].
    change (y :: l1 ++ x :: l2) with ((y :: l1) ++ x :: l2) in *.
    change (y :: l1 ++ l2) with ((y :: l1) ++ l2) in *.
    assert (Hhd : hd NULL ((y :: l1) ++ x :: l2) = hd NULL ((y :: l1) ++ l2)) by done.
    rewrite Hhd in *. clear Hhd. rewrite E in *. rewrite <- !app_assoc in *. simpl in *.
    apply runs_bind. eapply runs_unlink; [done..|]. intros m' Hf. apply runs_ret.
    apply HQ; [done..|]. intros id' Hid'. case_decide; [by subst|done].
Qed.

(** Pushing a node; the old list may have any [prev] in its head. *)
Lemma runs_freelist_put l x s Q :
  dll (smem s) l -> NoDup l -> x ∉ l -> nodes_ok (smem s) (x :: l) ->
  (forall m', list_frame (smem s) m' (x :: l) -> Q x (with_mem m' s)) ->
  runs (freelist_put (hd NULL l) x) s Q.
Proof.
  intros Hd Hnd Hnx Hok HQ. apply Forall_cons in Hok as [(Hx1 & Hx2 & Hx3 & Hx4) Hok].
  assert (Hhr : 0 <= hd NULL l < two64).
  { destruct l as [|z l]; simpl; [unfold NULL, two64; lia|].
    apply Forall_cons in Hok as [(? & ? & ? & _) _]. lia. }
  unfold freelist_put. apply runs_bind, runs_sto; [eapply mapped_sub; [exact Hx4|lia..]|]. intros m1 H1.
  apply runs_bind, runs_set_prev; [done|done|by eapply mapped_store64|]. intros m2 H2.
  simpl in H2. eapply runs_bind, runs_next.
  { simpl. rewrite (load64_store64_ne _ _ _ _ _ H2) by lia.
    rewrite (load64_store64_eq _ _ _ _ H1). by rewrite u64_small by done. }
  apply runs_bind.
  assert (Hlx2 : load64 m2 x = Some (hd NULL l)).
  { rewrite (load64_store64_ne _ _ _ _ _ H2) by lia.
    rewrite (load64_store64_eq _ _ _ _ H1). by rewrite u64_small by done. }
  assert (Hl2 : forall a, a mod 8 = 0 -> a <> x -> a <> x + 8 -> load64 m2 a = load64 (smem s) a).
  { intros a Ha ? ?. rewrite (load64_store64_ne _ _ _ _ _ H2) by (Z.div_mod_to_equations; lia).
    eapply load64_store64_ne; [done|]. Z.div_mod_to_equations; lia. }
  assert (Hal : forall y, y ∈ l -> y mod 16 = 0 /\ y <> x).
  { intros y Hy. split; [|set_solver]. by destruct (nodes_ok_in _ _ y Hok Hy) as [? _]. }
  destruct l as [|z l]; simpl hd in *.
  - simpl. apply runs_ret, runs_ret, HQ. split.
    + by simpl.
    + intros a Ha. pose proof (Ha x ltac:(left)).
      rewrite (store64_lookup _ _ _ _ _ H2), (store64_lookup _ _ _ _ _ H1) by lia. done.
    + intros lo hi ?. by eapply mapped_store64, mapped_store64.
  - destruct (nodes_ok_in _ _ z Hok) as (Hz1 & Hz2 & Hz3 & Hz4); [left|].
    destruct (Hal z ltac:(left)) as [_ Hzx].
    replace (z =? NULL) with false by (unfold NULL; lia). simpl.
    apply runs_set_prev; [done|done|by eapply mapped_store64, mapped_store64|].
    intros m3 H3. simpl in H3. apply runs_ret, HQ. split.
    + change (load64 m3 x = Some z /\ load64 m3 (z + 8) = Some x /\ dll m3 (z :: l)).
      split; [|split].
      * rewrite (load64_store64_ne _ _ _ _ _ H3) by (Z.div_mod_to_equations; lia). done.
      * rewrite (load64_store64_eq _ _ _ _ H3). by rewrite u64_small by lia.
      * apply (dll_frame (smem s)); [| |done].
        -- intros y Hy. destruct (Hal y Hy) as [Hy16 Hyx].
           rewrite (load64_store64_ne _ _ _ _ _ H3) by (Z.div_mod_to_equations; lia).
           apply Hl2; Z.div_mod_to_equations; lia.
        -- intros y Hy. simpl in Hy. destruct (Hal y ltac:(by right)) as [Hy16 Hyx].
           assert (y <> z) by (apply NoDup_cons in Hnd as [? _]; set_solver).
           rewrite (load64_store64_ne _ _ _ _ _ H3) by (Z.div_mod_to_equations; lia).
           apply Hl2; Z.div_mod_to_equations; lia.
    + intros a Ha. pose proof (Ha x ltac:(left)). pose proof (Ha z ltac:(set_solver)).
      rewrite (store64_lookup _ _ _ _ _ H3), (store64_lookup _ _ _ _ _ H2),
        (store64_lookup _ _ _ _ _ H1) by lia. done.
    + intros lo hi ?. by eapply mapped_store64, mapped_store64, mapped_store64.
Qed.
End ListOps.

(** ** Traversals *)

Section Search.
Context {X : Type} (fits : Z -> M (st X) bool) (P : Z -> bool).
Implicit Types (s : st X).

(** [fits] reads the memory only and decides [P] on every node of [l]. *)
Definition decides s (l : list Z) : Prop :=
  forall x, x ∈ l -> forall Q : bool -> st X -> Prop, Q (P x) s -> runs (fits x) s Q.

(** With fuel for one step per node and one for the end, a traversal returns. *)
Lemma runs_list_search fuel l s Q :
  dll (smem s) l -> nodes_ok (smem s) l -> decides s l -> (length l < fuel)%nat ->
  (forall l1 x l2, l = l1 ++ x :: l2 -> P x = true -> Q x s) ->
  ((forall x, x ∈ l -> P x = false) -> Q NULL s) ->
  runs (list_search fuel fits (hd NULL l)) s Q.
Proof.
  revert l Q. induction fuel as [|fuel IH]; intros l Q Hd Hok Hdec Hf HQ1 HQ2; [lia|].
  destruct l as [|x l]; simpl.
  { apply runs_ret, HQ2. intros x Hx. by apply not_elem_of_nil in Hx. }
  destruct (nodes_ok_in _ _ x Hok) as (_ & Hx & _); [left|].
  replace (x =? NULL) with false by (unfold NULL; lia).
  apply runs_bind, Hdec; [left|]. destruct (P x) eqn:E.
  - by apply runs_ret, (HQ1 [] x l).
  - destruct Hd as (Hn & _ & Hd). eapply runs_bind, runs_next; [exact Hn|].
    apply Forall_cons in Hok as [_ Hok]. apply IH; [done|done| |simpl in Hf; lia| |].
    + intros y Hy. apply Hdec. by right.
    + intros l1 y l2 -> HP. by apply (HQ1 (x :: l1) y l2).
    + intros Hall. apply HQ2. intros y [->|Hy]%elem_of_cons; auto.
Qed.
End Search.

(** ** The words next to a block *)

Section Neighbours.
Context {X : Type} (base size : Z) (out : mem).
Implicit Types (s : st X).

(** The head word of what follows a block: another block's head, or the end of the area. *)
Lemma next_word m l b r :
  area_ok base size out m (l ++ b :: r) ->
  exists w, load64 m (bptr b + bsz b + 8) = Some w /\
    match r with
    | [] => has_flag w AREA_FLAG = true
    | c :: _ => bptr c = bptr b + bsz b + 16 /\ tagw c w
    end.
Proof.
  intros Ha. pose proof (ao_chain _ _ _ _ _ Ha) as Hch.
  apply chain_app in Hch as (x & _ & <- & Hch). destruct r as [|c r].
  - simpl in Hch. destruct (ao_last _ _ _ _ _ Ha) as (w & Hw & Hf). exists w.
    split; [|done]. rewrite <- Hw. f_equal. lia.
  - destruct Hch as [Hc _].
    assert (Hin : c ∈ l ++ b :: c :: r) by set_solver.
    destruct (area_blk _ _ _ _ _ _ Ha Hin) as [_ _ _ _ _ _ [(w & Hw & Ht) _] _ _].
    exists w. split_ands; try done. rewrite <- Hw. f_equal. lia.
Qed.

Lemma prev_word m l b r :
  area_ok base size out m (l ++ b :: r) ->
  exists w, load64 m (bptr b - 16) = Some w /\
    ((l = [] /\ has_flag w AREA_FLAG = true) \/
     (exists l' c, l = l' ++ [c] /\ bptr b = bptr c + bsz c + 16 /\ tagw c w)).
Proof.
  intros Ha. pose proof (ao_chain _ _ _ _ _ Ha) as Hch.
  apply chain_app in Hch as (x & Hcl & Hx & _). destruct l as [|c0 l0] eqn:El.
  - simpl in Hcl. destruct (ao_first _ _ _ _ _ Ha) as (w & Hw & Hf). exists w.
    split; [|by left]. rewrite <- Hw. f_equal. lia.
  - destruct (exists_last (l := c0 :: l0)) as (l' & c & E); [done|]. rewrite E in *.
    apply chain_app in Hcl as (y & _ & <- & Hc). simpl in Hc.
    assert (Hin : c ∈ (l' ++ [c]) ++ b :: r) by set_solver.
    destruct (area_blk _ _ _ _ _ _ Ha Hin) as [_ _ _ _ _ _ [_ (w & Hw & Ht)] _ _].
    exists w. split; [rewrite <- Hw; f_equal; lia|]. right. exists l', c. split_ands; try done. lia.
Qed.

Lemma runs_blk_nonext s l b r Q :
  area_ok base size out (smem s) (l ++ b :: r) ->
  Q (match r with [] => true | _ => false end) s -> runs (blk_nonext (bptr b) (bsz b)) s Q.
Proof.
  intros Ha HQ. destruct (next_word _ _ _ _ Ha) as (w & Hw & Hr).
  destruct (area_blk _ _ _ _ _ b Ha) as [(?&?&?&?) ? ? ? ? ? _ _ _]; [apply blk_in_cases; tauto|].
  unfold blk_nonext, blk_nexthead. sizes. norm_words.
  eapply runs_bind, runs_ld; [done|]. apply runs_ret. destruct r as [|c r]; [by rewrite Hr|].
  destruct Hr as [_ Ht]. rewrite (tag_area c); [done| | | |done];
    (destruct (area_blk _ _ _ _ _ c Ha) as [(?&?&?&?) ? ? ? ? _ _ _ _]; [set_solver|lia]).
Qed.

(** The FREE flag of the next block, as [blk_nexthead(ptr, size) & FREE_FLAG] reads it. *)
Lemma runs_nexthead {A} (k : Z -> M (st X) A) s l b c r Q :
  area_ok base size out (smem s) (l ++ b :: c :: r) ->
  (forall w, has_flag w FREE_FLAG = bflag c -> runs (k w) s Q) ->
  runs (bind (blk_nexthead (bptr b) (bsz b)) k) s Q.
Proof.
  intros Ha HQ. destruct (next_word _ _ _ _ Ha) as (w & Hw & _ & Ht).
  destruct (area_blk _ _ _ _ _ b Ha) as [(?&?&?&?) ? ? ? ? ? _ _ _]; [apply blk_in_cases; tauto|].
  unfold blk_nexthead. sizes. norm_words. eapply runs_bind, runs_ld; [done|]. apply HQ.
  rewrite (tag_free c); [done| | | |done];
    (destruct (area_blk _ _ _ _ _ c Ha) as [(?&?&?&?) ? ? ? ? _ _ _ _]; [set_solver|lia]).
Qed.

Lemma runs_blk_next s l b r Q :
  area_ok base size out (smem s) (l ++ b :: r) ->
  Q (match r with [] => NULL | c :: _ => bptr c end) s -> runs (blk_next (bptr b)) s Q.
Proof.
  intros Ha HQ. destruct (next_word _ _ _ _ Ha) as (w & Hw & Hr).
  assert (Hin : b ∈ l ++ b :: r) by (apply blk_in_cases; tauto).
  destruct (area_blk _ _ _ _ _ b Ha) as [(?&?&?&?) ? ? ? ? ? _ _ _]; [done|].
  unfold blk_next. eapply runs_bind, runs_blk_size; [done..|].
  eapply runs_bind, runs_blk_nonext; [done|]. destruct r as [|c r]; [by apply runs_ret|].
  destruct Hr as [Hc _]. apply runs_ret. sizes. norm_words. by rewrite <- Hc.
Qed.

Lemma runs_blk_noprev s l b r Q :
  area_ok base size out (smem s) (l ++ b :: r) ->
  Q (match l with [] => true | _ => false end) s -> runs (blk_noprev (bptr b)) s Q.
Proof.
  intros Ha HQ. destruct (prev_word _ _ _ _ Ha) as (w & Hw & Hr).
  destruct (area_blk _ _ _ _ _ b Ha) as [(?&?&?&?) ? ? ? ? ? _ _ _]; [apply blk_in_cases; tauto|].
  unfold blk_noprev, blk_prevtail. sizes. norm_words.
  eapply runs_bind, runs_ld; [done|]. apply runs_ret.
  destruct Hr as [[-> ->]|(l' & c & -> & _ & Ht)]; [done|].
  rewrite (tag_area c); [by destruct l'| | | |done];
    (destruct (area_blk _ _ _ _ _ c Ha) as [(?&?&?&?) ? ? ? ? _ _ _ _]; [set_solver|lia]).
Qed.

Lemma runs_prevtail {A} (k : Z -> M (st X) A) s l c b r Q :
  area_ok base size out (smem s) ((l ++ [c]) ++ b :: r) ->
  (forall w, has_flag w FREE_FLAG = bflag c -> w &! ~! FLAG_BITS = bsz c -> runs (k w) s Q) ->
  runs (bind (blk_prevtail (bptr b)) k) s Q.
Proof.
  intros Ha HQ. destruct (prev_word _ _ _ _ Ha) as (w & Hw & Hr).
  destruct Hr as [[E _]|(l' & c' & E & _ & Ht)]; [by destruct l|].
  apply app_inj_tail in E as [<- <-].
  destruct (area_blk _ _ _ _ _ b Ha) as [(?&?&?&?) ? ? ? ? ? _ _ _]; [apply blk_in_cases; tauto|].
  unfold blk_prevtail. sizes. norm_words. eapply runs_bind, runs_ld; [done|].
  destruct (area_blk _ _ _ _ _ c Ha) as [(?&?&?&?) ? ? ? ? _ _ _ _]; [set_solver|].
  apply HQ; [apply (tag_free c)|apply (tag_size c)]; try done; lia.
Qed.

Lemma runs_blk_prev s l c b r Q :
  area_ok base size out (smem s) ((l ++ [c]) ++ b :: r) ->
  Q (bptr c) s -> runs (blk_prev (bptr b)) s Q.
Proof.
  intros Ha HQ. unfold blk_prev. eapply runs_bind, runs_blk_noprev; [done|].
  destruct (prev_word _ _ _ _ Ha) as (w & _ & [[E _]|(l' & c' & E & Hb & _)]); [by destruct l|].
  apply app_inj_tail in E as [<- <-].
  replace (match l ++ [c] with [] => true | _ => false end) with false by (by destruct l).
  eapply runs_prevtail; [done|]. intros w' _ ->. apply runs_ret.
  destruct (area_blk _ _ _ _ _ b Ha) as [(?&?&?&?) ? ? ? ? ? _ _ _]; [apply blk_in_cases; tauto|].
  destruct (area_blk _ _ _ _ _ c Ha) as [(?&?&?&?) ? ? ? ? _ _ _ _]; [set_solver|].
  sizes. norm_words. by replace (bptr b - 16 - bsz c) with (bptr c) by lia.
Qed.
End Neighbours.
