(* ===== verification/PoolOps.v ===== *)
(** PoolOps: the invariant of a memory pool and rules for the static functions of [pool.cpp]. *)

From Stdlib Require Import ZArith Lia.
From stdpp Require Import prelude gmap.
From S2P Require Import Prelude Mem Block Freelist Pool HeapInv HeapOps ListOps.

(** The pool [smgr s] manages exactly the blocks [bs]; [out] is the memory outside its area. *)
Definition pool_ok (out : mem) (s : st mpool) (bs : list blk) : Prop :=
  heap_ok (mp_ptr (smgr s)) (mp_size (smgr s)) out (smem s) (mp_large_blk (smgr s))
    (mp_freed (smgr s)) bs.

(** The fields that only [mpool_init], [mpool_setcb] and the byte counter's updates write. *)
Record same_pool (s s' : st mpool) : Prop := {
  sp_ptr : mp_ptr (smgr s') = mp_ptr (smgr s);
  sp_size : mp_size (smgr s') = mp_size (smgr s);
  sp_alloced : mp_alloced_size (smgr s') = mp_alloced_size (smgr s);
  sp_reqmem : mp_cb_reqmem (smgr s') = mp_cb_reqmem (smgr s);
  sp_delmem : mp_cb_delmem (smgr s') = mp_cb_delmem (smgr s)
}.

#[export] Instance same_pool_preorder : PreOrder same_pool.
Proof.
  constructor.
  - intros s. by constructor.
  - intros s1 s2 s3 [] []. constructor; congruence.
Qed.

Create HintDb pool.
#[export] Hint Extern 1 (same_pool ?s ?s) => reflexivity : pool.
#[export] Hint Extern 2 (same_pool _ _) => etransitivity; [eassumption|] : pool.
#[export] Hint Extern 3 (same_pool _ _) => split; reflexivity : pool.

Lemma block_node base size out m bs b : area_ok base size out m bs -> b ∈ bs -> node_ok m (bptr b).
Proof.
  intros Ha Hb. destruct (area_blk _ _ _ _ _ _ Ha Hb) as [(?&?&?&?) ? ? ? ? ? _ _ Hm].
  unfold node_ok. split_ands; [done|lia|lia|]. eapply mapped_sub; [exact Hm|lia..].
Qed.

Lemma listed_nonnull base size out m l b r :
  area_ok base size out m (l ++ b :: r) -> (bptr b =? NULL) = false.
Proof.
  intros Ha. destruct (area_blk _ _ _ _ _ b Ha); [apply blk_in_cases; tauto|]. unfold NULL. lia.
Qed.

Lemma lists_nodes base size out m large freed bs ls id :
  area_ok base size out m bs -> lists_ok m large freed bs ls -> -1 <= id < 8 ->
  nodes_ok m (ls id).
Proof.
  intros Ha Hl Hid. apply Forall_forall. intros x Hx.
  destruct (node_block _ _ _ _ _ _ _ Hl Hid Hx) as (b & Hb & <- & _). by eapply block_node.
Qed.

(** A free list is never longer than the traversals' fuel. *)
Lemma list_fuel base size out m large freed bs ls id :
  area_ok base size out m bs -> lists_ok m large freed bs ls -> -1 <= id < 8 ->
  (length (ls id) < S (Z.to_nat (size / 32)))%nat.
Proof.
  intros Ha Hl Hid.
  assert (Hle : (length (ls id) <= length (bptr <$> bs))%nat).
  { apply submseteq_length, NoDup_submseteq; [by apply (lo_nodup _ _ _ _ _ Hl)|].
    intros x Hx. destruct (node_block _ _ _ _ _ _ _ Hl Hid Hx) as (b & Hb & <- & _).
    by apply list_elem_of_fmap_2. }
  rewrite length_fmap in Hle.
  pose proof (chain_length _ _ _ (ao_blk _ _ _ _ _ Ha) (ao_chain _ _ _ _ _ Ha)).
  pose proof (Z.div_le_lower_bound size 32 (Z.of_nat (length bs))). lia.
Qed.

Lemma head_of_freed large freed id : 0 <= id -> head_of large freed id = list_get freed id.
Proof. intros. unfold head_of. by replace (id <? 0) with false by lia. Qed.

(** A listed block is a node of its class's list. *)
Lemma listed_split m large freed l b r ls :
  lists_ok m large freed (l ++ b :: r) ls -> blisted b = true ->
  exists l1 l2, ls (freelists_size2id (bsz b)) = l1 ++ bptr b :: l2.
Proof.
  intros Hl Hb. apply list_elem_of_split. apply (lo_in _ _ _ _ _ Hl); [apply size2id_range|].
  exists b. split_ands; try done. apply blk_in_cases. tauto.
Qed.

Section PoolOps.
Context (out : mem).
Implicit Types (s : st mpool) (bs l r : list blk).

(** ** [_detach] *)

Lemma detach_large s l b r Q :
  pool_ok out s (l ++ b :: r) -> blisted b = true -> freelists_size2id (bsz b) < 0 ->
  (forall s', same_pool s s' -> pool_ok out s' (l ++ set_listed false b :: r) ->
     Q tt s') ->
  runs (large <- field mp_large_blk ;; large' <- freelist_detach large (bptr b) ;;
        assign (set_large large')) s Q.
Proof.
  intros [Ha [ls Hl]] Hb Hneg HQ. pose proof (size2id_range (bsz b)) as Hid.
  destruct (listed_split _ _ _ _ _ _ _ Hl Hb) as (l1 & l2 & E).
  apply runs_bind, runs_gets, runs_bind.
  assert (Hlg : mp_large_blk (smgr s) = hd NULL (l1 ++ bptr b :: l2)).
  { rewrite <- E, <- (lo_head _ _ _ _ _ Hl) by done. unfold head_of.
    by replace (_ <? 0) with true by lia. }
  rewrite Hlg. apply runs_freelist_detach.
  { rewrite <- E. by apply (lo_dll _ _ _ _ _ Hl). }
  { rewrite <- E. by apply (lo_nodup _ _ _ _ _ Hl). }
  { rewrite <- E. by eapply lists_nodes. }
  intros m' [F1 F2 F3]. apply runs_modify, HQ; [by split|].
  eapply (heap_unlist _ _ _ (smem s)); try done.
  - by apply F3, (ao_mapped _ _ _ _ _ Ha).
  - by apply (lo_len _ _ _ _ _ Hl).
  - intros id' Hid'. unfold head_of. simpl. destruct (Z.ltb_spec id' 0).
    + by rewrite decide_True by lia.
    + by rewrite decide_False by lia.
Qed.

Lemma runs_detach s l b r Q :
  pool_ok out s (l ++ b :: r) -> blisted b = true ->
  (forall s', same_pool s s' -> pool_ok out s' (l ++ set_listed false b :: r) -> Q tt s') ->
  runs (_detach (bptr b)) s Q.
Proof.
  intros Hp Hb HQ. pose proof Hp as [Ha [ls Hl]]. unfold _detach.
  eapply runs_bind, runs_blk_size; [done|apply blk_in_cases; tauto|]. cbv zeta.
  pose proof (size2id_range (bsz b)) as Hid.
  destruct (Z.ltb_spec (freelists_size2id (bsz b)) 0) as [Hneg|Hpos].
  - by eapply detach_large.
  - destruct (listed_split _ _ _ _ _ _ _ Hl Hb) as (l1 & l2 & E).
    apply runs_bind, runs_gets, runs_bind.
    eapply (runs_freelists_detach _ _ l1 _ l2); try rewrite <- E.
    + lia.
    + by apply (lo_len _ _ _ _ _ Hl).
    + rewrite <- (lo_head _ _ _ _ _ Hl) by done. by rewrite head_of_freed by done.
    + by apply (lo_dll _ _ _ _ _ Hl).
    + by apply (lo_nodup _ _ _ _ _ Hl).
    + by eapply lists_nodes.
    + intros m' freed' [F1 F2 F3] Hlen Hget. apply runs_modify, HQ; [by split|].
      eapply (heap_unlist _ _ _ (smem s)); try done.
      * by apply F3, (ao_mapped _ _ _ _ _ Ha).
      * intros id' Hid'. destruct (decide (id' < 0)).
        -- rewrite decide_False by lia. unfold head_of. simpl.
           by replace (id' <? 0) with true by lia.
        -- rewrite !head_of_freed by lia. apply Hget. lia.
Qed.

(** ** [put_large] and [do_free] *)

Lemma unlisted_not_node m large freed base size l b r ls id :
  area_ok base size out m (l ++ b :: r) -> lists_ok m large freed (l ++ b :: r) ls ->
  blisted b = false -> -1 <= id < 8 -> bptr b ∉ ls id.
Proof.
  intros Ha Hl Hb Hid Hx.
  destruct (node_block _ _ _ _ _ _ _ Hl Hid Hx) as (c & Hc & Hp & Hcl & _).
  assert (Hin : b ∈ l ++ b :: r) by (apply blk_in_cases; tauto).
  destruct (area_blk _ _ _ _ _ _ Ha Hc) as [(?&_) _ _ _ _ _ _ _ _].
  destruct (area_blk _ _ _ _ _ _ Ha Hin) as [(?&_) _ _ _ _ _ _ _ _].
  destruct (chain_sep _ _ _ _ _ (ao_blk _ _ _ _ _ Ha) (ao_chain _ _ _ _ _ Ha) Hc Hin)
    as [->|[?|?]]; [congruence|lia|lia].
Qed.

Lemma put_nodes base size m large freed l b r ls id :
  area_ok base size out m (l ++ b :: r) -> lists_ok m large freed (l ++ b :: r) ls ->
  -1 <= id < 8 -> nodes_ok m (bptr b :: ls id).
Proof.
  intros Ha Hl Hid. constructor; [|by eapply lists_nodes].
  eapply block_node; [done|]. apply blk_in_cases. tauto.
Qed.

Lemma runs_put_large s l b r Q :
  pool_ok out s (l ++ b :: r) -> blisted b = false -> bflag b = true ->
  freelists_size2id (bsz b) < 0 ->
  (forall s', same_pool s s' -> pool_ok out s' (l ++ to_listed b :: r) -> Q tt s') ->
  runs (put_large (bptr b)) s Q.
Proof.
  intros [Ha [ls Hl]] Hb Hf Hneg HQ. pose proof (size2id_range (bsz b)) as Hid.
  assert (Hlg : mp_large_blk (smgr s) = hd NULL (ls (freelists_size2id (bsz b)))).
  { rewrite <- (lo_head _ _ _ _ _ Hl) by done. unfold head_of.
    by replace (_ <? 0) with true by lia. }
  unfold put_large. apply runs_bind, runs_gets, runs_bind. rewrite Hlg.
  apply runs_freelist_put.
  { by apply (lo_dll _ _ _ _ _ Hl). }
  { by apply (lo_nodup _ _ _ _ _ Hl). }
  { by eapply unlisted_not_node. }
  { by eapply put_nodes. }
  intros m' [F1 F2 F3]. apply runs_modify, HQ; [by split|].
  eapply (heap_list _ _ _ (smem s)); try done.
  - by apply F3, (ao_mapped _ _ _ _ _ Ha).
  - by apply (lo_len _ _ _ _ _ Hl).
  - intros id' Hid'. unfold head_of. simpl. destruct (Z.ltb_spec id' 0).
    + by rewrite decide_True by lia.
    + by rewrite decide_False by lia.
Qed.

(** The free block that [do_free] makes of [b]. *)
Definition freed_blk (b : blk) : blk := Blk (bptr b) (bsz b) true true [].

Lemma runs_do_free s l b r Q :
  pool_ok out s (l ++ b :: r) -> blisted b = false ->
  (forall s', same_pool s s' -> pool_ok out s' (l ++ freed_blk b :: r) -> Q tt s') ->
  runs (do_free (bptr b)) s Q.
Proof.
  intros Hp Hb HQ. unfold do_free.
  eapply runs_bind, runs_blk_size; [apply Hp|apply blk_in_cases; tauto|].
  eapply runs_bind, runs_blk_setfreed; [exact Hp|done|]. intros m1 Hh.
  set (b1 := set_flag true b). change (bptr b) with (bptr b1).
  change (heap_ok (mp_ptr (smgr s)) (mp_size (smgr s)) out m1 (mp_large_blk (smgr s))
    (mp_freed (smgr s)) (l ++ b1 :: r)) in Hh.
  pose proof Hh as [Ha [ls Hl]]. pose proof (size2id_range (bsz b1)) as Hid.
  apply runs_bind, runs_gets, runs_bind. unfold freelists_put.
  eapply runs_bind, runs_blk_size; [exact Ha|apply blk_in_cases; tauto|]. cbv zeta.
  destruct (Z.ltb_spec (freelists_size2id (bsz b1)) 0) as [Hneg|Hpos].
  - apply runs_ret, runs_bind, runs_modify. simpl.
    apply (runs_put_large _ l b1 r); [exact Hh|done..|].
    intros s' Hs' Hp'. apply HQ; [|exact Hp']. etransitivity; [|exact Hs']. by split.
  - assert (Hget : list_get (mp_freed (smgr s)) (freelists_size2id (bsz b1)) =
                   hd NULL (ls (freelists_size2id (bsz b1)))).
    { rewrite <- (lo_head _ _ _ _ _ Hl) by done. by rewrite head_of_freed by done. }
    cbn [smgr with_mem]. rewrite Hget. apply runs_bind, runs_freelist_put; cbn [smem with_mem].
    { by apply (lo_dll _ _ _ _ _ Hl). }
    { by apply (lo_nodup _ _ _ _ _ Hl). }
    { by eapply (unlisted_not_node _ _ _ _ _ _ b1). }
    { by eapply (put_nodes _ _ _ _ _ _ b1). }
    intros m' [F1 F2 F3]. apply runs_ret, runs_bind, runs_modify, runs_ret. simpl.
    apply HQ; [by split|].
    apply (heap_list _ _ _ m1 _ _ _ _ _ l b1 r ls Ha Hl); try done.
    + by apply F3, (ao_mapped _ _ _ _ _ Ha).
    + unfold list_set. simpl. rewrite length_insert. apply (lo_len _ _ _ _ _ Hl).
    + pose proof (lo_len _ _ _ _ _ Hl) as Hlen. unfold FREELIST_NUM in Hlen.
      intros id' Hid'. destruct (decide (id' < 0)).
      * rewrite decide_False by lia. unfold head_of. simpl.
        by replace (id' <? 0) with true by lia.
      * rewrite !head_of_freed by lia. unfold list_get, list_set. simpl.
        rewrite !nth_lookup. subst b1. simpl in *. case_decide as E.
        -- rewrite E. by rewrite list_lookup_insert_eq by lia.
        -- by rewrite list_lookup_insert_ne by lia.
Qed.

(** ** [try_split_and_free] *)

(** The two blocks that a split of [b] at [sz] leaves, the second one free. *)
Definition split_blk (b : blk) (sz : Z) : blk :=
  Blk (bptr b) sz false false (take (Z.to_nat sz) (bdata b)).
Definition rest_blk (b : blk) (sz : Z) : blk :=
  Blk (bptr b + sz + 16) (bsz b - sz - 16) true true [].

Lemma runs_try_split s l b r sz Q :
  pool_ok out s (l ++ b :: r) -> blisted b = false ->
  16 <= sz -> sz mod 16 = 0 -> sz + 64 < two64 ->
  (forall s', sz + 64 <= bsz b -> same_pool s s' ->
     pool_ok out s' (l ++ split_blk b sz :: rest_blk b sz :: r) -> Q true s') ->
  (bsz b < sz + 64 -> Q false s) ->
  runs (try_split_and_free (bptr b) sz) s Q.
Proof.
  intros Hp Hb Hlo Hal Hhi HQ1 HQ2. unfold try_split_and_free.
  eapply runs_bind, runs_blk_size; [apply Hp|apply blk_in_cases; tauto|].
  sizes. norm_words. destruct (Z.leb_spec (sz + 64) (bsz b)) as [Hle|Hgt].
  - eapply runs_bind, runs_blk_split; [exact Hp|done|done|done|lia|]. intros m1 Hh.
    set (b1 := Blk (bptr b) sz false false (take (Z.to_nat sz) (bdata b))) in *.
    set (b2 := Blk (bptr b + sz + 16) (bsz b - sz - 16) false false []) in *.
    change (bptr b + sz + 16) with (bptr b2).
    apply runs_bind, (runs_do_free _ (l ++ [b1]) b2 r).
    { unfold pool_ok. simpl. by rewrite <- app_assoc. }
    { done. }
    intros s' Hs' Hp'. apply runs_ret, HQ1; [done| |].
    + etransitivity; [|exact Hs']. by split.
    + by rewrite <- app_assoc in Hp'.
  - apply runs_ret, HQ2. lia.
Qed.

(** ** Merging *)

(** [b] with the free block [c] that follows it, and with the free block [c] before it. *)
Definition merge_r (b c : blk) : blk :=
  Blk (bptr b) (bsz b + bsz c + 16) false false (bdata b).
Definition merge_l (c b : blk) : blk :=
  Blk (bptr c) (bsz c + bsz b + 16) false false [].

Lemma runs_mergenext s l b c r Q :
  pool_ok out s (l ++ b :: c :: r) -> blisted b = false -> blisted c = true ->
  (forall s', same_pool s s' -> pool_ok out s' (l ++ merge_r b c :: r) -> Q (bptr b) s') ->
  runs (blk_mergenext (bptr b) (Some _detach)) s Q.
Proof.
  intros Hp Hb Hc HQ. pose proof Hp as [Ha _].
  assert (Hbi : b ∈ l ++ b :: c :: r) by (apply blk_in_cases; tauto).
  assert (Hci : c ∈ l ++ b :: c :: r) by set_solver.
  unfold blk_mergenext. eapply runs_bind, runs_blk_next; [exact Ha|].
  eapply runs_bind, runs_blk_size; [exact Ha|done|].
  eapply runs_bind, runs_blk_size; [exact Ha|done|].
  destruct (area_blk _ _ _ _ _ _ Ha Hbi) as [(?&?&?&?) ? ? ? ? _ _ _ _].
  destruct (area_blk _ _ _ _ _ _ Ha Hci) as [(?&?&?&?) ? ? ? ? _ _ _ _].
  assert (Hadj : bptr c = bptr b + bsz b + 16).
  { pose proof (ao_chain _ _ _ _ _ Ha) as Hch.
    by apply chain_app in Hch as (x & _ & <- & Hcc & _). }
  apply runs_bind. simpl call_detach. apply (runs_detach _ (l ++ [b]) c r).
  { by rewrite <- app_assoc. }
  { done. }
  intros s1 Hs1 Hp1. rewrite <- app_assoc in Hp1. simpl in Hp1. apply runs_bind.
  sizes. norm_words. eapply (runs_merge _ _ _ _ _ _ _ b (set_listed false c)); [exact Hp1|done|done|].
  intros m' Hh. apply runs_ret, HQ; [|exact Hh]. etransitivity; [exact Hs1|]. by split.
Qed.

Lemma runs_mergeprev s l c b r Q :
  pool_ok out s (l ++ c :: b :: r) -> blisted b = false -> blisted c = true ->
  (forall s', same_pool s s' -> pool_ok out s' (l ++ merge_l c b :: r) -> Q (bptr c) s') ->
  runs (blk_mergeprev (bptr b) (Some _detach)) s Q.
Proof.
  intros Hp Hb Hc HQ. pose proof Hp as [Ha _].
  assert (Ha' : area_ok (mp_ptr (smgr s)) (mp_size (smgr s)) out (smem s) ((l ++ [c]) ++ b :: r))
    by by rewrite <- app_assoc.
  assert (Hbi : b ∈ l ++ c :: b :: r) by set_solver.
  assert (Hci : c ∈ l ++ c :: b :: r) by set_solver.
  unfold blk_mergeprev. eapply runs_bind, runs_blk_prev; [exact Ha'|].
  eapply runs_bind, runs_blk_size; [exact Ha|done|].
  eapply runs_bind, runs_blk_size; [exact Ha|done|].
  destruct (area_blk _ _ _ _ _ _ Ha Hbi) as [(?&?&?&?) ? ? ? ? _ _ _ _].
  destruct (area_blk _ _ _ _ _ _ Ha Hci) as [(?&?&?&Hcd) ? ? ? ? _ _ _ _].
  assert (Hadj : bptr b = bptr c + bsz c + 16).
  { pose proof (ao_chain _ _ _ _ _ Ha) as Hch.
    by apply chain_app in Hch as (x & _ & <- & Hcc & _). }
  apply runs_bind. simpl call_detach. apply (runs_detach _ l c (b :: r)); [done..|].
  intros s1 Hs1 Hp1. apply runs_bind. sizes. norm_words.
  replace (bsz b + bsz c + 16) with (bsz (set_listed false c) + bsz b + 16) by (simpl; lia).
  eapply (runs_merge _ _ _ _ _ _ _ (set_listed false c) b); [exact Hp1|done|done|].
  intros m' Hh. apply runs_ret, HQ; [etransitivity; [exact Hs1|]; by split|].
  simpl in Hh. destruct (Hcd Hc) as [_ Hd]. rewrite Hd in Hh. exact Hh.
Qed.

(** What [blk_trymerge] does to the blocks after and before the freed one. *)
Definition merged_right (b : blk) (r : list blk) (b' : blk) (r' : list blk) : Prop :=
  (b' = b /\ r' = r /\ match r with c :: _ => bflag c = false | [] => True end) \/
  (exists c, r = c :: r' /\ bflag c = true /\ b' = merge_r b c).
Definition merged_left (l : list blk) (b : blk) (l' : list blk) (b' : blk) : Prop :=
  (b' = b /\ l' = l /\ forall l0 c, l = l0 ++ [c] -> bflag c = false) \/
  (exists c, l = l' ++ [c] /\ bflag c = true /\ b' = merge_l c b).

Lemma runs_trymerge_right s l b r Q :
  pool_ok out s (l ++ b :: r) -> blisted b = false -> quiet r ->
  (forall s' b' r', same_pool s s' -> merged_right b r b' r' -> blisted b' = false ->
     bptr b' = bptr b -> pool_ok out s' (l ++ b' :: r') -> Q (bptr b) s') ->
  runs (nn <- blk_nonext (bptr b) (bsz b) ;;
        (if nn then ret (bptr b)
         else w <- blk_nexthead (bptr b) (bsz b) ;;
              if has_flag w FREE_FLAG then blk_mergenext (bptr b) (Some _detach)
              else ret (bptr b))) s Q.
Proof.
  intros Hp Hb Hq HQ. pose proof Hp as [Ha _].
  eapply runs_bind, runs_blk_nonext; [exact Ha|]. destruct r as [|c r].
  - apply runs_ret, (HQ s b []); try done. by left.
  - eapply runs_nexthead; [exact Ha|]. intros w ->. destruct (bflag c) eqn:Ec.
    + eapply runs_mergenext; [exact Hp|done| |].
      { apply Forall_cons in Hq as [<- _]. done. }
      intros s' Hs' Hp'. apply (HQ s' (merge_r b c) r); try done. right. by exists c.
    + apply runs_ret, (HQ s b (c :: r)); try done. by left.
Qed.

Lemma runs_trymerge_left s l b r Q :
  pool_ok out s (l ++ b :: r) -> blisted b = false -> quiet l ->
  (forall s' l' b', same_pool s s' -> merged_left l b l' b' -> blisted b' = false ->
     pool_ok out s' (l' ++ b' :: r) -> Q (bptr b') s') ->
  runs (np <- blk_noprev (bptr b) ;;
        (if np then ret (bptr b)
         else w <- blk_prevtail (bptr b) ;;
              if has_flag w FREE_FLAG then blk_mergeprev (bptr b) (Some _detach)
              else ret (bptr b))) s Q.
Proof.
  intros Hp Hb Hq HQ. pose proof Hp as [Ha _].
  eapply runs_bind, runs_blk_noprev; [exact Ha|].
  destruct (decide (l = [])) as [->|Hne].
  - apply runs_ret, (HQ s [] b); try done. left. split_ands; try done.
    intros l0 c E. by destruct l0.
  - destruct (exists_last Hne) as (l0 & c & ->).
    replace (match l0 ++ [c] with [] => true | _ => false end) with false by by destruct l0.
    eapply runs_prevtail; [exact Ha|]. intros w -> _. destruct (bflag c) eqn:Ec.
    + eapply (runs_mergeprev _ l0 c b r); [by rewrite <- app_assoc in Hp|done| |].
      { apply Forall_app in Hq as [_ Hq]. apply Forall_cons in Hq as [<- _]. done. }
      intros s' Hs' Hp'. apply (HQ s' l0 (merge_l c b)); try done. right. by exists c.
    + apply runs_ret, (HQ s (l0 ++ [c]) b); try done. left. split_ands; try done.
      intros l1 c1 E. by apply app_inj_tail in E as [_ <-].
Qed.

Lemma bind_assoc_runs {A B C} (c : PM A) (k : A -> PM B) (k' : B -> PM C) s Q :
  runs (bind (bind c k) k') s Q -> runs (x <- c ;; bind (k x) k') s Q.
Proof. unfold runs, bind. by destruct (c s) as [[??]|]. Qed.

Lemma runs_trymerge s l b r Q :
  pool_ok out s (l ++ b :: r) -> blisted b = false -> quiet l -> quiet r ->
  (forall s' l' b1 b' r', same_pool s s' -> merged_right b r b1 r' -> merged_left l b1 l' b' ->
     blisted b' = false -> pool_ok out s' (l' ++ b' :: r') -> Q (bptr b') s') ->
  runs (blk_trymerge (bptr b) (Some _detach)) s Q.
Proof.
  intros Hp Hb Hql Hqr HQ. unfold blk_trymerge. pose proof Hp as [Ha _].
  assert (Hbi : b ∈ l ++ b :: r) by (apply blk_in_cases; tauto).
  eapply runs_bind, runs_blk_area_is_2M; [exact Ha|done|]. intros big.
  eapply runs_bind, runs_blk_size; [exact Ha|done|].
  apply bind_assoc_runs, runs_bind. eapply runs_trymerge_right; [exact Hp|done|done|].
  intros s1 b1 r1 Hs1 Hm1 Hb1 Hptr Hp1. rewrite <- Hptr.
  apply bind_assoc_runs, runs_bind. eapply runs_trymerge_left; [exact Hp1|done|done|].
  intros s2 l2 b2 Hs2 Hm2 Hb2 Hp2. destruct big; simpl.
  - apply runs_bind. eapply runs_bind, runs_blk_size; [apply Hp2|apply blk_in_cases; tauto|].
    eapply runs_blk_set_area_2M; [exact Hp2|done|]. intros m3 Hh. apply runs_ret.
    eapply (HQ _ l2 b1 b2 r1); [|done..|exact Hh].
    etransitivity; [exact Hs1|]. etransitivity; [exact Hs2|]. by split.
  - apply runs_bind, runs_ret, runs_ret. eapply (HQ s2 l2 b1 b2 r1); try done.
    by etransitivity.
Qed.
End PoolOps.
