(* ===== verification/PoolMatch.v ===== *)
(** PoolMatch: rules for the searches of the allocation functions of [pool.cpp]. *)

From Stdlib Require Import ZArith Lia.
From stdpp Require Import prelude gmap.
From S2P Require Import Prelude Mem Block Freelist Pool HeapInv HeapOps ListOps.
From S2P Require Import PoolOps.

Section PoolMatch.
Context (out : mem) (fits : Z -> PM bool) (P : blk -> bool).
Implicit Types (s : st mpool) (bs l r : list blk).

(** The test [fits] decides [P] on the blocks [bs] in memory [m], and changes nothing. *)
Definition picks (m : mem) (bs : list blk) : Prop :=
  forall s b Q, smem s = m -> b ∈ bs -> Q (P b) s -> runs (fits (bptr b)) s Q.

(** [P] as a test on payload addresses. *)
Definition at_addr (bs : list blk) (x : Z) : bool :=
  existsb (fun b => (bptr b =? x) && P b) bs.

Lemma at_addr_blk base size m bs b :
  area_ok base size out m bs -> b ∈ bs -> at_addr bs (bptr b) = P b.
Proof.
  intros Ha Hb. unfold at_addr. destruct (P b) eqn:E.
  - apply existsb_exists. exists b. split; [by apply list_elem_of_In|]. by rewrite Z.eqb_refl, E.
  - apply not_true_is_false. intros (c & Hc%list_elem_of_In & Hcb)%existsb_exists.
    apply andb_true_iff in Hcb as [Hp HP]. apply Z.eqb_eq in Hp.
    destruct (area_blk _ _ _ _ _ _ Ha Hc) as [(?&_) _ _ _ _ _ _ _ _].
    destruct (area_blk _ _ _ _ _ _ Ha Hb) as [(?&_) _ _ _ _ _ _ _ _].
    destruct (chain_sep _ _ _ _ _ (ao_blk _ _ _ _ _ Ha) (ao_chain _ _ _ _ _ Ha) Hc Hb)
      as [->|[?|?]]; [congruence|lia|lia].
Qed.

(** The search of one list: the first node that fits, or none of its blocks does. *)
Lemma runs_class_search s bs ls id Q :
  pool_ok out s bs -> lists_ok (smem s) (mp_large_blk (smgr s)) (mp_freed (smgr s)) bs ls ->
  picks (smem s) bs -> -1 <= id < 8 ->
  (forall l b r, bs = l ++ b :: r -> blisted b = true -> P b = true ->
     freelists_size2id (bsz b) = id -> Q (bptr b) s) ->
  ((forall b, b ∈ bs -> blisted b = true -> freelists_size2id (bsz b) = id -> P b = false) ->
     Q NULL s) ->
  runs (list_search (pool_fuel (smgr s)) fits
          (head_of (mp_large_blk (smgr s)) (mp_freed (smgr s)) id)) s Q.
Proof.
  intros [Ha _] Hl Hpk Hid HQ1 HQ2. rewrite (lo_head _ _ _ _ _ Hl) by done.
  apply (runs_list_search fits (at_addr bs)).
  - by apply (lo_dll _ _ _ _ _ Hl).
  - by eapply lists_nodes.
  - intros x Hx Q' HQ'. destruct (node_block _ _ _ _ _ _ _ Hl Hid Hx) as (b & Hb & <- & _).
    apply Hpk; [done|done|]. by erewrite <- at_addr_blk.
  - by eapply list_fuel.
  - intros l1 x l2 E HP.
    destruct (node_block _ _ _ _ _ id x Hl Hid) as (b & Hb & <- & Hbl & Hc); [rewrite E; set_solver|].
    apply list_elem_of_split in Hb as (l & r & ->). eapply HQ1; [done|done| |done].
    erewrite <- at_addr_blk; [exact HP|done|]. apply blk_in_cases; tauto.
  - intros Hall. apply HQ2. intros b Hb Hbl Hc.
    erewrite <- at_addr_blk; [|done|done]. apply Hall, (lo_in _ _ _ _ _ Hl); [done|].
    by exists b.
Qed.

(** The searches' results: a block taken off its list, or the pool as it was. *)
Definition found (bs : list blk) s (x : Z) s' : Prop :=
  exists l b r, bs = l ++ b :: r /\ x = bptr b /\ blisted b = true /\ P b = true /\
    same_pool s s' /\ pool_ok out s' (l ++ set_listed false b :: r).
Definition none_found (sel : Z -> Prop) (bs : list blk) s (x : Z) s' : Prop :=
  x = NULL /\ s' = s /\
  forall b, b ∈ bs -> blisted b = true -> sel (freelists_size2id (bsz b)) -> P b = false.

Lemma runs_match_large s bs Q :
  pool_ok out s bs -> picks (smem s) bs ->
  (forall x s', found bs s x s' -> Q x s') ->
  (forall x s', none_found (fun id => id < 0) bs s x s' -> Q x s') ->
  runs (match_large (fun fuel large => match_with fuel fits large)) s Q.
Proof.
  intros Hp Hpk HQ1 HQ2. pose proof Hp as [Ha [ls Hl]]. unfold match_large, match_with.
  apply runs_bind, runs_gets, runs_bind, runs_gets, runs_bind, runs_bind.
  change (mp_large_blk (smgr s)) with (head_of (mp_large_blk (smgr s)) (mp_freed (smgr s)) (-1)).
  eapply runs_class_search; [done..|lia| |].
  - intros l b r -> Hb HP Hc. rewrite (listed_nonnull _ _ _ _ _ _ _ Ha).
    apply runs_bind. change (head_of _ _ (-1)) with (mp_large_blk (smgr s)).
    assert (Hd : runs (large <- field mp_large_blk ;; large' <- freelist_detach large (bptr b) ;;
                       assign (set_large large')) s (fun _ s' => Q (bptr b) s')).
    { eapply detach_large; [done|done|lia|]. intros s' Hs' Hp'. apply HQ1. by exists l, b, r. }
    unfold runs, bind in Hd |- *. simpl in Hd.
    destruct (freelist_detach _ _ s) as [[large' s1]|]; [exact Hd|done].
  - intros Hall. simpl. apply runs_ret, runs_bind, runs_modify, runs_ret.
    replace (with_mgr _ s) with s by by destruct s as [? []]. apply HQ2. unfold none_found. split_ands; [done..|].
    intros b Hb Hbl Hneg. apply Hall; [done..|]. pose proof (size2id_range (bsz b)). lia.
Qed.

Lemma runs_matches n id s bs Q :
  pool_ok out s bs -> picks (smem s) bs -> 0 <= id -> id + Z.of_nat n = 8 ->
  (forall x s', found bs s x s' -> Q x s') ->
  (forall x s', none_found (fun id' => id <= id') bs s x s' -> Q x s') ->
  runs ('(freed', ptr) <- matches_with n (pool_fuel (smgr s)) fits (mp_freed (smgr s)) id ;;
        assign (set_freed freed') ;; ret ptr) s Q.
Proof.
  revert id. induction n as [|n IH]; intros id Hp Hpk Hid Hn HQ1 HQ2; simpl.
  - apply runs_bind, runs_ret, runs_bind, runs_modify, runs_ret.
    replace (with_mgr _ s) with s by by destruct s as [? []]. apply HQ2. unfold none_found. split_ands; [done..|].
    intros b _ _ Hc. pose proof (size2id_range (bsz b)). lia.
  - pose proof Hp as [Ha [ls Hl]]. apply runs_bind, runs_bind.
    rewrite <- (head_of_freed (mp_large_blk (smgr s))) by lia.
    eapply runs_class_search; [done..|lia| |].
    + intros l b r -> Hb HP Hc. rewrite (listed_nonnull _ _ _ _ _ _ _ Ha).
      assert (Hd : runs (_detach (bptr b)) s (fun _ s' => Q (bptr b) s')).
      { eapply runs_detach; [done|done|]. intros s' Hs' Hp'. apply HQ1. by exists l, b, r. }
      unfold _detach in Hd. unfold runs, bind in Hd |- *.
      pose proof (runs_blk_size _ _ _ s _ b (fun v s' => v = bsz b /\ s' = s) Ha) as Hsz.
      apply runs_inv in Hsz as (v & s1 & Esz & -> & ->);
        [|apply blk_in_cases; tauto|done].
      rewrite Esz in Hd. cbv zeta in Hd. rewrite Hc in Hd.
      replace (id <? 0) with false in Hd by lia. simpl in Hd.
      destruct (freelists_detach _ _ _ s) as [[freed' s2]|]; [|done]. exact Hd.
    + intros Hnone. simpl. apply runs_bind_inv, (IH (id + 1)); [done|done|lia|lia|done|].
      intros x s' (-> & -> & Hall). apply HQ2. unfold none_found. split_ands; [done..|].
      intros b Hb Hbl Hc. destruct (decide (freelists_size2id (bsz b) = id)); [by apply Hnone|].
      apply Hall; [done..|lia].
Qed.

(** The whole search: every listed block that [P] accepts is at least [size] bytes long. *)
Lemma runs_match_any size s bs Q :
  pool_ok out s bs -> picks (smem s) bs -> (forall b, b ∈ bs -> P b = true -> size <= bsz b) ->
  (forall x s', found bs s x s' -> Q x s') ->
  (forall x s', none_found (fun _ => True) bs s x s' -> Q x s') ->
  runs (match_any
          (fun fuel freed =>
             if freelists_size2id size <? 0 then ret (freed, NULL)
             else matches_with (FREELIST_NUM - Z.to_nat (freelists_size2id size)) fuel fits freed
                    (freelists_size2id size))
          (fun fuel large => match_with fuel fits large)) s Q.
Proof.
  intros Hp Hpk HP HQ1 HQ2. pose proof (size2id_range size) as Hr. unfold match_any, match_freed.
  assert (Hsecond : forall s', s' = s ->
    (forall b, b ∈ bs -> blisted b = true -> freelists_size2id size <= freelists_size2id (bsz b) ->
       0 <= freelists_size2id (bsz b) -> P b = false) ->
    runs (match_large (fun fuel large => match_with fuel fits large)) s' Q).
  { intros s' -> Hall. apply (runs_match_large _ bs); [done..|].
    intros x s' (-> & -> & Hlarge). apply HQ2. unfold none_found. split_ands; [done..|]. intros b Hb Hbl _.
    destruct (decide (freelists_size2id (bsz b) < 0)); [by apply Hlarge|].
    destruct (P b) eqn:E; [|done]. rewrite <- E. apply Hall; [done..| |lia].
    apply size2id_mono; [by apply HP|lia]. }
  apply runs_bind, runs_bind, runs_gets, runs_bind, runs_gets.
  destruct (Z.ltb_spec (freelists_size2id size) 0) as [Hneg|Hpos].
  - apply runs_bind, runs_ret, runs_bind, runs_modify, runs_ret.
    replace (with_mgr _ s) with s by by destruct s as [? []]. simpl. apply Hsecond; [done|].
    intros b Hb _ _ Hc. destruct (P b) eqn:E; [|done].
    pose proof (HP b Hb E). pose proof (size2id_large size). pose proof (size2id_large (bsz b)). lia.
  - eapply (runs_matches _ _ _ bs); [done|done|lia|unfold FREELIST_NUM; lia| |].
    + intros x s' (l & b & r & -> & -> & Hrest). destruct Hp as [Ha _].
      rewrite (listed_nonnull _ _ _ _ _ _ _ Ha). apply runs_ret, HQ1. by exists l, b, r.
    + intros x s' (-> & -> & Hall). simpl. apply Hsecond; [done|].
      intros b Hb Hbl Hc _. by apply Hall.
Qed.
End PoolMatch.
