(* ===== verification/PoolFacts.v ===== *)
(** PoolFacts: facts about lists of blocks, request sizes, and the rules that finish an
    allocation. *)

From Stdlib Require Import ZArith Lia.
From stdpp Require Import prelude gmap.
From S2P Require Import Prelude Mem Block Freelist Pool HeapInv HeapOps ListOps.
From S2P Require Import PoolOps.

(** A pool between two operations: every block is tagged free exactly when it is listed. *)
Record pool_inv (out : mem) (s : st mpool) (bs : list blk) : Prop := {
  pi_ok : pool_ok out s bs;
  pi_quiet : quiet bs
}.

(** A write outside the area does not concern the pool. *)
Lemma pool_outside out out' s bs m' :
  let lo := mp_ptr (smgr s) in let hi := lo + mp_size (smgr s) in
  pool_inv out s bs -> (forall a, lo <= a < hi -> m' !! a = smem s !! a) ->
  (forall a, a < lo \/ hi <= a -> m' !! a = out' !! a) -> pool_inv out' (with_mem m' s) bs.
Proof.
  intros lo hi [[Ha [ls Hls]] Hq] Hin Hout. split; [|done].
  pose proof (fun b Hb => area_blk _ _ _ _ _ b Ha Hb) as Hblk. fold lo hi in Ha.
  assert (Hw : forall a, lo <= a -> a + 8 <= hi -> load64 m' a = load64 (smem s) a)
    by (intros; apply load64_frame; intros; apply Hin; lia).
  destruct Ha as [Hb Hal Htop Hmap (w1 & Hf & F1) (w2 & Hla & F2) Hch Hok Htg Hdt _].
  pose proof (chain_le _ _ _ Hok Hch). unfold hi in *.
  split; [split; try done; simpl; fold lo|].
  - intros a Ha. unfold is_Some. rewrite Hin by done. by apply Hmap.
  - exists w1. by rewrite Hw by lia.
  - exists w2. by rewrite Hw by lia.
  - rewrite Forall_forall in Htg |- *. intros b Hb'. destruct (Hblk b Hb') as [(?&_) _ ? ? _ _ _ _ _].
    apply (tagged_frame (smem s)); [|by apply Htg]. intros a Ha. apply Hin. lia.
  - rewrite Forall_forall in Hdt |- *. intros b Hb'. destruct (Hblk b Hb') as [(?&?&?&?) _ ? ? _ _ _ _ _].
    apply (data_frame (smem s)); [done| |by apply Hdt]. intros _ a Ha. apply Hin. lia.
  - exists ls. destruct Hls as [L1 L2 L3 L4 L5]. split; try done. intros id Hid.
    assert (Hn : forall x, x ∈ ls id -> lo <= x /\ x + 16 <= lo + mp_size (smgr s)).
    { intros x Hx. apply L5 in Hx as (b & Hb' & <- & _); [|done].
      destruct (Hblk b Hb') as [(?&_) _ ? ? _ _ _ _ _]. lia. }
    simpl. apply (dll_frame (smem s)); [| |by apply L3].
    + intros x Hx. specialize (Hn x Hx). apply Hw; lia.
    + intros x Hx. assert (Hx' : x ∈ ls id) by (destruct (ls id); [by apply not_elem_of_nil in Hx|by right]).
      specialize (Hn x Hx'). apply Hw; lia.
Qed.

(** No two neighbours are both free and the byte counter is the total size of the allocated
    blocks.  The reallocations do not keep this; every other operation does. *)
Record tidy (s : st mpool) (bs : list blk) : Prop := {
  td_coalesced : coalesced bs;
  td_alloced : mp_alloced_size (smgr s) = live_bytes bs
}.

(** The fields that belong to the owner of the pool. *)
Record same_owner (s s' : st mpool) : Prop := {
  so_ptr : mp_ptr (smgr s') = mp_ptr (smgr s);
  so_size : mp_size (smgr s') = mp_size (smgr s);
  so_reqmem : mp_cb_reqmem (smgr s') = mp_cb_reqmem (smgr s)
}.

(** What becomes of a free block [b] that serves a request of [n] bytes: it is cut when the rest
    can hold a block of its own (48 bytes or more), and is given out whole otherwise. *)
Definition carved (b : blk) (n : Z) : list blk :=
  if n + 64 <=? bsz b then
    [Blk (bptr b) n false false []; Blk (bptr b + n + 16) (bsz b - n - 16) true true []]
  else [Blk (bptr b) (bsz b) false false []].
Definition carved_size (b : blk) (n : Z) : Z := if n + 64 <=? bsz b then n else bsz b.

(** ** [coalesced] and [quiet] *)

(** The flag of the last block of [l] and of the first of [r]: [false] when there is none. *)
Definition last_free (l : list blk) : bool := match last l with Some b => bflag b | None => false end.
Definition head_free (r : list blk) : bool := match r with b :: _ => bflag b | [] => false end.

Lemma coalesced_cons b r :
  coalesced (b :: r) <-> bflag b && head_free r = false /\ coalesced r.
Proof. destruct r; simpl; [by rewrite andb_false_r|]. rewrite <- not_true_iff_false, andb_true_iff. done. Qed.

Lemma last_free_cons b l : l <> [] -> last_free (b :: l) = last_free l.
Proof. intros Hne. unfold last_free. rewrite last_cons. destruct (last l) eqn:E; [done|].
  by apply last_None in E. Qed.

Lemma coalesced_app l r :
  coalesced (l ++ r) <-> coalesced l /\ coalesced r /\ last_free l && head_free r = false.
Proof.
  induction l as [|b l IH]; simpl app.
  - unfold last_free. simpl. tauto.
  - rewrite !coalesced_cons, IH. destruct l as [|c l].
    + simpl. unfold last_free. simpl. rewrite andb_false_r. tauto.
    + rewrite (last_free_cons b (c :: l)) by done.
      change (head_free ((c :: l) ++ r)) with (head_free (c :: l)). tauto.
Qed.

(** Exchanging blocks in the middle keeps [coalesced] when the new ones are no freer at the ends. *)
Lemma coalesced_mid l mid mid' r :
  coalesced (l ++ mid ++ r) -> coalesced mid' -> mid <> [] -> mid' <> [] ->
  (head_free mid' = true -> head_free mid = true) ->
  (last_free mid' = true -> last_free mid = true) ->
  coalesced (l ++ mid' ++ r).
Proof.
  intros Hc Hm' Hne Hne' Hh Hl. rewrite !coalesced_app in Hc |- *.
  destruct Hc as (Hcl & (Hcm & Hcr & H1) & H2). split_ands; try done.
  - destruct (last_free mid') eqn:E; [|done]. by rewrite Hl in H1.
  - destruct mid as [|b mid]; [done|]. destruct mid' as [|b' mid']; [done|]. simpl in *.
    destruct (bflag b') eqn:E; [by rewrite Hh in H2|apply andb_false_r].
Qed.

Lemma quiet_app l r : quiet (l ++ r) <-> quiet l /\ quiet r.
Proof. apply Forall_app. Qed.
Lemma quiet_cons b r : quiet (b :: r) <-> bflag b = blisted b /\ quiet r.
Proof. unfold quiet. by rewrite Forall_cons. Qed.

(** ** [live] *)

Lemma live_app l r : live (l ++ r) = live l ++ live r.
Proof. unfold live. by rewrite filter_app, fmap_app. Qed.
Lemma live_cons b r :
  live (b :: r) = if blisted b then live r else (bptr b, bsz b, bdata b) :: live r.
Proof.
  unfold live. destruct (blisted b) eqn:E.
  - by rewrite filter_cons_False by congruence.
  - by rewrite filter_cons_True.
Qed.
Lemma live_bytes_app l r : live_bytes (l ++ r) = live_bytes l + live_bytes r.
Proof. induction l as [|b l IH]; simpl; [done|]. fold (live_bytes (l ++ r)) (live_bytes l). lia. Qed.

Lemma live_bytes_cons b r : live_bytes (b :: r) = (if blisted b then 0 else bsz b) + live_bytes r.
Proof. done. Qed.

(** The counter is the sum of the sizes of what is live, whatever the free blocks are. *)
Lemma live_bytes_live bs : live_bytes bs = foldr (fun x n => x.1.2 + n) 0 (live bs).
Proof.
  induction bs as [|b bs IH]; [done|]. rewrite live_cons. simpl. fold (live_bytes bs).
  destruct (blisted b); simpl; lia.
Qed.

Lemma live_bytes_le p bs e : Forall blk_ok bs -> chain p bs e -> 0 <= live_bytes bs <= e - p.
Proof.
  revert p. induction bs as [|b bs IH]; intros p Hok Hc; simpl in *; [lia|].
  apply Forall_cons in Hok as [[Hb _] Hok]. destruct Hc as [_ Hc]. apply IH in Hc; [|done].
  fold (live_bytes bs). destruct (blisted b); lia.
Qed.

Lemma pool_live_bytes out s bs : pool_ok out s bs -> 0 <= live_bytes bs < two64.
Proof.
  intros [Ha _]. pose proof (live_bytes_le _ _ _ (ao_blk _ _ _ _ _ Ha) (ao_chain _ _ _ _ _ Ha)).
  pose proof (ao_top _ _ _ _ _ Ha). pose proof (ao_base _ _ _ _ _ Ha). lia.
Qed.

Lemma live_in bs p n d : (p, n, d) ∈ live bs ->
  exists l b r, bs = l ++ b :: r /\ blisted b = false /\ bptr b = p /\ bsz b = n /\ bdata b = d.
Proof.
  unfold live. intros (b & [= -> -> ->] & [Hb Hin]%list_elem_of_filter)%list_elem_of_fmap.
  apply list_elem_of_split in Hin as (l & r & ->). by exists l, b, r.
Qed.

(** ** [carved] *)

Lemma carved_quiet b n : quiet (carved b n).
Proof. unfold carved. case_match; repeat constructor. Qed.
Lemma carved_coalesced b n : coalesced (carved b n).
Proof. unfold carved. case_match; simpl; [|done]. split; [|done]. by intros [??]. Qed.
Lemma carved_live b n : live (carved b n) = [(bptr b, carved_size b n, [])].
Proof. unfold carved, carved_size. by case_match. Qed.
Lemma carved_bytes b n : live_bytes (carved b n) = carved_size b n.
Proof. rewrite live_bytes_live, carved_live. simpl. lia. Qed.
Lemma carved_ends b n : head_free (carved b n) = false /\ carved b n <> [].
Proof. unfold carved. by case_match. Qed.

(** ** Request sizes *)

Lemma min_size_ok req :
  0 <= req <= two64 - 16 ->
  req <= min_size req < req + 32 /\ 16 <= min_size req < two64 /\ min_size req mod 16 = 0.
Proof.
  intros H. unfold min_size, PADDING, SIZEOF_SIZE_T. destruct (Z.eqb_spec req 0).
  - unfold two64 in *. split_ands; try lia. done.
  - change (2 * 8) with 16. change (16 - 1) with 15. norm_words.
    destruct (decide (req + 16 < two64)).
    + norm_words. rewrite align_down_16 by lia. unfold two64 in *.
      split_ands; try (Z.div_mod_to_equations; lia).
    + assert (req = two64 - 16) as -> by lia. vm_compute. split_ands; congruence.
Qed.

(** A size that is already rounded is served as it is. *)
Lemma min_size_16 n : 16 <= n <= two64 - 16 -> n mod 16 = 0 -> min_size n = n.
Proof.
  intros H Hm. unfold min_size, PADDING, SIZEOF_SIZE_T. replace (n =? 0) with false by lia.
  change (2 * 8) with 16. change (16 - 1) with 15.
  destruct (decide (n + 16 < two64)).
  - norm_words. rewrite align_down_16 by lia. Z.div_mod_to_equations; lia.
  - assert (n = two64 - 16) as -> by lia. done.
Qed.

Section Finish.
Context (out : mem).
Implicit Types (s : st mpool) (bs l r : list blk).

(** The end of an allocation: the block's tag is cleared and its size is counted. *)
Lemma runs_finish_alloc s l b r Q :
  pool_ok out s (l ++ b :: r) -> blisted b = false ->
  (forall s', pool_ok out s' (l ++ set_flag false b :: r) ->
     mp_alloced_size (smgr s') = u64 (mp_alloced_size (smgr s) + bsz b) ->
     mp_cb_reqmem (smgr s') = mp_cb_reqmem (smgr s) ->
     mp_ptr (smgr s') = mp_ptr (smgr s) -> mp_size (smgr s') = mp_size (smgr s) ->
     Q (bptr b) s') ->
  runs (finish_alloc (bptr b)) s Q.
Proof.
  intros Hp Hb HQ. unfold finish_alloc.
  eapply runs_bind, runs_blk_size; [apply Hp|apply blk_in_cases; tauto|].
  eapply runs_bind, runs_blk_setalloced; [exact Hp|done|]. intros m' Hh.
  apply runs_bind, runs_gets, runs_bind, runs_modify, runs_ret. by apply HQ.
Qed.

(** Serving a request of [n] bytes from the unlisted block [b], and counting it. *)
Lemma runs_carve s l b r n Q :
  pool_ok out s (l ++ b :: r) -> blisted b = false -> bdata b = [] ->
  16 <= n -> n mod 16 = 0 -> n <= bsz b ->
  (forall s', pool_ok out s' (l ++ carved b n ++ r) ->
     mp_alloced_size (smgr s') = u64 (mp_alloced_size (smgr s) + carved_size b n) ->
     mp_cb_reqmem (smgr s') = mp_cb_reqmem (smgr s) ->
     mp_ptr (smgr s') = mp_ptr (smgr s) -> mp_size (smgr s') = mp_size (smgr s) ->
     Q (bptr b) s') ->
  runs (try_split_and_free (bptr b) n ;; finish_alloc (bptr b)) s Q.
Proof.
  intros Hp Hb Hd Hn Hn16 Hle HQ. unfold carved, carved_size in HQ. pose proof Hp as [Ha _].
  destruct (area_blk _ _ _ _ _ b Ha) as [(?&?&?&?) ? ? ? ? ? _ _ _]; [apply blk_in_cases; tauto|].
  apply runs_bind, (runs_try_split out s l b r); try done.
  - Z.div_mod_to_equations; lia.
  - intros s1 Hle1 [E1 E2 E3 E4 E5] Hp1.
    replace (n + 64 <=? bsz b) with true in HQ by lia.
    change (bptr b) with (bptr (split_blk b n)). eapply runs_finish_alloc; [exact Hp1|done|].
    intros s2 Hp2 Hal Hrq Hpt Hsz. apply HQ; [|by rewrite Hal, E3|congruence..].
    unfold set_flag, split_blk in Hp2. simpl in Hp2. rewrite Hd in Hp2.
    by rewrite take_nil in Hp2.
  - intros Hlt. replace (n + 64 <=? bsz b) with false in HQ by lia.
    eapply runs_finish_alloc; [exact Hp|done|]. intros s2 Hp2 Hal Hrq Hpt Hsz.
    apply HQ; [|done..]. unfold set_flag in Hp2. by rewrite Hb, Hd in Hp2.
Qed.
End Finish.
