(* ===== verification/PoolInit.v ===== *)
(** PoolInit: the rule of [mpool_init] ([pool.cpp]) and [allocarea_init] ([area.hpp]). *)

From Stdlib Require Import ZArith Lia.
From stdpp Require Import prelude gmap.
From S2P Require Import Prelude Mem Block Freelist Pool HeapInv HeapOps ListOps.
From S2P Require Import PoolOps PoolFacts.

(** The memory area that the owner of a pool hands over. *)
Record area_given (m : mem) (ptr size : Z) : Prop := {
  ag_base : 64 <= ptr;
  ag_align : ptr mod 16 = 0;
  ag_size : size mod 16 = 0;
  ag_min : FREELIST_MAXBLKSIZE + 32 <= size;
  ag_top : ptr + size < two64;
  ag_mapped : mapped m ptr (ptr + size)
}.

(** The only block of a new pool. *)
Definition first_blk (ptr size : Z) (f l : bool) : blk := Blk (ptr + 16) (size - 32) f l [].

Definition empty_heads : list Z := replicate FREELIST_NUM NULL.

Lemma empty_lists m bs :
  Forall (fun b => blisted b = false) bs -> lists_ok m NULL empty_heads bs (fun _ => []).
Proof.
  intros Hun. split; try done.
  - intros id Hid. unfold head_of. case_match; [done|].
    unfold list_get, empty_heads. rewrite nth_lookup.
    destruct (replicate FREELIST_NUM NULL !! Z.to_nat id) as [x|] eqn:E; [|done].
    by apply lookup_replicate in E as [-> _].
  - intros id Hid. constructor.
  - intros id x Hid. split; [by intros ?%not_elem_of_nil|]. intros (b & Hb & _ & Hl & _).
    rewrite Forall_forall in Hun. by rewrite Hun in Hl.
Qed.

(** The area tags and a first [blk_setsize] make a heap of one allocated block. *)
Lemma init_heap m m1 m2 m3 ptr size (w : Z) :
  area_given m ptr size -> 0 <= w < two64 -> has_flag w AREA_FLAG = true ->
  store64 m (ptr + size - 8) w = Some m1 -> store64 m1 ptr w = Some m2 ->
  two_tags m2 m3 (ptr + 16) (size - 32) (size - 32) (size - 32) ->
  heap_ok ptr size m m3 NULL empty_heads [first_blk ptr size false false].
Proof.
  intros [Hb Ha Hs Hmin Ht Hm] Hw Hf H1 H2 [T1 T2 T3 T4]. unfold FREELIST_MAXBLKSIZE in *.
  replace (ptr + 16 - 8) with (ptr + 8) in * by lia.
  replace (ptr + 16 + (size - 32)) with (ptr + size - 16) in * by lia.
  split; [|exists (fun _ => []); apply empty_lists; by repeat constructor].
  assert (Hmod : (size - 32) mod 16 = 0) by (Z.div_mod_to_equations; lia).
  split; try done; repeat constructor; simpl; try done; try lia.
  - by apply T4; eapply mapped_store64, mapped_store64.
  - exists w. split; [|done]. rewrite (load64_frame m2 m3).
    + rewrite (load64_store64_eq _ _ _ _ H2). by rewrite u64_small.
    + intros a Ha'. apply T3; lia.
  - exists w. split; [|done]. rewrite (load64_frame m2 m3).
    + rewrite (load64_store64_ne _ _ _ _ _ H2) by lia.
      rewrite (load64_store64_eq _ _ _ _ H1). by rewrite u64_small.
    + intros a Ha'. apply T3; lia.
  - exists (size - 32). split; [by replace (ptr + 16 - 8) with (ptr + 8) by lia|].
    exists false. simpl. lia.
  - exists (size - 32). split; [by replace (ptr + 16 + (size - 32)) with (ptr + size - 16) by lia|].
    exists false. simpl. lia.
  - intros a Ha'. rewrite T3 by lia. rewrite (store64_lookup _ _ _ _ _ H2) by lia.
    rewrite (store64_lookup _ _ _ _ _ H1) by lia. done.
Qed.

Lemma runs_allocarea_init {X} (s : st X) ptr size Q :
  area_given (smem s) ptr size ->
  (forall m', heap_ok ptr size (smem s) m' NULL empty_heads [first_blk ptr size true false] ->
     Q tt (with_mem m' s)) ->
  runs (allocarea_init ptr size NULL) s Q.
Proof.
  intros Hg HQ. pose proof Hg as [Hb Ha Hs Hmin Ht Hm]. unfold FREELIST_MAXBLKSIZE in *.
  unfold allocarea_init. set (fl := if size =? SIZE_2M then SIZE_FLAG else 0).
  assert (Hw : exists w, NULL |! AREA_FLAG |! fl = w /\ 0 <= w < two64 /\ has_flag w AREA_FLAG = true).
  { unfold fl. destruct (size =? SIZE_2M); eexists; (split; [reflexivity|]); by vm_compute. }
  destruct Hw as (w & -> & Hw & Hf).
  sizes. assert (Hdiv : 8 * (size / 8) = size) by (Z.div_mod_to_equations; lia). norm_words.
  replace (ptr + (size / 8 - 1) * 8) with (ptr + size - 8) by lia.
  apply runs_bind, runs_sto; [eapply mapped_sub; [exact Hm|lia..]|]. intros m1 H1.
  apply runs_bind, runs_sto.
  { eapply mapped_store64; [exact H1|]. eapply mapped_sub; [exact Hm|lia..]. }
  simpl. intros m2 H2. apply runs_bind, runs_blk_setsize; simpl; try lia.
  { eapply mapped_store64, mapped_store64; [exact H2|exact H1|].
    eapply mapped_sub; [exact Hm|lia..]. }
  intros m3 H3. pose proof (init_heap _ _ _ _ _ _ w Hg Hw Hf H1 H2 H3) as Hh.
  change (ptr + 16) with (bptr (first_blk ptr size false false)).
  change (size - 32) with (bsz (first_blk ptr size false false)).
  eapply runs_bind, (runs_blk_setfreed _ _ _ _ _ _ []); [exact Hh|done|]. intros m4 Hh4.
  change (bptr (first_blk ptr size false false)) with (bptr (first_blk ptr size true false)).
  change (bsz (first_blk ptr size false false)) with (bsz (first_blk ptr size true false)).
  case_match.
  - eapply (runs_blk_set_area_2M _ _ _ _ _ _ []); [exact Hh4|done|]. intros m5 Hh5. by apply HQ.
  - eapply (runs_blk_set_area_4k _ _ _ _ _ _ []); [exact Hh4|done|]. intros m5 Hh5. by apply HQ.
Qed.

Lemma mpool_init_args ptr size :
  64 <= ptr -> 0 < size < two64 -> size mod 16 = 0 ->
  (ptr =? NULL) || (size =? 0) = false /\ negb (size &! (2 * SIZEOF_SIZE_T - 1) =? 0) = false.
Proof.
  intros Hp Hs Hm. unfold NULL. split; [lia|]. change (2 * SIZEOF_SIZE_T - 1) with (Z.ones 4).
  rewrite Z.land_ones by lia. change (2 ^ 4) with 16. by rewrite Hm.
Qed.

Lemma runs_mpool_init s ptr size Q :
  area_given (smem s) ptr size ->
  (forall s', pool_inv (smem s) s' [first_blk ptr size true true] ->
     tidy s' [first_blk ptr size true true] ->
     mp_ptr (smgr s') = ptr -> mp_size (smgr s') = size -> mp_cb_reqmem (smgr s') = None ->
     Q true s') ->
  runs (mpool_init ptr size) s Q.
Proof.
  intros Hg HQ. pose proof Hg as [Hb Ha Hs Hmin Ht Hm]. unfold FREELIST_MAXBLKSIZE in *.
  unfold mpool_init. destruct (mpool_init_args ptr size) as [-> ->]; [done|lia|done|].
  do 6 (apply runs_bind, runs_modify). apply runs_bind, runs_allocarea_init; [done|].
  cbn [smem with_mgr with_mem smgr]. intros m1 Hh. sizes. norm_words.
  set (s1 := with_mem m1 _).
  assert (Hput : runs (put_large (bptr (first_blk ptr size true false))) s1 (fun _ s' => Q true s')).
  { apply (runs_put_large (smem s) s1 [] (first_blk ptr size true false) []); try done.
    { apply size2id_large. unfold FREELIST_MAXBLKSIZE. simpl. lia. }
    intros s' [E1 E2 E3 E4 E5] Hp'. apply HQ; [| |by rewrite ?E1, ?E2, ?E4..].
    - split; [exact Hp'|]. by repeat constructor.
    - split; [done|]. by rewrite E3. }
  unfold put_large in Hput. unfold runs, bind, field, gets in Hput |- *.
  change (bptr (first_blk ptr size true false)) with (ptr + 16) in Hput.
  destruct (freelist_put _ _ s1) as [[large' s2]|]; exact Hput.
Qed.
