(* ===== verification/PoolSpec.v ===== *)
(** PoolSpec: what the operations of the memory pool promise, and the proofs that the code keeps
    the promises. *)

From Stdlib Require Import ZArith Lia.
From stdpp Require Import prelude gmap.
From S2P Require Import Prelude Mem Block Freelist Pool HeapInv HeapOps ListOps.
From S2P Require Import PoolOps PoolMatch PoolFacts.

(** A request of [n] bytes was served with the block at [p]: it is new among the live blocks,
    16-aligned, at least [n] and less than [n + 64] bytes long; every other live block keeps its
    place, size and contents, and no two free blocks have become neighbours. *)
Definition served (out : mem) (s : st mpool) (bs : list blk) (n p : Z) (s' : st mpool) : Prop :=
  same_owner s s' /\ exists bs' sz l1 l2,
    pool_inv out s' bs' /\ ((coalesced bs -> coalesced bs') /\ (tidy s bs -> tidy s' bs')) /\
    live bs = l1 ++ l2 /\ live bs' = l1 ++ (p, sz, []) :: l2 /\
    n <= sz < n + 64 /\ p mod 16 = 0 /\ p <> NULL.

(** No free block satisfies [P]. *)
Definition no_fit (P : blk -> bool) (bs : list blk) : Prop :=
  forall b, b ∈ bs -> bflag b = true -> P b = false.

Definition fits_b (n : Z) (b : blk) : bool := n <=? bsz b.

(** [x] rounded up to a multiple of [align]. *)
Definition round_up (x align : Z) : Z := (x + align - 1) / align * align.
Definition offset_b (align : Z) (b : blk) : Z := round_up (bptr b) align - bptr b.
Definition fits_aligned_b (n align : Z) (b : blk) : bool := n <=? bsz b - offset_b align b.

(** ** The tests of the searches *)

Lemma picks_size base size out m bs n :
  area_ok base size out m bs -> picks (fits_size n) (fits_b n) m bs.
Proof.
  intros Ha s b Q <- Hb HQ. unfold fits_size. eapply runs_bind, runs_blk_size; [done..|].
  by apply runs_ret.
Qed.

Lemma round_up_ok x align :
  0 < align -> x <= round_up x align < x + align /\ round_up x align mod align = 0.
Proof.
  intros. unfold round_up. split; [|apply Z.mod_mul; lia].
  pose proof (Z.div_mod (x + align - 1) align). pose proof (Z.mod_pos_bound (x + align - 1) align). lia.
Qed.

Lemma PADDING_UP_ok x align :
  0 <= x -> 0 < align -> x + align < two64 -> PADDING_UP x align = round_up x align.
Proof.
  intros. pose proof (round_up_ok x align). unfold PADDING_UP, PADDING_DOWN. norm_words.
  by fold (round_up x align); norm_words.
Qed.

Lemma round_up_16 x align :
  x mod 16 = 0 -> 0 < align -> align mod 16 = 0 -> (round_up x align - x) mod 16 = 0.
Proof.
  intros. pose proof (round_up_ok x align). unfold round_up.
  rewrite Zminus_mod, Z.mul_mod by lia. rewrite H, H1. by rewrite Z.mul_0_r.
Qed.

Lemma picks_aligned base size out m bs n align :
  area_ok base size out m bs -> size < two64 / 2 -> 0 < align -> base + size + align < two64 ->
  align < two64 / 2 -> 0 <= n < two64 / 2 ->
  picks (fits_aligned n align) (fits_aligned_b n align) m bs.
Proof.
  intros Ha Hs Hal Htop Hah Hn s b Q <- Hb HQ. unfold fits_aligned, aligned_size_of.
  destruct (area_blk _ _ _ _ _ _ Ha Hb) as [(?&?&?&?) ? ? ? ? _ _ _ _].
  apply runs_bind. eapply runs_bind, runs_blk_size; [done..|]. apply runs_ret, runs_ret.
  pose proof (round_up_ok (bptr b) align Hal).
  rewrite PADDING_UP_ok by lia. norm_words. unfold fits_aligned_b, offset_b in HQ.
  assert (Hs64 : forall z, - two64 < 2 * z < two64 -> s64 z = z).
  { intros z Hz. apply s64_small. change (two64 / 2) with 9223372036854775808.
    unfold two64 in Hz. lia. }
  change (two64 / 2) with 9223372036854775808 in *. unfold two64 in *.
  by rewrite (Hs64 n), (Hs64 (bsz b)), (Hs64 (round_up _ _ - _)), Hs64 by lia.
Qed.

(** ** Allocation *)

Section Alloc.
Context (out : mem).
Implicit Types (s : st mpool) (bs l r : list blk).

(** The free block [b] replaced by blocks [mid] of which exactly one is live. *)
Lemma serve_result s0 s' l b r mid n p sz :
  pool_inv out s0 (l ++ b :: r) -> bflag b = true -> blisted b = true ->
  pool_ok out s' (l ++ mid ++ r) -> quiet mid -> coalesced mid -> mid <> [] ->
  live mid = [(p, sz, [])] -> n <= sz < n + 64 -> p mod 16 = 0 -> p <> NULL ->
  mp_alloced_size (smgr s') = u64 (mp_alloced_size (smgr s0) + sz) -> same_owner s0 s' ->
  served out s0 (l ++ b :: r) n p s'.
Proof.
  intros [Hp Hq] Hf Hb Hp' Hqm Hcm Hne Hlive Hsz Hp16 Hpn Hal' Hown. split; [done|].
  exists (l ++ mid ++ r), sz, (live l), (live r). split_ands; try done; try lia.
  - split; [done|]. rewrite !quiet_app, quiet_cons in *. tauto.
  - intros Hc. by apply (coalesced_mid l [b] mid r).
  - intros [Hc Hal]. split.
    + by apply (coalesced_mid l [b] mid r).
    + pose proof (pool_live_bytes _ _ _ Hp') as Hlb.
      assert (Hm : live_bytes mid = sz) by (rewrite live_bytes_live, Hlive; simpl; lia).
      rewrite !live_bytes_app, Hm in Hlb.
      rewrite Hal', Hal, !live_bytes_app, live_bytes_cons, Hb, Hm. rewrite u64_small; lia.
  - by rewrite live_app, live_cons, Hb.
  - by rewrite !live_app, Hlive.
Qed.

Lemma carved_size_ok b n : n <= bsz b -> n <= carved_size b n < n + 64.
Proof. unfold carved_size. destruct (Z.leb_spec (n + 64) (bsz b)); lia. Qed.

(** Serving a request from the block the search found. *)
Lemma runs_serve s0 s l b r n Q :
  pool_inv out s0 (l ++ b :: r) -> same_pool s0 s -> pool_ok out s (l ++ set_listed false b :: r) ->
  blisted b = true -> 16 <= n -> n mod 16 = 0 -> n <= bsz b ->
  (forall s', served out s0 (l ++ b :: r) n (bptr b) s' -> Q (bptr b) s') ->
  runs (try_split_and_free (bptr b) n ;; finish_alloc (bptr b)) s Q.
Proof.
  intros Hi [E1 E2 E3 E4 E5] Hp Hb Hn Hn16 Hle HQ. destruct (pi_ok _ _ _ Hi) as [Ha _].
  destruct (area_blk _ _ _ _ _ b Ha) as [(?&?&?&Hbd) ? ? ? ? ? _ _ _]; [apply blk_in_cases; tauto|].
  destruct (Hbd Hb) as [Hbf Hbdata].
  apply (runs_carve out s l (set_listed false b) r); try done.
  intros s' Hp' Hal' G1 G2 G3. apply HQ. destruct (carved_ends (set_listed false b) n).
  apply (serve_result s0 s' l b r (carved (set_listed false b) n) n (bptr b)
           (carved_size (set_listed false b) n)); try done.
  - apply carved_quiet.
  - apply carved_coalesced.
  - exact (carved_live (set_listed false b) n).
  - by apply carved_size_ok.
  - unfold NULL. lia.
  - by rewrite Hal', E3.
  - split; congruence.
Qed.

(** Serving an aligned request: the bytes before the aligned address become a free block. *)
Lemma runs_serve_aligned s0 s l b r n align Q :
  pool_inv out s0 (l ++ b :: r) -> same_pool s0 s -> pool_ok out s (l ++ set_listed false b :: r) ->
  blisted b = true -> 16 <= n -> n mod 16 = 0 -> n <= bsz b - offset_b align b ->
  16 <= align -> align mod 16 = 0 -> mp_ptr (smgr s) + mp_size (smgr s) + align < two64 ->
  offset_b align b <> 16 ->
  (forall p s', served out s0 (l ++ b :: r) n p s' -> p mod align = 0 -> Q p s') ->
  runs (carve_aligned (bptr b) n align) s Q.
Proof.
  intros Hi [E1 E2 E3 E4 E5] Hp Hb Hn Hn16 Hle Hal Hal16 Htop H16 HQ.
  destruct (pi_ok _ _ _ Hi) as [Ha _].
  destruct (area_blk _ _ _ _ _ b Ha) as [(?&?&?&Hbd) ? ? ? ? ? _ _ _]; [apply blk_in_cases; tauto|].
  destruct (Hbd Hb) as [Hbf Hbdata]. rewrite E1, E2 in Htop.
  destruct (round_up_ok (bptr b) align) as [Hr Hr']; [lia|].
  pose proof (round_up_16 (bptr b) align ltac:(done) ltac:(lia) Hal16) as Ho16.
  unfold carve_aligned. rewrite PADDING_UP_ok by lia. norm_words. fold (offset_b align b).
  unfold offset_b in *. set (off := round_up (bptr b) align - bptr b) in *.
  apply runs_bind. destruct (Z.ltb_spec 0 off) as [Hpos|Hz].
  - assert (Hoff : 32 <= off) by (Z.div_mod_to_equations; lia).
    sizes. norm_words. apply runs_bind.
    eapply (runs_blk_split _ _ _ s _ _ l (set_listed false b) r (off - 16)); try done; simpl; try lia.
    { Z.div_mod_to_equations; lia. }
    intros m1 Hh. set (b1 := Blk (bptr b) (off - 16) false false _) in Hh.
    set (b2 := Blk (bptr b + (off - 16) + 16) (bsz b - (off - 16) - 16) false false []) in Hh.
    change (bptr b) with (bptr b1) at 2.
    apply runs_bind, (runs_do_free out _ l b1 (b2 :: r)); [exact Hh|done|].
    intros s2 [F1 F2 F3 F4 F5] Hp2. apply runs_ret.
    change (bptr b + (off - 16) + 16) with (bptr b2).
    assert (Hb2 : bptr b2 = round_up (bptr b) align) by (subst b2 off; simpl; lia).
    apply (runs_carve out s2 (l ++ [freed_blk b1]) b2 r); try done; simpl; try lia.
    { by rewrite <- app_assoc. }
    intros s' Hp' Hal' G1 G2 G3. rewrite <- app_assoc in Hp'. simpl in Hp'.
    destruct (carved_ends b2 n) as [Hh2 Hne2]. apply HQ; [|rewrite <- Hr'; f_equal; subst off; lia].
    apply (serve_result s0 s' l b r (freed_blk b1 :: carved b2 n) n (bptr b2)
             (carved_size b2 n)); try done.
    + rewrite quiet_cons. split; [done|apply carved_quiet].
    + rewrite coalesced_cons, Hh2, andb_false_r. split; [done|apply carved_coalesced].
    + rewrite live_cons, carved_live. done.
    + apply carved_size_ok. simpl. lia.
    + rewrite Hb2. unfold off in Ho16. Z.div_mod_to_equations; lia.
    + unfold NULL. lia.
    + rewrite Hal', F3. simpl. by rewrite E3.
    + simpl in *. split; congruence.
  - apply runs_ret. eapply (runs_serve s0 s l b r n); try done; [lia|].
    intros s' Hs'. apply HQ; [done|]. by replace (bptr b) with (round_up (bptr b) align) by lia.
Qed.

Lemma mpool_reqmem_none s n Q : mp_cb_reqmem (smgr s) = None -> Q false s -> runs (mpool_reqmem n) s Q.
Proof. intros E HQ. unfold mpool_reqmem. apply runs_bind, runs_gets. rewrite E. by apply runs_ret. Qed.

(** The blocks found by a search are listed, and in a quiet pool these are the free ones. *)
Lemma none_found_no_fit P bs s x s' :
  quiet bs -> none_found P (fun _ => True) bs s x s' -> no_fit P bs.
Proof.
  intros Hq (_ & _ & Hall) b Hb Hf. apply Hall; try done.
  unfold quiet in Hq. rewrite Forall_forall in Hq. by rewrite <- Hq.
Qed.

Lemma fit_exists P base size m l b r :
  area_ok base size out m (l ++ b :: r) -> blisted b = true -> P b = true ->
  ~ no_fit P (l ++ b :: r).
Proof.
  intros Ha Hb HP Hno. assert (Hin : b ∈ l ++ b :: r) by (apply blk_in_cases; tauto).
  destruct (area_blk _ _ _ _ _ _ Ha Hin) as [(_&_&_&Hbd) _ _ _ _ _ _ _ _].
  rewrite Hno in HP; [done..|]. by apply Hbd.
Qed.

Lemma runs_alloc s bs req Q :
  pool_inv out s bs -> mp_cb_reqmem (smgr s) = None -> 0 <= req <= two64 - 16 ->
  (no_fit (fits_b (min_size req)) bs -> Q NULL s) ->
  (forall p s', ~ no_fit (fits_b (min_size req)) bs -> served out s bs (min_size req) p s' ->
     Q p s') ->
  runs (mpool_alloc req) s Q.
Proof.
  intros Hi Hcb Hreq HQ1 HQ2. pose proof Hi as [Hp Hq]. pose proof Hp as [Ha _].
  destruct (min_size_ok req Hreq) as (Hn & Hn2 & Hn16).
  unfold mpool_alloc. apply runs_bind.
  eapply (runs_match_any out _ (fits_b (min_size req))); [done|by eapply picks_size| | |].
  - intros b _ Hf. unfold fits_b in Hf. lia.
  - intros x s1 (l & b & r & -> & -> & Hb & Hf & Hs1 & Hp1).
    rewrite (listed_nonnull _ _ _ _ _ _ _ Ha).
    assert (Hex : ~ no_fit (fits_b (min_size req)) (l ++ b :: r)) by by eapply fit_exists.
    eapply (runs_serve s); try done; [lia| |by eauto]. unfold fits_b in Hf. lia.
  - intros x s1 Hnf. pose proof (none_found_no_fit _ _ _ _ _ Hq Hnf) as Hno.
    destruct Hnf as (-> & -> & _). simpl. apply runs_bind, mpool_reqmem_none; [done|].
    by apply runs_ret, HQ1.
Qed.

(** ** Deallocation *)

(** What [blk_trymerge] and [do_free] make of a live block keeps the rest of the pool. *)
Lemma merged_facts l b r b1 r' l' b' :
  quiet l -> quiet r -> blisted b = false ->
  merged_right b r b1 r' -> merged_left l b1 l' b' ->
  quiet (l' ++ freed_blk b' :: r') /\ live (l' ++ freed_blk b' :: r') = live l ++ live r /\
  (coalesced (l ++ b :: r) -> coalesced (l' ++ freed_blk b' :: r')).
Proof.
  intros Hql Hqr Hb Hr Hl.
  assert (Hr' : quiet r' /\ live r' = live r /\ (coalesced r -> coalesced r' /\ head_free r' = false)).
  { destruct Hr as [(-> & -> & Hh)|(c & -> & Hcf & ->)].
    - split_ands; try done. intros. split; [done|]. by destruct r.
    - rewrite quiet_cons in Hqr. destruct Hqr as [Hcl Hqr]. rewrite live_cons, <- Hcl, Hcf.
      split_ands; try done. intros [Hh Hc]%coalesced_cons. by rewrite Hcf in Hh. }
  assert (Hl' : quiet l' /\ live l' = live l /\ (coalesced l -> coalesced l' /\ last_free l' = false)).
  { destruct Hl as [(-> & -> & Hh)|(c & -> & Hcf & ->)].
    - split_ands; try done. intros. split; [done|]. unfold last_free.
      destruct (last l) as [c|] eqn:E; [|done]. apply last_Some in E as [l0 ->]. by eapply Hh.
    - rewrite quiet_app, quiet_cons in Hql. destruct Hql as (Hql & Hcl & _).
      rewrite live_app, live_cons, <- Hcl, Hcf, app_nil_r. split_ands; try done.
      intros (Hc & _ & Hh)%coalesced_app. simpl in Hh. by rewrite Hcf, andb_true_r in Hh. }
  destruct Hr' as (Hr1 & <- & Hr2). destruct Hl' as (Hl1 & <- & Hl2). split_ands.
  - rewrite quiet_app, quiet_cons. done.
  - by rewrite live_app, live_cons.
  - intros (Hcl & [_ Hcr]%coalesced_cons & _)%coalesced_app.
    destruct (Hr2 Hcr) as [? Hh]. destruct (Hl2 Hcl) as [? Hla].
    rewrite coalesced_app, coalesced_cons, Hla, Hh, andb_false_r. done.
Qed.

(** The counter after the block's size has been taken off it. *)
Lemma freed_bytes s l b r :
  pool_ok out s (l ++ b :: r) -> blisted b = false ->
  mp_alloced_size (smgr s) = live_bytes (l ++ b :: r) ->
  mp_alloced_size (smgr s) -! bsz b = live_bytes (l ++ r).
Proof.
  intros Hp Hb Hal. pose proof (pool_live_bytes _ _ _ Hp) as Hlb. destruct Hp as [Ha _].
  rewrite live_bytes_app, live_bytes_cons, Hb in Hlb.
  rewrite Hal, !live_bytes_app, live_bytes_cons, Hb.
  assert (Hf : forall bs, Forall blk_ok bs -> 0 <= live_bytes bs).
  { clear. induction 1 as [|b bs [? _] _ IH]; [done|]. rewrite live_bytes_cons.
    destruct (blisted b); lia. }
  pose proof (ao_blk _ _ _ _ _ Ha) as Hok.
  apply Forall_app in Hok as [Hokl [[Hsz _] Hokr]%Forall_cons].
  pose proof (Hf _ Hokl). pose proof (Hf _ Hokr). unfold sub64. rewrite u64_small; lia.
Qed.

Lemma runs_free s l b r Q :
  pool_inv out s (l ++ b :: r) -> blisted b = false ->
  (forall s' bs', pool_inv out s' bs' -> live bs' = live l ++ live r ->
     mp_alloced_size (smgr s') = mp_alloced_size (smgr s) -! bsz b ->
     (coalesced (l ++ b :: r) -> coalesced bs') /\ (tidy s (l ++ b :: r) -> tidy s' bs') ->
     same_owner s s' -> Q tt s') ->
  runs (mpool_free (bptr b)) s Q.
Proof.
  intros [Hp Hq] Hb HQ. pose proof Hp as [Ha _].
  rewrite quiet_app, quiet_cons in Hq. destruct Hq as (Hql & Hbf & Hqr).
  unfold mpool_free. rewrite (listed_nonnull _ _ _ _ _ _ _ Ha).
  eapply runs_bind, runs_blk_size; [exact Ha|apply blk_in_cases; tauto|].
  apply runs_bind, runs_gets, runs_bind, runs_modify, runs_bind.
  eapply (runs_trymerge out _ l b r); [exact Hp|done..|].
  intros s1 l' b1 b' r' [E1 E2 E3 E4 E5] Hmr Hml Hb' Hp1.
  eapply runs_do_free; [exact Hp1|done|]. intros s2 [F1 F2 F3 F4 F5] Hp2. simpl in *.
  destruct (merged_facts l b r b1 r' l' b') as (Hq' & Hlive & Hc'); try done.
  eapply HQ; [by split|done|congruence| |by split; congruence].
  split; [done|]. intros [Hc Hal]. split; [by apply Hc'|].
  rewrite F3, E3, (freed_bytes _ _ _ _ Hp Hb Hal).
  by rewrite !live_bytes_live, Hlive, <- live_app.
Qed.
End Alloc.

Section Aligned.
Context (out : mem).
Implicit Types (s : st mpool) (bs l r : list blk).

Lemma pow2_check k : 0 <= k < 64 -> negb (2 ^ k &! (2 ^ k -! 1) =? 0) = false.
Proof.
  intros Hk. pose proof (Z.pow_pos_nonneg 2 k). pose proof (Z.pow_lt_mono_r 2 k 64).
  change (2 ^ 64) with two64 in *. norm_words.
  replace (2 ^ k - 1) with (Z.ones k) by (rewrite Z.ones_equiv; lia).
  by rewrite Z.land_ones, Z.mod_same by lia.
Qed.

Lemma pow2_16 k : 4 <= k -> 16 <= 2 ^ k /\ 2 ^ k mod 16 = 0.
Proof.
  intros Hk. replace k with (4 + (k - 4)) by lia. rewrite Z.pow_add_r by lia.
  pose proof (Z.pow_pos_nonneg 2 (k - 4)). change (2 ^ 4) with 16.
  split; [lia|]. rewrite Z.mul_comm. apply Z.mod_mul. lia.
Qed.

(** The arguments for which the signed arithmetic of the aligned search does not wrap. *)
Record aligned_args (s : st mpool) (req k : Z) : Prop := {
  aa_k : 4 <= k < 63;
  aa_req : 0 <= req < two64 / 2 - 32;
  aa_size : mp_size (smgr s) < two64 / 2;
  aa_top : mp_ptr (smgr s) + mp_size (smgr s) + 2 ^ k < two64
}.

(** No free block starts 16 bytes before the next aligned address. *)
Definition no_sliver (align : Z) (bs : list blk) : Prop :=
  forall b, b ∈ bs -> bflag b = true -> offset_b align b <> 16.

(** The two searches of [mpool_aligned_alloc], and whether the block they find starts 16 bytes
    before the aligned address: the bytes before it would be a block without room for its tags. *)
Definition aligned_search (req align : Z) : PM Z :=
  match_any (fun fuel freed => freelists_aligned_match fuel freed (min_size req) align)
            (fun fuel large => freelist_aligned_match fuel large (min_size req) align).
Definition hits_sliver (req align : Z) (s : st mpool) : bool :=
  match aligned_search req align s with
  | Some (p, _) => negb (p =? NULL) && (PADDING_UP p align -! p =? 16)
  | None => false
  end.

Lemma found_no_sliver s s1 bs b req align :
  pool_inv out s bs -> 16 <= align -> mp_ptr (smgr s) + mp_size (smgr s) + align < two64 -> b ∈ bs ->
  hits_sliver req align s = false -> aligned_search req align s = Some (bptr b, s1) ->
  offset_b align b <> 16.
Proof.
  intros Hi Hal Htop Hb Hh E. unfold hits_sliver in Hh. rewrite E in Hh.
  destruct (pi_ok _ _ _ Hi) as [Ha _].
  destruct (area_blk _ _ _ _ _ b Ha Hb) as [(?&?&?&_) ? ? ? ? _ _ _ _].
  pose proof (round_up_ok (bptr b) align ltac:(lia)).
  replace (bptr b =? NULL) with false in Hh by (unfold NULL; lia). simpl in Hh.
  apply Z.eqb_neq in Hh. rewrite PADDING_UP_ok in Hh by lia. unfold offset_b.
  intros E16. apply Hh. unfold sub64. rewrite E16. done.
Qed.

(** What the aligned search finds. *)
Lemma runs_aligned_search s bs req k Q :
  pool_inv out s bs -> aligned_args s req k ->
  (forall x s1, found out (fits_aligned_b (min_size req) (2 ^ k)) bs s x s1 -> Q x s1) ->
  (no_fit (fits_aligned_b (min_size req) (2 ^ k)) bs -> Q NULL s) ->
  runs (aligned_search req (2 ^ k)) s Q.
Proof.
  intros [Hp Hq] [Hk Hreq Hsz Htop] HQ1 HQ2. pose proof Hp as [Ha _].
  destruct (pow2_16 k) as [Hal Hal16]; [lia|].
  pose proof (Z.pow_lt_mono_r 2 k 63). change (two64 / 2) with (2 ^ 63) in *.
  destruct (min_size_ok req) as (Hn & Hn2 & Hn16); [unfold two64; lia|].
  eapply (runs_match_any out _ (fits_aligned_b (min_size req) (2 ^ k))); [done| | |done|].
  - eapply picks_aligned; try done; try lia; change (two64 / 2) with (2 ^ 63); lia.
  - intros b _ Hf. unfold fits_aligned_b, offset_b in Hf.
    pose proof (round_up_ok (bptr b) (2 ^ k)). lia.
  - intros x s1 Hnf. pose proof (none_found_no_fit _ _ _ _ _ Hq Hnf) as Hno.
    destruct Hnf as (-> & -> & _). by apply HQ2.
Qed.

Lemma no_sliver_hits s bs req k :
  pool_inv out s bs -> aligned_args s req k -> no_sliver (2 ^ k) bs -> hits_sliver req (2 ^ k) s = false.
Proof.
  intros Hi Hargs Hns. pose proof Hi as [[Ha _] _]. pose proof Hargs as [Hk _ _ Htop].
  destruct (pow2_16 k) as [Hal _]; [lia|].
  assert (Hr : runs (aligned_search req (2 ^ k)) s (fun p _ => p = NULL \/
    exists b, b ∈ bs /\ bflag b = true /\ p = bptr b)).
  { apply (runs_aligned_search s bs); [done|done| |by left].
    intros x s1 (l & b & r & -> & -> & Hb & _). right. exists b.
    assert (Hin : b ∈ l ++ b :: r) by (apply blk_in_cases; tauto). split_ands; [done| |done].
    destruct (area_blk _ _ _ _ _ _ Ha Hin) as [(_&_&_&Hbd) _ _ _ _ _ _ _ _]. by apply Hbd. }
  unfold hits_sliver. apply runs_inv in Hr as (p & s1 & -> & [->|(b & Hb & Hf & ->)]); [done|].
  destruct (area_blk _ _ _ _ _ b Ha Hb) as [(?&?&?&_) ? ? ? ? _ _ _ _].
  pose proof (round_up_ok (bptr b) (2 ^ k) ltac:(lia)). specialize (Hns b Hb Hf). unfold offset_b in Hns.
  rewrite PADDING_UP_ok by lia. norm_words. apply andb_false_iff. right. lia.
Qed.

Lemma runs_aligned_alloc_hit s bs req k Q :
  pool_inv out s bs -> mp_cb_reqmem (smgr s) = None -> aligned_args s req k ->
  hits_sliver req (2 ^ k) s = false ->
  (no_fit (fits_aligned_b (min_size req) (2 ^ k)) bs -> Q NULL s) ->
  (forall p s', ~ no_fit (fits_aligned_b (min_size req) (2 ^ k)) bs ->
     served out s bs (min_size req) p s' -> p mod 2 ^ k = 0 -> Q p s') ->
  runs (mpool_aligned_alloc req (2 ^ k)) s Q.
Proof.
  intros Hi Hcb Hargs Hns HQ1 HQ2. pose proof Hi as [[Ha _] _]. pose proof Hargs as [Hk Hreq _ Htop].
  destruct (pow2_16 k) as [Hal Hal16]; [lia|].
  destruct (min_size_ok req) as (Hn & Hn2 & Hn16); [unfold two64 in *; Z.div_mod_to_equations; lia|].
  unfold mpool_aligned_alloc. rewrite pow2_check by lia.
  change (2 * SIZEOF_SIZE_T) with 16. replace (2 ^ k <? 16) with false by lia.
  fold (aligned_search req (2 ^ k)). apply runs_bind.
  eapply runs_mono; [apply runs_eq, (runs_aligned_search s bs req k (fun x s1 =>
    found out (fits_aligned_b (min_size req) (2 ^ k)) bs s x s1 \/
    (no_fit (fits_aligned_b (min_size req) (2 ^ k)) bs /\ x = NULL /\ s1 = s))); try done; auto|].
  simpl. intros x s1 [E [(l & b & r & -> & -> & Hb & Hf & Hs1 & Hp1)|(Hno & -> & ->)]].
  - rewrite (listed_nonnull _ _ _ _ _ _ _ Ha).
    assert (Hex : ~ no_fit (fits_aligned_b (min_size req) (2 ^ k)) (l ++ b :: r)) by by eapply fit_exists.
    assert (Hin : b ∈ l ++ b :: r) by (apply blk_in_cases; tauto). unfold fits_aligned_b in Hf.
    eapply (runs_serve_aligned out s s1); try done; try lia; [| |by eauto].
    + by rewrite (sp_ptr _ _ Hs1), (sp_size _ _ Hs1).
    + by eapply found_no_sliver.
  - simpl. apply runs_bind, mpool_reqmem_none; [done|]. by apply runs_ret, HQ1.
Qed.

Lemma runs_aligned_alloc s bs req k Q :
  pool_inv out s bs -> mp_cb_reqmem (smgr s) = None -> aligned_args s req k ->
  no_sliver (2 ^ k) bs ->
  (no_fit (fits_aligned_b (min_size req) (2 ^ k)) bs -> Q NULL s) ->
  (forall p s', ~ no_fit (fits_aligned_b (min_size req) (2 ^ k)) bs ->
     served out s bs (min_size req) p s' -> p mod 2 ^ k = 0 -> Q p s') ->
  runs (mpool_aligned_alloc req (2 ^ k)) s Q.
Proof. intros. eapply runs_aligned_alloc_hit; try done. by eapply no_sliver_hits. Qed.

(** The owner of a live block writes byte [i] of it, at most one past what it has written. *)
Definition write_at (d : list Z) (i : nat) (v : Z) : list Z :=
  if decide (i < length d)%nat then <[i := v mod 256]> d else d ++ [v mod 256].

Lemma write_at_lookup d i v j x :
  (i <= length d)%nat -> write_at d i v !! j = Some x ->
  (j = i /\ x = v mod 256) \/ (j <> i /\ d !! j = Some x).
Proof.
  intros Hi. unfold write_at. case_decide.
  - destruct (decide (i = j)) as [->|].
    + rewrite list_lookup_insert_eq by done. naive_solver.
    + rewrite list_lookup_insert_ne by done. naive_solver.
  - intros [?|[? ?]]%lookup_app_Some; [right|left].
    + pose proof (lookup_lt_Some d j x). naive_solver lia.
    + apply list_lookup_singleton_Some in H1 as [? <-]. split; [lia|done].
Qed.

Lemma write_at_length d i v :
  (i <= length d)%nat -> length (write_at d i v) = Nat.max (length d) (S i).
Proof. unfold write_at. intros. case_decide; rewrite ?length_insert, ?length_app; simpl; lia. Qed.

Lemma pool_write s l b r i v m' :
  pool_inv out s (l ++ b :: r) -> blisted b = false -> (i <= length (bdata b))%nat ->
  Z.of_nat i < bsz b -> store8 (smem s) (bptr b + Z.of_nat i) v = Some m' ->
  pool_inv out (with_mem m' s) (l ++ set_data (write_at (bdata b) i v) b :: r).
Proof.
  intros [Hp Hq] Hb Hi Hlt Hst. apply store8_inv in Hst as [_ ->].
  pose proof Hp as [Ha _]. assert (Hin : b ∈ l ++ b :: r) by (apply blk_in_cases; tauto).
  destruct (area_blk _ _ _ _ _ _ Ha Hin) as [(?&?&?&?) ? ? ? ? ? [(w1&Hw1&Ht1) (w2&Hw2&Ht2)] Hd Hm].
  split.
  - eapply (heap_replace _ _ _ _ _ _ _ l b [] [_] r (bptr b + bsz b + 16) Hp);
      repeat constructor; simpl; try done; try lia.
    + rewrite write_at_length by done. lia.
    + simpl in *; congruence.
    + simpl in *; congruence.
    + exists w1. split; [|done]. rewrite <- Hw1. apply load64_frame. intros.
      by rewrite lookup_insert_ne by lia.
    + exists w2. split; [|done]. rewrite <- Hw2. apply load64_frame. intros.
      by rewrite lookup_insert_ne by lia.
    + intros j x Hj. simpl in Hj |- *.
      apply write_at_lookup in Hj as [[-> ->]|[Hne Hj]]; [| |done]; unfold load8.
      * rewrite lookup_insert_eq. simpl. by rewrite Zmod_mod.
      * rewrite lookup_insert_ne by lia. by apply Hd.
    + intros a Ha'. destruct (decide (a = bptr b + Z.of_nat i)) as [->|].
      * by rewrite lookup_insert_eq.
      * rewrite lookup_insert_ne by done. by apply Hm.
    + intros a Ha'. rewrite lookup_insert_ne by lia. done.
  - rewrite !quiet_app, !quiet_cons in *. done.
Qed.
Lemma tidy_write s l b r d m' :
  tidy s (l ++ b :: r) -> tidy (with_mem m' s) (l ++ set_data d b :: r).
Proof.
  intros [Hc Hal]. split.
  - rewrite !coalesced_app, !coalesced_cons in *. done.
  - simpl. rewrite Hal, !live_bytes_app, !live_bytes_cons. done.
Qed.
End Aligned.
