(* ===== verification/PoolView.v ===== *)
(** PoolView: the pool as a finite map from payload addresses to sizes and contents. *)

From Stdlib Require Import ZArith Lia.
From stdpp Require Import prelude gmap.
From S2P Require Import Prelude Mem Block Klibc Freelist Pool HeapInv HeapOps.
From S2P Require Import ListOps PoolOps PoolMatch PoolFacts PoolInit PoolSpec.

(** ** The abstract heap *)

(** Payload address to (size, bytes written so far). *)
Abbreviation aheap := (gmap Z (Z * list Z)).

Definition entry (x : Z * Z * list Z) : Z * (Z * list Z) := (x.1.1, (x.1.2, x.2)).
Definition view (bs : list blk) : aheap := list_to_map (entry <$> live bs).

(** ** The view of a list of blocks *)

Lemma live_keys_nodup base size out m bs : area_ok base size out m bs -> NoDup (entry <$> live bs).*1.
Proof.
  intros Ha. assert (E : (entry <$> live bs).*1 = bptr <$> filter (fun b => blisted b = false) bs).
  { unfold live. by rewrite <- !list_fmap_compose. }
  rewrite E. clear E. pose proof (ao_blk _ _ _ _ _ Ha) as Hok.
  pose proof (ao_chain _ _ _ _ _ Ha) as Hc. revert Hok Hc. generalize (base + 16). clear Ha.
  induction bs as [|b bs IH]; intros p Hok Hc; [constructor|].
  apply Forall_cons in Hok as [[Hb _] Hok]. destruct Hc as [Hp Hc].
  destruct (decide (blisted b = false)).
  - rewrite filter_cons_True, fmap_cons by done. constructor; [|by eapply IH].
    intros (c & Ec & [_ Hin]%list_elem_of_filter)%list_elem_of_fmap.
    pose proof (chain_in _ _ _ _ Hok Hc Hin). lia.
  - rewrite filter_cons_False by done. by eapply IH.
Qed.

Lemma view_perm bs x L :
  NoDup (entry <$> live bs).*1 -> live bs ≡ₚ x :: L ->
  view bs = <[(entry x).1 := (entry x).2]> (list_to_map (entry <$> L)) /\
  (list_to_map (entry <$> L) : aheap) !! (entry x).1 = None.
Proof.
  intros Hnd Hp. assert (Hp' : entry <$> live bs ≡ₚ entry <$> (x :: L)) by by rewrite Hp.
  split.
  - unfold view. rewrite (list_to_map_proper _ _ Hnd Hp'). simpl. by destruct (entry x).
  - apply not_elem_of_list_to_map_1. rewrite Hp' in Hnd. rewrite fmap_cons in Hnd. simpl in Hnd.
    by apply NoDup_cons in Hnd as [Hnd _].
Qed.

Lemma view_app l b r base size out m :
  area_ok base size out m (l ++ b :: r) -> blisted b = false ->
  view (l ++ b :: r) = <[bptr b := (bsz b, bdata b)]> (list_to_map (entry <$> (live l ++ live r))) /\
  (list_to_map (entry <$> (live l ++ live r)) : aheap) !! bptr b = None.
Proof.
  intros Ha Hb. apply (view_perm (l ++ b :: r) (bptr b, bsz b, bdata b)).
  - by eapply live_keys_nodup.
  - rewrite live_app, live_cons, Hb. by rewrite Permutation_middle.
Qed.

Lemma view_lookup base size out m bs p n d :
  area_ok base size out m bs ->
  view bs !! p = Some (n, d) <->
  exists l b r, bs = l ++ b :: r /\ blisted b = false /\ bptr b = p /\ bsz b = n /\ bdata b = d.
Proof.
  intros Ha. split.
  - intros Hv%elem_of_list_to_map_2. apply list_elem_of_fmap in Hv as (((p' & n') & d') & [= <- <- <-] & Hin).
    by apply live_in.
  - intros (l & b & r & -> & Hb & <- & <- & <-). destruct (view_app l b r _ _ _ _ Ha Hb) as [-> _].
    by rewrite lookup_insert_eq.
Qed.
