(* ===== verification/PoolRealloc.v ===== *)
(** PoolRealloc: rules for [mpool_realloc] of [pool.cpp]. *)

From Stdlib Require Import ZArith Lia.
From stdpp Require Import prelude gmap.
From S2P Require Import Prelude Mem Block Klibc Freelist Pool HeapInv HeapOps.
From S2P Require Import ListOps PoolOps PoolMatch PoolFacts PoolInit PoolSpec PoolView.

(** A copy of one byte or more to address 0 faults when nothing is mapped there. *)
Lemma memcpy_null {X} (s : st X) src n :
  smem s !! 0 = None -> 0 < n -> memcpy NULL src n s = None.
Proof.
  intros Hz Hn. unfold memcpy, forM. rewrite Z.sub_0_r.
  replace (Z.to_nat n) with (S (Z.to_nat (n - 1))) by lia. simpl.
  unfold ld8, sto8, bind, gets, of_opt, store8. destruct (load8 _ _); simpl; [|done].
  change (NULL +! 0) with 0. by rewrite Hz.
Qed.

(** The result of a reallocation of [p] to [n] bytes: a block of that size and less than 64 bytes
    more, with the old contents as far as they fit; every other live block is as it was; and no two
    free blocks have become neighbours unless the rest of the old block was split off. *)
Definition resized (out : mem) (s : st mpool) (bs : list blk) (p n : Z) (d : list Z) (p' : Z)
  (s' : st mpool) : Prop :=
  same_owner s s' /\ exists bs' sz,
    pool_inv out s' bs' /\ n <= sz < n + 64 /\ p' mod 16 = 0 /\ p' <> NULL /\
    view bs' = <[p' := (sz, take (Z.to_nat sz) d)]> (delete p (view bs)) /\
    (p' <> p -> view bs !! p' = None) /\
    (forall n0 d0, view bs !! p = Some (n0, d0) -> n0 < n + 64 -> coalesced bs -> coalesced bs').

(** Every mapped range holds some bytes. *)
Lemma bytes_exist m a n : mapped m a (a + Z.of_nat n) -> exists l, length l = n /\ holds m a l.
Proof.
  revert a. induction n as [|n IH]; intros a Hm.
  - exists []. split; [done|]. by intros i v Hi.
  - destruct (IH (a + 1)) as (l & Hl & Hh); [intros b Hb; apply Hm; lia|].
    destruct (load8_mapped m a) as [x Hx]; [apply Hm; lia|].
    exists (x :: l). split; [simpl; lia|]. apply holds_cons. done.
Qed.

Lemma holds_prefix m a d l :
  holds m a d -> holds m a l -> (length d <= length l)%nat -> d = take (length d) l.
Proof.
  intros Hd Hl Hle. apply list_eq. intros i. destruct (d !! i) as [v|] eqn:E.
  - pose proof (lookup_lt_Some _ _ _ E). rewrite lookup_take_lt by done.
    destruct (lookup_lt_is_Some_2 l i) as [w Hw]; [lia|].
    pose proof (Hd _ _ E). pose proof (Hl _ _ Hw). congruence.
  - symmetry. apply lookup_ge_None in E. apply lookup_ge_None. rewrite length_take. lia.
Qed.

(** [merge_r] on a list: its length in bytes is that of [b] and [c] together. *)
Lemma view_swap l b b' r base size out m :
  area_ok base size out m (l ++ b :: r) -> blisted b = false ->
  forall mid base' size' out' m', area_ok base' size' out' m' (l ++ (b' :: mid)) ->
  live mid = live r -> blisted b' = false -> bptr b' = bptr b ->
  view (l ++ b' :: mid) = <[bptr b := (bsz b', bdata b')]> (delete (bptr b) (view (l ++ b :: r))).
Proof.
  intros Ha Hb mid base' size' out' m' Ha' Hl Hb' Hp.
  destruct (view_app l b r _ _ _ _ Ha Hb) as [-> Hn].
  destruct (view_app l b' mid _ _ _ _ Ha' Hb') as [-> _].
  by rewrite Hp, Hl, delete_insert_eq, delete_id.
Qed.

Section Realloc.
Context (out : mem).
Implicit Types (bs l r : list blk).

(** Cutting the rest off the live block [b], which keeps its address. *)
Lemma runs_shrink s s0 l0 b0 r0 l b r n Q :
  pool_inv out s0 (l0 ++ b0 :: r0) -> blisted b0 = false -> same_owner s0 s ->
  pool_inv out s (l ++ b :: r) -> blisted b = false -> l = l0 -> live r = live r0 ->
  bptr b = bptr b0 -> bdata b = bdata b0 ->
  16 <= n -> n mod 16 = 0 -> n <= bsz b ->
  (bsz b0 < n + 64 -> coalesced (l0 ++ b0 :: r0) ->
     coalesced (l ++ b :: r) /\ (n + 64 <= bsz b -> head_free r = false)) ->
  (forall s', resized out s0 (l0 ++ b0 :: r0) (bptr b0) n (bdata b0) (bptr b0) s' -> Q (bptr b0) s') ->
  runs (try_split_and_free (bptr b) n ;; ret (bptr b)) s Q.
Proof.
  intros [[Ha0 _] Hq0] Hb0 [O1 O2 O3] [Hp Hq] Hb El Hlr Ep Ed Hn Hn16 Hle Hco HQ. pose proof Hp as [Ha _].
  assert (Hco' : forall n0 d0, view (l0 ++ b0 :: r0) !! bptr b0 = Some (n0, d0) -> n0 < n + 64 ->
    coalesced (l0 ++ b0 :: r0) -> coalesced (l ++ b :: r) /\ (n + 64 <= bsz b -> head_free r = false)).
  { intros n0 d0. destruct (view_app l0 b0 r0 _ _ _ _ Ha0 Hb0) as [-> _]. rewrite lookup_insert_eq.
    by intros [= <- <-]. }
  destruct (area_blk _ _ _ _ _ b Ha) as [(?&?&?&?) ? ? ? ? ? _ _ _]; [apply blk_in_cases; tauto|].
  rewrite Ep. rewrite <- Ep at 1. apply runs_bind, (runs_try_split out s l b r); try done.
  - Z.div_mod_to_equations; lia.
  - intros s1 Hle1 [E1 E2 E3 E4 E5] Hp1. apply runs_ret, HQ. split; [split; congruence|].
    pose proof Hp1 as [Ha1 _].
    exists (l ++ split_blk b n :: rest_blk b n :: r), n. split_ands; try done; [..|lia| | | |].
    + split; [done|]. rewrite !quiet_app, !quiet_cons in *. naive_solver.
    + congruence.
    + rewrite <- Ep. unfold NULL. lia.
    + rewrite <- Ed. subst l. by eapply (view_swap l0 b0 (split_blk b n) r0).
    + intros n0 d0 Hv Hlt Hc. destruct (Hco' n0 d0 Hv Hlt Hc) as [Hc' Hh].
      rewrite coalesced_app, coalesced_cons in Hc'. rewrite coalesced_app, !coalesced_cons.
      simpl in *. rewrite Hh by done. rewrite !andb_false_r. tauto.
  - intros Hlt. apply runs_ret, HQ. split; [done|]. exists (l ++ b :: r), (bsz b).
    split_ands; try done; try lia.
    + congruence.
    + rewrite <- Ep. unfold NULL. lia.
    + rewrite take_ge, <- Ed by (rewrite <- Ed; lia). subst l.
      by eapply (view_swap l0 b0 b r0).
    + intros n0 d0 Hv Hlt' Hc. by apply (Hco' n0 d0).
Qed.

(** Whether the block after [b] is free and makes up the [n] bytes. *)
Definition next_fits_b (b : blk) (r : list blk) (n : Z) : bool :=
  match r with c :: _ => bflag c && (n <=? bsz b + 16 + bsz c) | [] => false end.

Lemma runs_next_fits s l b r n Q :
  pool_ok out s (l ++ b :: r) -> Q (next_fits_b b r n) s -> runs (next_fits (bptr b) (bsz b) n) s Q.
Proof.
  intros [Ha _] HQ. unfold next_fits. eapply runs_bind, runs_blk_next; [exact Ha|].
  destruct r as [|c r]; [by apply runs_ret|].
  assert (Hc : c ∈ l ++ b :: c :: r) by set_solver.
  assert (Hbi : b ∈ l ++ b :: c :: r) by (apply blk_in_cases; tauto).
  destruct (area_blk _ _ _ _ _ c Ha Hc) as [(?&?&?&?) ? ? ? ? ? _ _ _].
  destruct (area_blk _ _ _ _ _ b Ha Hbi) as [(?&?&?&?) ? ? ? ? ? _ _ _].
  replace (bptr c =? NULL) with false by (unfold NULL; lia).
  eapply runs_bind, runs_blk_freed; [done..|]. unfold next_fits_b in HQ.
  destruct (bflag c); [|by apply runs_ret].
  eapply runs_bind, runs_blk_size; [done..|]. apply runs_ret. sizes.
  assert (Hadj : bptr c = bptr b + bsz b + 16).
  { pose proof (ao_chain _ _ _ _ _ Ha) as Hch. by apply chain_app in Hch as (x & _ & <- & Hcc & _). }
  norm_words. done.
Qed.

(** Growing into the free block after [b]. *)
Lemma runs_grow s l b c r n Q :
  pool_inv out s (l ++ b :: c :: r) -> blisted b = false -> bflag c = true ->
  16 <= n -> n mod 16 = 0 -> n <= bsz b + 16 + bsz c ->
  (forall s', resized out s (l ++ b :: c :: r) (bptr b) n (bdata b) (bptr b) s' -> Q (bptr b) s') ->
  runs (ptr' <- blk_mergenext (bptr b) (Some _detach) ;;
        try_split_and_free ptr' n ;; ret ptr') s Q.
Proof.
  intros Hi Hb Hc Hn Hn16 Hle HQ. pose proof Hi as [Hp Hq].
  assert (Hcl : blisted c = true) by (rewrite quiet_app, !quiet_cons in Hq; naive_solver).
  apply runs_bind, (runs_mergenext out s l b c r); [done..|].
  intros s1 [E1 E2 E3 E4 E5] Hp1.
  change (bptr b) with (bptr (merge_r b c)).
  apply (runs_shrink s1 s l b (c :: r) l (merge_r b c) r); try done.
  - split; [done|]. rewrite !quiet_app, !quiet_cons in *. naive_solver.
  - by rewrite live_cons, Hcl.
  - simpl. lia.
  - intros _ Hco. rewrite coalesced_app, !coalesced_cons in Hco. simpl in Hco. rewrite Hc in Hco.
    destruct Hco as (Hcl' & (_ & Hr & Hcr) & _). rewrite coalesced_app, coalesced_cons. simpl.
    rewrite andb_false_r. split_ands; try done. 
Qed.

(** Filling the payload of a live block with [L], of which the first [k] bytes count as data. *)
Lemma pool_fill s l b r k L m' :
  pool_inv out s (l ++ b :: r) -> blisted b = false ->
  written (smem s) m' (bptr b) L -> Z.of_nat (length L) <= bsz b ->
  pool_inv out (with_mem m' s) (l ++ set_data (take k L) b :: r).
Proof.
  intros [Hp Hq] Hb (Hh & Hout & Hmap) Hlen.
  pose proof Hp as [Ha _]. assert (Hin : b ∈ l ++ b :: r) by (apply blk_in_cases; tauto).
  destruct (area_blk _ _ _ _ _ _ Ha Hin) as [(?&?&?&?) ? ? ? ? ? [(w1&Hw1&Ht1) (w2&Hw2&Ht2)] Hd Hm].
  split; [|rewrite !quiet_app, !quiet_cons in *; done].
  eapply (heap_replace _ _ _ _ _ _ _ l b [] [_] r (bptr b + bsz b + 16) Hp);
    repeat constructor; simpl; try done; try lia.
  - rewrite length_take. lia.
  - simpl in *; congruence.
  - simpl in *; congruence.
  - exists w1. split; [|done]. rewrite <- Hw1. apply load64_frame. intros. apply Hout. lia.
  - exists w2. split; [|done]. rewrite <- Hw2. apply load64_frame. intros. apply Hout. lia.
  - intros j x Hj. simpl in Hj |- *. apply lookup_take_Some in Hj as [Hj _]. by apply Hh.
  - by apply Hmap.
  - intros a Ha'. apply Hout. lia.
Qed.

(** The blocks of two distinct entries lie apart. *)
Lemma entries_apart base size m bs p n d p' n' d' :
  area_ok base size out m bs -> view bs !! p = Some (n, d) -> view bs !! p' = Some (n', d') ->
  p <> p' -> p + n <= p' \/ p' + n' <= p.
Proof.
  intros Ha H1 H2 Hne.
  apply (view_lookup _ _ _ _ _ _ _ _ Ha) in H1 as (l & b & r & E & _ & <- & <- & _).
  apply (view_lookup _ _ _ _ _ _ _ _ Ha) in H2 as (l' & b' & r' & E' & _ & <- & <- & _).
  destruct (chain_sep _ _ _ b b' (ao_blk _ _ _ _ _ Ha) (ao_chain _ _ _ _ _ Ha)) as [->|[?|?]];
    [rewrite E; set_solver|rewrite E'; set_solver|done|lia|lia].
Qed.

(** What an allocation does to the view. *)
Lemma served_view s bs n p' s' :
  served out s bs n p' s' -> exists bs' sz, same_owner s s' /\ pool_inv out s' bs' /\
    (coalesced bs -> coalesced bs') /\ n <= sz < n + 64 /\
    view bs' = <[p' := (sz, [])]> (view bs) /\ view bs !! p' = None /\
    p' mod 16 = 0 /\ p' <> NULL.
Proof.
  intros (Ho & bs' & sz & l1 & l2 & Hi & [Hco _] & Hl & Hl' & Hsz & H16 & Hn).
  exists bs', sz. pose proof (pi_ok _ _ _ Hi) as [Ha _].
  destruct (view_perm bs' (p', sz, []) (l1 ++ l2)) as [Hv Hf].
  { by eapply live_keys_nodup. }
  { rewrite Hl'. by rewrite Permutation_middle. }
  rewrite <- Hl in Hv, Hf. split_ands; try done; lia.
Qed.

(** Copying the block [p] of [size] bytes into the block [p'], and freeing [p]. *)
Lemma runs_copy_free s bs v p size d p' sz Q :
  pool_inv out s bs -> view bs = <[p' := (sz, [])]> v -> v !! p' = None ->
  v !! p = Some (size, d) -> size <= sz ->
  (forall s' bs', same_owner s s' -> pool_inv out s' bs' -> (coalesced bs -> coalesced bs') ->
     view bs' = <[p' := (sz, d)]> (delete p v) -> Q p' s') ->
  runs (memcpy p' p size ;; mpool_free p ;; ret p') s Q.
Proof.
  intros Hi Hv Hnone Hp Hsz HQ. pose proof (pi_ok _ _ _ Hi) as [Ha _].
  assert (Hne : p <> p') by congruence.
  assert (H1 : view bs !! p' = Some (sz, [])) by by rewrite Hv, lookup_insert_eq.
  assert (H2 : view bs !! p = Some (size, d)) by by rewrite Hv, lookup_insert_ne.
  pose proof (entries_apart _ _ _ _ _ _ _ _ _ _ Ha H2 H1 Hne) as Hap.
  apply (view_lookup _ _ _ _ _ _ _ _ Ha) in H1 as (lc & c & rc & -> & Hc & <- & <- & Hcd).
  apply (view_lookup _ _ _ _ _ _ _ _ Ha) in H2 as (lb & b & rb & E & Hb & <- & <- & <-).
  destruct (area_blk _ _ _ _ _ c Ha) as [(?&?&?&?) ? ? ? ? ? _ _ Hm]; [apply blk_in_cases; tauto|].
  destruct (area_blk _ _ _ _ _ b Ha) as [(?&?&?&?) ? ? ? ? ? _ Hbd _]; [rewrite E; set_solver|].
  destruct (bytes_exist (smem s) (bptr b) (Z.to_nat (bsz b))) as (L & HL & HhL).
  { eapply mapped_sub; [exact Hm|lia..]. }
  assert (Hd : bdata b = take (length (bdata b)) L) by (eapply holds_prefix; [exact Hbd|done|lia]).
  apply runs_bind, (runs_memcpy _ _ _ L); [|lia|lia|].
  { split; try done; try lia. eapply mapped_sub; [exact Hm|lia..]. }
  intros m' Hw. pose proof (pool_fill s lc c rc (length (bdata b)) L m' Hi Hc Hw ltac:(lia)) as Hi'.
  rewrite <- Hd in Hi'. set (c' := set_data (bdata b) c) in *.
  pose proof (pi_ok _ _ _ Hi') as [Ha' _].
  assert (Hv' : view (lc ++ c' :: rc) = <[bptr c := (bsz c, bdata b)]> v).
  { rewrite (view_swap lc c c' rc _ _ _ _ Ha Hc rc _ _ _ _ Ha' eq_refl Hc eq_refl).
    by rewrite Hv, delete_insert_eq, delete_id. }
  assert (H2' : view (lc ++ c' :: rc) !! bptr b = Some (bsz b, bdata b))
    by by rewrite Hv', lookup_insert_ne.
  apply (view_lookup _ _ _ _ _ _ _ _ Ha') in H2' as (l & b' & r & E' & Hb' & Ep & Es & Ed).
  rewrite E' in *. rewrite <- Ep. apply runs_bind, (runs_free out _ l b' r); [done|done|].
  intros s' bs' Hi2 Hl2 _ [Hco _] [O1 O2 O3]. apply runs_ret, (HQ s' bs'); [by split|done| |].
  { rewrite <- E' in Hco. intros Hc'. apply Hco. rewrite !coalesced_app, !coalesced_cons in *. done. }
  destruct (view_app l b' r _ _ _ _ Ha' Hb') as [Hvb Hnb].
  unfold view at 1. rewrite Hl2, <- (delete_id _ _ Hnb), <- (delete_insert_eq _ _ (bsz b', bdata b')).
  rewrite <- Hvb, Hv', Ep. by rewrite delete_insert_ne.
Qed.

(** Moving to the block that [alloc] finds, of which [A] holds. *)
Lemma runs_move_at (A : Z -> Prop) s l b r n alloc :
  pool_inv out s (l ++ b :: r) -> blisted b = false -> bsz b < n ->
  runs alloc s (fun p s' => served out s (l ++ b :: r) n p s' /\ A p) ->
  runs (new_ptr <- alloc ;; memcpy new_ptr (bptr b) (bsz b) ;; mpool_free (bptr b) ;; ret new_ptr) s
    (fun p' s' => resized out s (l ++ b :: r) (bptr b) n (bdata b) p' s' /\ (bsz b < n /\ A p')).
Proof.
  intros Hi Hb Hn Hal. pose proof (pi_ok _ _ _ Hi) as [Ha _].
  eapply runs_bind_use; [exact Hal|]. intros p' s1 [Hs HA].
  apply served_view in Hs as (bs1 & sz & [O1 O2 O3] & Hi1 & Hco1 & Hsz & Hv1 & Hnone & H16 & Hnn).
  destruct (area_blk _ _ _ _ _ b Ha) as [(?&?&?&?) ? ? ? ? ? _ _ _]; [apply blk_in_cases; tauto|].
  eapply (runs_copy_free s1 bs1 _ _ (bsz b) (bdata b)); [done|exact Hv1|done| |lia|].
  { apply (view_lookup _ _ _ _ _ _ _ _ Ha). by exists l, b, r. }
  intros s2 bs2 [P1 P2 P3] Hi2 Hco2 Hv2. split; [|done]. split; [split; congruence|].
  exists bs2, sz. split_ands; try done; try lia; [by rewrite take_ge by lia|auto].
Qed.

(** There is room for [b] to become [n] bytes long, in place or elsewhere. *)
Definition can_resize bs (b : blk) r (n : Z) : Prop :=
  n <= bsz b \/ next_fits_b b r n = true \/ ~ no_fit (fits_b n) bs.

Lemma min_size_idem req : 0 <= req <= two64 - 16 -> min_size (min_size req) = min_size req.
Proof.
  intros H. destruct (min_size_ok req H) as (_ & Hn & Hm). generalize dependent (min_size req).
  intros n Hn Hm. assert (n <= two64 - 16) by (unfold two64 in *; Z.div_mod_to_equations; lia).
  by apply min_size_16; [lia|].
Qed.

(** The common part of the two reallocation functions, from [size_t size = blk_size(ptr)] on. *)
Definition resize_with (ptr n : Z) (alloc : PM Z) : PM Z :=
  size <- blk_size ptr ;;
  if n <=? size then try_split_and_free ptr n ;; ret ptr else grow_or_move ptr size n alloc.

(** In place when the block is long enough or the next one makes up for it, else wherever [alloc]
    finds a block. *)
Lemma runs_resize (A : Z -> Prop) s l b r n alloc Q :
  pool_inv out s (l ++ b :: r) -> blisted b = false -> 16 <= n <= two64 - 16 -> n mod 16 = 0 ->
  (bsz b < n -> next_fits_b b r n = false ->
     runs alloc s (fun p s' => served out s (l ++ b :: r) n p s' /\ A p)) ->
  (forall p' s', resized out s (l ++ b :: r) (bptr b) n (bdata b) p' s' ->
     p' = bptr b \/ (bsz b < n /\ A p') -> Q p' s') ->
  runs (resize_with (bptr b) n alloc) s Q.
Proof.
  intros Hi Hb Hn Hn16 Hal HQ. pose proof Hi as [Hp Hq]. pose proof Hp as [Ha _]. unfold resize_with.
  eapply runs_bind, runs_blk_size; [exact Ha|apply blk_in_cases; tauto|].
  destruct (Z.leb_spec n (bsz b)) as [Hle|Hgt].
  - apply (runs_shrink s s l b r l b r); try done; [lia|by intros; split; [|lia]|auto].
  - unfold grow_or_move. eapply runs_bind, runs_next_fits; [exact Hp|].
    destruct (next_fits_b b r n) eqn:Ef.
    + destruct r as [|c r]; [done|]. apply andb_true_iff in Ef as [Hcf Hle].
      eapply runs_grow; [done..|lia|done|lia|]. auto.
    + eapply runs_mono; [apply (runs_move_at A s l b r n alloc); [done|done|done|by apply Hal]|].
      intros p' s' [Hr HA]. apply HQ; [done|]. by right.
Qed.

(** With nowhere to go the copy is to address 0. *)
Lemma resize_faults s l b r n alloc :
  pool_inv out s (l ++ b :: r) -> bsz b < n -> next_fits_b b r n = false ->
  alloc s = Some (NULL, s) -> smem s !! 0 = None -> resize_with (bptr b) n alloc s = None.
Proof.
  intros Hi Hn Hf Hal Hz. pose proof Hi as [Hp _]. pose proof Hp as [Ha _].
  assert (Hb : b ∈ l ++ b :: r) by (apply blk_in_cases; tauto).
  pose proof (runs_blk_size _ _ _ s _ b (fun v s1 => v = bsz b /\ s1 = s) Ha Hb (conj eq_refl eq_refl)) as Hs.
  pose proof (runs_next_fits s l b r n (fun f s1 => f = next_fits_b b r n /\ s1 = s) Hp
    (conj eq_refl eq_refl)) as Hx.
  apply runs_inv in Hs as (v & s1 & E1 & -> & ->). apply runs_inv in Hx as (f & s2 & E2 & -> & ->).
  rewrite Hf in E2. unfold resize_with, bind at 1. rewrite E1. replace (n <=? bsz b) with false by lia.
  unfold grow_or_move, bind at 1. rewrite E2. unfold bind at 1. rewrite Hal.
  destruct (area_blk _ _ _ _ _ b Ha Hb) as [(?&_) _ _ _ _ _ _ _ _].
  unfold bind at 1. by rewrite (memcpy_null s (bptr b) (bsz b)) by (done || lia).
Qed.

Lemma runs_realloc s l b r req Q :
  pool_inv out s (l ++ b :: r) -> blisted b = false -> mp_cb_reqmem (smgr s) = None ->
  0 <= req <= two64 - 16 -> can_resize (l ++ b :: r) b r (min_size req) ->
  (forall p' s', resized out s (l ++ b :: r) (bptr b) (min_size req) (bdata b) p' s' -> Q p' s') ->
  runs (mpool_realloc (bptr b) req) s Q.
Proof.
  intros Hi Hb Hcb Hreq Hcan HQ. pose proof Hi as [[Ha _] _].
  destruct (min_size_ok req Hreq) as (Hn & Hn2 & Hn16). unfold mpool_realloc.
  rewrite (listed_nonnull _ _ _ _ _ _ _ Ha). fold (resize_with (bptr b) (min_size req) (mpool_alloc (min_size req))).
  assert (Hmax : min_size req <= two64 - 16) by (unfold two64 in *; Z.div_mod_to_equations; lia).
  apply (runs_resize (fun _ => True) s l b r); [done|done|lia|done| |auto]. intros Hlt Hf.
  apply (runs_alloc out s (l ++ b :: r)); [done|done|lia| |].
  - intros Hno. rewrite min_size_idem in Hno by done. destruct Hcan as [?|[?|?]]; [lia|congruence|done].
  - intros p' s' _. by rewrite min_size_idem.
Qed.
End Realloc.
