(* ===== verification/PoolRefine.v ===== *)
(** PoolRefine: a pool and its owner as a state machine, refining a finite map from payload
    addresses to sizes and contents. *)

From Stdlib Require Import ZArith Lia.
From stdpp Require Import prelude gmap.
From S2P Require Import Prelude Mem Block Klibc Freelist Pool HeapInv HeapOps.
From S2P Require Import ListOps PoolOps PoolMatch PoolFacts PoolInit PoolSpec PoolView PoolRealloc.

(** ** The machine *)

(** What the owner of a pool does: allocate, free, reallocate, the first and the last also at an
    alignment, and write byte [i] of a block. *)
Inductive op :=
  | OAlloc (req : Z)
  | OAligned (req align : Z)
  | OFree (p : Z)
  | OWrite (p : Z) (i : nat) (v : Z)
  | ORealloc (p req : Z)
  | OAlignedRealloc (p req align : Z).

(** The owner learns the address and [mpool_msize] of what it gets. *)
Definition sized (c : PM Z) : PM (Z * Z) := p <- c ;; n <- mpool_msize p ;; ret (p, n).

Definition run_op (o : op) : PM (Z * Z) :=
  match o with
  | OAlloc req => sized (mpool_alloc req)
  | OAligned req align => sized (mpool_aligned_alloc req align)
  | OFree p => mpool_free p ;; ret (NULL, 0)
  | OWrite p i v =>
      m <- gets (@smem _) ;; m' <- of_opt (store8 m (p + Z.of_nat i) v) ;;
      modify (with_mem m') ;; ret (NULL, 0)
  | ORealloc p req => sized (mpool_realloc p req)
  | OAlignedRealloc p req align => sized (mpool_aligned_realloc p req align)
  end.

(** ** The owner's obligations *)

Definition power_of_two (align : Z) : bool := align &! (align -! 1) =? 0.

(** A request whose rounding does not wrap. *)
Definition request (req : Z) : Prop := 0 <= req <= two64 - 16.

(** When [mpool_aligned_alloc] searches, its arithmetic does not wrap and the block it finds does
    not start 16 bytes before the aligned address. *)
Definition aligned_ok (s : st mpool) (req align : Z) : Prop :=
  power_of_two align = true -> 16 <= align ->
  exists k, align = 2 ^ k /\ aligned_args s req k /\ hits_sliver req align s = false.

(** The block at [p] is too small for [req] bytes. *)
Definition outgrows (v : aheap) (p req : Z) : Prop :=
  forall n d, v !! p = Some (n, d) -> n < min_size req.

Definition legal (s : st mpool) (v : aheap) (o : op) : Prop :=
  match o with
  | OAlloc req => request req
  | OAligned req align => request req /\ 0 <= align /\ aligned_ok s req align
  | OFree p => p = NULL \/ is_Some (v !! p)
  | OWrite p i _ => exists n d, v !! p = Some (n, d) /\ (i <= length d)%nat /\ Z.of_nat i < n
  | ORealloc p req => request req /\ (p = NULL \/ is_Some (v !! p))
  | OAlignedRealloc p req align =>
      request req /\ 0 <= align /\
      ((p = NULL /\ aligned_ok s req align) \/
       (is_Some (v !! p) /\ (outgrows v p req -> aligned_ok s (min_size req) align)))
  end.

(** A live block that is too small, whose next block does not make up the rest, and for which
    [alloc] finds no other: the code then copies to address 0. *)
Definition stuck_growing (alloc : PM Z) (s : st mpool) (v : aheap) (p req : Z) : Prop :=
  is_Some (v !! p) /\ outgrows v p req /\ alloc s = Some (NULL, s) /\
  forall n d, v !! p = Some (n, d) -> next_fits p n (min_size req) s = Some (false, s).

Definition starved (s : st mpool) (v : aheap) (o : op) : Prop :=
  match o with
  | ORealloc p req => stuck_growing (mpool_alloc (min_size req)) s v p req
  | OAlignedRealloc p req align =>
      power_of_two align = true /\
      stuck_growing (if align <? 16 then mpool_alloc (min_size req)
                     else mpool_aligned_alloc (min_size req) align) s v p req
  | _ => False
  end.

(** ** The abstract operations *)

(** What is at the address that a reallocation of [p] returned. *)
Definition spec_resize (p : Z) (a : Z * Z) (v : aheap) : aheap :=
  if decide (a.1 = NULL) then v
  else <[a.1 := (a.2, take (Z.to_nat a.2) (default [] (snd <$> v !! p)))]> (delete p v).

Definition spec_op (o : op) (a : Z * Z) (v : aheap) : aheap :=
  match o with
  | OAlloc _ | OAligned _ _ => if decide (a.1 = NULL) then v else <[a.1 := (a.2, [])]> v
  | OFree p => delete p v
  | OWrite p i x => alter (fun e => (e.1, write_at e.2 i x)) p v
  | ORealloc p _ | OAlignedRealloc p _ _ => spec_resize p a v
  end.

(** The heap [v'] after a request for [req] bytes that returned [a]; [d] is what is in them. *)
Definition allocates (v : aheap) (req : Z) (d : list Z) (a : Z) (v' : aheap) : Prop :=
  (a = NULL /\ v' = v) \/
  (exists n, v !! a = None /\ a mod 16 = 0 /\ req <= n < req + 96 /\ v' = <[a := (n, d)]> v).

(** The heap after a reallocation of [p] to [req] bytes that returned [a]: in place when [p] was
    long enough, else in place or in a fresh block; the contents are kept as far as they fit. *)
Definition resizes (v : aheap) (p req a : Z) (v' : aheap) : Prop :=
  (p = NULL /\ allocates v req [] a v') \/
  (exists n n' d, v !! p = Some (n, d) /\ a <> NULL /\ a mod 16 = 0 /\ req <= n' < req + 96 /\
     (a = p \/ (n < min_size req /\ v !! a = None)) /\
     v' = <[a := (n', take (Z.to_nat n') d)]> (delete p v)).

(** What an answer tells: a block of the length asked for, inside the area; fresh if it is new. *)
Definition in_area (ptr size : Z) (a : Z * Z) : Prop :=
  a.1 <> NULL -> ptr + 16 <= a.1 /\ a.1 + a.2 + 16 <= ptr + size.

Definition at_align (align a : Z) : Prop := 16 <= align -> a mod align = 0.

Definition answer_ok (ptr size : Z) (v : aheap) (o : op) (a : Z * Z) : Prop :=
  let v' := spec_op o a v in
  in_area ptr size a /\
  match o with
  | OAlloc req => allocates v req [] a.1 v'
  | OAligned req align =>
      allocates v req [] a.1 v' /\ at_align align a.1 /\ (power_of_two align = false -> a.1 = NULL)
  | ORealloc p req => resizes v p req a.1 v'
  | OAlignedRealloc p req align =>
      if power_of_two align then resizes v p req a.1 v' /\ (a.1 = p \/ at_align align a.1)
      else a.1 = NULL
  | OFree _ | OWrite _ _ _ => True
  end.

(** The states an owner that keeps its obligations, and does only operations that [may] allows,
    can bring a new pool to.  The first page of the address space is not mapped. *)
Inductive reach (may : aheap -> op -> Prop) (m0 : mem) (ptr size : Z) : st mpool -> aheap -> Prop :=
  | reach_init p0 s :
      area_given m0 ptr size -> m0 !! NULL = None ->
      mpool_init ptr size (St m0 p0) = Some (true, s) -> reach may m0 ptr size s ∅
  | reach_step s v o a s' :
      reach may m0 ptr size s v -> legal s v o -> may v o -> run_op o s = Some (a, s') ->
      reach may m0 ptr size s' (spec_op o a v).

Definition any_op (v : aheap) (o : op) : Prop := True.

(** Operations that split no live block: a reallocation leaves fewer than 64 bytes over. *)
Definition no_cut (v : aheap) (o : op) : Prop :=
  match o with
  | ORealloc p req | OAlignedRealloc p req _ =>
      forall n d, v !! p = Some (n, d) -> n < min_size req + 64
  | _ => True
  end.
Definition uncut (may : aheap -> op -> Prop) : Prop := forall v o, may v o -> no_cut v o.

Lemma any_op_cuts : ~ uncut any_op.
Proof.
  intros Hu. specialize (Hu {[16 := (1000, [])]} (ORealloc 16 0) I 1000 [] (lookup_singleton_eq _ _)).
  vm_compute in Hu. congruence.
Qed.

(** The abstraction relation. *)
Record refines (may : aheap -> op -> Prop) (m0 : mem) (ptr size : Z) (s : st mpool) (v : aheap) : Prop := {
  rf_ptr : mp_ptr (smgr s) = ptr;
  rf_size : mp_size (smgr s) = size;
  rf_reqmem : mp_cb_reqmem (smgr s) = None;
  rf_heap : exists bs, pool_inv m0 s bs /\ v = view bs /\ (uncut may -> coalesced bs)
}.

(** ** Rules for the operations of the pool, in terms of the map *)

Section Refine.
Context (may : aheap -> op -> Prop) (m0 : mem) (ptr size : Z).
Abbreviation refines := (refines may m0 ptr size).

Lemma refines_init p0 s :
  area_given m0 ptr size -> mpool_init ptr size (St m0 p0) = Some (true, s) -> refines s ∅.
Proof.
  intros Hg E. assert (Hr : runs (mpool_init ptr size) (St m0 p0) (fun _ s' => refines s' ∅)).
  { apply runs_mpool_init; [done|]. intros s' Hi [Ht _] Hp Hs Hr. split; try done. by eexists. }
  unfold runs in Hr. by rewrite E in Hr.
Qed.

(** A live block of the map is a live block of the pool. *)
Lemma refines_block s v p n d :
  refines s v -> v !! p = Some (n, d) ->
  exists l b r, pool_inv m0 s (l ++ b :: r) /\ v = view (l ++ b :: r) /\
    (uncut may -> coalesced (l ++ b :: r)) /\ blisted b = false /\ bptr b = p /\ bsz b = n /\ bdata b = d.
Proof.
  intros [_ _ _ (bs & Hi & -> & Hc)] Hv. pose proof (pi_ok _ _ _ Hi) as [Ha _].
  apply (view_lookup _ _ _ _ _ _ _ _ Ha) in Hv as (l & b & r & -> & Hb & <- & <- & <-).
  by exists l, b, r.
Qed.

Lemma refines_place s v p n d :
  refines s v -> v !! p = Some (n, d) ->
  64 <= p /\ 16 <= n /\ ptr + 16 <= p /\ p + n + 16 <= ptr + size /\ ptr + size < two64 /\
  mapped (smem s) p (p + n).
Proof.
  intros Hr Hv. pose proof Hr as [Ep Es _ _].
  destruct (refines_block _ _ _ _ _ Hr Hv) as (l & b & r & Hi & _ & _ & Hb & <- & <- & _).
  pose proof (pi_ok _ _ _ Hi) as [Ha _]. pose proof (ao_base _ _ _ _ _ Ha). pose proof (ao_top _ _ _ _ _ Ha).
  destruct (area_blk _ _ _ _ _ b Ha) as [(?&?&?&?) ? ? ? ? ? ? ? Hm]; [apply blk_in_cases; tauto|].
  rewrite <- Ep, <- Es. split_ands; try lia. eapply mapped_sub; [exact Hm|lia..].
Qed.

Lemma refines_null s v : refines s v -> v !! NULL = None.
Proof.
  intros Hr. destruct (v !! NULL) as [[n d]|] eqn:E; [|done].
  destruct (refines_place _ _ _ _ _ Hr E). unfold NULL in *. lia.
Qed.

Lemma refines_low s v : refines s v -> m0 !! NULL = None -> smem s !! NULL = None.
Proof.
  intros [_ _ _ (bs & [[Ha _] _] & _)] Hz. pose proof (ao_base _ _ _ _ _ Ha).
  by rewrite (ao_out _ _ _ _ _ Ha) by (unfold NULL; lia).
Qed.

Lemma refines_msize s v p n d Q :
  refines s v -> v !! p = Some (n, d) -> Q n s -> runs (mpool_msize p) s Q.
Proof.
  intros Hr Hv HQ. destruct (refines_place _ _ _ _ _ Hr Hv) as [H0 _].
  destruct (refines_block _ _ _ _ _ Hr Hv) as (l & b & r & [[Ha _] _] & _ & _ & _ & <- & <- & _).
  unfold mpool_msize. replace (bptr b =? NULL) with false by (unfold NULL; lia).
  eapply runs_blk_size; [exact Ha|apply blk_in_cases; tauto|done].
Qed.
(** An allocation that [served] describes. *)
Lemma refines_served s v bs req p s' :
  refines s v -> pool_inv m0 s bs -> v = view bs -> (uncut may -> coalesced bs) -> request req ->
  served m0 s bs (min_size req) p s' -> exists v', allocates v req [] p v' /\ refines s' v' /\ p <> NULL.
Proof.
  intros [Ep Es Er _] Hi -> Hc Hreq Hs.
  destruct (served_view _ _ _ _ _ _ Hs) as (bs' & sz & [O1 O2 O3] & Hi' & Hco & Hsz & Hv & Hn & H16 & Hnn).
  destruct (min_size_ok req Hreq) as (? & _). exists (view bs'). split_ands; [|split; try congruence|done].
  - right. exists sz. split_ands; try done; lia.
  - exists bs'. split_ands; auto.
Qed.

Lemma pool_alloc s v req :
  refines s v -> request req ->
  runs (mpool_alloc req) s (fun a s' => exists v', allocates v req [] a v' /\ refines s' v').
Proof.
  intros Hr Hreq. pose proof Hr as [_ _ Hcb (bs & Hi & Hv & Hc)]. apply (runs_alloc m0 s bs); try done.
  - intros _. exists v. split; [by left|done].
  - intros p s' _ Hs. destruct (refines_served _ _ _ _ _ _ Hr Hi Hv Hc Hreq Hs) as (v' & ? & ? & _). by exists v'.
Qed.

(** An aligned search that does not wrap and hits no sliver. *)
Lemma runs_aligned_ok s bs req align :
  pool_inv m0 s bs -> mp_cb_reqmem (smgr s) = None -> request req -> 0 <= align ->
  power_of_two align = true -> aligned_ok s req align ->
  runs (mpool_aligned_alloc req align) s (fun p s' =>
    (p = NULL /\ s' = s) \/ (served m0 s bs (min_size req) p s' /\ at_align align p)).
Proof.
  intros Hi Hcb Hreq Hal Hp Hok. destruct (Z.ltb_spec align 16).
  - unfold mpool_aligned_alloc. fold (power_of_two align). rewrite Hp. simpl.
    change (2 * SIZEOF_SIZE_T) with 16. replace (align <? 16) with true by lia.
    apply (runs_alloc m0 s bs); [done..|by left|]. intros p s' _ Hs. right. split; [done|].
    unfold at_align. lia.
  - destruct (Hok Hp ltac:(lia)) as (k & -> & Hargs & Hns).
    apply (runs_aligned_alloc_hit m0 s bs); [done..|by left|]. intros p s' _ Hs Hm. right.
    split; [done|]. by intros _.
Qed.

Lemma aligned_refused req align s :
  power_of_two align = false -> mpool_aligned_alloc req align s = Some (NULL, s).
Proof. intros Hp. unfold mpool_aligned_alloc. fold (power_of_two align). by rewrite Hp. Qed.

Lemma pool_aligned s v req align :
  refines s v -> request req -> 0 <= align -> aligned_ok s req align ->
  runs (mpool_aligned_alloc req align) s (fun a s' => exists v', allocates v req [] a v' /\ refines s' v' /\
    at_align align a /\ (power_of_two align = false -> a = NULL)).
Proof.
  intros Hr Hreq Hal Hok. destruct (power_of_two align) eqn:Hp.
  - pose proof Hr as [_ _ Hcb (bs & Hi & Hv & Hc)].
    eapply runs_mono; [by apply (runs_aligned_ok s bs)|]. intros p s' [[-> ->]|[Hs Hm]].
    + exists v. split_ands; try done. by left.
    + destruct (refines_served _ _ _ _ _ _ Hr Hi Hv Hc Hreq Hs) as (v' & ? & ? & _). by exists v'.
  - eapply runs_intro; [by apply aligned_refused|]. exists v. split_ands; try done. by left.
Qed.

Lemma pool_free s v p :
  refines s v -> p = NULL \/ is_Some (v !! p) ->
  runs (mpool_free p) s (fun _ s' => refines s' (delete p v)).
Proof.
  intros Hr [->|[[n d] Hv]].
  - unfold mpool_free. simpl. apply runs_ret. rewrite delete_id; [done|]. by eapply refines_null.
  - destruct (refines_block _ _ _ _ _ Hr Hv) as (l & b & r & Hi & -> & Hc & Hb & <- & <- & <-).
    pose proof Hr as [Hp Hs Hcb _]. pose proof (pi_ok _ _ _ Hi) as [Ha _].
    apply (runs_free m0 s l b r); [done|done|]. intros s' bs' Hi' Hlive _ [Hc' _] [O1 O2 O3].
    split; try congruence. exists bs'. split_ands; [done| |auto].
    destruct (view_app l b r _ _ _ _ Ha Hb) as [-> Hnone]. rewrite delete_insert_eq. unfold view at 1.
    rewrite Hlive. by apply delete_id.
Qed.
(** Reallocation of a live block, with [alloc] to find another place. *)
Lemma pool_resize_with (A : Z -> Prop) alloc s v p req n d :
  refines s v -> v !! p = Some (n, d) -> request req -> (uncut may -> n < min_size req + 64) ->
  (n < min_size req -> forall bs, pool_inv m0 s bs -> runs alloc s (fun q s' =>
     (q = NULL /\ s' = s) \/ (served m0 s bs (min_size req) q s' /\ A q))) ->
  runs (resize_with p (min_size req) alloc) s (fun a s' =>
    exists v', resizes v p req a v' /\ refines s' v' /\ (a = p \/ A a)) \/
  (stuck_growing alloc s v p req /\ (m0 !! NULL = None -> resize_with p (min_size req) alloc s = None)).
Proof.
  intros Hr Hv Hreq Hcut Hal. destruct (min_size_ok req Hreq) as (Hn & Hn2 & Hn16).
  assert (Hmax : min_size req <= two64 - 16) by (unfold request, two64 in *; Z.div_mod_to_equations; lia).
  destruct (refines_block _ _ _ _ _ Hr Hv) as (l & b & r & Hi & Ev & Hc & Hb & <- & <- & <-).
  pose proof (pi_ok _ _ _ Hi) as Hp. pose proof Hr as [Ep Es Ecb _].
  assert (Hdone : (bsz b < min_size req -> next_fits_b b r (min_size req) = false ->
      runs alloc s (fun q s' => served m0 s (l ++ b :: r) (min_size req) q s' /\ A q)) ->
    runs (resize_with (bptr b) (min_size req) alloc) s (fun a s' =>
      exists v', resizes v (bptr b) req a v' /\ refines s' v' /\ (a = bptr b \/ A a))).
  { intros Hal'. apply (runs_resize m0 A s l b r); try done; [lia|].
    intros p' s' ([O1 O2 O3] & bs' & sz & Hi' & Hsz & H16 & Hnn & Hv' & Hfr & Hco) Hpl.
    exists (view bs'). split_ands; [|split; try congruence|tauto].
    - right. exists (bsz b), sz, (bdata b). rewrite Ev. split_ands; try done; try lia; [by rewrite <- Ev|].
      destruct (decide (p' = bptr b)); [by left|right]. split; [naive_solver|auto].
    - exists bs'. split_ands; [done..|]. intros Hu. rewrite Ev in Hv. by eapply Hco; auto. }
  destruct (Z.ltb_spec (bsz b) (min_size req)) as [Hlt|Hge]; [|left; apply Hdone; lia].
  destruct (next_fits_b b r (min_size req)) eqn:Hf; [left; by apply Hdone|].
  pose proof (runs_inv _ _ _ (Hal Hlt _ Hi)) as (q & s1 & E & [[-> ->]|Hsv]).
  - right. split.
    + split; [by eexists|]. split; [intros n d Hv'; rewrite Hv in Hv'; by injection Hv' as <- <-|].
      split; [done|]. intros n d Hv'. rewrite Hv in Hv'. injection Hv' as <- <-.
      pose proof (runs_next_fits m0 s l b r (min_size req) (fun f s1 => f = next_fits_b b r (min_size req) /\ s1 = s)
        Hp (conj eq_refl eq_refl)) as Hx. apply runs_inv in Hx as (f & s2 & -> & -> & ->). by rewrite Hf.
    + intros Hz. apply (resize_faults m0 s l b r); try done. by eapply refines_low.
  - left. apply Hdone. intros _ _. by eapply runs_intro.
Qed.

(** Both allocation functions round a rounded size once more. *)
Lemma request_rounded req : request req -> request (min_size req).
Proof.
  intros Hreq. destruct (min_size_ok req Hreq) as (? & ? & ?). unfold request, two64 in *.
  Z.div_mod_to_equations. lia.
Qed.

Lemma runs_alloc_rounded s bs req :
  pool_inv m0 s bs -> mp_cb_reqmem (smgr s) = None -> request req ->
  runs (mpool_alloc (min_size req)) s (fun q s' =>
    (q = NULL /\ s' = s) \/ (served m0 s bs (min_size req) q s' /\ True)).
Proof.
  intros Hi Hcb Hreq. apply (runs_alloc m0 s bs); [done|done|by apply request_rounded|by left|].
  intros p s' _ Hs. rewrite min_size_idem in Hs by done. by right.
Qed.

Lemma pool_resize s v p req :
  refines s v -> request req -> p = NULL \/ is_Some (v !! p) ->
  (uncut may -> no_cut v (ORealloc p req)) ->
  runs (mpool_realloc p req) s (fun a s' => exists v', resizes v p req a v' /\ refines s' v') \/
  (starved s v (ORealloc p req) /\ (m0 !! NULL = None -> mpool_realloc p req s = None)).
Proof.
  intros Hr Hreq [->|[[n d] Hv]] Hcut; unfold mpool_realloc.
  - left. simpl. eapply runs_mono; [by apply pool_alloc|]. intros a s' (v' & ? & ?). exists v'.
    split; [by left|done].
  - replace (p =? NULL) with false by (destruct (refines_place _ _ _ _ _ Hr Hv); unfold NULL; lia).
    fold (resize_with p (min_size req) (mpool_alloc (min_size req))).
    destruct (pool_resize_with (fun _ => True) (mpool_alloc (min_size req)) s v p req n d) as [H|H]; try done.
    + intros Hu. by apply (Hcut Hu n d).
    + intros _ bs Hi. apply runs_alloc_rounded; try done. by destruct Hr.
    + left. eapply runs_mono; [exact H|]. intros a s' (v' & ? & ? & _). by exists v'.
    + by right.
Qed.

Lemma pool_aligned_resize s v p req align :
  refines s v -> legal s v (OAlignedRealloc p req align) ->
  (uncut may -> no_cut v (OAlignedRealloc p req align)) ->
  runs (mpool_aligned_realloc p req align) s (fun a s' => exists v', refines s' v' /\
    if power_of_two align then resizes v p req a v' /\ (a = p \/ at_align align a)
    else a = NULL /\ v' = v) \/
  (starved s v (OAlignedRealloc p req align) /\
   (m0 !! NULL = None -> mpool_aligned_realloc p req align s = None)).
Proof.
  intros Hr (Hreq & Hal & Hok) Hcut. unfold mpool_aligned_realloc. destruct Hok as [[-> Hok]|[[[n d] Hv] Hok]].
  - left. simpl. eapply runs_mono; [by apply pool_aligned|]. intros a s' (v' & Ha & Hr' & Hm & Hn). exists v'.
    split; [done|]. destruct (power_of_two align); [split; [by left|by right]|].
    specialize (Hn eq_refl). subst a. split; [done|].
    destruct Ha as [[_ ->]|(n & _ & _ & _ & ->)]; [done|].
    pose proof (refines_null _ _ Hr') as Hnone. by rewrite lookup_insert_eq in Hnone.
  - replace (p =? NULL) with false by (destruct (refines_place _ _ _ _ _ Hr Hv); unfold NULL; lia).
    fold (power_of_two align). destruct (power_of_two align) eqn:Hp; simpl negb; cbn iota.
    2:{ left. apply runs_ret. by exists v. }
    change (2 * SIZEOF_SIZE_T) with 16. unfold starved. rewrite Hp. destruct (Z.ltb_spec align 16) as [Hlt|Hge].
    + destruct (pool_resize s v p req) as [H|[H Hf]]; try done; [by right; eexists| |].
      * left. eapply runs_mono; [exact H|]. intros a s' (v' & ? & ?). exists v'. split_ands; try done.
        right. intros ?. lia.
      * right. split; [by split|done].
    + fold (resize_with p (min_size req) (mpool_aligned_alloc (min_size req) align)).
      destruct (pool_resize_with (at_align align) (mpool_aligned_alloc (min_size req) align) s v p req n d)
        as [H|[H Hf]]; try done.
      * intros Hu. by apply (Hcut Hu n d).
      * intros Hlt bs Hi. pose proof Hr as [_ _ Hcb _]. 
        pose proof (runs_aligned_ok s bs (min_size req) align Hi Hcb (request_rounded _ Hreq) Hal Hp) as Hrun.
        rewrite min_size_idem in Hrun by done. apply Hrun, Hok.
        intros n' d' Hv'. rewrite Hv in Hv'. by injection Hv' as <- <-.
      * left. eapply runs_mono; [exact H|]. intros a s' (v' & ? & ? & ?). by exists v'.
      * right. split; [by split|done].
Qed.

(** ** The steps *)

Lemma runs_sized (c : PM Z) s (P : Z -> aheap -> Prop) (Q : Z * Z -> st mpool -> Prop) :
  runs c s (fun a s' => exists v', P a v' /\ refines s' v') ->
  (forall a v', P a v' -> a = NULL \/ is_Some (v' !! a)) ->
  (forall s' v', P NULL v' -> refines s' v' -> Q (NULL, 0) s') ->
  (forall a n d s' v', P a v' -> refines s' v' -> v' !! a = Some (n, d) -> Q (a, n) s') ->
  runs (sized c) s Q.
Proof.
  intros Hc Hk Hnull Hlive. eapply runs_bind_use; [exact Hc|]. intros a s' (v' & HP & Hr).
  destruct (Hk a v' HP) as [->|[[n d] Hv]].
  - apply runs_bind. unfold mpool_msize. simpl. apply runs_ret, runs_ret. by eapply Hnull.
  - eapply runs_bind, refines_msize; [exact Hr|exact Hv|]. apply runs_ret. by eapply Hlive.
Qed.

(** The answer [(a, n)] tells the map that [allocates] and [resizes] describe. *)
Lemma allocates_answer s' v req a v' :
  refines s' v' -> allocates v req [] a v' ->
  (a = NULL /\ v' = v) \/ exists n, v' !! a = Some (n, []) /\ v' = spec_op (OAlloc req) (a, n) v.
Proof.
  intros Hr [[-> ->]|(n & _ & _ & _ & ->)]; [by left|right]. exists n. rewrite lookup_insert_eq. split; [done|].
  simpl. rewrite decide_False; [done|]. intros ->. pose proof (refines_null _ _ Hr) as Hn.
  by rewrite lookup_insert_eq in Hn.
Qed.

Lemma resizes_answer s s' v p req a v' :
  refines s v -> refines s' v' -> resizes v p req a v' ->
  (a = NULL /\ v' = v) \/ exists n d, v' !! a = Some (n, d) /\ v' = spec_resize p (a, n) v.
Proof.
  intros Hr Hr' [[-> Ha]|(n & n' & d & Hv & Hn & _ & _ & _ & ->)].
  - destruct (allocates_answer _ _ _ _ _ Hr' Ha) as [?|(n & Hv & E)]; [by left|right]. exists n, [].
    split; [done|]. rewrite E. unfold spec_resize. simpl. rewrite (refines_null _ _ Hr), delete_id; [|by eapply refines_null].
    case_decide; [done|]. by destruct (Z.to_nat n).
  - right. eexists _, _. rewrite lookup_insert_eq. split; [done|]. unfold spec_resize. simpl.
    by rewrite decide_False, Hv by done.
Qed.

Lemma answer_in_area s' v' a n d : refines s' v' -> v' !! a = Some (n, d) -> in_area ptr size (a, n).
Proof. intros Hr Hv _. destruct (refines_place _ _ _ _ _ Hr Hv). simpl. lia. Qed.

(** An allocation, and what else is known of its address. *)
Lemma step_alloc_with (c : PM Z) s v req (A : Z -> Prop) :
  runs c s (fun a s' => exists v', (allocates v req [] a v' /\ A a) /\ refines s' v') ->
  runs (sized c) s (fun a s' => let v' := spec_op (OAlloc req) a v in
    refines s' v' /\ in_area ptr size a /\ allocates v req [] a.1 v' /\ A a.1).
Proof.
  intros Hc. eapply (runs_sized c s); [exact Hc|..].
  - intros a v' [[[-> _]|(n & _ & _ & _ & ->)] _]; [by left|right]. rewrite lookup_insert_eq. by eexists.
  - intros s' v' [Ha HA] Hr. destruct (allocates_answer _ _ _ _ _ Hr Ha) as [[_ ->]|(n & Hv & _)].
    + cbv zeta. simpl. split_ands; try done.
    + by rewrite (refines_null _ _ Hr) in Hv.
  - intros a n d s' v' [Ha HA] Hr Hv. pose proof (answer_in_area _ _ _ _ _ Hr Hv).
    destruct (allocates_answer _ _ _ _ _ Hr Ha) as [[-> _]|(n' & Hv' & E)].
    + by rewrite (refines_null _ _ Hr) in Hv.
    + rewrite Hv in Hv'. injection Hv' as <- _. cbv zeta. rewrite <- E. done.
Qed.

Lemma step_resize_with (c : PM Z) s v p req (A : Z -> Prop) :
  refines s v ->
  runs c s (fun a s' => exists v', (resizes v p req a v' /\ A a) /\ refines s' v') ->
  runs (sized c) s (fun a s' => let v' := spec_resize p a v in
    refines s' v' /\ in_area ptr size a /\ resizes v p req a.1 v' /\ A a.1).
Proof.
  intros Hr0 Hc. eapply (runs_sized c s); [exact Hc|..].
  - intros a v' [[[_ [[-> _]|(n & _ & _ & _ & ->)]]|(n & n' & d & _ & _ & _ & _ & _ & ->)] _]; [by left| |];
      right; rewrite lookup_insert_eq; by eexists.
  - intros s' v' [Ha HA] Hr. destruct (resizes_answer _ _ _ _ _ _ _ Hr0 Hr Ha) as [[_ ->]|(n & d & Hv & _)].
    + cbv zeta. simpl. split_ands; try done.
    + by rewrite (refines_null _ _ Hr) in Hv.
  - intros a n d s' v' [Ha HA] Hr Hv. pose proof (answer_in_area _ _ _ _ _ Hr Hv).
    destruct (resizes_answer _ _ _ _ _ _ _ Hr0 Hr Ha) as [[-> _]|(n' & d' & Hv' & E)].
    + by rewrite (refines_null _ _ Hr) in Hv.
    + rewrite Hv in Hv'. injection Hv' as <- _. cbv zeta. rewrite <- E. done.
Qed.

Lemma step_write s v p i x :
  refines s v -> legal s v (OWrite p i x) ->
  runs (run_op (OWrite p i x)) s (fun a s' => refines s' (spec_op (OWrite p i x) a v) /\ a.1 = NULL).
Proof.
  intros Hr (n & d & Hv & Hid & Hin). simpl run_op. pose proof Hr as [Hp Hs Hcb _].
  destruct (refines_place _ _ _ _ _ Hr Hv) as (_ & _ & _ & _ & _ & Hm).
  destruct (refines_block _ _ _ _ _ Hr Hv) as (l & b & r & Hi & -> & Hc & Hb & <- & <- & <-).
  pose proof (pi_ok _ _ _ Hi) as [Ha _].
  apply runs_bind, runs_gets, runs_bind.
  assert (Hst : is_Some (store8 (smem s) (bptr b + Z.of_nat i) x)).
  { rewrite store8_Some by (apply Hm; lia). by eexists. }
  destruct Hst as [m' Hst]. eapply runs_of_opt; [exact Hst|].
  apply runs_bind, runs_modify, runs_ret. split; [|done]. split; try done.
  pose proof (pool_write m0 s l b r i x m' Hi Hb Hid Hin Hst) as Hi'. eexists.
  split_ands; [exact Hi'| |].
  - simpl. destruct (view_app l b r _ _ _ _ Ha Hb) as [-> _].
    rewrite alter_insert_eq. symmetry. apply pi_ok in Hi' as [Ha' _].
    by destruct (view_app l (set_data (write_at (bdata b) i x) b) r _ _ _ _ Ha' Hb) as [-> _].
  - intros Hu. specialize (Hc Hu). rewrite !coalesced_app, !coalesced_cons in *. done.
Qed.

Lemma sized_faults c s : c s = None -> sized c s = None.
Proof. intros E. unfold sized, bind. by rewrite E. Qed.

(** Every legal operation does what the map operation allows, or cannot grow its block. *)
Lemma step_ok s v o :
  refines s v -> legal s v o -> may v o ->
  runs (run_op o) s (fun a s' => refines s' (spec_op o a v) /\ answer_ok ptr size v o a) \/
  (starved s v o /\ (m0 !! NULL = None -> run_op o s = None)).
Proof.
  intros Hr Hl Hm. unfold answer_ok. destruct o as [req|req align|p|p i x|p req|p req align]; simpl run_op.
  - left. eapply runs_mono; [apply (step_alloc_with _ s v req (fun _ => True))|by intros a s' (? & ? & ? & _)].
    eapply runs_mono; [by apply pool_alloc|]. intros a s' (v' & ? & ?). by exists v'.
  - left. destruct Hl as (? & ? & ?).
    eapply runs_mono; [apply (step_alloc_with _ s v req (fun a => at_align align a /\ (power_of_two align = false -> a = NULL)))|done].
    eapply runs_mono; [by apply pool_aligned|]. intros a s' (v' & ? & ? & ? & ?). by exists v'.
  - left. apply runs_bind. eapply runs_mono; [by apply pool_free|]. intros [] s' Hr'. by apply runs_ret.
  - left. eapply runs_mono; [by apply step_write|]. intros a s' [Hr' Ha]. split_ands; try done.
  - destruct Hl as [Hreq Hp]. destruct (pool_resize s v p req Hr Hreq Hp) as [H|[H Hf]].
    + intros Hu. by apply Hu.
    + left. eapply runs_mono; [apply (step_resize_with _ s v p req (fun _ => True) Hr)|by intros a s' (? & ? & ? & _)].
      eapply runs_mono; [exact H|]. intros a s' (v' & ? & ?). by exists v'.
    + right. split; [done|]. intros Hz. by apply sized_faults, Hf.
  - destruct (pool_aligned_resize s v p req align Hr Hl) as [H|[H Hf]].
    + intros Hu. by apply Hu.
    + left. destruct (power_of_two align).
      * eapply runs_mono; [apply (step_resize_with _ s v p req (fun a => a = p \/ at_align align a) Hr)|done].
        eapply runs_mono; [exact H|]. intros a s' (v' & ? & ?). by exists v'.
      * eapply runs_mono; [apply (step_alloc_with _ s v req (fun a => a = NULL))|].
        -- eapply runs_mono; [exact H|]. intros a s' (v' & ? & -> & ->). exists v. split; [|done]. split; [by left|done].
        -- intros [a n] s' (Hr' & Hin & _ & Ea). simpl in Ea. subst a. done.
    + right. split; [done|]. intros Hz. by apply sized_faults, Hf.
Qed.

Lemma reach_refines s v : reach may m0 ptr size s v -> refines s v /\ m0 !! NULL = None.
Proof.
  induction 1 as [p0 s Hg Hz E|s v o a s' _ [IH Hz] Hl Hm E]; [split; [by eapply refines_init|done]|].
  split; [|done]. destruct (step_ok s v o IH Hl Hm) as [Hs|[_ Hf]].
  - unfold runs in Hs. rewrite E in Hs. tauto.
  - by rewrite (Hf Hz) in E.
Qed.

(** Two entries of the abstract heap never overlap, and lie in the area. *)
Lemma refines_disjoint s v p n d p' n' d' :
  refines s v -> v !! p = Some (n, d) -> v !! p' = Some (n', d') -> p <> p' ->
  p + n <= p' \/ p' + n' <= p.
Proof.
  intros [_ _ _ (bs & Hi & -> & _)] H1 H2 Hne. pose proof (pi_ok _ _ _ Hi) as [Ha _].
  exact (entries_apart _ _ _ _ _ _ _ _ _ _ _ Ha H1 H2 Hne).
Qed.

Lemma refines_contents s v p n d (i : nat) x :
  refines s v -> v !! p = Some (n, d) -> d !! i = Some x -> load8 (smem s) (p + Z.of_nat i) = Some x.
Proof.
  intros Hr Hv Hx. destruct (refines_block _ _ _ _ _ Hr Hv) as (l & b & r & [[Ha _] _] & _ & _ & _ & <- & _ & <-).
  destruct (area_blk _ _ _ _ _ b Ha) as [_ _ _ _ _ _ _ Hd _]; [apply blk_in_cases; tauto|]. by apply Hd.
Qed.
End Refine.
