(* ===== verification/PageTable.v ===== *)
(** PageTable: the four-level page tables of x86-64 ([arch/x86_64/table.cpp], [table.hpp],
    [mm/table.hpp]): definitions.

    The tables live in frames of the frame allocator and are read and written through the direct
    map, so the operations run on the allocator's state.  [invlpg] and the reload of CR3 do not
    change memory and have no counterpart. *)

From Stdlib Require Import ZArith Lia.
From stdpp Require Import prelude gmap.
From S2P Require Import Prelude Mem Block Klibc Bitmap Frame.

(** [arch_table::arch_page_table_flags] *)
Definition arch_null : Z := 0.
Definition arch_present : Z := 1.
Definition arch_read_write : Z := 2.
Definition arch_user : Z := 4.
Definition arch_no_executable : Z := 9223372036854775808.

(** [table::page_table_flags] *)
Definition pt_present : Z := 1.
Definition pt_read_write : Z := 2.
Definition pt_user : Z := 4.
Definition pt_executable : Z := 8.

(** [class page_table] *)
Record page_table := Page_table { phys_addr : Z; user : bool }.
Definition get_phys_addr (t : page_table) : Z := phys_addr t.
Definition from_current (cr3 : Z) (user : bool) : page_table := Page_table cr3 user.

(** The nine bits of a virtual address that index a table. *)
Definition l4_index (virt_addr : Z) : Z := Z.shiftr virt_addr 39 &! 511.
Definition l3_index (virt_addr : Z) : Z := Z.shiftr virt_addr 30 &! 511.
Definition l2_index (virt_addr : Z) : Z := Z.shiftr virt_addr 21 &! 511.
Definition l1_index (virt_addr : Z) : Z := Z.shiftr virt_addr 12 &! 511.

(** The masks of the file. *)
Definition WALK_MASK : Z := 281474976706560.          (* 0x000fffffffff000 *)
Definition COPY_MASK : Z := 140737488351232.          (* 0x00007ffffffff000 *)
Definition COPY_FLAGS : Z := 18446462598732845055.    (* 0xFFFF000000000FFF *)

Section PageTable.
Context (physical_memory_offset : Z).
Abbreviation phys_to_virt := (phys_to_virt physical_memory_offset).
Abbreviation virt_to_phys := (virt_to_phys physical_memory_offset).

(** [x & ~hhdm::physical_memory_offset & ~(PAGE_SIZE - 1)] *)
Definition frame_bits (x : Z) : Z :=
  x &! ~! physical_memory_offset &! ~! (PAGE_SIZE - 1).

(** [&table->entries[i]] *)
Definition entry (table i : Z) : Z := table +! 8 *! i.

Definition page_table_clear (table : Z) : BM unit := forM 0 512 (fun i => sto (entry table i) 0).

Definition page_table_create (e : Z) : BM Z :=
  value <- ld e ;;
  if value =? 0 then
    frame <- alloc_frames 1 ;;
    let value := frame |! arch_present |! arch_read_write |! arch_user in
    sto e value ;;
    let table := phys_to_virt (frame_bits value) in
    page_table_clear table ;;
    ret table
  else ret (phys_to_virt (frame_bits value)).

Definition arch_flags (flags : Z) : Z :=
  let f := arch_null in
  let f := if has_flag flags pt_present then f |! arch_present else f in
  let f := if has_flag flags pt_read_write then f |! arch_read_write else f in
  let f := if has_flag flags pt_user then f |! arch_user else f in
  if has_flag flags pt_executable then f else f |! arch_no_executable.

Definition map (this : page_table) (virt_addr phys_addr flags : Z) : BM unit :=
  let l4_table := phys_to_virt (get_phys_addr this) in
  l3_table <- page_table_create (entry l4_table (l4_index virt_addr)) ;;
  l2_table <- page_table_create (entry l3_table (l3_index virt_addr)) ;;
  l1_table <- page_table_create (entry l2_table (l2_index virt_addr)) ;;
  sto (entry l1_table (l1_index virt_addr)) (frame_bits phys_addr |! arch_flags flags).

Definition map_range (this : page_table) (virt_addr phys_addr count flags : Z) : BM unit :=
  forM 0 count (fun i =>
    if phys_addr =? 0 then
      frame <- alloc_frames 1 ;; map this (virt_addr +! i *! PAGE_SIZE) frame flags
    else map this (virt_addr +! i *! PAGE_SIZE) (phys_addr +! i *! PAGE_SIZE) flags).

(** The table that an entry points to, as [unmap] and [translate_addr] walk. *)
Definition walk (e : Z) : BM Z := value <- ld e ;; ret (phys_to_virt (value &! WALK_MASK)).

(** [e = 0; free_frames(e & ..., 1)]: the entry is read back after it has been cleared. *)
Definition clear_entry (e : Z) : BM unit :=
  sto e 0 ;; value <- ld e ;; free_frames (frame_bits value) 1.

Definition unmap (this : page_table) (virt_addr : Z) : BM unit :=
  let l4_table := phys_to_virt (get_phys_addr this) in
  l3_table <- walk (entry l4_table (l4_index virt_addr)) ;;
  l2_table <- walk (entry l3_table (l3_index virt_addr)) ;;
  l1_table <- walk (entry l2_table (l2_index virt_addr)) ;;
  clear_entry (entry l4_table (l4_index virt_addr)) ;;
  clear_entry (entry l3_table (l3_index virt_addr)) ;;
  clear_entry (entry l2_table (l2_index virt_addr)) ;;
  clear_entry (entry l1_table (l1_index virt_addr)).

Definition unmap_range (this : page_table) (virt_addr count : Z) : BM unit :=
  forM 0 count (fun i => unmap this (virt_addr +! i *! PAGE_SIZE)).

Definition translate_addr (this : page_table) (virt_addr : Z) : BM Z :=
  let l4_table := phys_to_virt (get_phys_addr this) in
  l3_table <- walk (entry l4_table (l4_index virt_addr)) ;;
  l2_table <- walk (entry l3_table (l3_index virt_addr)) ;;
  l1_table <- walk (entry l2_table (l2_index virt_addr)) ;;
  value <- ld (entry l1_table (l1_index virt_addr)) ;;
  ret (frame_bits value).

(** [copy_page_table_recursive]: the source is a physical address, the result a virtual one. *)
Fixpoint copy_page_table_recursive (level : nat) (source : Z) (all_copy kernel_space : bool) : BM Z :=
  if source =? NULL then ret NULL
  else
    match level with
    | O =>
        if kernel_space then ret source
        else
          frame <- alloc_frames 1 ;;
          let new_page_table := phys_to_virt frame in
          memcpy new_page_table (phys_to_virt source) PAGE_SIZE ;;
          ret new_page_table
    | S level' =>
        phy_frame <- alloc_frames 1 ;;
        let new_table := phys_to_virt phy_frame in
        let is_top := (level =? 4)%nat in
        forM 0 (if all_copy then 512 else if is_top then 256 else 512) (fun i =>
          value <- ld (entry (phys_to_virt source) i) ;;
          if negb (value =? 0) then sto (entry new_table i) value
          else
            new_page_table <- copy_page_table_recursive level' (value &! COPY_MASK) all_copy
              (if is_top then 256 <=? i else kernel_space) ;;
            sto (entry new_table i) (virt_to_phys new_page_table |! (value &! COPY_FLAGS))) ;;
        ret new_table
    end.

(** [free_page_table_recursive]: [table] is a virtual address. *)
Fixpoint free_page_table_recursive (level : nat) (table : Z) : BM unit :=
  if table =? phys_to_virt 0 then ret tt
  else
    match level with
    | O => free_frames (virt_to_phys table) 1
    | S level' =>
        forM 0 (if (level =? 4)%nat then 256 else 512) (fun i =>
          value <- ld (entry table i) ;;
          free_page_table_recursive level' (phys_to_virt (value &! COPY_MASK))) ;;
        free_frames (virt_to_phys table) 1
    end.

(** [context::mm_context_t]: two words at an address. *)
Definition page_table_phys_of (mm : Z) : Z := mm.
Definition ref_count_of (mm : Z) : Z := mm +! 8.

Definition free_page_table (directory : Z) : BM unit :=
  ref_count <- ld (ref_count_of directory) ;;
  if ref_count =? 1 then
    phys <- ld (page_table_phys_of directory) ;;
    free_page_table_recursive 4 (phys_to_virt phys)
  else sto (ref_count_of directory) (ref_count -! 1).

(** [clone_page_table], with the [malloc] of the kernel heap as a parameter, between taking
    [clone_lock] and giving it back ([clone_mm] of [Syscall] does both). *)
Definition clone_page_table (malloc : Z -> BM Z) (old flags : Z) : BM Z :=
  let share := has_flag flags 256 in
  if share then
    ref_count <- ld (ref_count_of old) ;;
    sto (ref_count_of old) (ref_count +! 1) ;;
    ret old
  else
    new_mm <- malloc 16 ;;
    memset new_mm 0 16 ;;
    old_phys <- ld (page_table_phys_of old) ;;
    new_table <- copy_page_table_recursive 4 old_phys share false ;;
    sto (page_table_phys_of new_mm) (virt_to_phys new_table) ;;
    new_phys <- ld (page_table_phys_of new_mm) ;;
    old_phys <- ld (page_table_phys_of old) ;;
    memcpy (phys_to_virt new_phys +! 256 * 8) (phys_to_virt old_phys +! 256 * 8) (PAGE_SIZE / 2) ;;
    ref_count <- ld (ref_count_of new_mm) ;;
    sto (ref_count_of new_mm) (ref_count +! 1) ;;
    ret new_mm.
End PageTable.
