(* ===== verification/PageTableFacts.v ===== *)
(** PageTableFacts: page-table entries, what a frame source promises to the page tables, and the
    invariant of a tree of tables. *)

From Stdlib Require Import ZArith Lia.
From stdpp Require Import prelude gmap.
From S2P Require Import Prelude Mem Block Klibc Bitmap Frame PageTable.

(** The direct map starts at the higher half, as the boot loader puts it; the masks of [table.cpp]
    rely on this. *)
Definition HHDM : Z := 18446603336221196288. (* 0xffff800000000000 *)

(** ** Entries *)

(** A frame that an entry can point to. *)
Definition good_frame (f : Z) : Prop := 0 < f < 2 ^ 47 /\ f mod 4096 = 0.

Lemma testbit_lnot64 x i : 0 <= i < 64 -> Z.testbit (~! x) i = negb (Z.testbit x i).
Proof.
  intros H. unfold lnot64, u64. change two64 with (2 ^ 64).
  rewrite Z.mod_pow2_bits_low by lia. apply Z.lnot_spec. lia.
Qed.
Lemma testbit_word x i : 0 <= x < two64 -> 64 <= i -> Z.testbit x i = false.
Proof.
  intros Hx Hi. destruct (decide (x = 0)) as [->|]; [apply Z.bits_0|].
  apply Z.bits_above_log2; [lia|]. apply Z.log2_lt_pow2; [lia|].
  pose proof (Z.pow_le_mono_r 2 64 i). change two64 with (2 ^ 64) in Hx. lia.
Qed.

Lemma testbit_low_mask (k i : Z) : 0 <= k -> 0 <= i -> Z.testbit (2 ^ k - 1) i = (i <? k).
Proof.
  intros Hk Hi. replace (2 ^ k - 1) with (Z.ones k) by (rewrite Z.ones_equiv; lia). destruct (Z.ltb_spec i k).
  - by apply Z.ones_spec_low.
  - by apply Z.ones_spec_high.
Qed.

Lemma frame_bits_spec x i :
  0 <= x < two64 -> 0 <= i -> Z.testbit (frame_bits HHDM x) i = Z.testbit x i && (12 <=? i) && (i <? 47).
Proof.
  intros Hx Hi. unfold frame_bits. rewrite !Z.land_spec.
  change (~! HHDM) with (2 ^ 47 - 1). rewrite testbit_low_mask by lia.
  destruct (Z.ltb_spec i 64).
  - rewrite testbit_lnot64 by lia. change (PAGE_SIZE - 1) with (2 ^ 12 - 1).
    rewrite testbit_low_mask by lia. rewrite Z.leb_antisym.
    by destruct (Z.testbit x i), (i <? 47), (i <? 12).
  - by rewrite testbit_word by lia.
Qed.

Lemma walk_mask_spec x i :
  0 <= i -> Z.testbit (x &! WALK_MASK) i = Z.testbit x i && (12 <=? i) && (i <? 48).
Proof.
  intros Hi. rewrite Z.land_spec.
  change WALK_MASK with (Z.ldiff (2 ^ 48 - 1) (2 ^ 12 - 1)).
  rewrite Z.ldiff_spec, !testbit_low_mask by lia. rewrite Z.leb_antisym.
  by destruct (Z.testbit x i), (i <? 48), (i <? 12).
Qed.

Lemma good_frame_bit f i : good_frame f -> Z.testbit f i = Z.testbit f i && (12 <=? i) && (i <? 47).
Proof.
  intros [Hr Hm]. destruct (Z.ltb_spec i 0); [by rewrite Z.testbit_neg_r|].
  destruct (Z.leb_spec 12 i), (Z.ltb_spec i 47); rewrite ?andb_true_r, ?andb_false_r; try done.
  - apply Z.bits_above_log2; [lia|]. apply Z.log2_lt_pow2; [lia|].
    pose proof (Z.pow_le_mono_r 2 47 i). lia.
  - rewrite <- (Z.mod_pow2_bits_low f 12) by lia. change (2 ^ 12) with 4096. by rewrite Hm, Z.bits_0.
  - lia.
Qed.

(** An entry points to [f] when their bits 12 to 47 agree. *)
Definition points_to (e f : Z) : Prop :=
  0 < e < two64 /\ forall i, 12 <= i < 48 -> Z.testbit e i = Z.testbit f i.

Lemma points_to_frame_bits e f : good_frame f -> points_to e f -> frame_bits HHDM e = f.
Proof.
  intros Hf [Hr Hb]. apply Z.bits_inj'. intros i Hi. rewrite frame_bits_spec by lia.
  rewrite (good_frame_bit f i Hf). destruct (Z.leb_spec 12 i), (Z.ltb_spec i 47);
    rewrite ?andb_true_r, ?andb_false_r; try done. apply Hb. lia.
Qed.
Lemma points_to_walk e f : good_frame f -> points_to e f -> e &! WALK_MASK = f.
Proof.
  intros Hf [Hr Hb]. apply Z.bits_inj'. intros i Hi. rewrite walk_mask_spec by lia.
  destruct (Z.leb_spec 12 i), (Z.ltb_spec i 48); rewrite ?andb_true_r, ?andb_false_r; try done.
  - apply Hb. lia.
  - rewrite (good_frame_bit f i Hf). destruct (Z.ltb_spec i 47); [lia|by rewrite andb_false_r].
  - rewrite (good_frame_bit f i Hf). destruct (Z.leb_spec 12 i); [lia|by rewrite andb_false_r].
  - rewrite (good_frame_bit f i Hf). destruct (Z.leb_spec 12 i); [lia|by rewrite andb_false_r].
Qed.

Lemma lor_word a b : 0 <= a < two64 -> 0 <= b < two64 -> 0 <= a |! b < two64.
Proof.
  intros Ha Hb. assert (E : (a |! b) mod 2 ^ 64 = a |! b).
  { apply Z.bits_inj'. intros i Hi. destruct (Z.ltb_spec i 64).
    - by rewrite Z.mod_pow2_bits_low by lia.
    - rewrite Z.mod_pow2_bits_high by lia. rewrite Z.lor_spec, !testbit_word by lia. done. }
  change two64 with (2 ^ 64). rewrite <- E. by apply Z.mod_pos_bound.
Qed.

(** What [page_table_create] stores, and what [map] stores. *)
Lemma points_to_new f : good_frame f -> points_to (f |! arch_present |! arch_read_write |! arch_user) f.
Proof.
  intros Hf. pose proof Hf as [Hr Hm]. rewrite <- !Z.lor_assoc. change (arch_present |! (arch_read_write |! arch_user)) with 7.
  split.
  - pose proof (lor_word f 7). assert (f |! 7 <> 0); [|unfold two64 in *; lia].
    intros H0%Z.lor_eq_0_iff. lia.
  - intros i Hi. rewrite Z.lor_spec. change 7 with (2 ^ 3 - 1). rewrite testbit_low_mask by lia.
    destruct (Z.ltb_spec i 3); [lia|]. by rewrite orb_false_r.
Qed.

Lemma arch_flags_bits flags i : 12 <= i < 48 -> Z.testbit (arch_flags flags) i = false.
Proof.
  intros Hi. assert (H : Z.land (arch_flags flags) WALK_MASK = 0).
  { unfold arch_flags. destruct (has_flag flags pt_present), (has_flag flags pt_read_write),
      (has_flag flags pt_user), (has_flag flags pt_executable); reflexivity. }
  pose proof (walk_mask_spec (arch_flags flags) i ltac:(lia)) as Hw. rewrite H, Z.bits_0 in Hw.
  replace (12 <=? i) with true in Hw by lia. replace (i <? 48) with true in Hw by lia.
  by rewrite !andb_true_r in Hw.
Qed.
Lemma arch_flags_word flags : 0 <= arch_flags flags < two64.
Proof.
  unfold arch_flags. destruct (has_flag flags pt_present), (has_flag flags pt_read_write),
    (has_flag flags pt_user), (has_flag flags pt_executable); vm_compute; split; congruence.
Qed.

Lemma good_frame_bits f : good_frame f -> frame_bits HHDM f = f.
Proof.
  intros Hf. pose proof Hf as [Hr Hm]. apply points_to_frame_bits; [done|].
  split; [unfold two64; lia|done].
Qed.

Lemma points_to_leaf f flags : good_frame f -> points_to (frame_bits HHDM f |! arch_flags flags) f.
Proof.
  intros Hf. rewrite good_frame_bits by done. pose proof Hf as [Hr Hm].
  pose proof (lor_word f (arch_flags flags) ltac:(unfold two64; lia) (arch_flags_word flags)) as Hw.
  split.
  - assert (f |! arch_flags flags <> 0); [|lia]. intros H0%Z.lor_eq_0_iff. lia.
  - intros i Hi. by rewrite Z.lor_spec, arch_flags_bits, orb_false_r.
Qed.

(** ** Frames in the direct map *)

(** The bytes of frame [f]. *)
Definition in_frame (f a : Z) : Prop := HHDM + f <= a < HHDM + f + 4096.

Lemma good_frame_top f : good_frame f -> HHDM + f + 4096 <= two64.
Proof.
  intros [Hr Hm]. change (2 ^ 47) with (34359738368 * 4096) in Hr. unfold HHDM, two64.
  Z.div_mod_to_equations; lia.
Qed.

Lemma phys_to_virt_frame f : good_frame f -> phys_to_virt HHDM f = HHDM + f.
Proof.
  intros [Hr _]. unfold phys_to_virt, add64. rewrite u64_small; [lia|].
  unfold HHDM, two64. lia.
Qed.

Lemma entry_frame f i : good_frame f -> 0 <= i < 512 -> entry (HHDM + f) i = HHDM + f + 8 * i.
Proof.
  intros Hf Hi. pose proof (good_frame_top f Hf). destruct Hf as [Hr _]. unfold entry, add64, mul64.
  rewrite (u64_small (8 * i)) by (unfold two64; lia). apply u64_small. unfold HHDM, two64 in *. lia.
Qed.

Lemma good_frames_apart f g a : good_frame f -> good_frame g -> in_frame f a -> in_frame g a -> f = g.
Proof. intros [_ Hf] [_ Hg] H1 H2. unfold in_frame in *. Z.div_mod_to_equations; lia. Qed.

(** [m'] differs from [m] inside frame [f] only. *)
Record only_frame (f : Z) (m m' : mem) : Prop := {
  of_out : forall a, ~ in_frame f a -> m' !! a = m !! a;
  of_mapped : forall lo hi, mapped m lo hi -> mapped m' lo hi
}.

(** What the page tables ask of the frame allocator.  [I n s A]: the allocator is in a good state,
    the frames of [A] are in use, and it can serve [n] more.  It never hands out a frame in use,
    leaves the contents of the frames in use alone, and does not mind what their users write.  The
    frames it hands out are of [fs_ram]; [fs_own] are the only bytes that it writes itself, and the
    only ones that it reads. *)
Class FrameSource (I : nat -> st bitmap -> gset Z -> Prop) := {
  fs_own : Z -> Prop;
  fs_ram : Z -> Prop;
  fs_alloc : forall n s A Q, I (S n) s A ->
    (forall f s', good_frame f -> f ∉ A -> fs_ram f -> I n s' (A ∪ {[f]}) ->
       (forall g a, g ∈ A -> in_frame g a -> smem s' !! a = smem s !! a) ->
       (forall a, ~ fs_own a -> smem s' !! a = smem s !! a) -> Q f s') ->
    runs (alloc_frames 1) s Q;
  fs_write : forall n s A f m', I n s A -> f ∈ A -> only_frame f (smem s) m' -> I n (with_mem m' s) A;
  fs_else : forall n s A m', I n s A -> (forall a, fs_own a -> m' !! a = smem s !! a) ->
    (forall lo hi, mapped (smem s) lo hi -> mapped m' lo hi) -> I n (with_mem m' s) A;
  fs_frame : forall n s A f, I n s A -> f ∈ A ->
    good_frame f /\ mapped (smem s) (HHDM + f) (HHDM + f + 4096)
}.
