(* ===== verification/PageTableTree.v ===== *)
(** PageTableTree: page tables as a tree of frames, and the rules of the walk that builds it. *)

From Stdlib Require Import ZArith Lia.
From stdpp Require Import prelude gmap.
From S2P Require Import Prelude Mem Block Klibc Bitmap Frame PageTable PageTableFacts.

(** ** The tree *)

(** Entry [i] of the table in frame [f]. *)
Definition entry_at (m : mem) (f i : Z) : option Z := load64 m (HHDM + f + 8 * i).

(** [tabs] names the frame of each table by the indices that lead to it from the root.  An entry of
    an upper table points to the table below it, and is 0 when there is none. *)
Record tables_ok (m : mem) (root : Z) (tabs : gmap (list Z) Z) : Prop := {
  tk_root : tabs !! [] = Some root;
  tk_path : forall p f, tabs !! p = Some f -> (length p <= 3)%nat;
  tk_parent : forall p i g, tabs !! (p ++ [i]) = Some g -> is_Some (tabs !! p);
  tk_inj : forall p q f, tabs !! p = Some f -> tabs !! q = Some f -> p = q;
  tk_child : forall p f i, tabs !! p = Some f -> (length p < 3)%nat -> 0 <= i < 512 ->
    match tabs !! (p ++ [i]) with
    | Some g => exists e, entry_at m f i = Some e /\ points_to e g
    | None => entry_at m f i = Some 0
    end
}.

(** The indices of a virtual address. *)
Definition upper (v : Z) : list Z := [l4_index v; l3_index v; l2_index v].

(** The entry that the processor finds for an address: 0 when a table is missing. *)
Definition pte (m : mem) (tabs : gmap (list Z) Z) (v : Z) : Z :=
  match tabs !! upper v with
  | Some f => default 0 (entry_at m f (l1_index v))
  | None => 0
  end.

Section Tree.
Context (I : nat -> st bitmap -> gset Z -> Prop) `{!FrameSource I}.

(** The tables are in frames in use, and [n] more frames are to be had. *)
Record pt_state (n : nat) (s : st bitmap) (root : Z) (tabs : gmap (list Z) Z) (A : gset Z) : Prop := {
  pt_source : I n s A;
  pt_tables : tables_ok (smem s) root tabs;
  pt_used : forall p f, tabs !! p = Some f -> f ∈ A
}.

(** Bytes that are neither the allocator's, nor in a frame it may hand out, nor in a table.  Mapping
    leaves them alone. *)
Definition quiet (tabs : gmap (list Z) Z) (a : Z) : Prop :=
  ~ fs_own a /\ (forall g, fs_ram g -> ~ in_frame g a) /\ (forall p g, tabs !! p = Some g -> ~ in_frame g a).
Definition kept (tabs tabs' : gmap (list Z) Z) (m m' : mem) : Prop :=
  forall a, quiet tabs a -> quiet tabs' a /\ m' !! a = m !! a.

Lemma kept_refl tabs m : kept tabs tabs m m.
Proof. by intros a Ha. Qed.
Lemma kept_trans t1 t2 t3 m1 m2 m3 : kept t1 t2 m1 m2 -> kept t2 t3 m2 m3 -> kept t1 t3 m1 m3.
Proof. intros K1 K2 a Ha. destruct (K1 a Ha) as [Ha2 <-]. by apply K2. Qed.
Lemma kept_frame tabs m m' f p : only_frame f m m' -> tabs !! p = Some f -> kept tabs tabs m m'.
Proof. intros [Ho _] Hp a Ha. split; [done|]. apply Ho. by apply (proj2 (proj2 Ha) p). Qed.

(** ** Memory of tables *)

Lemma index_range v k : 0 <= Z.shiftr v k &! 511 < 512.
Proof. change 511 with (Z.ones 9). rewrite Z.land_ones by lia. apply Z.mod_pos_bound. lia. Qed.

Lemma l1_range v : 0 <= l1_index v < 512. Proof. apply index_range. Qed.
Lemma l2_range v : 0 <= l2_index v < 512. Proof. apply index_range. Qed.
Lemma l3_range v : 0 <= l3_index v < 512. Proof. apply index_range. Qed.
Lemma l4_range v : 0 <= l4_index v < 512. Proof. apply index_range. Qed.

Lemma store_entry m f i v :
  mapped m (HHDM + f) (HHDM + f + 4096) -> 0 <= i < 512 ->
  exists m', store64 m (HHDM + f + 8 * i) v = Some m' /\ only_frame f m m' /\
    (forall j, 0 <= j < 512 -> entry_at m' f j = if decide (j = i) then Some (u64 v) else entry_at m f j).
Proof.
  intros Hm Hi. destruct (store64_Some m (HHDM + f + 8 * i) v) as [m' E].
  { eapply mapped_sub; [exact Hm|lia..]. }
  exists m'. split; [done|]. split.
  - split.
    + intros a Ha. apply (store64_lookup _ _ _ _ _ E). unfold in_frame in Ha. lia.
    + intros lo hi. by apply (mapped_store64 _ _ _ _ _ _ E).
  - intros j Hj. unfold entry_at. case_decide as Hc.
    + subst j. by apply (load64_store64_eq _ _ _ _ E).
    + apply (load64_store64_ne _ _ _ _ _ E). lia.
Qed.

Lemma entry_at_ext m m' f i :
  (forall a, in_frame f a -> m' !! a = m !! a) -> 0 <= i < 512 -> entry_at m' f i = entry_at m f i.
Proof. intros H Hi. apply load_le_ext. intros a Ha. apply H. unfold in_frame. lia. Qed.

Lemma entry_at_other m m' f g i :
  only_frame f m m' -> good_frame f -> good_frame g -> g <> f -> 0 <= i < 512 ->
  entry_at m' g i = entry_at m g i.
Proof.
  intros [Ho _] Hf Hg Hne Hi. apply entry_at_ext; [|done]. intros a Ha. apply Ho. intros Ha'.
  apply Hne. by eapply good_frames_apart.
Qed.

Lemma only_frame_refl f m : only_frame f m m.
Proof. by split. Qed.
Lemma only_frame_trans f m1 m2 m3 : only_frame f m1 m2 -> only_frame f m2 m3 -> only_frame f m1 m3.
Proof.
  intros [H1 M1] [H2 M2]. split; [|by auto]. intros a Ha. by rewrite H2, H1.
Qed.

Lemma runs_ld_entry (s : st bitmap) f i e Q :
  good_frame f -> 0 <= i < 512 -> entry_at (smem s) f i = Some e -> Q e s ->
  runs (ld (entry (HHDM + f) i)) s Q.
Proof. intros Hf Hi He HQ. rewrite entry_frame by done. unfold runs, ld. unfold entry_at in He. by rewrite He. Qed.

Lemma runs_sto_entry (s : st bitmap) f i v Q :
  good_frame f -> mapped (smem s) (HHDM + f) (HHDM + f + 4096) -> 0 <= i < 512 ->
  (forall m', only_frame f (smem s) m' ->
     (forall j, 0 <= j < 512 ->
        entry_at m' f j = if decide (j = i) then Some (u64 v) else entry_at (smem s) f j) ->
     Q tt (with_mem m' s)) ->
  runs (sto (entry (HHDM + f) i) v) s Q.
Proof.
  intros Hf Hm Hi HQ. rewrite entry_frame by done.
  destruct (store_entry (smem s) f i v Hm Hi) as (m' & E & H1 & H2).
  unfold runs, sto. rewrite E. simpl. by apply HQ.
Qed.

Lemma runs_clear (s : st bitmap) f Q :
  good_frame f -> mapped (smem s) (HHDM + f) (HHDM + f + 4096) ->
  (forall m', only_frame f (smem s) m' -> (forall j, 0 <= j < 512 -> entry_at m' f j = Some 0) ->
     Q tt (with_mem m' s)) ->
  runs (page_table_clear (HHDM + f)) s Q.
Proof.
  intros Hf Hm HQ. unfold page_table_clear.
  apply (runs_forM (fun i s' => exists m', s' = with_mem m' s /\ only_frame f (smem s) m' /\
    forall j, 0 <= j < i -> entry_at m' f j = Some 0)); [lia| | |].
  - exists (smem s). split_ands; [by destruct s|apply only_frame_refl|lia].
  - intros i s' Hi (m' & -> & Ho & H0). apply runs_sto_entry; [done|by apply Ho|done|].
    intros m2 Ho2 Hj2. exists m2. split_ands; [done|by eapply only_frame_trans|].
    intros j Hj. rewrite Hj2 by lia. case_decide; [done|]. apply H0. lia.
  - intros s' (m' & -> & Ho & H0). by apply HQ.
Qed.

(** ** A missing table is made *)

(** A tree stays one when no byte of its tables changes. *)
Lemma tables_ok_ext m m' root tabs :
  tables_ok m root tabs ->
  (forall p f i, tabs !! p = Some f -> 0 <= i < 512 -> entry_at m' f i = entry_at m f i) ->
  tables_ok m' root tabs.
Proof.
  intros [Hr Hp Hpa Hi Hc] He. split; try done. intros p f i Hf Hl Hir.
  rewrite (He p f i Hf Hir). by apply Hc.
Qed.

Lemma pte_ext m m' tabs v :
  (forall p f i, tabs !! p = Some f -> 0 <= i < 512 -> entry_at m' f i = entry_at m f i) ->
  pte m' tabs v = pte m tabs v.
Proof.
  intros He. unfold pte. destruct (tabs !! upper v) as [f|] eqn:E; [|done].
  by rewrite (He _ _ _ E (l1_range v)).
Qed.

(** Hanging a zeroed table [g] under entry [i] of the table at [p]. *)
Lemma tables_ok_hang m m' root tabs p f i g e :
  tables_ok m root tabs -> tabs !! p = Some f -> (length p < 3)%nat -> 0 <= i < 512 ->
  tabs !! (p ++ [i]) = None -> (forall q, tabs !! q <> Some g) -> points_to e g ->
  (forall j, 0 <= j < 512 -> entry_at m' g j = Some 0) ->
  (forall j, 0 <= j < 512 -> entry_at m' f j = if decide (j = i) then Some e else entry_at m f j) ->
  (forall q h j, tabs !! q = Some h -> h <> f -> 0 <= j < 512 -> entry_at m' h j = entry_at m h j) ->
  tables_ok m' root (<[p ++ [i] := g]> tabs) /\
  forall v, pte m' (<[p ++ [i] := g]> tabs) v = pte m tabs v.
Proof.
  intros [Hr Hp Hpa Hinj Hc] Hf Hl Hi Hnone Hg Hpt Hzero Hentry Hother.
  assert (Hne : forall q j, tabs !! q <> None -> (p ++ [i]) ++ [j] <> q).
  { intros q j Hq <-. destruct (tabs !! ((p ++ [i]) ++ [j])) as [h|] eqn:E; [|done].
    apply Hpa in E as [x E]. by rewrite Hnone in E. }
  split; [split|].
  - rewrite lookup_insert_ne; [done|]. by destruct p.
  - intros q h. rewrite lookup_insert. case_decide as Hq; [|apply Hp].
    intros _. rewrite <- Hq, length_app. simpl. lia.
  - intros q j h. rewrite !lookup_insert. case_decide as Hq.
    + apply app_inj_tail in Hq as [<- <-]. intros _. case_decide; [by eexists|]. by eexists.
    + intros Hh. case_decide; [by eexists|]. by apply (Hpa _ _ _ Hh).
  - intros q1 q2 h. rewrite !lookup_insert. repeat case_decide; subst; try done.
    + intros [= <-] H2. by destruct (Hg q2).
    + intros H1 [= <-]. by destruct (Hg q1).
    + by apply Hinj.
  - intros q h j. rewrite lookup_insert. case_decide as Hq.
    + intros [= <-] Hlq Hj. rewrite lookup_insert_ne.
      * destruct (tabs !! (q ++ [j])) as [x|] eqn:E; [|by apply Hzero].
        exfalso. subst q. by apply (Hne _ j (ltac:(by rewrite E))).
      * subst q. intros E. apply (f_equal length) in E. rewrite !length_app in E. simpl in E. lia.
    + intros Hh Hlq Hj. rewrite lookup_insert. case_decide as Hqj.
      * apply app_inj_tail in Hqj as [<- <-]. rewrite Hf in Hh. injection Hh as <-.
        exists e. split; [|done]. rewrite Hentry by done. by rewrite decide_True by done.
      * assert (He : entry_at m' h j = entry_at m h j).
        { destruct (decide (h = f)) as [->|Hhf]; [|by eapply Hother].
          assert (q = p) as -> by by apply (Hinj _ _ f). rewrite Hentry by done.
          rewrite decide_False; [done|]. by intros ->. }
        rewrite He. by apply Hc.
  - intros v. unfold pte. rewrite lookup_insert. case_decide as Hv.
    + rewrite <- Hv, Hnone. by rewrite Hzero by apply l1_range.
    + destruct (tabs !! upper v) as [h|] eqn:Eh; [|done].
      rewrite (Hother _ _ _ Eh); [done| |apply l1_range].
      intros ->. pose proof (Hinj _ _ _ Eh Hf) as <-. simpl in Hl. lia.
Qed.

Lemma pt_frame n s root tabs A p f :
  pt_state n s root tabs A -> tabs !! p = Some f ->
  f ∈ A /\ good_frame f /\ mapped (smem s) (HHDM + f) (HHDM + f + 4096).
Proof. intros [HI _ Hu] Hf. pose proof (Hu _ _ Hf) as HA. split; [done|]. by apply (fs_frame _ _ _ _ HI). Qed.

(** Looking an upper entry up, or making the table it lacks. *)
Lemma runs_create n s root tabs A p f i Q :
  pt_state (S n) s root tabs A -> tabs !! p = Some f -> (length p < 3)%nat -> 0 <= i < 512 ->
  (forall g s' tabs' A' k, pt_state k s' root tabs' A' -> (n <= k)%nat -> tabs' !! (p ++ [i]) = Some g ->
     tabs ⊆ tabs' -> A ⊆ A' -> (forall v, pte (smem s') tabs' v = pte (smem s) tabs v) ->
     kept tabs tabs' (smem s) (smem s') -> Q (HHDM + g) s') ->
  runs (page_table_create HHDM (entry (HHDM + f) i)) s Q.
Proof.
  intros Hpt Hf Hl Hi HQ. pose proof Hpt as [HI Ht Hu]. destruct (pt_frame _ _ _ _ _ _ _ Hpt Hf) as (HfA & Hgf & Hmf).
  unfold page_table_create. apply runs_bind. pose proof (tk_child _ _ _ Ht p f i Hf Hl Hi) as Hc.
  destruct (tabs !! (p ++ [i])) as [g|] eqn:Eg.
  - destruct Hc as (e & He & Hpe). apply runs_ld_entry with e; [done..|].
    pose proof Hpe as [Hr _]. rewrite (proj2 (Z.eqb_neq e 0)) by lia.
    destruct (pt_frame _ _ _ _ _ _ _ Hpt Eg) as (_ & Hgg & _).
    apply runs_ret. rewrite (points_to_frame_bits e g), phys_to_virt_frame by done.
    by apply (HQ g s tabs A (S n)); try lia; try apply kept_refl.
  - apply runs_ld_entry with 0; [done..|]. simpl (0 =? 0). cbn iota. apply runs_bind.
    apply (fs_alloc n s A); [done|]. intros g s1 Hgg HgA Hram HI1 Hsame Hown.
    set (e := g |! arch_present |! arch_read_write |! arch_user).
    pose proof (points_to_new g Hgg) as Hpe. fold e in Hpe.
    assert (Hfg : f <> g) by (intros ->; done).
    destruct (fs_frame _ _ _ _ HI1 (ltac:(set_solver) : g ∈ A ∪ {[g]})) as (_ & Hmg).
    destruct (fs_frame _ _ _ _ HI1 (ltac:(set_solver) : f ∈ A ∪ {[g]})) as (_ & Hmf1).
    apply runs_bind, runs_sto_entry; [done|done|done|]. intros m2 Ho2 He2.
    rewrite (points_to_frame_bits e g), phys_to_virt_frame by done.
    apply runs_bind, runs_clear; [done|by apply Ho2|]. intros m3 Ho3 He3. apply runs_ret. simpl in He3, Ho3.
    destruct (tables_ok_hang (smem s) m3 root tabs p f i g e Ht Hf Hl Hi Eg) as [Ht' Hpte]; [| | | | |].
    + intros q Hq. by apply HgA, (Hu q).
    + done.
    + done.
    + intros j Hj. rewrite (entry_at_other m2 m3 g f j Ho3) by done. rewrite He2 by done.
      destruct (decide (j = i)); [by rewrite u64_small by (destruct Hpe; lia)|].
      apply entry_at_ext; [|done]. intros a Ha. by apply (Hsame f).
    + intros q h j Hh Hhf Hj. destruct (pt_frame _ _ _ _ _ _ _ Hpt Hh) as (HhA & Hgh & _).
      rewrite (entry_at_other m2 m3 g h j Ho3) by (done || (intros ->; done)).
      rewrite (entry_at_other (smem s1) m2 f h j Ho2) by done.
      apply entry_at_ext; [|done]. intros a Ha. by apply (Hsame h).
    + apply (HQ g _ (<[p ++ [i] := g]> tabs) (A ∪ {[g]}) n); [|lia| | | | |].
      * split; [|done|].
        -- apply (fs_write n (with_mem m2 s1) _ g m3); [|set_solver|done].
           by apply (fs_write n s1 _ f m2); [|set_solver|].
        -- intros q h. rewrite lookup_insert. case_decide; [intros [= <-]; set_solver|].
           intros Hh%Hu. set_solver.
      * apply lookup_insert_eq.
      * by apply insert_subseteq.
      * set_solver.
      * done.
      * intros a (Ho & Hr & Htb). split.
        -- split; [done|]. split; [done|]. intros q h. rewrite lookup_insert.
           case_decide; [intros [= <-]; by apply Hr|by apply Htb].
        -- simpl. rewrite (of_out _ _ _ Ho3) by by apply Hr.
           rewrite (of_out _ _ _ Ho2) by by apply (Htb p). by apply Hown.
Qed.

(** ** Mapping and translating *)

(** The nine-bit indices and the page of an address. *)
Definition page_of (v : Z) : list Z := upper v ++ [l1_index v].

(** The tree with entry [i] of a bottom table rewritten. *)
Lemma tables_ok_leaf m m' root tabs v f e :
  tables_ok m root tabs -> (forall p h, tabs !! p = Some h -> good_frame h) -> tabs !! upper v = Some f ->
  only_frame f m m' ->
  (forall j, 0 <= j < 512 -> entry_at m' f j = if decide (j = l1_index v) then Some e else entry_at m f j) ->
  tables_ok m' root tabs /\
  forall w, pte m' tabs w = if decide (page_of w = page_of v) then e else pte m tabs w.
Proof.
  intros [Hr Hp Hpa Hinj Hc] Hg Hf Ho He. pose proof (Hg _ _ Hf) as Hgf.
  assert (Hother : forall p h j, tabs !! p = Some h -> p <> upper v -> 0 <= j < 512 ->
    entry_at m' h j = entry_at m h j).
  { intros p h j Hh Hne Hj. eapply entry_at_other; [exact Ho|done|by eapply Hg| |done].
    intros ->. by apply Hne, (Hinj _ _ f). }
  split.
  - split; try done. intros p h i Hh Hl Hi. rewrite (Hother p h i Hh); [by apply Hc| |done].
    intros ->. simpl in Hl. lia.
  - intros w. unfold pte. destruct (decide (upper w = upper v)) as [Hu|Hu].
    + rewrite Hu, Hf, He by apply l1_range. unfold page_of. rewrite Hu.
      destruct (decide (l1_index w = l1_index v)) as [->|Hne].
      * by rewrite decide_True by done.
      * rewrite decide_False; [done|]. by intros [_ ?]%app_inj_tail.
    + rewrite decide_False by (unfold page_of; intros [? _]%app_inj_tail; done).
      destruct (tabs !! upper w) as [h|] eqn:Eh; [|done].
      by rewrite (Hother _ _ _ Eh Hu (l1_range w)).
Qed.

Lemma runs_map n s root tabs A u v phys flags Q :
  pt_state (3 + n) s root tabs A ->
  (forall s' tabs' A' k, pt_state k s' root tabs' A' -> (n <= k)%nat -> tabs ⊆ tabs' -> A ⊆ A' ->
     is_Some (tabs' !! upper v) ->
     (forall w, pte (smem s') tabs' w = if decide (page_of w = page_of v)
        then u64 (frame_bits HHDM phys |! arch_flags flags) else pte (smem s) tabs w) ->
     kept tabs tabs' (smem s) (smem s') -> Q tt s') ->
  runs (map HHDM (Page_table root u) v phys flags) s Q.
Proof.
  intros H0 HQ. unfold map. simpl get_phys_addr. pose proof (tk_root _ _ _ (pt_tables _ _ _ _ _ H0)) as Hroot.
  destruct (pt_frame _ _ _ _ _ _ _ H0 Hroot) as (_ & Hgr & _). rewrite phys_to_virt_frame by done.
  apply runs_bind. eapply runs_create; [exact H0|exact Hroot|simpl; lia|apply l4_range|].
  intros g1 s1 tabs1 A1 k1 H1 Hk1 Hg1 Ht1 HA1 Hv1 K1. destruct k1 as [|k1]; [lia|].
  apply runs_bind. eapply runs_create; [exact H1|exact Hg1|simpl; lia|apply l3_range|].
  intros g2 s2 tabs2 A2 k2 H2 Hk2 Hg2 Ht2 HA2 Hv2 K2. destruct k2 as [|k2]; [lia|].
  apply runs_bind. eapply runs_create; [exact H2|exact Hg2|simpl; lia|apply l2_range|].
  intros g3 s3 tabs3 A3 k3 H3 Hk3 Hg3 Ht3 HA3 Hv3 K3. simpl in Hg3.
  destruct (pt_frame _ _ _ _ _ _ _ H3 Hg3) as (HgA & Hgg & Hmg).
  apply runs_sto_entry; [done|done|apply l1_range|]. intros m' Ho He.
  destruct (tables_ok_leaf (smem s3) m' root tabs3 v g3 (u64 (frame_bits HHDM phys |! arch_flags flags))
    (pt_tables _ _ _ _ _ H3)) as [Ht' Hpte]; [|done..|].
  { intros p h Hh. by apply (pt_frame _ _ _ _ _ _ _ H3 Hh). }
  apply (HQ _ tabs3 A3 k3); [|lia| | | | |].
  - split; [|done|apply H3]. eapply fs_write; [apply H3|exact HgA|done].
  - exact (transitivity Ht1 (transitivity Ht2 Ht3)).
  - exact (transitivity HA1 (transitivity HA2 HA3)).
  - by exists g3.
  - intros w. rewrite Hpte. case_decide; [done|]. by rewrite Hv3, Hv2, Hv1.
  - eapply kept_trans; [exact K1|]. eapply kept_trans; [exact K2|]. eapply kept_trans; [exact K3|]. by eapply kept_frame.
Qed.

(** One step of the walk, from a table that has the next one. *)
Lemma runs_walk n s root tabs A p f i g Q :
  pt_state n s root tabs A -> tabs !! p = Some f -> (length p < 3)%nat -> 0 <= i < 512 ->
  tabs !! (p ++ [i]) = Some g -> Q (HHDM + g) s -> runs (walk HHDM (entry (HHDM + f) i)) s Q.
Proof.
  intros Hpt Hf Hl Hi Hg HQ. pose proof (tk_child _ _ _ (pt_tables _ _ _ _ _ Hpt) p f i Hf Hl Hi) as Hc.
  rewrite Hg in Hc. destruct Hc as (e & He & Hpe). destruct (pt_frame _ _ _ _ _ _ _ Hpt Hf) as (_ & Hgf & _).
  destruct (pt_frame _ _ _ _ _ _ _ Hpt Hg) as (_ & Hgg & _).
  unfold walk. apply runs_bind. apply runs_ld_entry with e; [done..|]. apply runs_ret.
  by rewrite (points_to_walk e g), phys_to_virt_frame by done.
Qed.

(** The tables above a bottom table. *)
Lemma upper_tables n s root tabs A v :
  pt_state n s root tabs A -> is_Some (tabs !! upper v) ->
  exists f3 f2 f1, tabs !! [l4_index v] = Some f3 /\ tabs !! [l4_index v; l3_index v] = Some f2 /\
    tabs !! upper v = Some f1.
Proof.
  intros Hpt [f1 H1]. pose proof (tk_parent _ _ _ (pt_tables _ _ _ _ _ Hpt)) as Hpa.
  destruct (Hpa [l4_index v; l3_index v] (l2_index v) f1 H1) as [f2 H2].
  destruct (Hpa [l4_index v] (l3_index v) f2 H2) as [f3 H3]. by exists f3, f2, f1.
Qed.

Lemma runs_translate n s root tabs A u v Q :
  pt_state n s root tabs A -> is_Some (tabs !! upper v) ->
  Q (frame_bits HHDM (pte (smem s) tabs v)) s -> runs (translate_addr HHDM (Page_table root u) v) s Q.
Proof.
  intros Hpt Hup HQ. destruct (upper_tables _ _ _ _ _ _ Hpt Hup) as (f3 & f2 & f1 & H3 & H2 & H1).
  pose proof (tk_root _ _ _ (pt_tables _ _ _ _ _ Hpt)) as Hroot.
  destruct (pt_frame _ _ _ _ _ _ _ Hpt Hroot) as (_ & Hgr & _).
  destruct (pt_frame _ _ _ _ _ _ _ Hpt H1) as (_ & Hg1 & Hm1).
  unfold translate_addr. simpl get_phys_addr. rewrite phys_to_virt_frame by done.
  apply runs_bind. eapply (runs_walk n s root tabs A []); [done..|simpl; lia|apply l4_range|exact H3|].
  apply runs_bind. eapply (runs_walk n s root tabs A [_]); [done..|simpl; lia|apply l3_range|exact H2|].
  apply runs_bind. eapply (runs_walk n s root tabs A [_; _]); [done..|simpl; lia|apply l2_range|exact H1|].
  unfold pte in HQ. rewrite H1 in HQ. pose proof (l1_range v) as Hi.
  destruct (load64_Some (smem s) (HHDM + f1 + 8 * l1_index v)) as [e He].
  { eapply mapped_sub; [exact Hm1|lia..]. }
  apply runs_bind. apply runs_ld_entry with e; [done..|]. apply runs_ret.
  unfold entry_at in HQ. by rewrite He in HQ.
Qed.
End Tree.
