(* ===== verification/FrameSource.v ===== *)
(** FrameSource: the frame allocator keeps the promise that the page tables rely on. *)

From Stdlib Require Import ZArith Lia.
From stdpp Require Import prelude gmap.
From S2P Require Import Prelude Mem Block Klibc Bitmap Frame FrameThms PageTable PageTableFacts.

Section Source.
(** The boot loader's memory map, and frames in use that are not the allocator's (the tables the
    boot loader built). *)
Context (usable_type : Z) (m0 : mem) (entries : list region) (size addr : Z) (foreign : gset Z).
Abbreviation inv := (frame_inv HHDM usable_type m0 entries size addr).

(** The frame at [f] is apart from the bitmap. *)
Definition off_bitmap (f : Z) : Prop := f + 4096 <= addr \/ addr + bitmap_bytes size <= f.

(** The direct map holds every usable frame and every foreign one, the bitmap starts on a page, and
    frame 0 is not usable. *)
Record ram_ok (m : mem) : Prop := {
  ro_usable : forall i, usable_frame usable_type entries i ->
    good_frame (i * PAGE_SIZE) /\ mapped m (HHDM + i * PAGE_SIZE) (HHDM + i * PAGE_SIZE + 4096);
  ro_foreign : forall f, f ∈ foreign -> good_frame f /\ mapped m (HHDM + f) (HHDM + f + 4096) /\
    off_bitmap f /\ forall i, usable_frame usable_type entries i -> f <> i * PAGE_SIZE;
  ro_addr : addr mod 4096 = 0 /\ 0 <= addr < 2 ^ 47
}.

(** [n] frames that the allocator can still hand out. *)
Definition room (n : nat) (s : st bitmap) : Prop :=
  exists L, NoDup L /\ length L = n /\ forall i, i ∈ L -> searched s i /\ frame_free s i.

Record source (n : nat) (s : st bitmap) (A : gset Z) : Prop := {
  src_inv : exists A1, A = A1 ∪ foreign /\ inv s A1;
  src_room : room n s;
  src_ram : ram_ok (smem s);
  src_data : smgr s = Bitmap (HHDM + addr) (bitmap_bytes size)
}.

Lemma ram_ok_mapped m m' :
  (forall lo hi, mapped m lo hi -> mapped m' lo hi) -> ram_ok m -> ram_ok m'.
Proof.
  intros Hm [Hu Hf Ha]. split; [| |done].
  - intros i Hi. destruct (Hu i Hi) as [Hg Hmap]. split; [done|by apply Hm].
  - intros f Hff. destruct (Hf f Hff) as (Hg & Hmap & Hr). split; [done|]. split; [by apply Hm|done].
Qed.

(** A frame handed out is off the bitmap. *)
Lemma frame_off_bitmap i :
  addr mod 4096 = 0 -> ~ (addr <= i * PAGE_SIZE < addr + bitmap_bytes size) -> off_bitmap (i * PAGE_SIZE).
Proof.
  intros Ha Hn. unfold off_bitmap, PAGE_SIZE in *. destruct (decide (addr <= i * 4096)); [lia|].
  left. Z.div_mod_to_equations; lia.
Qed.

Lemma source_frame n s A f :
  source n s A -> f ∈ A ->
  good_frame f /\ mapped (smem s) (HHDM + f) (HHDM + f + 4096) /\ off_bitmap f.
Proof.
  intros [(A1 & -> & Hi) _ [Hu Hfo [Ha Har]] _] Hf. apply elem_of_union in Hf as [Hf|Hf].
  - destruct (fi_used _ _ _ _ _ _ _ _ Hi f Hf) as (i & -> & _ & (j & Hj & Huj & Hnb)).
    destruct (Hu j Huj) as [Hg Hm]. rewrite Hj. split_ands; [done|done|]. by apply frame_off_bitmap.
  - by destruct (Hfo f Hf) as (? & ? & ? & _).
Qed.

(** Bytes of a frame that is off the bitmap are not bitmap bytes. *)
Lemma in_frame_off f a :
  off_bitmap f -> in_frame f a -> ~ (HHDM + addr <= a < HHDM + addr + bitmap_bytes size).
Proof. unfold off_bitmap, in_frame. lia. Qed.

(** Taking one frame leaves room for the others. *)
Lemma list_take_one (L : list Z) x n :
  NoDup L -> length L = S n -> exists L', NoDup L' /\ length L' = n /\ (x ∉ L') /\ L' ⊆ L.
Proof.
  intros Hnd Hlen. destruct (decide (x ∈ L)) as [Hx|Hx].
  - apply list_elem_of_split in Hx as (l1 & l2 & ->). rewrite length_app in Hlen. simpl in Hlen.
    apply NoDup_app in Hnd as (H1 & H12 & H2). apply NoDup_cons in H2 as [Hx2 H2].
    exists (l1 ++ l2). split_ands.
    + apply NoDup_app. split_ands; [done| |done]. set_solver.
    + rewrite length_app. lia.
    + set_solver.
    + set_solver.
  - destruct L as [|y L]; [done|]. apply NoDup_cons in Hnd as [_ Hnd]. exists L.
    split_ands; [done|simpl in Hlen; lia|set_solver|set_solver].
Qed.

Lemma room_le n m s : (n <= m)%nat -> room m s -> room n s.
Proof.
  intros Hle (L & Hnd & Hlen & HL). exists (take n L). rewrite <- (take_drop n L) in Hnd, HL.
  split_ands; [by apply NoDup_app in Hnd as [? _]|rewrite length_take; lia|].
  intros i Hi. apply HL, elem_of_app. by left.
Qed.

Lemma room_take n s i m' :
  frames_ok s (bitmap_bytes size) -> room (S n) s ->
  bits_set (smem s) m' (bm_data (smgr s)) (bitmap_bytes size) (fun j => j = i) false ->
  room n (with_mem m' s).
Proof.
  intros Hok (L & Hnd & Hlen & HL) Hb. destruct (list_take_one L i n Hnd Hlen) as (L' & Hnd' & Hlen' & Hi & Hsub).
  exists L'. split_ands; [done|done|]. intros j Hj. destruct (HL j (Hsub j Hj)) as [H1 H2].
  split; [done|]. apply (frame_free_step _ _ _ _ _ _ Hok Hb H1). right. split; [|done]. by intros ->.
Qed.

(** The bytes of the bitmap, and the frames that can be handed out. *)
Definition bitmap_byte (a : Z) : Prop := HHDM + addr <= a < HHDM + addr + bitmap_bytes size.
Definition ram_frame (f : Z) : Prop := exists i, usable_frame usable_type entries i /\ f = i * PAGE_SIZE.

Lemma source_alloc n s A Q :
  source (S n) s A ->
  (forall f s', good_frame f -> f ∉ A -> ram_frame f -> source n s' (A ∪ {[f]}) ->
     (forall g a, g ∈ A -> in_frame g a -> smem s' !! a = smem s !! a) ->
     (forall a, ~ bitmap_byte a -> smem s' !! a = smem s !! a) -> Q f s') ->
  runs (alloc_frames 1) s Q.
Proof.
  intros Hsrc HQ. pose proof Hsrc as [(A1 & -> & Hi) Hroom Hram Hdata]. pose proof Hroom as (L & Hnd & Hlen & HL).
  pose proof Hi as [Hmap Hok Hfree Hused].
  apply (runs_alloc_frame s (bitmap_bytes size)); [done| |].
  - intros i m' His Hif Hb. destruct (Hfree i His Hif) as [HnA (j & Hj & Huj & Hnb)].
    assert (i = j) as <- by (unfold PAGE_SIZE in *; lia).
    pose proof (ro_usable _ Hram i Huj) as [Hg Hm]. apply HQ; [done| |by exists i| | |].
    + intros [?|Hf]%elem_of_union; [done|]. by destruct (ro_foreign _ Hram _ Hf) as (_ & _ & _ & Hne); apply (Hne i).
    + split; [| |by apply (ram_ok_mapped (smem s)); [apply (bs_mapped _ _ _ _ _ _ Hb)|]|done].
      * exists (A1 ∪ {[i * PAGE_SIZE]}). split; [set_solver|].
        pose proof (frame_inv_take _ _ _ _ _ _ _ _ _ _ Hi His Hif Hb) as Ht. unfold hand_out in Ht.
        rewrite decide_False in Ht; [done|]. destruct Hg as [? _]. lia.
      * by eapply room_take.
    + intros g a Hg' Ha. simpl. apply (bs_else _ _ _ _ _ _ Hb). rewrite Hdata. simpl.
      eapply in_frame_off; [|exact Ha]. by apply (source_frame _ _ _ _ Hsrc).
    + intros a Ha. simpl. apply (bs_else _ _ _ _ _ _ Hb). rewrite Hdata. exact Ha.
  - intros Hno. destruct L as [|i L]; [done|]. destruct (HL i ltac:(left)) as [H1 H2]. by destruct (Hno i H1).
Qed.

(** The allocator reads the bitmap only. *)
Lemma source_else n s A m' :
  source n s A -> (forall a, bitmap_byte a -> m' !! a = smem s !! a) ->
  (forall lo hi, mapped (smem s) lo hi -> mapped m' lo hi) -> source n (with_mem m' s) A.
Proof.
  intros Hsrc Hbits Hm. pose proof Hsrc as [(A1 & HA & Hi) Hroom Hram Hdata].
  assert (Hfree : forall i, searched s i -> frame_free (with_mem m' s) i <-> frame_free s i).
  { intros i Hi'. pose proof (fi_ok _ _ _ _ _ _ _ _ Hi) as Hok.
    destruct (searched_lt _ _ _ Hok Hi') as [_ Hi8]. unfold frame_free, bit_at, load8. simpl. rewrite Hdata. simpl.
    rewrite Hbits; [done|]. unfold searched in Hi'. unfold bitmap_byte. Z.div_mod_to_equations; lia. }
  split; [| |by apply (ram_ok_mapped (smem s))|done].
  - exists A1. split; [done|]. destruct Hi as [Hmap [[Hd Ht Hn Hmp] Hs Ha] Hfr Hu]. split; [done| | |done].
    + split; [split; [done|done|done|by apply Hm]|done|done].
    + intros i Hi' Hf'. apply Hfr; [done|]. by apply Hfree.
  - destruct Hroom as (L & Hnd & Hlen & HL). exists L. split_ands; [done|done|].
    intros i Hi'. destruct (HL i Hi') as [H1 H2]. split; [done|]. by apply Hfree.
Qed.
Lemma source_write n s A f m' :
  source n s A -> f ∈ A -> only_frame f (smem s) m' -> source n (with_mem m' s) A.
Proof.
  intros Hsrc Hf [Ho Hm]. destruct (source_frame _ _ _ _ Hsrc Hf) as (_ & _ & Hoff).
  apply source_else; [done| |exact Hm]. intros a Ha. apply Ho. intros Hin. by apply (in_frame_off f a).
Qed.

(** The implementation of the interface. *)
#[export] Instance frame_allocator : FrameSource source.
Proof.
  split with (fs_own := bitmap_byte) (fs_ram := ram_frame); [exact source_alloc|exact source_write|exact source_else|].
  intros n s A f Hs Hf. by destruct (source_frame _ _ _ _ Hs Hf) as (? & ? & _).
Defined.

(** After [frame::init] the allocator is such a source. *)
Lemma source_init (b0 : bitmap) (s : st bitmap) n :
  map_ok HHDM usable_type m0 entries size addr -> ram_ok m0 ->
  frame_init HHDM usable_type entries (St m0 b0) = Some (tt, s) -> room n s -> source n s foreign.
Proof.
  intros Hmap Hram E Hroom.
  assert (Hr : runs (frame_init HHDM usable_type entries) (St m0 b0) (fun _ s' =>
    smgr s' = Bitmap (HHDM + addr) (bitmap_bytes size) /\ ram_ok (smem s'))).
  { eapply runs_frame_init; [done|done|]. intros s' _ _ -> Hm _. split; [|by apply (ram_ok_mapped m0)].
    f_equal. destruct (ro_addr _ Hram) as [_ Ha]. unfold phys_to_virt, add64.
    rewrite u64_small; [lia|]. unfold HHDM, two64. lia. }
  unfold runs in Hr. rewrite E in Hr. destruct Hr as [Hd Hram']. split; [|done|done|done].
  exists ∅. split; [set_solver|]. by eapply frame_inv_init.
Qed.
End Source.
