(* ===== verification/Unmap.v ===== *)
(** Unmap: what [unmap] ([arch/x86_64/table.cpp]) does to the tree of tables and to the bitmap. *)

From Stdlib Require Import ZArith Lia.
From stdpp Require Import prelude gmap.
From S2P Require Import Prelude Mem Block Klibc Bitmap Frame FrameThms PageTable PageTableFacts.
From S2P Require Import PageTableTree FrameSource.

Section Unmap.
Context (size addr : Z).

(** The allocator's state and the frames of [A], whatever the bitmap says about frame 0. *)
Record holder (s : st bitmap) (A : gset Z) : Prop := {
  hd_ok : frames_ok s (bitmap_bytes size);
  hd_pos : 0 < bitmap_bytes size;
  hd_data : smgr s = Bitmap (HHDM + addr) (bitmap_bytes size);
  hd_frames : forall f, f ∈ A ->
    good_frame f /\ mapped (smem s) (HHDM + f) (HHDM + f + 4096) /\ off_bitmap size addr f
}.

(** Entries of [A] are as before, except those in [Z], which are 0; the bitmap is as before except
    for frame 0, which is free if anything was cleared. *)
Record cleared (A : gset Z) (cl : list (Z * Z)) (s s' : st bitmap) : Prop := {
  cl_hold : holder s' A;
  cl_entry : forall f i, f ∈ A -> 0 <= i < 512 ->
    entry_at (smem s') f i = if decide ((f, i) ∈ cl) then Some 0 else entry_at (smem s) f i;
  cl_bits : forall i, 0 < i < 8 * bitmap_bytes size ->
    bit_at (smem s') (HHDM + addr) i = bit_at (smem s) (HHDM + addr) i;
  cl_zero : cl <> [] -> bit_at (smem s') (HHDM + addr) 0 = Some true
}.

Lemma cleared_nil A s : holder s A -> cleared A [] s s.
Proof. intros Hh. split; [done| |done|done]. intros f i _ _. rewrite decide_False; [done|apply not_elem_of_nil]. Qed.

(** Writing in a frame that is off the bitmap does not change a bit. *)
Lemma bit_at_frame m m' f i :
  off_bitmap size addr f -> only_frame f m m' -> 0 <= i < 8 * bitmap_bytes size ->
  bit_at m' (HHDM + addr) i = bit_at m (HHDM + addr) i.
Proof.
  intros Hoff [Ho _] Hi. unfold bit_at, load8. rewrite Ho; [done|]. intros Hin.
  apply (in_frame_off size addr f _ Hoff Hin). Z.div_mod_to_equations; lia.
Qed.

Lemma runs_clear_entry A cl s0 s f i Q :
  cleared A cl s0 s -> f ∈ A -> 0 <= i < 512 ->
  (forall s', cleared A ((f, i) :: cl) s0 s' -> Q tt s') ->
  runs (clear_entry HHDM (entry (HHDM + f) i)) s Q.
Proof.
  intros [[Hok Hpos Hd Hfr] He Hb Hz] Hf Hi HQ. destruct (Hfr f Hf) as (Hg & Hm & Hoff).
  unfold clear_entry. apply runs_bind, runs_sto_entry; [done|done|done|]. intros m1 Ho1 He1.
  apply runs_bind. apply runs_ld_entry with 0; [done|done| |].
  { simpl. rewrite He1 by done. by rewrite decide_True by done. }
  change (frame_bits HHDM 0) with 0. unfold free_frames. change (0 / PAGE_SIZE) with 0. change (0 +! 1) with 1.
  pose proof Hok as [[Hd0 Htop Hn Hmp] Hs Ha]. pose proof Hs as Hs'. rewrite Hd in Hs'. simpl in Hs'.
  apply (runs_set_range_any _ (bitmap_bytes size)); [|lia|lia|].
  { split; [done|done|done|by apply Ho1]. }
  intros m2 [B1 B2 B3 B4]. simpl in *. rewrite Hd in B1, B2, B3. simpl in B1, B2, B3. apply HQ.
  assert (Hentry : forall g j, g ∈ A -> 0 <= j < 512 -> entry_at m2 g j = entry_at m1 g j).
  { intros g j Hga Hj. apply entry_at_ext; [|done]. intros a Hin. apply B3.
    destruct (Hfr g Hga) as (_ & _ & Hog). by apply (in_frame_off size addr g). }
  split.
  - split; [split; [split; simpl; [done|done|done|by apply B4, Ho1]|done|done]|done|done|].
    intros g Hga. destruct (Hfr g Hga) as (? & ? & ?). split; [done|]. split; [by apply B4, Ho1|done].
  - intros g j Hga Hj. simpl. rewrite Hentry by done. destruct (Hfr g Hga) as (Hgg & _ & _).
    assert (Hin : (g, j) ∈ (f, i) :: cl <-> (g = f /\ j = i) \/ (g, j) ∈ cl).
    { rewrite elem_of_cons. split; [intros [[= -> ->]|?]; auto|intros [[-> ->]|?]; auto]. }
    destruct (decide (g = f)) as [->|Hgf].
    + rewrite He1, He by done. destruct (decide (j = i)) as [->|Hji].
      * by rewrite decide_True by (apply Hin; auto).
      * apply decide_ext. rewrite Hin. tauto.
    + rewrite (entry_at_other (smem s) m1 f g j Ho1), He by done. apply decide_ext. rewrite Hin. tauto.
  - intros k Hk. simpl. rewrite B2 by lia. rewrite (bit_at_frame _ _ f k Hoff Ho1) by lia. by apply Hb.
  - intros _. simpl. apply B1; lia.
Qed.

(** The tables that are not below entry [i] of the root. *)
Definition outside (i : Z) (tabs : gmap (list Z) Z) : gmap (list Z) Z :=
  filter (fun x : list Z * Z => head x.1 <> Some i) tabs.

Lemma outside_lookup i tabs p f :
  outside i tabs !! p = Some f <-> tabs !! p = Some f /\ head p <> Some i.
Proof. unfold outside. by rewrite map_lookup_filter_Some. Qed.
Lemma outside_None i tabs p : head p = Some i -> outside i tabs !! p = None.
Proof. intros Hp. destruct (outside i tabs !! p) eqn:E; [|done]. by apply outside_lookup in E as [_ ?]. Qed.
Lemma outside_same i tabs p : head p <> Some i -> outside i tabs !! p = tabs !! p.
Proof.
  intros Hp. destruct (tabs !! p) as [f|] eqn:E; [by apply outside_lookup|].
  destruct (outside i tabs !! p) eqn:E'; [|done]. apply outside_lookup in E' as [E' _]. congruence.
Qed.

(** Clearing entry [i] of the root cuts off what is below it. *)
Lemma tables_ok_cut m m' root tabs i :
  tables_ok m root tabs -> 0 <= i < 512 -> entry_at m' root i = Some 0 ->
  (forall p f j, tabs !! p = Some f -> head p <> Some i -> 0 <= j < 512 -> (p, j) <> ([], i) ->
     entry_at m' f j = entry_at m f j) ->
  tables_ok m' root (outside i tabs) /\
  forall w, pte m' (outside i tabs) w = if decide (l4_index w = i) then 0 else pte m tabs w.
Proof.
  intros [Hr Hp Hpa Hinj Hc] Hi Hz He. split; [split|].
  - by apply outside_lookup.
  - intros p f [Hf _]%outside_lookup. by apply (Hp p f).
  - intros p j g [Hg Hh]%outside_lookup. rewrite outside_same; [by apply (Hpa p j g)|].
    destruct p; [done|exact Hh].
  - intros p q f [H1 _]%outside_lookup [H2 _]%outside_lookup. by apply (Hinj p q f).
  - intros p f j [Hf Hh]%outside_lookup Hl Hj.
    destruct (decide ((p, j) = ([], i))) as [[= -> ->]|Hne].
    + rewrite outside_None by done. rewrite Hr in Hf. by injection Hf as <-.
    + rewrite outside_same.
      * rewrite (He p f j) by done. by apply Hc.
      * destruct p as [|x p]; [|exact Hh]. simpl. congruence.
  - intros w. unfold pte. case_decide as Hw.
    + by rewrite outside_None by (simpl; by rewrite Hw).
    + rewrite outside_same by (simpl; congruence). destruct (tabs !! upper w) as [f|] eqn:Ef; [|done].
      rewrite (He _ _ _ Ef); [done|simpl; congruence|apply l1_range|done].
Qed.

Lemma runs_unmap s A root u tabs v Q :
  holder s A -> tables_ok (smem s) root tabs -> (forall p f, tabs !! p = Some f -> f ∈ A) ->
  is_Some (tabs !! upper v) ->
  (forall s' cl, cleared A cl s s' -> cl <> [] -> tables_ok (smem s') root (outside (l4_index v) tabs) ->
     (forall w, pte (smem s') (outside (l4_index v) tabs) w =
        if decide (l4_index w = l4_index v) then 0 else pte (smem s) tabs w) -> Q tt s') ->
  runs (unmap HHDM (Page_table root u) v) s Q.
Proof.
  intros Hh Ht Hu [f1 H1] HQ. pose proof Ht as [Hr Hp Hpa Hinj Hc].
  destruct (Hpa [l4_index v; l3_index v] (l2_index v) f1 H1) as [f2 H2].
  destruct (Hpa [l4_index v] (l3_index v) f2 H2) as [f3 H3].
  assert (Hgood : forall p f, tabs !! p = Some f -> good_frame f).
  { intros p f Hf. by apply (hd_frames _ _ Hh), (Hu p). }
  assert (Hwalk : forall p f i g R, tabs !! p = Some f -> (length p < 3)%nat -> 0 <= i < 512 ->
    tabs !! (p ++ [i]) = Some g -> R (HHDM + g) s -> runs (walk HHDM (entry (HHDM + f) i)) s R).
  { intros p f i g R Hf Hl Hi Hg HR. pose proof (Hc p f i Hf Hl Hi) as He. rewrite Hg in He.
    destruct He as (e & He & Hpe). unfold walk. apply runs_bind. apply runs_ld_entry with e; [by eapply Hgood|done|done|].
    apply runs_ret. rewrite (points_to_walk e g), phys_to_virt_frame by (done || by eapply Hgood). done. }
  unfold unmap. simpl get_phys_addr. rewrite phys_to_virt_frame by by eapply Hgood.
  apply runs_bind. eapply (Hwalk [] root); [done|simpl; lia|apply l4_range|exact H3|].
  apply runs_bind. eapply (Hwalk [_] f3); [done|simpl; lia|apply l3_range|exact H2|].
  apply runs_bind. eapply (Hwalk [_; _] f2); [done|simpl; lia|apply l2_range|exact H1|].
  apply runs_bind. eapply runs_clear_entry; [by apply cleared_nil|by eapply Hu|apply l4_range|]. intros s1 C1.
  apply runs_bind. eapply runs_clear_entry; [exact C1|by eapply Hu|apply l3_range|]. intros s2 C2.
  apply runs_bind. eapply runs_clear_entry; [exact C2|by eapply Hu|apply l2_range|]. intros s3 C3.
  eapply runs_clear_entry; [exact C3|by eapply Hu|apply l1_range|]. intros s4 C4.
  destruct (tables_ok_cut (smem s) (smem s4) root tabs (l4_index v) Ht (l4_range v)) as [Ht' Hpte].
  - rewrite (cl_entry _ _ _ _ C4) by (by eapply Hu || apply l4_range). apply decide_True.
    right; right; right; left.
  - intros p f j Hf Hhd Hj Hne. rewrite (cl_entry _ _ _ _ C4) by (by eapply Hu || done). apply decide_False.
    rewrite !elem_of_cons. intros [[= -> ->]|[[= -> ->]|[[= -> ->]|[[= -> ->]|H]]]].
    + by rewrite (Hinj _ _ _ Hf H1) in Hhd.
    + by rewrite (Hinj _ _ _ Hf H2) in Hhd.
    + by rewrite (Hinj _ _ _ Hf H3) in Hhd.
    + by rewrite (Hinj _ _ _ Hf Hr) in Hne.
    + by apply elem_of_nil in H.
  - by apply (HQ s4 _ C4).
Qed.

(** A frame source is such a state, when it has a bitmap at all. *)
Lemma source_holder ut m0 entries foreign n s A :
  source ut m0 entries size addr foreign n s A -> 0 < bitmap_bytes size -> holder s A.
Proof.
  intros Hs Hpos. pose proof Hs as [(A1 & HA & Hi) _ _ Hd]. split; [apply Hi|done|done|].
  intros f Hf. by apply (source_frame _ _ _ _ _ _ _ _ _ _ Hs).
Qed.
End Unmap.
