(* ===== verification/PageTableThms.v ===== *)
(** PageTableThms: the properties of the page tables. *)

From Stdlib Require Import ZArith Lia.
From stdpp Require Import prelude gmap.
From S2P Require Import Prelude Mem Block Klibc Bitmap Frame FrameThms PageTable PageTableFacts.
From S2P Require Import PageTableTree FrameSource Unmap.

(** ** Addresses and pages *)

(** The number of the page of an address: 36 bits of it index the tables. *)
Definition page_number (v : Z) : Z := (v / 4096) mod 2 ^ 36.

Lemma index_div v k : 12 <= k -> Z.shiftr v k &! 511 = v / 4096 / 2 ^ (k - 12) mod 512.
Proof.
  intros Hk. change 511 with (Z.ones 9). rewrite Z.land_ones, Z.shiftr_div_pow2 by lia.
  change 4096 with (2 ^ 12). rewrite Z.div_div, <- Z.pow_add_r by lia.
  by replace (12 + (k - 12)) with k by lia.
Qed.

Lemma page_of_number v w : page_of v = page_of w <-> page_number v = page_number w.
Proof.
  unfold page_of, upper, page_number, l4_index, l3_index, l2_index, l1_index.
  rewrite !index_div by lia.
  change (2 ^ (39 - 12)) with (512 * 512 * 512). change (2 ^ (30 - 12)) with (512 * 512).
  change (2 ^ (21 - 12)) with 512. change (2 ^ (12 - 12)) with 1.
  change (2 ^ 36) with (512 * (512 * (512 * 512))). rewrite !Z.div_1_r.
  generalize (v / 4096) as x. generalize (w / 4096) as y. intros y x.
  rewrite !(Z.rem_mul_r _ 512 (512 * (512 * 512))) by lia.
  rewrite !(Z.rem_mul_r _ 512 (512 * 512)) by lia. rewrite !(Z.rem_mul_r _ 512 512) by lia.
  rewrite !Z.div_div by lia.
  pose proof (Z.mod_pos_bound x 512). pose proof (Z.mod_pos_bound y 512).
  pose proof (Z.mod_pos_bound (x / 512) 512). pose proof (Z.mod_pos_bound (y / 512) 512).
  pose proof (Z.mod_pos_bound (x / (512 * 512)) 512). pose proof (Z.mod_pos_bound (y / (512 * 512)) 512).
  pose proof (Z.mod_pos_bound (x / (512 * 512 * 512)) 512).
  pose proof (Z.mod_pos_bound (y / (512 * 512 * 512)) 512).
  split; [by intros [= -> -> -> ->]|]. intros E.
  assert (x mod 512 = y mod 512 /\ x / 512 mod 512 = y / 512 mod 512 /\
    x / (512 * 512) mod 512 = y / (512 * 512) mod 512 /\
    x / (512 * 512 * 512) mod 512 = y / (512 * 512 * 512) mod 512) as (-> & -> & -> & ->) by lia.
  done.
Qed.

(** Page [j] of a range that does not wrap around. *)
Lemma page_number_add v j :
  0 <= v -> 0 <= j -> page_number (v + j * 4096) = (v / 4096 + j) mod 2 ^ 36.
Proof. intros. unfold page_number. by rewrite Z.div_add by lia. Qed.

Lemma pages_distinct v j k :
  0 <= v -> 0 <= j < 2 ^ 36 -> 0 <= k < 2 ^ 36 -> page_of (v + j * 4096) = page_of (v + k * 4096) -> j = k.
Proof.
  intros Hv Hj Hk. rewrite page_of_number, !page_number_add by lia. intros E.
  change (2 ^ 36) with 68719476736 in *. Z.div_mod_to_equations; lia.
Qed.

(** ** Ranges *)

Section Range.
Context (I : nat -> st bitmap -> gset Z -> Prop) `{!FrameSource I}.
Abbreviation pt_state := (pt_state I).

(** The entry that [map] makes. *)
Definition leaf (phys flags : Z) : Z := u64 (frame_bits HHDM phys |! arch_flags flags).

Lemma leaf_target f flags : good_frame f -> frame_bits HHDM (leaf f flags) = f.
Proof.
  intros Hf. unfold leaf. pose proof (points_to_leaf f flags Hf) as Hp. pose proof Hp as [Hr _].
  rewrite u64_small by lia. by apply points_to_frame_bits.
Qed.

(** The first [i] pages of the range have the entry [e j], and no other entry has changed. *)
Definition range_mapped (v : Z) (i : Z) (e : Z -> Z) (before after : Z -> Z) : Prop :=
  (forall j w, 0 <= j < i -> page_of w = page_of (v + j * PAGE_SIZE) -> after w = e j) /\
  (forall w, (forall j, 0 <= j < i -> page_of w <> page_of (v + j * PAGE_SIZE)) -> after w = before w).

Lemma range_mapped_step v i e e' before mid after :
  0 <= v -> 0 <= i < 2 ^ 36 -> range_mapped v i e before mid ->
  (forall w, after w = if decide (page_of w = page_of (v + i * PAGE_SIZE)) then e' i else mid w) ->
  (forall j, 0 <= j < i -> e' j = e j) -> range_mapped v (i + 1) e' before after.
Proof.
  intros Hv Hi [Hin Hout] Ha He. split.
  - intros j w Hj Hw. rewrite Ha. case_decide as Hd.
    + rewrite Hw in Hd. apply pages_distinct in Hd; [by subst|lia..].
    + assert (j <> i) by (intros ->; done). rewrite He by lia. apply Hin; [lia|done].
  - intros w Hw. rewrite Ha, decide_False by (apply Hw; lia). apply Hout. intros j Hj. apply Hw. lia.
Qed.

Lemma runs_map_range n s root tabs A u v phys count flags Q :
  pt_state (3 * count + n) s root tabs A -> 0 < phys -> 0 <= v ->
  v + Z.of_nat count * PAGE_SIZE <= two64 -> phys + Z.of_nat count * PAGE_SIZE <= two64 -> Z.of_nat count < 2 ^ 36 ->
  (forall s' tabs' A', (exists k, (n <= k)%nat /\ pt_state k s' root tabs' A') -> tabs ⊆ tabs' ->
     range_mapped v (Z.of_nat count) (fun j => leaf (phys + j * PAGE_SIZE) flags)
       (pte (smem s) tabs) (pte (smem s') tabs') -> kept I tabs tabs' (smem s) (smem s') -> Q tt s') ->
  runs (map_range HHDM (Page_table root u) v phys (Z.of_nat count) flags) s Q.
Proof.
  intros Hpt Hphys Hv Hvt Hpt' Hc HQ. unfold map_range, PAGE_SIZE in *.
  apply (runs_forM (fun i s' => exists tabs' A' k, pt_state k s' root tabs' A' /\
    (3 * (count - Z.to_nat i) + n <= k)%nat /\ tabs ⊆ tabs' /\
    range_mapped v i (fun j => leaf (phys + j * 4096) flags) (pte (smem s) tabs) (pte (smem s') tabs') /\
    kept I tabs tabs' (smem s) (smem s'))); [lia| | |].
  - exists tabs, A, (3 * count + n)%nat. split_ands; [exact Hpt|simpl; lia|reflexivity|split; [intros; lia|reflexivity]|apply kept_refl].
  - intros i s' Hi (tabs' & A' & k & Hk & Hle & Ht & Hrm & Kp).
    rewrite (proj2 (Z.eqb_neq phys 0)) by lia.
    assert (Hi64 : 0 <= i * 4096 < two64) by lia. norm_words.
    replace k with (3 + (k - 3))%nat in Hk by lia.
    eapply runs_map; [exact Hk|]. intros s2 tabs2 A2 k2 Hk2 Hle2 Ht2 HA2 _ Hpte Kp2.
    exists tabs2, A2, k2. split_ands; [done|lia|by etrans| |by eapply kept_trans].
    eapply (range_mapped_step v i _ _ _ (pte (smem s') tabs')); [lia|lia|exact Hrm| |done].
    intros w. rewrite Hpte. unfold leaf, PAGE_SIZE. done.
  - intros s' (tabs' & A' & k & Hk & Hle & Ht & Hrm & Kp). eapply HQ; [by exists k; split; [lia|]|done|done|done].
Qed.

(** With [phys_addr = 0] every page gets a frame of its own, and none that was in use. *)
Lemma runs_map_range_fresh n s root tabs A u v count flags Q :
  pt_state (4 * count + n) s root tabs A -> 0 <= v ->
  v + Z.of_nat count * PAGE_SIZE <= two64 -> Z.of_nat count < 2 ^ 36 ->
  (forall s' tabs' A' (fr : Z -> Z), (exists k, (n <= k)%nat /\ pt_state k s' root tabs' A') -> tabs ⊆ tabs' ->
     (forall j, 0 <= j < Z.of_nat count -> good_frame (fr j) /\ (fr j ∉ A) /\ (fr j ∈ A')) ->
     (forall j k, 0 <= j < Z.of_nat count -> 0 <= k < Z.of_nat count -> fr j = fr k -> j = k) ->
     range_mapped v (Z.of_nat count) (fun j => leaf (fr j) flags)
       (pte (smem s) tabs) (pte (smem s') tabs') -> kept I tabs tabs' (smem s) (smem s') -> Q tt s') ->
  runs (map_range HHDM (Page_table root u) v 0 (Z.of_nat count) flags) s Q.
Proof.
  intros Hpt Hv Hvt Hc HQ. unfold map_range, PAGE_SIZE in *.
  apply (runs_forM (fun i s' => exists tabs' A' k (fr : Z -> Z), pt_state k s' root tabs' A' /\
    (4 * (count - Z.to_nat i) + n <= k)%nat /\ tabs ⊆ tabs' /\ A ⊆ A' /\
    (forall j, 0 <= j < i -> good_frame (fr j) /\ (fr j ∉ A) /\ (fr j ∈ A')) /\
    (forall j k, 0 <= j < i -> 0 <= k < i -> fr j = fr k -> j = k) /\
    range_mapped v i (fun j => leaf (fr j) flags) (pte (smem s) tabs) (pte (smem s') tabs') /\
    kept I tabs tabs' (smem s) (smem s'))); [lia| | |].
  - exists tabs, A, (4 * count + n)%nat, (fun _ => 0).
    split; [done|]. split; [simpl; lia|]. split; [done|]. split; [done|].
    split; [intros; lia|]. split; [intros; lia|]. split; [split; [intros; lia|reflexivity]|apply kept_refl].
  - intros i s' Hi (tabs' & A' & k & fr & Hk & Hle & Ht & HA & Hfr & Hinj & Hrm & Kp).
    simpl (0 =? 0). cbn iota. replace k with (S (k - 1)) in Hk by lia. destruct Hk as [HI Htab Hu].
    apply runs_bind, (fs_alloc (k - 1) s' A'); [done|]. intros f s1 Hgf HfA _ HI1 Hsame Hown.
    assert (Hsame' : forall p g j, tabs' !! p = Some g -> 0 <= j < 512 ->
      entry_at (smem s1) g j = entry_at (smem s') g j).
    { intros p g j Hg Hj. apply entry_at_ext; [|done]. intros a Ha. by apply (Hsame g); [apply (Hu p)|]. }
    assert (Hk1 : pt_state (k - 1) s1 root tabs' (A' ∪ {[f]})).
    { split; [done|by eapply tables_ok_ext|]. intros p g Hg. apply elem_of_union_l. by apply (Hu p). }
    assert (Hi64 : 0 <= i * 4096 < two64) by lia. norm_words.
    replace (k - 1)%nat with (3 + (k - 4))%nat in Hk1 by lia.
    eapply runs_map; [exact Hk1|]. intros s2 tabs2 A2 k2 Hk2 Hle2 Ht2 HA2 _ Hpte Kp2.
    exists tabs2, A2, k2, (fun j => if decide (j = i) then f else fr j).
    assert (Hsub : A' ⊆ A2) by (intros x Hx; apply HA2; by apply elem_of_union_l).
    assert (Hf2 : f ∈ A2) by (apply HA2, elem_of_union_r; by apply elem_of_singleton).
    split; [done|]. split; [lia|]. split; [by etrans|]. split; [by etrans|]. split; [|split; [|split]].
    + intros j Hj. case_decide.
      * split; [done|]. split; [|done]. intros Hf. by apply HfA, HA.
      * destruct (Hfr j) as (? & ? & ?); [lia|]. split; [done|]. split; [done|]. by apply Hsub.
    + intros j l Hj Hl. repeat case_decide; subst; try done.
      * intros E. destruct (Hfr l) as (_ & _ & Hin); [lia|]. by rewrite <- E in Hin.
      * intros E. destruct (Hfr j) as (_ & _ & Hin); [lia|]. by rewrite E in Hin.
      * apply Hinj; lia.
    + eapply (range_mapped_step v i _ _ _ (pte (smem s') tabs')); [lia|lia|exact Hrm| |].
      * intros w. rewrite Hpte. unfold leaf, PAGE_SIZE. case_decide; [by rewrite decide_True by done|].
        by apply pte_ext.
      * intros j Hj. cbv beta. by rewrite decide_False by lia.
    + eapply kept_trans; [exact Kp|]. eapply (kept_trans _ _ tabs'); [|exact Kp2].
      intros a Ha. split; [exact Ha|]. apply Hown, Ha.
  - intros s' (tabs' & A' & k & fr & Hk & Hle & Ht & HA & Hfr & Hinj & Hrm & Kp).
    eapply (HQ s' tabs' A' fr); [by exists k; split; [lia|]|done..].
Qed.
End Range.

(** ** A concrete address space

    64 usable pages from 4096 (the bitmap takes the first), and a zeroed root table in the page
    behind them. *)

Definition pt_entries : list region := [Region 0 0 1; Region 4096 (64 * 4096) 0].
Definition pt_size : Z := 65 * 4096.
Definition pt_root : Z := 65 * 4096.
Definition pt_mem : mem := fill (HHDM + 4096) (Z.to_nat (65 * 4096)) 0 ∅.
Definition pt_source : nat -> st bitmap -> gset Z -> Prop :=
  source 0 pt_mem pt_entries pt_size 4096 {[pt_root]}.

Lemma pt_mem_mapped lo hi : HHDM + 4096 <= lo -> hi <= HHDM + 66 * 4096 -> mapped pt_mem lo hi.
Proof.
  intros Hlo Hhi. unfold pt_mem. pose proof (fill_mapped (HHDM + 4096) (Z.to_nat (65 * 4096)) 0 ∅) as H.
  rewrite Z2Nat.id in H by lia. eapply mapped_sub; [exact H|lia..].
Qed.

Lemma pt_mem_root i : 0 <= i < 512 -> entry_at pt_mem pt_root i = Some 0.
Proof.
  intros Hi. apply load_le_zero. intros b Hb. unfold pt_mem. rewrite fill_lookup.
  rewrite Z2Nat.id by lia. rewrite decide_True; [done|]. unfold pt_root in Hb. lia.
Qed.

#[local] Opaque pt_mem.

Lemma pt_map : map_ok HHDM 0 pt_mem pt_entries pt_size 4096.
Proof.
  split; try done.
  - repeat constructor; try done.
  - apply Exists_cons. right. apply Exists_cons. left. done.
  - apply pt_mem_mapped; vm_compute; congruence.
Qed.

Lemma pt_usable i : usable_frame 0 pt_entries i <-> 1 <= i < 65.
Proof.
  unfold usable_frame, pt_entries. rewrite !Exists_cons, Exists_nil. unfold first_frame, end_frame, usable.
  simpl. change (4096 / PAGE_SIZE) with 1. change (1 + 64 * 4096 / PAGE_SIZE) with 65.
  split; [intros [[? _]|[[_ ?]|[]]]; done || lia|]. intros H. right. left. split; [done|lia].
Qed.

Lemma pt_ram : ram_ok 0 pt_entries pt_size 4096 {[pt_root]} pt_mem.
Proof.
  split; [| |done].
  - intros i Hi%pt_usable. unfold good_frame, PAGE_SIZE. split.
    + change (2 ^ 47) with 140737488355328. split; [lia|]. apply Z.mod_mul. lia.
    + apply pt_mem_mapped; lia.
  - intros f ->%elem_of_singleton. split; [split; [vm_compute; split; congruence|done]|].
    split; [apply pt_mem_mapped; vm_compute; congruence|].
    split; [right; vm_compute; congruence|]. intros i Hi%pt_usable. unfold pt_root, PAGE_SIZE. lia.
Qed.

(** The address space after [frame::init]: only the root table, and room for six frames. *)
Lemma pt_demo : exists s, pt_state pt_source 6 s pt_root {[[] := pt_root]} {[pt_root]}.
Proof.
  assert (Hr : runs (frame_init HHDM 0 pt_entries) (St pt_mem (Bitmap 0 0)) (fun _ s =>
    room 6 s /\ forall a, in_frame pt_root a -> smem s !! a = pt_mem !! a)).
  { apply (runs_frame_init HHDM 0 _ pt_entries pt_size 4096); [exact pt_map|done|].
    intros s' Hok Hfree Hd _ Ho. split.
    - exists [2; 3; 4; 5; 6; 7]. split; [apply (bool_decide_unpack _); vm_compute; done|]. split; [done|].
      intros i Hi. assert (Hir : 2 <= i <= 7).
      { rewrite !elem_of_cons, elem_of_nil in Hi. lia. }
      assert (Hs : searched s' i) by (unfold searched; rewrite Hd; simpl; change (bitmap_bytes pt_size / 8 * 8) with 8; lia).
      split; [done|]. apply Hfree; [done|]. split; [apply pt_usable; lia|].
      change (bitmap_bytes pt_size) with 9. unfold PAGE_SIZE. lia.
    - intros a Ha. apply Ho. change (bitmap_bytes pt_size) with 9.
      change (phys_to_virt HHDM 4096) with (HHDM + 4096). unfold in_frame, pt_root in Ha. lia. }
  apply runs_inv in Hr as ([] & s & E & Hroom & Hout). exists s.
  assert (Hsrc : pt_source 6 s {[pt_root]}) by (eapply source_init; [exact pt_map|exact pt_ram|exact E|done]).
  split; [done| |].
  - split.
    + apply lookup_singleton_eq.
    + intros p f Hp. apply lookup_singleton_Some in Hp as [<- _]. simpl. lia.
    + intros p i g Hp. apply lookup_singleton_Some in Hp as [Hp _]. by destruct p.
    + intros p q f Hp Hq. apply lookup_singleton_Some in Hp as [<- _]. by apply lookup_singleton_Some in Hq as [<- _].
    + intros p f i Hp _ Hi. apply lookup_singleton_Some in Hp as [<- <-].
      rewrite lookup_singleton_ne by done. rewrite (entry_at_ext pt_mem) by done.
      by apply pt_mem_root.
  - intros p f Hp. apply lookup_singleton_Some in Hp as [_ <-]. by apply elem_of_singleton.
Qed.

(** ** Properties *)

(** C25: [map].  With frames enough for three tables it always returns; afterwards the page of
    [virt_addr] has the new entry, the entries of all other pages are what they were, and the
    tables form a tree again, in frames of their own.  No byte outside the allocator's own, the frames it
    may hand out and the tables has changed. *)
Theorem map_correct (I : nat -> st bitmap -> gset Z -> Prop) (F : FrameSource I) (n : nat)
  (s : st bitmap) (root : Z) (tabs : gmap (list Z) Z) (A : gset Z) (u : bool) (virt phys flags : Z) :
  pt_state I (3 + n) s root tabs A ->
  exists s' tabs' A' k, map HHDM (Page_table root u) virt phys flags s = Some (tt, s') /\
    pt_state I k s' root tabs' A' /\ (n <= k)%nat /\ tabs ⊆ tabs' /\ kept I tabs tabs' (smem s) (smem s') /\
    forall w, pte (smem s') tabs' w =
      if decide (page_of w = page_of virt) then leaf phys flags else pte (smem s) tabs w.
Proof.
  intros Hpt.
  assert (Hr : runs (map HHDM (Page_table root u) virt phys flags) s (fun _ s' => exists tabs' A' k,
    pt_state I k s' root tabs' A' /\ (n <= k)%nat /\ tabs ⊆ tabs' /\ kept I tabs tabs' (smem s) (smem s') /\
    forall w, pte (smem s') tabs' w =
      if decide (page_of w = page_of virt) then leaf phys flags else pte (smem s) tabs w)).
  { eapply runs_map; [exact Hpt|]. intros s' tabs' A' k Hk Hle Ht _ _ Hp Kp. by exists tabs', A', k. }
  apply runs_inv in Hr as ([] & s' & E & tabs' & A' & k & H). by exists s', tabs', A', k.
Qed.

Lemma map_correct_witness :
  exists s s' tabs' A' k, map HHDM (Page_table pt_root false) 4096 8192 3 s = Some (tt, s') /\
    pt_state pt_source k s' pt_root tabs' A'.
Proof.
  destruct pt_demo as [s Hs]. destruct (map_correct pt_source (frame_allocator _ _ _ _ _ _) 3 s pt_root
    {[[] := pt_root]} {[pt_root]} false 4096 8192 3 Hs) as (s' & tabs' & A' & k & E & Hk & _).
  exists s, s', tabs', A', k. exact (conj E Hk).
Defined.

(** C26: mapping and translating.  After [map] of a page to a frame, [translate_addr] of any
    address in the page returns, with nothing changed, the frame. *)
Theorem map_translate (I : nat -> st bitmap -> gset Z -> Prop) (F : FrameSource I) (n : nat)
  (s : st bitmap) (root : Z) (tabs : gmap (list Z) Z) (A : gset Z) (u : bool) (virt phys flags w : Z) :
  pt_state I (3 + n) s root tabs A -> good_frame phys -> page_of w = page_of virt ->
  exists s', map HHDM (Page_table root u) virt phys flags s = Some (tt, s') /\
    translate_addr HHDM (Page_table root u) w s' = Some (phys, s').
Proof.
  intros Hpt Hf Hw.
  assert (Hr : runs (map HHDM (Page_table root u) virt phys flags) s (fun _ s' =>
    runs (translate_addr HHDM (Page_table root u) w) s' (fun r s2 => r = phys /\ s2 = s'))).
  { eapply runs_map; [exact Hpt|]. intros s' tabs' A' k Hk Hle Ht _ Hup Hp _.
    assert (Hup' : upper w = upper virt) by (unfold page_of in Hw; by apply app_inj_tail in Hw as [? _]).
    eapply runs_translate; [done|exact Hk|by rewrite Hup'|]. split; [|done].
    rewrite Hp, decide_True by done. by apply leaf_target. }
  apply runs_inv in Hr as ([] & s' & E & Hr). apply runs_inv in Hr as (r & s2 & E2 & -> & ->).
  by exists s'.
Qed.

Lemma map_translate_witness :
  exists s s', map HHDM (Page_table pt_root false) 4096 8192 3 s = Some (tt, s') /\
    translate_addr HHDM (Page_table pt_root false) 5000 s' = Some (8192, s').
Proof.
  destruct pt_demo as [s Hs]. exists s.
  apply (map_translate pt_source (frame_allocator _ _ _ _ _ _) 3 s pt_root {[[] := pt_root]} {[pt_root]}
    false 4096 8192 3 5000 Hs); [|reflexivity].
  split; [vm_compute; split; congruence|reflexivity].
Defined.

(** C27: [map_range].  With a physical address it maps page [j] of the range to frame [j] behind it;
    with 0 it gives every page a fresh frame, all of them different and none in use before.  Either
    way no page outside the range changes its entry. *)
Theorem map_range_correct (I : nat -> st bitmap -> gset Z -> Prop) (F : FrameSource I)
  (s : st bitmap) (root : Z) (tabs : gmap (list Z) Z) (A : gset Z) (u : bool)
  (virt phys flags : Z) (count : nat) :
  pt_state I (4 * count) s root tabs A -> 0 <= virt -> 0 <= phys ->
  virt + Z.of_nat count * PAGE_SIZE <= two64 -> phys + Z.of_nat count * PAGE_SIZE <= two64 ->
  Z.of_nat count < 2 ^ 36 ->
  exists s' tabs' A' k (fr : Z -> Z),
    map_range HHDM (Page_table root u) virt phys (Z.of_nat count) flags s = Some (tt, s') /\
    pt_state I k s' root tabs' A' /\ tabs ⊆ tabs' /\ kept I tabs tabs' (smem s) (smem s') /\
    range_mapped virt (Z.of_nat count) (fun j => leaf (fr j) flags) (pte (smem s) tabs) (pte (smem s') tabs') /\
    (phys <> 0 -> forall j, fr j = phys + j * PAGE_SIZE) /\
    (phys = 0 -> (forall j, 0 <= j < Z.of_nat count -> good_frame (fr j) /\ (fr j ∉ A)) /\
       forall i j, 0 <= i < Z.of_nat count -> 0 <= j < Z.of_nat count -> fr i = fr j -> i = j).
Proof.
  intros Hpt Hv Hp Hvt Hpt' Hc. destruct (decide (phys = 0)) as [->|Hne].
  - replace (4 * count)%nat with (4 * count + 0)%nat in Hpt by lia.
    assert (Hr : runs (map_range HHDM (Page_table root u) virt 0 (Z.of_nat count) flags) s (fun _ s' =>
      exists tabs' A' k (fr : Z -> Z), pt_state I k s' root tabs' A' /\ tabs ⊆ tabs' /\ kept I tabs tabs' (smem s) (smem s') /\
      range_mapped virt (Z.of_nat count) (fun j => leaf (fr j) flags) (pte (smem s) tabs) (pte (smem s') tabs') /\
      (forall j, 0 <= j < Z.of_nat count -> good_frame (fr j) /\ (fr j ∉ A)) /\
      forall i j, 0 <= i < Z.of_nat count -> 0 <= j < Z.of_nat count -> fr i = fr j -> i = j)).
    { eapply runs_map_range_fresh; [exact Hpt|done..|].
      intros s' tabs' A' fr (k & _ & Hk) Ht Hfr Hinj Hrm Kp. exists tabs', A', k, fr.
      split_ands; try done. intros j Hj. by destruct (Hfr j Hj) as (? & ? & _). }
    apply runs_inv in Hr as ([] & s' & E & tabs' & A' & k & fr & H1 & H2 & H6 & H3 & H4 & H5).
    by exists s', tabs', A', k, fr.
  - replace (4 * count)%nat with (3 * count + count)%nat in Hpt by lia.
    assert (Hr : runs (map_range HHDM (Page_table root u) virt phys (Z.of_nat count) flags) s (fun _ s' =>
      exists tabs' A' k, pt_state I k s' root tabs' A' /\ tabs ⊆ tabs' /\ kept I tabs tabs' (smem s) (smem s') /\
      range_mapped virt (Z.of_nat count) (fun j => leaf (phys + j * PAGE_SIZE) flags)
        (pte (smem s) tabs) (pte (smem s') tabs'))).
    { eapply runs_map_range; [exact Hpt|lia|done..|].
      intros s' tabs' A' (k & _ & Hk) Ht Hrm Kp. by exists tabs', A', k. }
    apply runs_inv in Hr as ([] & s' & E & tabs' & A' & k & H1 & H2 & H4 & H3).
    by exists s', tabs', A', k, (fun j => phys + j * PAGE_SIZE).
Qed.

Lemma map_range_correct_witness :
  exists s s' tabs' A' k,
    map_range HHDM (Page_table pt_root false) 4096 0 (Z.of_nat 1) 3 s = Some (tt, s') /\
    pt_state pt_source k s' pt_root tabs' A'.
Proof.
  destruct pt_demo as [s Hs]. assert (Hs4 : pt_state pt_source (4 * 1) s pt_root {[[] := pt_root]} {[pt_root]}).
  { destruct Hs as [[Hi Hroom Hr Hd] Ht Hu]. split; [|done|done]. split; [done| |done|done].
    eapply room_le; [|exact Hroom]. lia. }
  destruct (map_range_correct pt_source (frame_allocator _ _ _ _ _ _) s pt_root {[[] := pt_root]} {[pt_root]}
    false 4096 0 3 1 Hs4)
    as (s' & tabs' & A' & k & fr & E & Hk & _).
  1, 2: lia.
  1, 2: (unfold two64, PAGE_SIZE; lia).
  - reflexivity.
  - exists s, s', tabs', A', k. exact (conj E Hk).
Defined.

(** C28: [unmap] unmaps too much and frees too little.  On a page whose tables exist it returns;
    afterwards every page of the same 512 GiB has lost its entry, because the entries of the upper
    tables are cleared too; the others keep theirs.  Of the frames only frame 0 changes in the bitmap: it is
    marked free, while the frames of the page and of the tables stay in use. *)
Theorem unmap_drops (size addr : Z) (s : st bitmap) (A : gset Z) (root : Z) (u : bool)
  (tabs : gmap (list Z) Z) (v : Z) :
  holder size addr s A -> tables_ok (smem s) root tabs -> (forall p f, tabs !! p = Some f -> f ∈ A) ->
  is_Some (tabs !! upper v) ->
  exists s', unmap HHDM (Page_table root u) v s = Some (tt, s') /\
    let tabs' := outside (l4_index v) tabs in
    tables_ok (smem s') root tabs' /\
    (forall w, pte (smem s') tabs' w = if decide (l4_index w = l4_index v) then 0 else pte (smem s) tabs w) /\
    (forall i, 0 < i < 8 * bitmap_bytes size ->
       bit_at (smem s') (HHDM + addr) i = bit_at (smem s) (HHDM + addr) i) /\
    bit_at (smem s') (HHDM + addr) 0 = Some true.
Proof.
  intros Hh Ht Hu Hup.
  assert (Hr : runs (unmap HHDM (Page_table root u) v) s (fun _ s' =>
    tables_ok (smem s') root (outside (l4_index v) tabs) /\
    (forall w, pte (smem s') (outside (l4_index v) tabs) w =
       if decide (l4_index w = l4_index v) then 0 else pte (smem s) tabs w) /\
    (forall i, 0 < i < 8 * bitmap_bytes size ->
       bit_at (smem s') (HHDM + addr) i = bit_at (smem s) (HHDM + addr) i) /\
    bit_at (smem s') (HHDM + addr) 0 = Some true)).
  { eapply runs_unmap; [done..|]. intros s' cl [_ _ Hb Hz] Hne Ht' Hp. split_ands; try done. by apply Hz. }
  apply runs_inv in Hr as ([] & s' & E & H). by exists s'.
Qed.

Lemma unmap_drops_witness :
  exists s s', unmap HHDM (Page_table pt_root false) 4096 s = Some (tt, s') /\
    bit_at (smem s') (HHDM + 4096) 0 = Some true.
Proof.
  destruct pt_demo as [s0 Hs0].
  assert (Hr : runs (map HHDM (Page_table pt_root false) 4096 8192 3) s0 (fun _ s => exists k tabs A,
    pt_state pt_source k s pt_root tabs A /\ is_Some (tabs !! upper 4096))).
  { eapply (runs_map pt_source 3); [exact Hs0|]. intros s tabs A k Hk _ _ _ Hup _ _. by exists k, tabs, A. }
  apply runs_inv in Hr as ([] & s & _ & k & tabs & A & [Hsrc Ht Hu] & Hup).
  destruct (unmap_drops pt_size 4096 s A pt_root false tabs 4096) as (s' & E & _ & _ & _ & Hz).
  - by eapply source_holder.
  - exact Ht.
  - exact Hu.
  - exact Hup.
  - exists s, s'. exact (conj E Hz).
Defined.
