(* ===== verification/PageClone.v ===== *)
(** PageClone: copies of an address space ([copy_page_table_recursive] and [clone_page_table] of
    [arch/x86_64/table.cpp]).  The copy has a root table of its own and shares every lower table. *)

From Stdlib Require Import ZArith Lia.
From stdpp Require Import prelude gmap.
From S2P Require Import Prelude Mem Block Klibc PoolRealloc Bitmap Frame FrameThms.
From S2P Require Import PageTable PageTableFacts PageTableTree FrameSource PageTableThms.

(** ** Words copied byte by byte *)

Lemma load_le_copy n m m' a a' :
  (forall k, 0 <= k < Z.of_nat n -> load8 m' (a' + k) = load8 m (a + k)) ->
  load_le n m' a' = load_le n m a.
Proof.
  revert a a'. induction n as [|n IH]; intros a a' H; cbn [load_le]; [done|].
  pose proof (H 0 ltac:(lia)) as H0'. rewrite !Z.add_0_r in H0'. rewrite H0', (IH (a + 1)); [done|].
  intros k Hk. pose proof (H (1 + k) ltac:(lia)) as E. by rewrite !Z.add_assoc in E.
Qed.

(** Two places that hold the same bytes hold the same words. *)
Lemma load64_same m m' a a' l k :
  holds m a l -> holds m' a' l -> 0 <= k -> k + 8 <= Z.of_nat (length l) ->
  load64 m' (a' + k) = load64 m (a + k).
Proof.
  intros H1 H2 Hk Hl. apply load_le_copy. intros j Hj.
  destruct (lookup_lt_is_Some_2 l (Z.to_nat (k + j))) as [v Hv]; [lia|].
  pose proof (H1 _ _ Hv) as E1. pose proof (H2 _ _ Hv) as E2. rewrite Z2Nat.id in E1, E2 by lia.
  by rewrite <- !Z.add_assoc, E1, E2.
Qed.

(** ** The root table *)

(** What the copying loop stores for an entry of the lower half; the upper half is copied. *)
Definition cloned_entry (i e : Z) : Z := if (i <? 256) && (e =? 0) then 2 ^ 47 else e.

Section Clone.
Context (I : nat -> st bitmap -> gset Z -> Prop) `{!FrameSource I}.

(** A block of 16 bytes apart from the allocator's bytes and from all frames. *)
Record apart_block (A : gset Z) (m : mem) (p : Z) : Prop := {
  ab_range : 0 <= p /\ p + 16 <= two64;
  ab_mapped : mapped m p (p + 16);
  ab_quiet : forall a, p <= a < p + 16 ->
    ~ fs_own a /\ (forall g, fs_ram g -> ~ in_frame g a) /\ (forall g, g ∈ A -> ~ in_frame g a)
}.

Lemma block_load m m' p k :
  0 <= k <= 8 -> (forall a, p <= a < p + 16 -> m' !! a = m !! a) -> load64 m' (p + k) = load64 m (p + k).
Proof. intros Hk H. apply load_le_ext. intros b Hb. apply H. lia. Qed.

Lemma entry_total m f i :
  mapped m (HHDM + f) (HHDM + f + 4096) -> 0 <= i < 512 ->
  exists e, entry_at m f i = Some e /\ 0 <= e < two64.
Proof.
  intros Hm Hi. destruct (load64_Some m (HHDM + f + 8 * i)) as [e He].
  - eapply mapped_sub; [exact Hm|lia..].
  - exists e. split; [done|by eapply load64_range].
Qed.

(** One turn of the copying loop of the root, and the call of it. *)
Definition copy_entry (source new_table i : Z) : BM unit :=
  value <- ld (entry source i) ;;
  if negb (value =? 0) then sto (entry new_table i) value
  else
    new_page_table <- copy_page_table_recursive HHDM 3 (value &! COPY_MASK) false (256 <=? i) ;;
    sto (entry new_table i) (virt_to_phys HHDM new_page_table |! (value &! COPY_FLAGS)).

Lemma copy_root_loop root :
  root <> NULL ->
  copy_page_table_recursive HHDM 4 root false false =
    (f <- alloc_frames 1 ;;
     forM 0 256 (copy_entry (phys_to_virt HHDM root) (phys_to_virt HHDM f)) ;;
     ret (phys_to_virt HHDM f)).
Proof. intros Hne%Z.eqb_neq. cbn [copy_page_table_recursive]. rewrite Hne. reflexivity. Qed.

Lemma runs_copy_entry (s : st bitmap) root f i e Q :
  good_frame root -> good_frame f -> mapped (smem s) (HHDM + f) (HHDM + f + 4096) -> 0 <= i < 256 ->
  entry_at (smem s) root i = Some e -> 0 <= e < two64 ->
  (forall m', only_frame f (smem s) m' ->
     (forall j, 0 <= j < 512 ->
        entry_at m' f j = if decide (j = i) then Some (cloned_entry i e) else entry_at (smem s) f j) ->
     Q tt (with_mem m' s)) ->
  runs (copy_entry (HHDM + root) (HHDM + f) i) s Q.
Proof.
  intros Hr Hf Hm Hi He Hb HQ. unfold copy_entry.
  apply runs_bind, runs_ld_entry with e; [done|lia|done|].
  assert (Hc : cloned_entry i e = if e =? 0 then 2 ^ 47 else e).
  { unfold cloned_entry. by rewrite (proj2 (Z.ltb_lt i 256)) by lia. }
  rewrite Hc in HQ. destruct (Z.eqb_spec e 0) as [->|Hne]; cbn [negb].
  - change (copy_page_table_recursive HHDM 3 (0 &! COPY_MASK) false (256 <=? i)) with (@ret (st bitmap) Z NULL).
    apply runs_bind, runs_ret.
    change (virt_to_phys HHDM NULL |! (0 &! COPY_FLAGS)) with (2 ^ 47).
    apply runs_sto_entry; [done|done|lia|]. intros m' Ho Hj. by apply HQ.
  - apply runs_sto_entry; [done|done|lia|]. intros m' Ho Hj. rewrite u64_small in Hj by done. by apply HQ.
Qed.

(** The copy of the lower half: one fresh frame. *)
Lemma runs_copy_root n s A root Q :
  I (S n) s A -> root ∈ A ->
  (forall f s', good_frame f -> f ∉ A -> fs_ram f -> I n s' (A ∪ {[f]}) ->
     (forall a, ~ fs_own a -> ~ in_frame f a -> smem s' !! a = smem s !! a) ->
     (forall g a, g ∈ A -> in_frame g a -> smem s' !! a = smem s !! a) ->
     (forall i e, 0 <= i < 256 -> entry_at (smem s) root i = Some e ->
        entry_at (smem s') f i = Some (cloned_entry i e)) -> Q (HHDM + f) s') ->
  runs (copy_page_table_recursive HHDM 4 root false false) s Q.
Proof.
  intros HI HrA HQ. destruct (fs_frame _ _ _ _ HI HrA) as [Hgr Hmr]. pose proof Hgr as [Hr0 _].
  rewrite copy_root_loop, (phys_to_virt_frame root) by (done || unfold NULL; lia).
  apply runs_bind, (fs_alloc n s A); [done|]. intros f s1 Hgf HfA Hram HI1 Hsame Hown.
  assert (Hrf : root <> f) by (intros ->; done).
  assert (HfA1 : f ∈ A ∪ {[f]}) by set_solver. destruct (fs_frame _ _ _ _ HI1 HfA1) as [_ Hmf].
  rewrite (phys_to_virt_frame f) by done. apply runs_bind.
  assert (Hroot1 : forall i, 0 <= i < 512 -> entry_at (smem s1) root i = entry_at (smem s) root i).
  { intros i Hi. apply entry_at_ext; [|done]. intros a. by apply Hsame. }
  apply (runs_forM (fun i s' => exists m', s' = with_mem m' s1 /\ only_frame f (smem s1) m' /\
    forall j e, 0 <= j < i -> entry_at (smem s) root j = Some e -> entry_at m' f j = Some (cloned_entry j e)));
    [lia| | |].
  - exists (smem s1). split_ands; [by destruct s1|apply only_frame_refl|lia].
  - intros i s' Hi (m' & -> & Ho & Hcopied). cbn in Hi.
    destruct (entry_total (smem s) root i Hmr ltac:(lia)) as (e & He & Hb).
    apply (runs_copy_entry _ root f i e); [done|done|by apply Ho|lia| |done|].
    { simpl. rewrite (entry_at_other (smem s1) m' f root i Ho) by (done || lia). rewrite Hroot1 by lia. done. }
    intros m2 Ho2 Hj2. exists m2. split_ands; [done|by eapply only_frame_trans|].
    intros j ej Hj Hej. rewrite Hj2 by lia. case_decide as Hji; [|apply Hcopied; [lia|done]].
    subst j. by simplify_eq.
  - intros s' (m' & -> & Ho & Hcopied). apply runs_ret, HQ; try done.
    + by apply (fs_write n s1 _ f m').
    + intros a Ha Hnf. simpl. rewrite (of_out _ _ _ Ho) by done. by apply Hown.
    + intros g a Hg Ha. simpl. rewrite (of_out _ _ _ Ho); [by apply (Hsame g)|]. intros Hin.
      destruct (fs_frame _ _ _ _ HI Hg) as [Hgg _]. by rewrite (good_frames_apart g f a Hgg Hgf Ha Hin) in Hg.
Qed.

(** The copy of the upper half: [memcpy] of half a page. *)
Lemma runs_copy_upper (s : st bitmap) root f Q :
  good_frame root -> good_frame f -> root <> f ->
  mapped (smem s) (HHDM + root) (HHDM + root + 4096) -> mapped (smem s) (HHDM + f) (HHDM + f + 4096) ->
  (forall m', only_frame f (smem s) m' ->
     (forall i, 0 <= i < 256 -> entry_at m' f i = entry_at (smem s) f i) ->
     (forall i, 256 <= i < 512 -> entry_at m' f i = entry_at (smem s) root i) -> Q (with_mem m' s)) ->
  runs (memcpy (HHDM + f + 2048) (HHDM + root + 2048) (PAGE_SIZE / 2)) s (fun _ => Q).
Proof.
  intros Hgr Hgf Hne Hmr Hmf HQ. pose proof (good_frame_top _ Hgr) as Htr. pose proof (good_frame_top _ Hgf) as Htf.
  destruct (bytes_exist (smem s) (HHDM + root + 2048) 2048) as (l & Hl & Hh).
  { eapply mapped_sub; [exact Hmr|lia..]. }
  assert (Hd : root + 4096 <= f \/ f + 4096 <= root).
  { destruct Hgr as [_ Hr], Hgf as [_ Hf]. Z.div_mod_to_equations; lia. }
  pose proof Hgr as [? _]. pose proof Hgf as [? _].
  apply (runs_memcpy s _ _ l); [split; rewrite ?Hl; unfold HHDM in *; try lia; [done|]|by rewrite Hl|change (PAGE_SIZE / 2) with 2048; lia|].
  { eapply mapped_sub; [exact Hmf|lia..]. }
  intros m' (Hw & Ho & Hm). rewrite Hl in Ho. apply HQ.
  - split; [|done]. intros a Ha. apply Ho. unfold in_frame in Ha. lia.
  - intros i Hi. apply load_le_ext. intros b Hb. apply Ho. lia.
  - intros i Hi. unfold entry_at.
    replace (HHDM + f + 8 * i) with (HHDM + f + 2048 + 8 * (i - 256)) by lia.
    replace (HHDM + root + 8 * i) with (HHDM + root + 2048 + 8 * (i - 256)) by lia.
    apply (load64_same _ _ _ _ l); [done|done|lia|rewrite Hl; lia].
Qed.

(** Writing inside a block apart from the frames. *)
Definition only_block (p : Z) (m m' : mem) : Prop :=
  (forall a, ~ (p <= a < p + 16) -> m' !! a = m !! a) /\ (forall lo hi, mapped m lo hi -> mapped m' lo hi).

Lemma only_block_trans p m1 m2 m3 : only_block p m1 m2 -> only_block p m2 m3 -> only_block p m1 m3.
Proof. intros [H1 M1] [H2 M2]. split; [|by auto]. intros a Ha. by rewrite H2, H1. Qed.

Lemma only_block_store p m m' k v :
  0 <= k <= 8 -> store64 m (p + k) v = Some m' -> only_block p m m'.
Proof.
  intros Hk E. split; [|intros lo hi; by apply (mapped_store64 _ _ _ _ _ _ E)].
  intros a Ha. apply (store64_lookup _ _ _ _ _ E). lia.
Qed.

Lemma apart_source A n s p m' : apart_block A (smem s) p -> I n s A -> only_block p (smem s) m' -> I n (with_mem m' s) A.
Proof.
  intros [_ _ Hq] HI [Ho Hm]. apply (fs_else n s A m'); [done| |done]. intros a Ha. apply Ho.
  intros Hin. by destruct (Hq a Hin).
Qed.

Lemma apart_entry A m m' p f i :
  apart_block A m p -> fs_ram f \/ f ∈ A -> only_block p m m' -> 0 <= i < 512 -> entry_at m' f i = entry_at m f i.
Proof.
  intros [_ _ Hq] Hf [Ho _] Hi. apply entry_at_ext; [|done]. intros a Ha. apply Ho. intros Hin.
  destruct (Hq a Hin) as (_ & Hr & Hu). destruct Hf; [by apply (Hr f)|by apply (Hu f)].
Qed.

Lemma apart_block_mono A m m' p :
  apart_block A m p -> (forall lo hi, mapped m lo hi -> mapped m' lo hi) -> apart_block A m' p.
Proof. intros [Hr Hm Hq] K. split; [done|by apply K|done]. Qed.

(** The end of [clone_page_table], after the lower half has been copied to frame [f]. *)
Definition clone_finish (mm old new_table : Z) : BM Z :=
  sto (page_table_phys_of mm) (virt_to_phys HHDM new_table) ;;
  new_phys <- ld (page_table_phys_of mm) ;;
  old_phys <- ld (page_table_phys_of old) ;;
  memcpy (phys_to_virt HHDM new_phys +! 256 * 8) (phys_to_virt HHDM old_phys +! 256 * 8) (PAGE_SIZE / 2) ;;
  ref_count <- ld (ref_count_of mm) ;;
  sto (ref_count_of mm) (ref_count +! 1) ;;
  ret mm.

Lemma half_of_table g : good_frame g -> phys_to_virt HHDM g +! 256 * 8 = HHDM + g + 2048.
Proof.
  intros Hg. pose proof (good_frame_top g Hg). rewrite phys_to_virt_frame by done. destruct Hg as [? _].
  apply u64_small. unfold HHDM in *. lia.
Qed.

Lemma runs_clone_finish n s A root f mm old Q :
  I n s A -> root ∈ A -> f ∈ A -> root <> f -> fs_ram f ->
  apart_block A (smem s) mm -> mm + 16 <= old \/ old + 16 <= mm ->
  load64 (smem s) old = Some root -> load64 (smem s) (mm + 8) = Some 0 ->
  (forall s', I n s' A -> load64 (smem s') mm = Some f -> load64 (smem s') (mm + 8) = Some 1 ->
     (forall i, 0 <= i < 512 ->
        entry_at (smem s') f i = entry_at (smem s) (if i <? 256 then f else root) i) ->
     (forall a, ~ in_frame f a -> ~ (mm <= a < mm + 16) -> smem s' !! a = smem s !! a) -> Q mm s') ->
  runs (clone_finish mm old (HHDM + f)) s Q.
Proof.
  intros HI HrA HfA Hrf Hram B Hdis Hold Hzero HQ. pose proof B as [Rm Mm Qm].
  destruct (fs_frame _ _ _ _ HI HrA) as [Hgr Mr]. destruct (fs_frame _ _ _ _ HI HfA) as [Hgf Mf].
  assert (Hfw : 0 <= f < two64) by (destruct Hgf as [? _]; unfold two64; lia).
  unfold clone_finish, page_table_phys_of, ref_count_of.
  assert (virt_to_phys HHDM (HHDM + f) = f) as ->.
  { unfold virt_to_phys, sub64. rewrite u64_small; lia. }
  apply runs_bind, runs_sto; [eapply mapped_sub; [exact Mm|lia..]|]. intros m3 S3.
  assert (B3 : only_block mm (smem s) m3) by (apply (only_block_store mm _ _ 0 f); [lia|by rewrite Z.add_0_r]).
  eapply runs_bind, runs_ld; [by apply (load64_store64_eq _ _ _ _ S3)|]. rewrite (u64_small f) by done.
  eapply runs_bind, runs_ld.
  { simpl. rewrite (load64_store64_ne _ _ _ _ _ S3) by lia. exact Hold. }
  rewrite !half_of_table by done. apply runs_bind, runs_copy_upper; [done|done|done|by apply B3|by apply B3|].
  intros m4 O4 L4 U4. simpl in O4, L4, U4.
  assert (Hb4 : forall a, mm <= a < mm + 16 -> m4 !! a = m3 !! a).
  { intros a Ha. apply O4. destruct (Qm a Ha) as (_ & Hr & _). by apply Hr. }
  assert (B8 : mm +! 8 = mm + 8) by (apply u64_small; lia). rewrite B8.
  eapply runs_bind, runs_ld.
  { simpl. rewrite (block_load m3 m4 mm 8), (load64_store64_ne _ _ _ _ _ S3) by (done || lia). exact Hzero. }
  apply runs_bind, runs_sto; [eapply mapped_sub; [apply O4, B3, Mm|lia..]|]. intros m5 S5. simpl in S5. apply runs_ret.
  assert (B5 : only_block mm m4 m5) by (by apply (only_block_store mm _ _ 8 (0 +! 1)); [lia|]).
  assert (Bm4 : apart_block A m4 mm).
  { eapply apart_block_mono; [exact B|]. intros lo hi Hm. by apply O4, B3. }
  apply HQ.
  - apply (apart_source A n (with_mem m4 s) mm m5); [done| |done].
    apply (fs_write n (with_mem m3 s) A f m4); [|done|done]. by apply (apart_source A n s mm m3).
  - simpl. rewrite (load64_store64_ne _ _ _ _ _ S5) by lia.
    rewrite <- (Z.add_0_r mm), (block_load m3 m4 mm 0), Z.add_0_r by (done || lia).
    rewrite (load64_store64_eq _ _ _ _ S3). by rewrite u64_small.
  - by apply (load64_store64_eq _ _ _ _ S5).
  - intros i Hi. simpl. rewrite (apart_entry A m4 m5 mm) by auto. destruct (Z.ltb_spec i 256).
    + rewrite L4 by lia. apply (apart_entry A _ _ mm); auto.
    + rewrite U4 by lia. apply (apart_entry A _ _ mm); auto.
  - intros a Hnf Hnm. simpl. by rewrite (proj1 B5), (of_out _ _ _ O4), (proj1 B3).
Qed.

Lemma runs_clone n s A root mm old flags Q :
  has_flag flags 256 = false -> I (S n) s A -> root ∈ A ->
  apart_block A (smem s) mm -> apart_block A (smem s) old -> mm + 16 <= old \/ old + 16 <= mm ->
  load64 (smem s) old = Some root ->
  (forall f s', good_frame f -> f ∉ A -> I n s' (A ∪ {[f]}) ->
     load64 (smem s') mm = Some f -> load64 (smem s') (mm + 8) = Some 1 ->
     (forall i e, 0 <= i < 512 -> entry_at (smem s) root i = Some e ->
        entry_at (smem s') f i = Some (cloned_entry i e)) ->
     (forall g a, g ∈ A -> in_frame g a -> smem s' !! a = smem s !! a) ->
     (forall a, ~ fs_own a -> ~ in_frame f a -> ~ (mm <= a < mm + 16) -> smem s' !! a = smem s !! a) -> Q mm s') ->
  runs (clone_page_table HHDM (fun _ => ret mm) old flags) s Q.
Proof.
  intros Hfl HI HrA Bm Bo Hdis Hold HQ. pose proof Bm as [Rm Mm Qm]. pose proof Bo as [Ro Mo Qo].
  unfold clone_page_table, page_table_phys_of, ref_count_of. rewrite Hfl.
  apply runs_bind, runs_ret. apply runs_bind, runs_memset; [lia|lia|lia|done|].
  intros m1 (W1 & O1 & K1). rewrite length_replicate in O1. change (Z.of_nat (Z.to_nat 16)) with 16 in O1.
  assert (B1 : only_block mm (smem s) m1) by done.
  assert (Hz : load64 m1 (mm + 8) = Some 0).
  { change (Z.to_nat 16) with (8 + 8)%nat in W1. rewrite replicate_add, holds_app, length_replicate in W1.
    apply (load_le_zeros 8), W1. }
  eapply runs_bind, runs_ld.
  { simpl. unfold load64. rewrite (load_le_ext _ (smem s)) by (intros b Hb; apply O1; lia). exact Hold. }
  assert (HI1 : I (S n) (with_mem m1 s) A) by exact (apart_source A _ s mm m1 Bm HI B1).
  destruct (fs_frame _ _ _ _ HI HrA) as [Hgr _].
  assert (E1 : forall i, 0 <= i < 512 -> entry_at m1 root i = entry_at (smem s) root i).
  { intros i Hi. apply (apart_entry A _ _ mm); [done|by right|done|done]. }
  apply runs_bind, (runs_copy_root n _ A); [done|done|].
  intros f s2 Hgf HfA Hram HI2 Hown2 HA2 Hcl2.
  assert (Hin2 : forall g, g ∈ A -> g ∈ A ∪ {[f]}) by set_solver.
  assert (Hf2 : f ∈ A ∪ {[f]}) by set_solver.
  assert (Hquiet : forall p a, apart_block A (smem s) p -> p <= a < p + 16 -> smem s2 !! a = m1 !! a).
  { intros p a [_ _ Hq] Ha. destruct (Hq a Ha) as (Hno & Hr & _). apply Hown2; [done|by apply Hr]. }
  assert (Bm2 : apart_block (A ∪ {[f]}) (smem s2) mm).
  { split; [done| |].
    - intros a Ha. rewrite (Hquiet mm a Bm Ha). by apply (K1 _ _ Mm).
    - intros a Ha. destruct (Qm a Ha) as (H1 & H2 & H3). split_ands; [done|done|].
      intros g [Hg| ->%elem_of_singleton]%elem_of_union; [by apply H3|by apply H2]. }
  change (runs (clone_finish mm old (HHDM + f)) s2 Q).
  apply (runs_clone_finish n s2 (A ∪ {[f]}) root f); try done; [by apply Hin2|by intros ->| | |].
  { rewrite <- (Z.add_0_r old), (block_load (smem s)), Z.add_0_r; [exact Hold|lia|].
    intros a Ha. rewrite (Hquiet old a Bo Ha). apply O1. lia. }
  { rewrite (block_load m1); [exact Hz|lia|]. intros a Ha. by apply (Hquiet mm). }
  intros s' HI' Lm Lc He Hout. apply (HQ f); try done.
  - intros i e Hi Hie. rewrite He by done. unfold cloned_entry. destruct (Z.ltb_spec i 256); cbn [andb].
    + rewrite (Hcl2 i e); [|lia|by simpl; rewrite E1]. unfold cloned_entry.
      by rewrite (proj2 (Z.ltb_lt i 256)) by lia.
    + rewrite <- Hie, <- E1 by done. apply entry_at_ext; [|done]. intros a. by apply HA2.
  - intros g a Hg Ha. destruct (fs_frame _ _ _ _ HI Hg) as [Hgg _].
    assert (Hnm : ~ (mm <= a < mm + 16)). { intros Hm. destruct (Qm a Hm) as (_ & _ & Hu). by apply (Hu g). }
    rewrite Hout; [by rewrite (HA2 g a Hg Ha); apply O1| |done].
    intros Hf. by rewrite (good_frames_apart g f a Hgg Hgf Ha Hf) in Hg.
  - intros a Ho Hnf Hnm. rewrite Hout, Hown2 by done. by apply O1.
Qed.
End Clone.

(** [page_table_create] on the copy of an empty entry takes frame 0 for a table that exists. *)
Lemma create_on_clone (s : st bitmap) f i :
  good_frame f -> 0 <= i < 512 -> entry_at (smem s) f i = Some (2 ^ 47) ->
  page_table_create HHDM (entry (HHDM + f) i) s = Some (phys_to_virt HHDM 0, s).
Proof.
  intros Hf Hi He. assert (Hr : runs (page_table_create HHDM (entry (HHDM + f) i)) s (fun t s' =>
    t = phys_to_virt HHDM 0 /\ s' = s)).
  { apply runs_bind, runs_ld_entry with (2 ^ 47); [done..|]. by apply runs_ret. }
  by apply runs_inv in Hr as (t & s' & E & -> & ->).
Qed.

(** C21: a copy of an address space.  With one frame to be had, [clone_page_table] returns the new
    block; the copy has a root table in a fresh frame and a reference count of 1.  Its entries are
    those of the source, so that the two address spaces share every lower table and whatever is
    mapped below them later; the entries that are 0 in the lower half become [2 ^ 47], and the next
    [map] through one of them takes frame 0 for the table below.  The source's frames and all bytes
    but the allocator's, the new frame's and the block's are what they were. *)
Theorem clone_shares_tables (I : nat -> st bitmap -> gset Z -> Prop) (F : FrameSource I) (n : nat)
  (s : st bitmap) (A : gset Z) (root mm old flags : Z) :
  has_flag flags 256 = false -> I (S n) s A -> root ∈ A ->
  apart_block I A (smem s) mm -> apart_block I A (smem s) old -> mm + 16 <= old \/ old + 16 <= mm ->
  load64 (smem s) old = Some root ->
  exists f s', clone_page_table HHDM (fun _ => ret mm) old flags s = Some (mm, s') /\
    good_frame f /\ f ∉ A /\ I n s' (A ∪ {[f]}) /\
    load64 (smem s') mm = Some f /\ load64 (smem s') (mm + 8) = Some 1 /\
    (forall i e, 0 <= i < 512 -> entry_at (smem s) root i = Some e ->
       entry_at (smem s') f i = Some (cloned_entry i e) /\
       (i < 256 -> e = 0 -> page_table_create HHDM (entry (HHDM + f) i) s' = Some (phys_to_virt HHDM 0, s'))) /\
    (forall g a, g ∈ A -> in_frame g a -> smem s' !! a = smem s !! a) /\
    (forall a, ~ fs_own a -> ~ in_frame f a -> ~ (mm <= a < mm + 16) -> smem s' !! a = smem s !! a).
Proof.
  intros Hfl HI HrA Bm Bo Hd Hold.
  pose proof (runs_clone I n s A root mm old flags (fun r s' => r = mm /\ exists f,
    good_frame f /\ f ∉ A /\ I n s' (A ∪ {[f]}) /\
    load64 (smem s') mm = Some f /\ load64 (smem s') (mm + 8) = Some 1 /\
    (forall i e, 0 <= i < 512 -> entry_at (smem s) root i = Some e ->
       entry_at (smem s') f i = Some (cloned_entry i e)) /\
    (forall g a, g ∈ A -> in_frame g a -> smem s' !! a = smem s !! a) /\
    (forall a, ~ fs_own a -> ~ in_frame f a -> ~ (mm <= a < mm + 16) -> smem s' !! a = smem s !! a))
    Hfl HI HrA Bm Bo Hd Hold) as Hr.
  apply runs_inv in Hr as (r & s' & E & -> & f & Hgf & HfA & HI' & Lm & Lc & He & Hu & Ho);
    [|intros f s' Hgf HfA HI' Lm Lc He Hu Ho; split; [done|]; by exists f].
  exists f, s'. do 6 (split; [done|]). split; [|done]. intros i e Hi Hie. split; [by apply He|].
  intros Hlow ->. apply create_on_clone; [done|done|]. rewrite (He i 0) by done. unfold cloned_entry.
  by rewrite (proj2 (Z.ltb_lt i 256)).
Qed.

(** The address space of [pt_demo], held by a block at 65536 with one user, and room for another block
    behind it. *)
Lemma low_quiet n s A a :
  pt_source n s A -> 0 <= a < HHDM ->
  ~ fs_own (I := pt_source) a /\ (forall g, fs_ram (I := pt_source) g -> ~ in_frame g a) /\
  (forall g, g ∈ A -> ~ in_frame g a).
Proof.
  intros Hs Ha. split_ands.
  - unfold fs_own, frame_allocator, bitmap_byte. lia.
  - intros g (i & Hi%pt_usable & ->). unfold in_frame, PAGE_SIZE. lia.
  - intros g Hg. destruct (fs_frame _ _ _ _ Hs Hg) as [[Hr _] _]. unfold in_frame. lia.
Qed.
Lemma low_apart n s A p :
  pt_source n s A -> 0 <= p -> p + 16 <= HHDM -> mapped (smem s) p (p + 16) ->
  apart_block pt_source A (smem s) p.
Proof.
  intros Hs Hp Hhi Hm. split; [unfold HHDM, two64 in *; lia|done|]. intros a Ha. apply (low_quiet n s); [done|lia].
Qed.

Lemma clone_demo : exists s, pt_state pt_source 6 s pt_root {[[] := pt_root]} {[pt_root]} /\
  mapped (smem s) 65536 65568 /\ load64 (smem s) 65536 = Some pt_root /\ load64 (smem s) 65544 = Some 1.
Proof.
  destruct pt_demo as [s0 [Hs0 Ht0 Hu0]]. set (m1 := fill 65536 32 0 (smem s0)).
  assert (Hm1 : mapped m1 65536 65568) by apply (fill_mapped 65536 32 0).
  destruct (store64_Some m1 65536 pt_root) as [m2 E2]; [eapply mapped_sub; [exact Hm1|lia..]|].
  assert (K2 : forall lo hi, mapped m1 lo hi -> mapped m2 lo hi) by (intros lo hi; by apply (mapped_store64 _ _ _ _ _ _ E2)).
  destruct (store64_Some m2 65544 1) as [m3 E3]; [eapply mapped_sub; [by apply K2|lia..]|].
  assert (K3 : forall lo hi, mapped m2 lo hi -> mapped m3 lo hi) by (intros lo hi; by apply (mapped_store64 _ _ _ _ _ _ E3)).
  assert (Hout : forall a, ~ (65536 <= a < 65568) -> m3 !! a = smem s0 !! a).
  { intros a Ha. rewrite (store64_lookup _ _ _ _ _ E3), (store64_lookup _ _ _ _ _ E2) by lia. unfold m1.
    by rewrite fill_lookup, decide_False by (simpl; lia). }
  exists (with_mem m3 s0). split_ands.
  - split; [| |done].
    + apply (fs_else 6 s0 _ m3 Hs0).
      * intros a Ha. apply Hout. unfold fs_own, frame_allocator, bitmap_byte, HHDM in Ha. lia.
      * intros lo hi Hm. apply K3, K2. intros b Hb. unfold m1. rewrite fill_lookup. case_decide; [by eexists|]. by apply Hm.
    + apply (tables_ok_ext (smem s0)); [done|]. intros p g i Hg Hi. apply entry_at_ext; [|done].
      intros a Ha. apply Hout. pose proof (Hu0 _ _ Hg) as Hin. apply elem_of_singleton in Hin as ->.
      unfold in_frame, HHDM, pt_root in Ha. lia.
  - by apply K3, K2.
  - change (load64 m3 65536 = Some pt_root). rewrite (load64_store64_ne _ _ _ _ _ E3) by lia.
    by rewrite (load64_store64_eq _ _ _ _ E2).
  - change (load64 m3 65544 = Some 1). by rewrite (load64_store64_eq _ _ _ _ E3).
Qed.

Lemma clone_shares_tables_witness :
  exists s f s', clone_page_table HHDM (fun _ => ret 65552) 65536 0 s = Some (65552, s') /\
    load64 (smem s') 65552 = Some f /\ pt_source 5 s' ({[pt_root]} ∪ {[f]}).
Proof.
  destruct clone_demo as (s & [Hs _ _] & Hm & Hl & _).
  assert (B : forall p, 65536 <= p -> p + 16 <= 65568 -> apart_block pt_source {[pt_root]} (smem s) p).
  { intros p H1 H2. apply (low_apart 6); [exact Hs|lia|unfold HHDM; lia|eapply mapped_sub; [exact Hm|lia..]]. }
  destruct (clone_shares_tables pt_source (frame_allocator _ _ _ _ _ _) 5 s {[pt_root]} pt_root 65552 65536 0)
    as (f & s' & E & _ & _ & Hs' & Lf & _).
  - reflexivity.
  - exact Hs.
  - by apply elem_of_singleton.
  - apply B; lia.
  - apply B; lia.
  - right. lia.
  - exact Hl.
  - exists s, f, s'. exact (conj E (conj Lf Hs')).
Defined.
