(* ===== verification/PageFree.v ===== *)
(** PageFree: the release of an address space ([free_page_table_recursive] and [free_page_table] of
    [arch/x86_64/table.cpp]): it ends, and it frees the frames that the entries lead to, whoever else
    uses them. *)

From Stdlib Require Import ZArith Lia.
From stdpp Require Import prelude gmap.
From S2P Require Import Prelude Mem Block Klibc PoolRealloc Bitmap Frame FrameThms.
From S2P Require Import PageTable PageTableFacts PageTableTree FrameSource Unmap PageTableThms PageClone.

(** A word that is there has all its bytes. *)
Lemma load_le_mapped k m a v : load_le k m a = Some v -> mapped m a (a + Z.of_nat k).
Proof.
  revert a v. induction k as [|k IH]; intros a v; cbn [load_le]; [intros _ b Hb; lia|].
  destruct (load8 m a) eqn:E1; [|done]. destruct (load_le k m (a + 1)) eqn:E2; [|done]. intros _ b Hb.
  destruct (decide (b = a)) as [->|]; [|apply (IH _ _ E2); lia].
  unfold load8 in E1. destruct (m !! a); [by eexists|done].
Qed.
Lemma load64_mapped m a v : load64 m a = Some v -> mapped m a (a + 8).
Proof. apply (load_le_mapped 8). Qed.

(** ** The frames of a tree *)

(** The entries that a table of [level] is searched for. *)
Definition table_width (level : nat) : Z := if (level =? 4)%nat then 256 else 512.

(** The frames below [f], in the order in which they are freed. *)
Fixpoint reached (m : mem) (level : nat) (f : Z) : list Z :=
  if f =? 0 then []
  else
    match level with
    | O => [f]
    | S level' =>
        flat_map (fun i => match entry_at m f i with
                           | Some e => reached m level' (e &! COPY_MASK)
                           | None => []
                           end) (seqZ 0 (table_width level)) ++ [f]
    end.

Section Free.
(** The bitmap: [bitmap_bytes size] bytes at physical address [addr]. *)
Context (size addr : Z).
Abbreviation n := (bitmap_bytes size).

(** The tables below [f] are in memory, away from the bitmap. *)
Fixpoint freeable (m : mem) (level : nat) (f : Z) : Prop :=
  f = 0 \/ good_frame f /\
    match level with
    | O => True
    | S level' =>
        mapped m (HHDM + f) (HHDM + f + 4096) /\ off_bitmap size addr f /\
        forall i e, 0 <= i < table_width level -> entry_at m f i = Some e -> freeable m level' (e &! COPY_MASK)
    end.

Lemma table_width_range level : 0 <= table_width level <= 512.
Proof. unfold table_width. destruct (level =? 4)%nat; lia. Qed.

(** The two do not depend on the bitmap. *)
Definition same_tables (m m' : mem) : Prop :=
  (forall a, ~ (HHDM + addr <= a < HHDM + addr + n) -> m' !! a = m !! a) /\
  (forall lo hi, mapped m lo hi -> mapped m' lo hi).

Lemma same_tables_entry m m' f i :
  same_tables m m' -> off_bitmap size addr f -> 0 <= i < 512 -> entry_at m' f i = entry_at m f i.
Proof.
  intros [Ho _] Hf Hi. apply entry_at_ext; [|done]. intros a Ha. apply Ho. by eapply in_frame_off.
Qed.

Lemma flat_map_same {A B} (g h : A -> list B) l : (forall x, x ∈ l -> g x = h x) -> flat_map g l = flat_map h l.
Proof.
  induction l as [|x l IH]; intros H; [done|]. simpl. rewrite H by left. f_equal. apply IH.
  intros y Hy. apply H. by right.
Qed.

Lemma reached_same m m' level f :
  same_tables m m' -> freeable m level f -> freeable m' level f /\ reached m' level f = reached m level f.
Proof.
  intros Hs. revert f. induction level as [|level IH]; intros f; cbn [freeable reached]; [done|].
  intros [->|(Hg & Hm & Hoff & Hc)]; [by split; [left|]|]. pose proof (table_width_range (S level)) as Hw.
  split.
  - right. split; [done|]. split; [by apply Hs|]. split; [done|]. intros i e Hi He.
    rewrite (same_tables_entry m) in He by (done || lia). by apply IH, (Hc i).
  - destruct (f =? 0); [done|]. f_equal. apply flat_map_same. intros i Hi%elem_of_seqZ.
    rewrite (same_tables_entry m) by (done || lia). destruct (entry_at m f i) as [e|] eqn:E; [|done].
    apply IH, (Hc i); [lia|done].
Qed.

(** [COPY_MASK] cuts a frame out of an entry. *)
Lemma copy_mask_frame_bits e : 0 <= e < two64 -> e &! COPY_MASK = frame_bits HHDM e.
Proof.
  intros He. apply Z.bits_inj'. intros i Hi. rewrite frame_bits_spec, Z.land_spec by done.
  change COPY_MASK with (Z.ldiff (2 ^ 47 - 1) (2 ^ 12 - 1)).
  rewrite Z.ldiff_spec, !testbit_low_mask, Z.leb_antisym by lia.
  by destruct (Z.testbit e i), (i <? 47), (i <? 12).
Qed.

(** ** Freeing *)

(** One frame: beyond what the searches look at nothing happens. *)
Lemma runs_free_any s f Q :
  frames_ok s n -> good_frame f ->
  (forall m', bits_set (smem s) m' (bm_data (smgr s)) n (fun j => j * PAGE_SIZE = f /\ j < bm_size (smgr s)) true ->
     Q tt (with_mem m' s)) ->
  runs (free_frames f 1) s Q.
Proof.
  intros Hok [Hr Hm] HQ. destruct (decide (f / PAGE_SIZE < bm_size (smgr s))) as [Hlt|Hge].
  - pose proof (fo_size _ _ Hok). replace f with (f / PAGE_SIZE * PAGE_SIZE) at 1
      by (unfold PAGE_SIZE in *; Z.div_mod_to_equations; lia).
    apply (runs_free_frame s n); [done|unfold PAGE_SIZE in *; Z.div_mod_to_equations; lia|done|].
    intros m' [I O E M]. apply HQ. split; [| |done|done].
    + intros j Hj [Hf _]. apply I; [done|]. unfold PAGE_SIZE in *. Z.div_mod_to_equations; lia.
    + intros j Hj Hn. apply O; [done|]. intros ->. apply Hn. split; [|done].
      unfold PAGE_SIZE in *. Z.div_mod_to_equations; lia.
  - unfold free_frames, bitmap_set_range. apply runs_bind, runs_gets.
    replace (bm_size (smgr s) <=? f / PAGE_SIZE) with true by lia. rewrite orb_true_r. apply runs_ret.
    replace s with (with_mem (smem s) s) at 1 by by destruct s. apply HQ, bits_set_refl.
    intros j Hj [<- Hj']. unfold PAGE_SIZE in *. rewrite Z.div_mul in Hge by lia. lia.
Qed.

(** The state after the frames of [l] have been marked free. *)
Definition freed (s : st bitmap) (l : list Z) (m' : mem) : Prop :=
  bits_set (smem s) m' (bm_data (smgr s)) n (fun j => j * PAGE_SIZE ∈ l /\ j < bm_size (smgr s)) true.

Lemma freed_nil s : freed s [] (smem s).
Proof. apply bits_set_refl. intros i _ [Hi _]. by apply not_elem_of_nil in Hi. Qed.
Lemma freed_app s l1 l2 m1 m2 : freed s l1 m1 -> freed (with_mem m1 s) l2 m2 -> freed s (l1 ++ l2) m2.
Proof.
  intros F1 F2. eapply bits_set_trans; [|exact F1|exact F2|]; [intros; apply _|].
  intros i Hi. cbv beta. rewrite elem_of_app. simpl. tauto.
Qed.
Lemma freed_tables s l m' : bm_data (smgr s) = HHDM + addr -> freed s l m' -> same_tables (smem s) m'.
Proof. intros Hd [_ _ E M]. rewrite Hd in E. by split. Qed.
Lemma freed_frames s l m' : frames_ok s n -> freed s l m' -> frames_ok (with_mem m' s) n.
Proof. intros [Hok Hs Ha] F. split; [|done|done]. by eapply bm_ok_set. Qed.

Lemma virt_to_phys_frame f : good_frame f -> virt_to_phys HHDM (HHDM + f) = f.
Proof.
  intros [Hr _]. unfold virt_to_phys, sub64. rewrite u64_small; [lia|]. unfold two64. lia.
Qed.

(** The loop over the entries of a table, given the rule for the tables below it. *)
Lemma runs_free_entries level s f Q :
  (forall s f Q, frames_ok s n -> bm_data (smgr s) = HHDM + addr -> freeable (smem s) level f ->
     (forall m', freed s (reached (smem s) level f) m' -> Q tt (with_mem m' s)) ->
     runs (free_page_table_recursive HHDM level (HHDM + f)) s Q) ->
  frames_ok s n -> bm_data (smgr s) = HHDM + addr -> good_frame f ->
  mapped (smem s) (HHDM + f) (HHDM + f + 4096) -> off_bitmap size addr f ->
  (forall i e, 0 <= i < table_width (S level) -> entry_at (smem s) f i = Some e ->
     freeable (smem s) level (e &! COPY_MASK)) ->
  (forall m', freed s (flat_map (fun i => match entry_at (smem s) f i with
                                          | Some e => reached (smem s) level (e &! COPY_MASK)
                                          | None => [] end) (seqZ 0 (table_width (S level)))) m' -> Q tt (with_mem m' s)) ->
  runs (forM 0 (table_width (S level)) (fun i =>
    value <- ld (entry (HHDM + f) i) ;;
    free_page_table_recursive HHDM level (phys_to_virt HHDM (value &! COPY_MASK)))) s Q.
Proof.
  intros Hrec Hok Hd Hg Hm Hoff Hc HQ. pose proof (table_width_range (S level)) as Hw.
  set (g := fun i => match entry_at (smem s) f i with
                     | Some e => reached (smem s) level (e &! COPY_MASK) | None => [] end) in *.
  apply (runs_forM (fun i s' => exists m', s' = with_mem m' s /\ freed s (flat_map g (seqZ 0 i)) m')); [lia| | |].
  - exists (smem s). split; [by destruct s|apply freed_nil].
  - intros i s' Hi (m1 & -> & F1). pose proof (freed_tables _ _ _ Hd F1) as Hst.
    destruct (entry_total (smem s) f i Hm ltac:(lia)) as (e & He & Hb).
    apply runs_bind, runs_ld_entry with e; [done|lia| |].
    { simpl. by rewrite (same_tables_entry (smem s)) by (done || lia). }
    pose proof (Hc i e Hi He) as Hfe. destruct (reached_same _ _ _ _ Hst Hfe) as [Hfe' Hre].
    assert (Hv : phys_to_virt HHDM (e &! COPY_MASK) = HHDM + (e &! COPY_MASK)).
    { destruct level; destruct Hfe as [->|[Hge _]]; try done; by apply phys_to_virt_frame. }
    rewrite Hv. apply Hrec; [by eapply freed_frames|done|done|]. intros m2 F2. exists m2. split; [done|].
    simpl in F2. rewrite Hre in F2. rewrite seqZ_app by lia. rewrite flat_map_app.
    apply (freed_app s _ _ m1); [done|]. change (seqZ (0 + i) 1) with [0 + i]. rewrite (Z.add_0_l i). cbn [flat_map]. rewrite app_nil_r.
    assert (Egi : g i = reached (smem s) level (e &! COPY_MASK)) by (unfold g; by rewrite He). by rewrite Egi.
  - intros s' (m' & -> & F). by apply HQ.
Qed.

Lemma runs_free_recursive level s f Q :
  frames_ok s n -> bm_data (smgr s) = HHDM + addr -> freeable (smem s) level f ->
  (forall m', freed s (reached (smem s) level f) m' -> Q tt (with_mem m' s)) ->
  runs (free_page_table_recursive HHDM level (HHDM + f)) s Q.
Proof.
  revert s f Q. induction level as [|level IH]; intros s f Q Hok Hd Hf HQ;
    cbn [freeable reached free_page_table_recursive] in *.
  all: change (phys_to_virt HHDM 0) with HHDM; destruct (Z.eqb_spec f 0) as [->|Hne];
    [rewrite Z.add_0_r, Z.eqb_refl; apply runs_ret; replace s with (with_mem (smem s) s) by (by destruct s);
     by apply HQ, freed_nil|].
  all: destruct Hf as [?|[Hg Hrest]]; [done|]; rewrite (proj2 (Z.eqb_neq (HHDM + f) HHDM)) by lia.
  - rewrite virt_to_phys_frame by done. apply runs_free_any; [done|done|]. intros m' F. apply HQ.
    destruct F as [I O E M]. split; [| |done|done]; intros j Hj; rewrite list_elem_of_singleton; by auto.
  - destruct Hrest as (Hm & Hoff & Hc). apply runs_bind.
    apply (runs_free_entries level s f); [exact IH|done..|]. intros m1 F1.
    rewrite virt_to_phys_frame by done. apply runs_free_any; [by eapply freed_frames|done|].
    intros m2 F2. apply HQ. eapply freed_app; [exact F1|].
    destruct F2 as [I O E M]. split; [| |done|done]; intros j Hj; rewrite list_elem_of_singleton; by auto.
Qed.

(** ** Trees of tables can be freed *)

Lemma copy_mask_good e : 0 <= e < two64 -> e &! COPY_MASK = 0 \/ good_frame (e &! COPY_MASK).
Proof.
  intros He. destruct (decide (e &! COPY_MASK = 0)); [by left|right]. set (x := e &! COPY_MASK) in *.
  assert (Hx : 0 <= x) by (apply Z.land_nonneg; lia).
  assert (Hhi : x mod 2 ^ 47 = x).
  { apply Z.bits_inj'. intros i Hi. destruct (Z.ltb_spec i 47); [by rewrite Z.mod_pow2_bits_low by lia|].
    rewrite Z.mod_pow2_bits_high by lia. unfold x. rewrite copy_mask_frame_bits, frame_bits_spec by lia.
    replace (i <? 47) with false by lia. by rewrite andb_false_r. }
  pose proof (Z.mod_pos_bound x (2 ^ 47)). split; [lia|].
  change 4096 with (2 ^ 12). apply Z.bits_inj'. intros i Hi. rewrite Z.bits_0.
  destruct (Z.ltb_spec i 12); [|by rewrite Z.mod_pow2_bits_high by lia].
  rewrite Z.mod_pow2_bits_low by lia. unfold x. rewrite copy_mask_frame_bits, frame_bits_spec by lia.
  replace (12 <=? i) with false by lia. by rewrite andb_false_r.
Qed.

Lemma points_to_copy e g : good_frame g -> points_to e g -> e &! COPY_MASK = g.
Proof. intros Hg Hp. rewrite copy_mask_frame_bits by (destruct Hp; lia). by apply points_to_frame_bits. Qed.

Section Tree.
Context (I : nat -> st bitmap -> gset Z -> Prop) `{!FrameSource I}.
Context (k : nat) (s : st bitmap) (root : Z) (tabs : gmap (list Z) Z) (A : gset Z).
Context (Hpt : pt_state I k s root tabs A) (Hoff : forall f, f ∈ A -> off_bitmap size addr f).

Lemma freeable_table level p f :
  tabs !! p = Some f -> (length p + level = 4)%nat -> freeable (smem s) level f.
Proof.
  revert p f. induction level as [|level IH]; intros p f Hp Hl; destruct (pt_frame _ _ _ _ _ _ _ _ Hpt Hp) as (HA & Hg & Hm);
    right; (split; [done|]); [done|]. split; [done|]. split; [by apply Hoff|].
  intros i e Hi He. pose proof (table_width_range (S level)) as Hw.
  destruct level as [|level'].
  { destruct (copy_mask_good e) as [E|E]; [by eapply load64_range|by left|by right]. }
  pose proof (tk_child _ _ _ (pt_tables _ _ _ _ _ _ Hpt) p f i Hp ltac:(lia) ltac:(lia)) as Hc.
  destruct (tabs !! (p ++ [i])) as [g|] eqn:Eg.
  - destruct Hc as (e' & He' & Hpe). rewrite He in He'. injection He' as <-. destruct (pt_frame _ _ _ _ _ _ _ _ Hpt Eg) as (_ & Hgg & _).
    rewrite (points_to_copy e g) by done. apply (IH (p ++ [i])); [done|]. rewrite length_app. simpl. lia.
  - rewrite Hc in He. simplify_eq. by left.
Qed.

Lemma reached_child m level f i e g :
  f <> 0 -> 0 <= i < table_width (S level) -> entry_at m f i = Some e ->
  g ∈ reached m level (e &! COPY_MASK) -> g ∈ reached m (S level) f.
Proof.
  intros Hf%Z.eqb_neq Hi He Hg. cbn [reached]. rewrite Hf. apply elem_of_app. left.
  apply list_elem_of_In, in_flat_map. exists i. split; [by apply list_elem_of_In, elem_of_seqZ|].
  rewrite He. by apply list_elem_of_In.
Qed.
Lemma reached_self m level f : f <> 0 -> f ∈ reached m level f.
Proof.
  intros Hf%Z.eqb_neq. destruct level; cbn [reached]; rewrite Hf; [by left|]. apply elem_of_app. right. by left.
Qed.

(** From a table down to a table below it. *)
Lemma reached_down level p f i g h :
  tabs !! p = Some f -> (length p + S level = 4)%nat -> (0 < level)%nat -> 0 <= i < table_width (S level) ->
  tabs !! (p ++ [i]) = Some g -> h ∈ reached (smem s) level g -> h ∈ reached (smem s) (S level) f.
Proof.
  intros Hp Hl Hlv Hi Hg Hh. destruct (pt_frame _ _ _ _ _ _ _ _ Hpt Hp) as (_ & [Hf _] & _).
  destruct (pt_frame _ _ _ _ _ _ _ _ Hpt Hg) as (_ & Hgg & _). pose proof (table_width_range (S level)) as Hw.
  pose proof (tk_child _ _ _ (pt_tables _ _ _ _ _ _ Hpt) p f i Hp ltac:(lia) ltac:(lia)) as Hc.
  rewrite Hg in Hc. destruct Hc as (e & He & Hpe).
  apply (reached_child _ _ _ i e); [lia|done|done|]. by rewrite (points_to_copy e g).
Qed.

(** The tables on the way to an address below 2^47, and its page, are all reached from the table
    that entry [l4_index v] of the root names. *)
Lemma reached_page v f3 f1 :
  tabs !! [l4_index v] = Some f3 -> tabs !! upper v = Some f1 ->
  f1 ∈ reached (smem s) 3 f3 /\
  (frame_bits HHDM (pte (smem s) tabs v) <> 0 -> frame_bits HHDM (pte (smem s) tabs v) ∈ reached (smem s) 3 f3).
Proof.
  intros H3 H1. destruct (upper_tables _ _ _ _ _ _ v Hpt ltac:(by eexists)) as (f3' & f2 & f1' & H3' & H2 & H1').
  simplify_eq. destruct (pt_frame _ _ _ _ _ _ _ _ Hpt H1) as (_ & Hg1 & Hm1). pose proof Hg1 as [Hf1 _].
  assert (Hup : forall h, h ∈ reached (smem s) 1 f1 -> h ∈ reached (smem s) 3 f3).
  { intros h Hh. eapply (reached_down 2 [_]); [exact H3|done|lia|exact (l3_range v)|exact H2|].
    eapply (reached_down 1 [_; _]); [exact H2|done|lia|exact (l2_range v)|exact H1|done]. }
  split; [apply Hup, reached_self; lia|]. unfold pte. rewrite H1.
  destruct (entry_total (smem s) f1 (l1_index v) Hm1 (l1_range v)) as (e & He & Hb). rewrite He. change (default 0 (Some e)) with e. intros Hne.
  apply Hup, (reached_child _ _ _ (l1_index v) e); [lia|apply l1_range|done|].
  rewrite copy_mask_frame_bits by done. by apply reached_self.
Qed.
End Tree.

(** ** [free_page_table] *)

Lemma runs_free_page_table s directory root r Q :
  frames_ok s n -> bm_data (smgr s) = HHDM + addr -> freeable (smem s) 4 root ->
  0 <= directory -> directory + 16 <= two64 -> mapped (smem s) directory (directory + 16) ->
  load64 (smem s) directory = Some root -> load64 (smem s) (directory + 8) = Some r ->
  (r = 1 -> forall m', freed s (reached (smem s) 4 root) m' -> Q tt (with_mem m' s)) ->
  (r <> 1 -> forall m', store64 (smem s) (directory + 8) (r -! 1) = Some m' -> Q tt (with_mem m' s)) ->
  runs (free_page_table HHDM directory) s Q.
Proof.
  intros Hok Hd Hf Hd0 Htop Hm Hroot Hrc HQ1 HQ2. unfold free_page_table, ref_count_of, page_table_phys_of.
  assert (Hd8 : directory +! 8 = directory + 8) by (apply u64_small; lia). rewrite Hd8.
  eapply runs_bind, runs_ld; [exact Hrc|]. destruct (Z.eqb_spec r 1) as [->|Hne].
  - eapply runs_bind, runs_ld; [exact Hroot|].
    assert (Hv : phys_to_virt HHDM root = HHDM + root).
    { destruct Hf as [->|[Hg _]]; [done|by apply phys_to_virt_frame]. }
    rewrite Hv. apply runs_free_recursive; [done..|]. by apply HQ1.
  - apply runs_sto; [eapply mapped_sub; [exact Hm|lia..]|]. by apply HQ2.
Qed.
End Free.

(** C20: [free_page_table] always returns.  With one user it marks exactly the frames free that the
    lower half of the root leads to, from the pages up to the root, as far as the bitmap is searched,
    and writes nothing but bits; with any other count it only lowers the count, which wraps at 0. *)
Theorem free_page_table_correct (size addr : Z) (s : st bitmap) (directory root r : Z) :
  frames_ok s (bitmap_bytes size) -> bm_data (smgr s) = HHDM + addr -> freeable size addr (smem s) 4 root ->
  0 <= directory -> directory + 16 <= two64 -> mapped (smem s) directory (directory + 16) ->
  load64 (smem s) directory = Some root -> load64 (smem s) (directory + 8) = Some r ->
  exists m', free_page_table HHDM directory s = Some (tt, with_mem m' s) /\
    if r =? 1 then freed size s (reached (smem s) 4 root) m'
    else store64 (smem s) (directory + 8) (r -! 1) = Some m'.
Proof.
  intros Hok Hd Hf Hd0 Htop Hm Hroot Hrc.
  assert (Hr : runs (free_page_table HHDM directory) s (fun _ s' => exists m', s' = with_mem m' s /\
    if r =? 1 then freed size s (reached (smem s) 4 root) m'
    else store64 (smem s) (directory + 8) (r -! 1) = Some m')).
  { apply (runs_free_page_table size addr s directory root r); try done.
    - intros -> m' F. exists m'. exact (conj eq_refl F).
    - intros Hne%Z.eqb_neq m' E. exists m'. rewrite Hne. exact (conj eq_refl E). }
  apply runs_inv in Hr as ([] & s' & E & m' & -> & H). by exists m'.
Qed.

(** ** Freeing a copy *)

Section Copy.
Context (ut : Z) (m0 : mem) (entries : list region) (size addr : Z) (foreign : gset Z).
Abbreviation I := (source ut m0 entries size addr foreign).

(** What the release of a copy of an address space leaves of the original: the tables and what they
    say are unchanged, and the frames of the lower tables and of the pages they map are free. *)
Record released (s s' : st bitmap) (root : Z) (tabs : gmap (list Z) Z) : Prop := {
  rl_bitmap : smgr s' = Bitmap (HHDM + addr) (bitmap_bytes size);
  rl_tables : tables_ok (smem s') root tabs;
  rl_pte : forall v, pte (smem s') tabs v = pte (smem s) tabs v;
  rl_table_free : forall v f, l4_index v < 256 -> tabs !! upper v = Some f ->
    f / PAGE_SIZE < bm_size (smgr s') -> frame_free s' (f / PAGE_SIZE);
  rl_page_free : forall v, l4_index v < 256 -> frame_bits HHDM (pte (smem s) tabs v) <> 0 ->
    frame_bits HHDM (pte (smem s) tabs v) / PAGE_SIZE < bm_size (smgr s') ->
    frame_free s' (frame_bits HHDM (pte (smem s) tabs v) / PAGE_SIZE)
}.

Lemma source_off n s A f : I n s A -> f ∈ A -> off_bitmap size addr f.
Proof. intros Hs Hf. by destruct (source_frame _ _ _ _ _ _ _ _ _ _ Hs Hf) as (_ & _ & ?). Qed.

(** The root of a copy can be freed, and leads to what the original leads to. *)
Lemma freeable_copy n s A root tabs f :
  pt_state I n s root tabs A -> f ∈ A -> good_frame f ->
  (forall i e, 0 <= i < 512 -> entry_at (smem s) root i = Some e -> entry_at (smem s) f i = Some (cloned_entry i e)) ->
  freeable size addr (smem s) 4 f /\
  forall i g h, 0 <= i < 256 -> tabs !! [i] = Some g -> h ∈ reached (smem s) 3 g -> h ∈ reached (smem s) 4 f.
Proof.
  intros Hpt HfA Hgf He. pose proof Hpt as [Hs Ht Hu].
  destruct (pt_frame _ _ _ _ _ _ _ _ Hpt (tk_root _ _ _ Ht)) as (HrA & Hgr & Hmr).
  destruct (fs_frame _ _ _ _ Hs HfA) as [_ Hmf].
  assert (Hroot : forall i, 0 <= i < 256 -> match tabs !! [i] with
    | Some g => exists e, entry_at (smem s) f i = Some e /\ e &! COPY_MASK = g
    | None => entry_at (smem s) f i = Some (2 ^ 47) end).
  { intros i Hi. pose proof (tk_child _ _ _ Ht [] root i (tk_root _ _ _ Ht) ltac:(simpl; lia) ltac:(lia)) as Hc.
    simpl in Hc. destruct (tabs !! [i]) as [g|] eqn:Eg.
    - destruct Hc as (e & Hei & Hpe). exists e. destruct (pt_frame _ _ _ _ _ _ _ _ Hpt Eg) as (_ & Hgg & _).
      split; [|by apply points_to_copy]. rewrite (He i e) by (done || lia). unfold cloned_entry.
      pose proof Hpe as [Hr _]. replace (e =? 0) with false by lia. by rewrite andb_false_r.
    - rewrite (He i 0) by (done || lia). unfold cloned_entry. by replace (i <? 256) with true by lia. }
  split.
  - right. split; [done|]. split; [done|]. split; [by eapply source_off|]. intros i e Hi Hei.
    change (table_width 4) with 256 in Hi. specialize (Hroot i Hi). destruct (tabs !! [i]) as [g|] eqn:Eg.
    + destruct Hroot as (e' & He' & Hg). rewrite Hei in He'. injection He' as <-. rewrite Hg.
      eapply (freeable_table size addr I n s root tabs A Hpt); [|exact Eg|done].
      intros h Hh. by eapply source_off.
    + rewrite Hei in Hroot. injection Hroot as ->. by left.
  - intros i g h Hi Hg Hh. specialize (Hroot i Hi). rewrite Hg in Hroot. destruct Hroot as (e & He' & <-).
    apply (reached_child _ _ _ i e); [destruct Hgf; lia|done|done|done].
Qed.

(** Releasing the copy, from the state in which it has been made. *)
Lemma runs_release n s root tabs A f mm :
  pt_state I n s root tabs A -> f ∈ A -> f <> root ->
  (forall i e, 0 <= i < 512 -> entry_at (smem s) root i = Some e -> entry_at (smem s) f i = Some (cloned_entry i e)) ->
  0 <= mm -> mm + 16 <= two64 -> mapped (smem s) mm (mm + 16) ->
  load64 (smem s) mm = Some f -> load64 (smem s) (mm + 8) = Some 1 ->
  runs (free_page_table HHDM mm) s (fun _ s' => released s s' root tabs).
Proof.
  intros Hpt HfA Hne He Hm0 Hm1 Hm Lf Lc. pose proof Hpt as [Hs Ht Hu].
  destruct (fs_frame _ _ _ _ Hs HfA) as [Hgf _]. pose proof Hs as [(A1 & HA & Hi) _ _ Hd].
  destruct (freeable_copy n s A root tabs f Hpt HfA Hgf He) as [Hfr Hreach].
  assert (Hbm : bm_data (smgr s) = HHDM + addr) by by rewrite Hd.
  pose proof (fi_ok _ _ _ _ _ _ _ _ Hi) as Hok. pose proof Hok as [_ Hsz _].
  apply (runs_free_page_table size addr s mm f 1); try done. intros _ m' F.
  assert (Hent : forall p g i, tabs !! p = Some g -> 0 <= i < 512 -> entry_at m' g i = entry_at (smem s) g i).
  { intros p g i Hg Hi'. apply (same_tables_entry size addr); [by eapply freed_tables| |done].
    eapply source_off; [exact Hs|]. by eapply Hu. }
  assert (Hfree : forall v f3 h, l4_index v < 256 -> tabs !! [l4_index v] = Some f3 -> good_frame h ->
    h ∈ reached (smem s) 3 f3 -> h / PAGE_SIZE < bm_size (smgr s) -> frame_free (with_mem m' s) (h / PAGE_SIZE)).
  { intros v f3 h Hv H3 [Hr Hmod] Hh Hlt. pose proof (l4_range v) as Hl. destruct F as [Hin _ _ _].
    apply Hin; [unfold PAGE_SIZE in *; Z.div_mod_to_equations; lia|]. split; [|done].
    replace (h / PAGE_SIZE * PAGE_SIZE) with h by (unfold PAGE_SIZE in *; Z.div_mod_to_equations; lia).
    apply (Hreach (l4_index v) f3); [lia|done|done]. }
  split.
  - done.
  - by apply (tables_ok_ext (smem s)).
  - intros v. by apply pte_ext.
  - intros v f1 Hv H1 Hlt. destruct (upper_tables _ _ _ _ _ _ v Hpt ltac:(by eexists)) as (f3 & _ & _ & H3 & _).
    destruct (pt_frame _ _ _ _ _ _ _ _ Hpt H1) as (_ & Hg1 & _).
    apply (Hfree v f3); [done|done|done| |done]. by destruct (reached_page _ n s root tabs A Hpt v f3 f1 H3 H1).
  - intros v Hv Hp Hlt. destruct (tabs !! upper v) as [f1|] eqn:H1.
    2: { destruct Hp. unfold pte. by rewrite H1. }
    destruct (upper_tables _ _ _ _ _ _ v Hpt ltac:(by eexists)) as (f3 & _ & _ & H3 & _).
    apply (Hfree v f3); [done|done| | |done].
    + assert (Hb : 0 <= pte (smem s) tabs v < two64).
      { unfold pte. rewrite H1. destruct (pt_frame _ _ _ _ _ _ _ _ Hpt H1) as (_ & _ & Hm1').
        destruct (entry_total (smem s) f1 (l1_index v) Hm1' (l1_range v)) as (e & -> & Hb). exact Hb. }
      pose proof (copy_mask_good _ Hb) as Hc. rewrite copy_mask_frame_bits in Hc by done. by destruct Hc.
    + by apply (reached_page _ n s root tabs A Hpt v f3 f1 H3 H1).
Qed.
End Copy.

(** C14: releasing a copy takes the original's frames away.  When an address space is copied and the
    copy is released, which holds the only reference to the copy, both calls return, and the original
    is as it was: the same tables with the same entries; but the frames of its lower tables and of
    the pages it maps below 2^47 are marked free, as far as the bitmap is searched, and the next
    allocation may hand them out. *)
Theorem copy_release_frees_source (ut : Z) (m0 : mem) (entries : list region) (size addr : Z)
  (foreign : gset Z) (n : nat) (s : st bitmap) (root : Z) (tabs : gmap (list Z) Z) (A : gset Z) (mm old flags : Z) :
  let I := source ut m0 entries size addr foreign in
  has_flag flags 256 = false -> pt_state I (S n) s root tabs A ->
  apart_block I A (smem s) mm -> apart_block I A (smem s) old -> mm + 16 <= old \/ old + 16 <= mm ->
  load64 (smem s) old = Some root ->
  exists s1 s2, clone_page_table HHDM (fun _ => ret mm) old flags s = Some (mm, s1) /\
    free_page_table HHDM mm s1 = Some (tt, s2) /\ released size addr s s2 root tabs.
Proof.
  intros I Hfl Hpt Bm Bo Hd Hold. pose proof Hpt as [Hs Ht Hu]. pose proof (Hu _ _ (tk_root _ _ _ Ht)) as HrA.
  assert (Hr : runs (clone_page_table HHDM (fun _ => ret mm) old flags) s (fun r s1 => r = mm /\
    runs (free_page_table HHDM mm) s1 (fun _ s2 => released size addr s s2 root tabs))).
  { apply (runs_clone I n s A root); try done. intros f s1 Hgf HfA HI1 Lm Lc He Hsame Helse. split; [done|].
    assert (Hent : forall p g i, tabs !! p = Some g -> 0 <= i < 512 -> entry_at (smem s1) g i = entry_at (smem s) g i).
    { intros p g i Hg Hi. apply entry_at_ext; [|done]. intros a Ha. apply (Hsame g); [by apply (Hu p)|done]. }
    assert (Hpt1 : pt_state I n s1 root tabs (A ∪ {[f]})).
    { split; [done|by apply (tables_ok_ext (smem s))|]. intros p g Hg. apply elem_of_union_l. by apply (Hu p). }
    pose proof Bm as [[Hm0 Hm1] _ _].
    eapply runs_mono; [apply (runs_release ut m0 entries size addr foreign n s1 root tabs _ f mm Hpt1)|].
    - set_solver.
    - by intros ->.
    - intros i e Hi Hei. apply He; [done|]. by rewrite <- (Hent [] root i (tk_root _ _ _ Ht) Hi).
    - done.
    - done.
    - intros a Ha. destruct (decide (a < mm + 8)); [apply (load64_mapped _ _ _ Lm)|apply (load64_mapped _ _ _ Lc)]; lia.
    - done.
    - done.
    - intros [] s2 [R0 R1 R2 R3 R4]. assert (Hp : forall v, pte (smem s1) tabs v = pte (smem s) tabs v) by (intros v; by apply pte_ext).
      split; [done|done| |done|]; intros v; [by rewrite R2, Hp|]. rewrite <- Hp. apply R4. }
  apply runs_inv in Hr as (r & s1 & E1 & -> & Hr2). apply runs_inv in Hr2 as ([] & s2 & E2 & Hrel). by exists s1, s2.
Qed.

(** ** A small address space that maps one page *)

Definition one_page : Z := 28672.
Lemma mapped_demo : exists s tabs A,
  pt_state pt_source 3 s pt_root tabs A /\ is_Some (tabs !! upper 4096) /\
  frame_bits HHDM (pte (smem s) tabs 4096) = one_page /\
  mapped (smem s) 65536 65568 /\ load64 (smem s) 65536 = Some pt_root /\ load64 (smem s) 65544 = Some 1.
Proof.
  destruct clone_demo as (s0 & Hpt & Hm & Hl & Hc).
  assert (Hr : runs (map HHDM (Page_table pt_root false) 4096 one_page 3) s0 (fun _ s => exists tabs A,
    pt_state pt_source 3 s pt_root tabs A /\ is_Some (tabs !! upper 4096) /\
    frame_bits HHDM (pte (smem s) tabs 4096) = one_page /\
    forall a, 65536 <= a < 65568 -> smem s !! a = smem s0 !! a)).
  { eapply (runs_map pt_source 3); [exact Hpt|]. intros s tabs A k Hk Hle Ht HA Hup Hpte K.
    exists tabs, A. split_ands; [|done| |].
    - destruct Hk as [[Hi Hroom Hra Hd] Htt Hu]. split; [|done|done]. split; [done| |done|done].
      eapply room_le; [exact Hle|exact Hroom].
    - rewrite Hpte, decide_True by done. apply (leaf_target one_page 3). split; [vm_compute; split; congruence|done].
    - intros a Ha. apply K. destruct Hpt as [Hs Ht0 Hu]. unfold quiet.
      destruct (low_quiet 6 s0 _ a Hs ltac:(unfold HHDM; lia)) as (H1 & H2 & H3). split_ands; [done|done|].
      intros p g Hg. apply H3. by apply (Hu p). }
  apply runs_inv in Hr as ([] & s & _ & tabs & A & H1 & H2 & H3 & Hlow). exists s, tabs, A. split_ands; [done..| | |].
  - intros a Ha. rewrite Hlow by done. by apply Hm.
  - unfold load64. rewrite (load_le_ext _ (smem s0)); [exact Hl|]. intros b Hb. apply Hlow. lia.
  - unfold load64. rewrite (load_le_ext _ (smem s0)); [exact Hc|]. intros b Hb. apply Hlow. lia.
Qed.

Lemma source_bm_size n s A : pt_source n s A -> smgr s = Bitmap (HHDM + 4096) 9.
Proof. intros [_ _ _ Hd]. exact Hd. Qed.

Lemma free_page_table_correct_witness :
  exists s m', free_page_table HHDM 65536 s = Some (tt, with_mem m' s) /\
    freed pt_size s (reached (smem s) 4 pt_root) m'.
Proof.
  destruct mapped_demo as (s & tabs & A & Hpt & _ & _ & Hm & Hl & Hc). pose proof Hpt as [Hs Ht Hu].
  destruct (free_page_table_correct pt_size 4096 s 65536 pt_root 1) as (m' & E & F).
  - destruct Hs as [(A1 & _ & [_ Hok _ _]) _ _ _]. exact Hok.
  - by rewrite (source_bm_size _ _ _ Hs).
  - eapply (freeable_table pt_size 4096 pt_source 3 s pt_root tabs A Hpt); [|exact (tk_root _ _ _ Ht)|done].
    intros f Hf. by eapply source_off.
  - lia.
  - unfold two64. lia.
  - eapply mapped_sub; [exact Hm|lia..].
  - exact Hl.
  - exact Hc.
  - exists s, m'. exact (conj E F).
Defined.

Lemma copy_release_frees_source_witness :
  exists s s1 s2, clone_page_table HHDM (fun _ => ret 65552) 65536 0 s = Some (65552, s1) /\
    free_page_table HHDM 65552 s1 = Some (tt, s2) /\ frame_free s2 7.
Proof.
  destruct mapped_demo as (s & tabs & A & Hpt & Hup & Hpage & Hm & Hl & _). pose proof Hpt as [Hs _ _].
  destruct (copy_release_frees_source 0 pt_mem pt_entries pt_size 4096 {[pt_root]} 2 s pt_root tabs A 65552 65536 0)
    as (s1 & s2 & E1 & E2 & [Hb _ _ _ Hfree]).
  - reflexivity.
  - exact Hpt.
  - apply (low_apart 3); [exact Hs|lia|unfold HHDM; lia|eapply mapped_sub; [exact Hm|lia..]].
  - apply (low_apart 3); [exact Hs|lia|unfold HHDM; lia|eapply mapped_sub; [exact Hm|lia..]].
  - right. lia.
  - exact Hl.
  - exists s, s1, s2. split; [exact E1|]. split; [exact E2|].
    specialize (Hfree 4096). rewrite Hpage, Hb in Hfree. by apply Hfree.
Defined.
