(* ===== verification/PoolThms.v ===== *)
(** PoolThms: the properties of the memory pool. *)

From Stdlib Require Import ZArith Lia.
From stdpp Require Import prelude gmap.
From S2P Require Import Prelude Mem Block Klibc Freelist Pool HeapInv HeapOps.
From S2P Require Import ListOps PoolOps PoolMatch PoolFacts PoolInit PoolSpec PoolView PoolRealloc.
From S2P Require Import PoolRefine.

(** ** A concrete pool *)

(** The smallest area a pool can manage, at address 4096, and the pool made of it. *)
Definition demo_size : Z := 16416.
Definition demo_mem : mem := fill 4096 (Z.to_nat demo_size) 0 ∅.
Definition run_state {A} (r : option (A * st mpool)) : st mpool :=
  match r with Some (_, s) => s | None => St ∅ mpool_zero end.
Definition demo_pool : st mpool := run_state (mpool_init 4096 demo_size (St demo_mem mpool_zero)).
Definition demo_blks : list blk := [first_blk 4096 demo_size true true].

(** A callback as [cb_reqmem_t]'s contract has it: it extends the area in place and returns the
    address it was asked for, or returns NULL. *)
Definition reqmem_conforms (f : cb_reqmem_t) : Prop :=
  forall a n m, exists r m', f a n m = Some (r, m') /\ (r = NULL \/ r = a).

Definition grow_in_place : cb_reqmem_t := fun a n m => Some (a, fill a (Z.to_nat n) 0 m).

Lemma fill_area base size v m :
  64 <= base -> base mod 16 = 0 -> size mod 16 = 0 -> FREELIST_MAXBLKSIZE + 32 <= size ->
  base + size < two64 -> area_given (fill base (Z.to_nat size) v m) base size.
Proof.
  intros. split; try done. pose proof (fill_mapped base (Z.to_nat size) v m) as Hm.
  unfold FREELIST_MAXBLKSIZE in *. by rewrite Z2Nat.id in Hm by lia.
Qed.

Lemma demo_area : area_given demo_mem 4096 demo_size.
Proof. unfold demo_mem. by apply fill_area. Qed.

Lemma demo_mem_low : demo_mem !! 0 = None.
Proof. unfold demo_mem. by rewrite fill_lookup. Qed.

#[local] Opaque demo_mem.

Lemma demo_init : mpool_init 4096 demo_size (St demo_mem mpool_zero) = Some (true, demo_pool).
Proof.
  assert (Hr : runs (mpool_init 4096 demo_size) (St demo_mem mpool_zero) (fun b _ => b = true)).
  { apply runs_mpool_init; [apply demo_area|done]. }
  apply runs_inv in Hr as (b & s' & E & ->). unfold demo_pool, run_state. by rewrite E.
Qed.

#[local] Opaque demo_pool.

Lemma demo_inv : pool_inv demo_mem demo_pool demo_blks /\ tidy demo_pool demo_blks /\ mp_cb_reqmem (smgr demo_pool) = None /\
  mp_ptr (smgr demo_pool) = 4096 /\ mp_size (smgr demo_pool) = demo_size.
Proof.
  assert (Hr : runs (mpool_init 4096 demo_size) (St demo_mem mpool_zero) (fun _ s' =>
    pool_inv demo_mem s' demo_blks /\ tidy s' demo_blks /\ mp_cb_reqmem (smgr s') = None /\
    mp_ptr (smgr s') = 4096 /\ mp_size (smgr s') = demo_size)).
  { apply runs_mpool_init; [apply demo_area|done]. }
  unfold runs in Hr. by rewrite demo_init in Hr.
Qed.

(** An aligned request on the demo pool: its one free block starts at 4112. *)
Lemma demo_aligned : 16 = 2 ^ 4 /\ aligned_args demo_pool 100 4 /\ hits_sliver 100 16 demo_pool = false.
Proof.
  destruct demo_inv as (Hi & _ & _ & Hp & Hs).
  assert (Ha : aligned_args demo_pool 100 4) by (split; rewrite ?Hp, ?Hs; vm_compute; split; congruence).
  split_ands; [done|done|]. apply (no_sliver_hits demo_mem demo_pool demo_blks 100 4 Hi Ha).
  intros b Hb _. apply list_elem_of_singleton in Hb as ->. vm_compute. congruence.
Qed.

(** ** A drained pool *)

(** In a pool without live blocks nothing is left but one free block. *)
Lemma drained_blks base size out m bs :
  area_ok base size out m bs -> quiet bs -> coalesced bs -> live bs = [] -> 16 < size ->
  bs = [first_blk base size true true].
Proof.
  intros Ha Hq Hc Hl Hs. pose proof (ao_chain _ _ _ _ _ Ha) as Hch.
  destruct bs as [|b bs]; [simpl in Hch; lia|]. destruct Hch as [Hp Hch].
  rewrite live_cons in Hl. destruct (blisted b) eqn:Hb; [|done].
  destruct (area_blk _ _ _ _ _ b Ha) as [(_&_&_&Hbd) _ _ _ _ _ _ _ _]; [left|].
  destruct (Hbd Hb) as [Hf Hd]. destruct bs as [|c bs].
  - simpl in Hch. unfold first_blk. f_equal. destruct b as [p n f l d]. simpl in *. subst.
    f_equal. lia.
  - rewrite !quiet_cons in Hq. destruct Hq as (_ & Hqc & _).
    rewrite live_cons in Hl. destruct (blisted c); [|done].
    apply coalesced_cons in Hc as [Hc _]. rewrite Hf in Hc. simpl in Hc. congruence.
Qed.

Lemma view_empty bs : view bs = ∅ -> live bs = [].
Proof.
  unfold view. destruct (live bs) as [|x L]; [done|]. simpl. intros Hv.
  by apply (insert_non_empty (M := gmap Z)) in Hv.
Qed.

(** ** Properties *)

(** C1: the pool refines a finite map from addresses to sizes and contents.  The owner allocates,
    frees, reallocates (shrinking, growing in place and moving), does the first and the last at an
    alignment too, and writes; it frees, reallocates and writes only live blocks, asks for at most
    [2^64 - 16] bytes, and makes no aligned search that wraps or that finds a block 16 bytes before
    the aligned address (the code breaks the pool there).  From any state that such an owner can
    bring a new pool to, the next such operation either returns (no fault, no endless loop), its
    answer is one the map allows (a new block is 16-aligned, at least as long as requested and less
    than 96 bytes longer, fresh, inside the area and aligned as asked; a reallocated one keeps its
    contents as far as they fit, and stays where it is if it was long enough), and the new state is
    again one whose abstract heap is that of the map operation; or it is a reallocation of a block
    that is too small, whose next block does not make up the rest and for which the allocator
    returns NULL, and the call faults.  The pool has no callbacks and address 0 is not mapped. *)
Theorem pool_refines_map (m0 : mem) (ptr size : Z) (s : st mpool) (v : aheap) (o : op) :
  reach any_op m0 ptr size s v -> legal s v o ->
  (exists a s', run_op o s = Some (a, s') /\ answer_ok ptr size v o a /\
     reach any_op m0 ptr size s' (spec_op o a v)) \/
  (starved s v o /\ run_op o s = None).
Proof.
  intros Hr Hl. destruct (reach_refines _ _ _ _ _ _ Hr) as [Hrf Hz].
  destruct (step_ok any_op m0 ptr size s v o Hrf Hl I) as [Hs|[Hs Hf]]; [left|right; auto].
  apply runs_inv in Hs as (a & s' & E & _ & Ha). exists a, s'. split_ands; try done.
  by eapply reach_step; [| | |exact E].
Qed.

Lemma pool_refines_map_witness :
  (exists a s', run_op (OAligned 100 16) demo_pool = Some (a, s') /\
    answer_ok 4096 demo_size ∅ (OAligned 100 16) a /\
    reach any_op demo_mem 4096 demo_size s' (spec_op (OAligned 100 16) a ∅)) \/
  (starved demo_pool ∅ (OAligned 100 16) /\ run_op (OAligned 100 16) demo_pool = None).
Proof.
  apply (pool_refines_map demo_mem 4096 demo_size demo_pool ∅ (OAligned 100 16)).
  - eapply reach_init; [apply demo_area|apply demo_mem_low|apply demo_init].
  - split; [unfold request, two64; lia|]. split; [lia|]. intros _ _. exists 4. apply demo_aligned.
Defined.

(** C2: isolation.  In every state that an owner as in [pool_refines_map] can bring a new pool to,
    by allocations, frees, writes, and reallocations of any size, plain or aligned, it reads back
    from each live block what it last wrote there, live blocks do not overlap, and no byte outside
    the pool's area has been changed since the pool was made. *)
Theorem pool_isolation (m0 : mem) (ptr size : Z) (s : st mpool) (v : aheap) :
  reach any_op m0 ptr size s v ->
  (forall p n d (i : nat) x, v !! p = Some (n, d) -> d !! i = Some x ->
     load8 (smem s) (p + Z.of_nat i) = Some x) /\
  (forall p n d p' n' d', v !! p = Some (n, d) -> v !! p' = Some (n', d') -> p <> p' ->
     p + n <= p' \/ p' + n' <= p) /\
  (forall a, a < ptr \/ ptr + size <= a -> smem s !! a = m0 !! a).
Proof.
  intros [Hr _]%reach_refines. split_ands.
  - intros. by eapply refines_contents.
  - intros. by eapply refines_disjoint.
  - destruct Hr as [Hp Hs _ (bs & Hi & _ & _)]. pose proof (pi_ok _ _ _ Hi) as [Ha _].
    rewrite Hp, Hs in Ha. apply (ao_out _ _ _ _ _ Ha).
Qed.

Lemma pool_isolation_witness : smem demo_pool !! 0 = demo_mem !! 0.
Proof.
  refine (proj2 (proj2 (pool_isolation demo_mem 4096 demo_size demo_pool ∅ _)) 0 _); [|lia].
  eapply reach_init; [apply demo_area|apply demo_mem_low|apply demo_init].
Defined.

(** C3: nothing leaks.  The owner of [pool_refines_map] may have allocated, plain and aligned,
    freed, written and reallocated, as long as no reallocation left 64 bytes or more of a block
    over (which are split off and not merged with the free block after them); once it has freed
    every block the pool can again serve a request for the whole area less its 32 bytes of tags. *)
Theorem pool_no_leak (m0 : mem) (ptr size req : Z) (s : st mpool) :
  reach no_cut m0 ptr size s ∅ -> 16 < size -> 0 <= req -> min_size req <= size - 32 -> req <= two64 - 16 ->
  exists p s', mpool_alloc req s = Some (p, s') /\ p <> NULL.
Proof.
  intros Hr Hsz H0 Hreq Hmax. apply reach_refines in Hr as [[Hp Hs Hcb (bs & Hi & Hv & Ht)] _].
  pose proof (Ht (fun _ _ H => H)) as Hc. pose proof Hi as [[Ha _] Hq]. rewrite Hp, Hs in Ha.
  pose proof (drained_blks _ _ _ _ _ Ha Hq Hc (view_empty _ (eq_sym Hv)) Hsz) as Hbs. subst bs.
  assert (Hrun : runs (mpool_alloc req) s (fun p _ => p <> NULL)).
  { eapply (runs_alloc m0); [done|done|lia| |].
    - intros Hno. specialize (Hno (first_blk ptr size true true) ltac:(left) eq_refl).
      unfold fits_b in Hno. simpl in Hno. lia.
    - intros p s' _ (_ & bs' & sz & l1 & l2 & _ & _ & _ & _ & _ & _ & Hn). done. }
  by apply runs_inv in Hrun as (p & s' & E & Hn); exists p, s'.
Qed.

Lemma pool_no_leak_witness :
  exists p s', mpool_alloc (demo_size - 32) demo_pool = Some (p, s') /\ p <> NULL.
Proof.
  apply (pool_no_leak demo_mem 4096 demo_size (demo_size - 32) demo_pool); try done.
  eapply reach_init; [apply demo_area|apply demo_mem_low|apply demo_init].
Defined.

(** C4: allocation, on every branch.  [mpool_alloc] always returns.  It returns NULL and leaves the
    pool as it was exactly when no free block is long enough; otherwise a free block is carved, the
    new block is 16-aligned and its size is at least the request's rounded size (and less than 64
    bytes more), and every other live block keeps its place, size and contents. *)
Theorem mpool_alloc_correct (out : mem) (s : st mpool) (bs : list blk) (req : Z) :
  pool_inv out s bs -> mp_cb_reqmem (smgr s) = None -> 0 <= req <= two64 - 16 ->
  exists p s', mpool_alloc req s = Some (p, s') /\
    ((p = NULL /\ s' = s /\ no_fit (fits_b (min_size req)) bs) \/
     (~ no_fit (fits_b (min_size req)) bs /\ served out s bs (min_size req) p s')).
Proof.
  intros Hi Hcb Hreq.
  assert (Hr : runs (mpool_alloc req) s (fun p s' =>
    (p = NULL /\ s' = s /\ no_fit (fits_b (min_size req)) bs) \/
    (~ no_fit (fits_b (min_size req)) bs /\ served out s bs (min_size req) p s'))).
  { apply (runs_alloc out s bs); [done..| |]; auto. }
  apply runs_inv in Hr as (p & s' & E & H). by exists p, s'.
Qed.

Lemma mpool_alloc_correct_witness :
  exists p s', mpool_alloc 100 demo_pool = Some (p, s') /\
    ((p = NULL /\ s' = demo_pool /\ no_fit (fits_b (min_size 100)) demo_blks) \/
     (~ no_fit (fits_b (min_size 100)) demo_blks /\
      served demo_mem demo_pool demo_blks (min_size 100) p s')).
Proof.
  destruct demo_inv as (Hi & _ & Hcb & _).
  apply (mpool_alloc_correct demo_mem demo_pool demo_blks 100 Hi Hcb). unfold two64. lia.
Defined.

(** C5: deallocation.  Freeing a live block always returns; it takes exactly that block out of
    the live ones and its size off the byte counter, and merges it with both free neighbours: in
    a pool where no two neighbours were free, none are afterwards. *)
Theorem mpool_free_correct (out : mem) (s : st mpool) (bs : list blk) (p n : Z) (d : list Z) :
  pool_inv out s bs -> (p, n, d) ∈ live bs ->
  exists s' bs' l1 l2, mpool_free p s = Some (tt, s') /\ pool_inv out s' bs' /\
    live bs = l1 ++ (p, n, d) :: l2 /\ live bs' = l1 ++ l2 /\
    mp_alloced_size (smgr s') = u64 (mp_alloced_size (smgr s) - n) /\
    (tidy s bs -> tidy s' bs').
Proof.
  intros Hi Hin. apply live_in in Hin as (l & b & r & -> & Hb & <- & <- & <-).
  assert (Hr : runs (mpool_free (bptr b)) s (fun _ s' => exists bs', pool_inv out s' bs' /\
    live bs' = live l ++ live r /\
    mp_alloced_size (smgr s') = u64 (mp_alloced_size (smgr s) - bsz b) /\
    (tidy s (l ++ b :: r) -> tidy s' bs'))).
  { apply (runs_free out s l b r); [done|done|]. intros s' bs' Hi' Hl' Hal [_ Ht] _. by exists bs'. }
  apply runs_inv in Hr as ([] & s' & E & bs' & Hi' & Hl' & Hal & Ht).
  exists s', bs', (live l), (live r). split_ands; try done.
  by rewrite live_app, live_cons, Hb.
Qed.

Definition demo_get : st mpool := run_state (mpool_alloc 100 demo_pool).

Lemma demo_fits n : n <= demo_size - 32 -> no_fit (fits_b n) demo_blks -> False.
Proof.
  intros Hn Hno. specialize (Hno (first_blk 4096 demo_size true true) ltac:(left) eq_refl).
  apply Z.leb_gt in Hno. unfold first_blk, bsz in Hno. lia.
Qed.

Lemma demo_get_inv : exists p n bs, pool_inv demo_mem demo_get bs /\
  mp_cb_reqmem (smgr demo_get) = None /\ mp_size (smgr demo_get) = demo_size /\
  100 <= n /\ (p, n, []) ∈ live bs.
Proof.
  destruct demo_inv as (Hi & _ & Hcb & _ & Hds).
  assert (Hr : runs (mpool_alloc 100) demo_pool (fun _ s' =>
    exists p n bs, pool_inv demo_mem s' bs /\ mp_cb_reqmem (smgr s') = None /\
      mp_size (smgr s') = demo_size /\ 100 <= n /\ (p, n, []) ∈ live bs)).
  { apply (runs_alloc demo_mem _ demo_blks); [exact Hi|exact Hcb|unfold two64; lia| |].
    - intros Hno. exfalso. apply demo_fits in Hno; [done|]. by vm_compute.
    - intros p s' _ ([_ Ho2 Ho] & bs' & sz & l1 & l2 & Hi' & _ & Hl & Hl' & Hsz & _).
      exists p, sz, bs'. change (min_size 100) with 112 in Hsz. split_ands; [done|congruence|congruence|lia|].
      rewrite Hl'. apply elem_of_app. right. left. }
  unfold demo_get. apply runs_inv in Hr as (p & s' & E & Hs). by rewrite E.
Qed.

Lemma mpool_free_correct_witness :
  exists p s' bs', mpool_free p demo_get = Some (tt, s') /\ pool_inv demo_mem s' bs'.
Proof.
  destruct demo_get_inv as (p & n & bs & Hi & _ & _ & _ & Hin).
  destruct (mpool_free_correct demo_mem demo_get bs p n [] Hi Hin)
    as (s' & bs' & _ & _ & E & Hi' & _).
  exists p, s', bs'. exact (conj E Hi').
Defined.

(** C6: aligned allocation.  For an alignment [2^k] of 16 or more, and provided no free block
    starts exactly 16 bytes before an aligned address, [mpool_aligned_alloc] always returns: NULL
    with the pool as it was when no free block holds the request at an aligned address, else a
    block as for [mpool_alloc] whose address is a multiple of [2^k]; the bytes skipped before it
    become a free block again. *)
Theorem mpool_aligned_alloc_correct (out : mem) (s : st mpool) (bs : list blk) (req k : Z) :
  pool_inv out s bs -> mp_cb_reqmem (smgr s) = None -> aligned_args s req k ->
  no_sliver (2 ^ k) bs ->
  exists p s', mpool_aligned_alloc req (2 ^ k) s = Some (p, s') /\
    ((p = NULL /\ s' = s /\ no_fit (fits_aligned_b (min_size req) (2 ^ k)) bs) \/
     (~ no_fit (fits_aligned_b (min_size req) (2 ^ k)) bs /\
      served out s bs (min_size req) p s' /\ p mod 2 ^ k = 0)).
Proof.
  intros Hi Hcb Hargs Hns.
  assert (Hr : runs (mpool_aligned_alloc req (2 ^ k)) s (fun p s' =>
    (p = NULL /\ s' = s /\ no_fit (fits_aligned_b (min_size req) (2 ^ k)) bs) \/
    (~ no_fit (fits_aligned_b (min_size req) (2 ^ k)) bs /\
      served out s bs (min_size req) p s' /\ p mod 2 ^ k = 0))).
  { apply (runs_aligned_alloc out s bs); auto. }
  apply runs_inv in Hr as (p & s' & E & H). by exists p, s'.
Qed.

Lemma mpool_aligned_alloc_correct_witness :
  exists p s', mpool_aligned_alloc 100 (2 ^ 6) demo_pool = Some (p, s') /\
    ((p = NULL /\ s' = demo_pool /\ no_fit (fits_aligned_b (min_size 100) (2 ^ 6)) demo_blks) \/
     (~ no_fit (fits_aligned_b (min_size 100) (2 ^ 6)) demo_blks /\
      served demo_mem demo_pool demo_blks (min_size 100) p s' /\ p mod 2 ^ 6 = 0)).
Proof.
  destruct demo_inv as (Hi & _ & Hcb & Hp & Hs).
  apply (mpool_aligned_alloc_correct demo_mem demo_pool demo_blks 100 6 Hi Hcb).
  - split; rewrite ?Hp, ?Hs; vm_compute; split; congruence.
  - intros b Hb _. apply list_elem_of_singleton in Hb as ->. vm_compute. congruence.
Defined.

(** An alignment that is not a power of two is refused: NULL, and nothing has changed. *)
Lemma mpool_aligned_alloc_refuses (s : st mpool) (req align : Z) :
  align &! (align -! 1) <> 0 -> mpool_aligned_alloc req align s = Some (NULL, s).
Proof. intros H. unfold mpool_aligned_alloc. by apply Z.eqb_neq in H as ->. Qed.

(** Initialisation.  On an aligned, mapped area of at least 16416 bytes [mpool_init] succeeds
    and leaves one free block that spans the area less its tags; a NULL area, an empty one and one
    whose size is not a multiple of 16 are refused with nothing changed. *)
Lemma mpool_init_correct (m : mem) (p0 : mpool) (ptr size : Z) :
  (area_given m ptr size ->
   exists s', mpool_init ptr size (St m p0) = Some (true, s') /\
    pool_inv m s' [first_blk ptr size true true] /\ tidy s' [first_blk ptr size true true] /\
    mp_ptr (smgr s') = ptr /\ mp_size (smgr s') = size /\ mp_cb_reqmem (smgr s') = None) /\
    (ptr = NULL \/ size = 0 \/ size mod 16 <> 0 ->
   mpool_init ptr size (St m p0) = Some (false, St m p0)).
Proof.
  split.
  - intros Hg.
    assert (Hr : runs (mpool_init ptr size) (St m p0) (fun b s' => b = true /\
    pool_inv m s' [first_blk ptr size true true] /\ tidy s' [first_blk ptr size true true] /\
    mp_ptr (smgr s') = ptr /\ mp_size (smgr s') = size /\ mp_cb_reqmem (smgr s') = None)).
    { by apply runs_mpool_init. }
    apply runs_inv in Hr as (b & s' & E & -> & H). by exists s'.
  - intros H. unfold mpool_init. change (2 * SIZEOF_SIZE_T - 1) with (Z.ones 4).
    rewrite Z.land_ones by lia. change (2 ^ 4) with 16.
    destruct (Z.eqb_spec ptr NULL); [done|]. destruct (Z.eqb_spec size 0); [done|]. simpl.
    destruct (Z.eqb_spec (size mod 16) 0); [naive_solver|done].
Qed.

(** A pool never grows.  Whatever callback with [cb_reqmem_t]'s contract the owner registers
    (and whatever total [cb_delmem_t]), [mpool_reqmem] fails and leaves the pool's fields as they
    were: it compares the address it gets with the start of the pool, not with its end. *)
Lemma mpool_reqmem_refuses (s : st mpool) (n : Z) (f : cb_reqmem_t) :
  mp_cb_reqmem (smgr s) = Some f -> reqmem_conforms f ->
  match mp_cb_delmem (smgr s) with Some g => forall a k m, is_Some (g a k m) | None => True end ->
  0 <= mp_ptr (smgr s) < two64 -> 0 < mp_size (smgr s) < two64 ->
  exists s', mpool_reqmem n s = Some (false, s') /\ smgr s' = smgr s.
Proof.
  intros Hcb Hf Hdel Hp Hs.
  assert (Hne : mp_ptr (smgr s) +! mp_size (smgr s) <> mp_ptr (smgr s)).
  { unfold add64. intros E. destruct (decide (mp_ptr (smgr s) + mp_size (smgr s) < two64)).
    - rewrite u64_small in E by lia. lia.
    - rewrite <- (u64_shift _ (-1)), u64_small in E by lia. lia. }
  unfold mpool_reqmem, bind, field, gets. rewrite Hcb.
  destruct (Hf (mp_ptr (smgr s) +! mp_size (smgr s)) (PADDING_16k n) (smem s)) as (r & m' & E & Hr).
  unfold run_reqmem. rewrite E. destruct Hr as [->| ->]; [by eexists|].
  destruct (Z.eqb_spec (mp_ptr (smgr s) +! mp_size (smgr s)) NULL); [by eexists|].
  apply Z.eqb_neq in Hne as ->. simpl. destruct (mp_cb_delmem (smgr s)) as [g|]; [|by eexists].
  unfold run_delmem. destruct (Hdel (mp_ptr (smgr s) +! mp_size (smgr s)) (PADDING_16k n) m')
    as [m'' E']. simpl. rewrite E'. by eexists.
Qed.

(** C10: reallocation.  When there is room for a live block to become [req] bytes long (it is long
    enough already, the block after it is free and makes up the rest, or some free block holds the
    request), [mpool_realloc] returns a block of at least the rounded size that starts with the old
    contents, cut to the new size at most; every other live block keeps its place, size and
    contents, and the old block is gone if the new one is elsewhere. *)
Theorem mpool_realloc_correct (out : mem) (s : st mpool) (l r : list blk) (b : blk) (req : Z) :
  pool_inv out s (l ++ b :: r) -> blisted b = false -> mp_cb_reqmem (smgr s) = None ->
  0 <= req <= two64 - 16 -> can_resize (l ++ b :: r) b r (min_size req) ->
  exists p' s', mpool_realloc (bptr b) req s = Some (p', s') /\
    resized out s (l ++ b :: r) (bptr b) (min_size req) (bdata b) p' s'.
Proof.
  intros Hi Hb Hcb Hreq Hcan.
  assert (Hr : runs (mpool_realloc (bptr b) req) s
    (resized out s (l ++ b :: r) (bptr b) (min_size req) (bdata b))) by by apply (runs_realloc out s l b r).
  apply runs_inv in Hr as (p' & s' & E & H). by exists p', s'.
Qed.

Lemma mpool_realloc_correct_witness :
  exists p p' s', mpool_realloc p 50 demo_get = Some (p', s').
Proof.
  destruct demo_get_inv as (p & n & bs & Hi & Hcb & _ & Hn & Hin).
  apply live_in in Hin as (l & b & r & -> & Hb & <- & <- & _). exists (bptr b).
  assert (Hreq : 0 <= 50 <= two64 - 16) by (unfold two64; lia).
  assert (Hcan : can_resize (l ++ b :: r) b r (min_size 50)).
  { left. change (min_size 50) with 64. lia. }
  destruct (mpool_realloc_correct demo_mem demo_get l r b 50 Hi Hb Hcb Hreq Hcan)
    as (p' & s' & E & _).
  exists p', s'. exact E.
Defined.

(** Reallocation without room.  When there is none of the three kinds of room and address 0
    is not mapped, [mpool_realloc] faults: it copies the block to the NULL that [mpool_alloc]
    returned. *)
Lemma mpool_realloc_no_room (out : mem) (s : st mpool) (l r : list blk) (b : blk) (req : Z) :
  pool_inv out s (l ++ b :: r) -> blisted b = false -> mp_cb_reqmem (smgr s) = None ->
  0 <= req <= two64 - 16 -> ~ can_resize (l ++ b :: r) b r (min_size req) ->
  smem s !! 0 = None ->
  mpool_realloc (bptr b) req s = None.
Proof.
  intros Hi Hb Hcb Hreq Hno Hz. pose proof Hi as [Hp Hq]. pose proof Hp as [Ha _].
  unfold can_resize in Hno. destruct (min_size_ok req Hreq) as (Hn & Hn2 & Hn16).
  assert (Hmax : 0 <= min_size req <= two64 - 16) by (unfold two64 in *; Z.div_mod_to_equations; lia).
  pose proof (runs_blk_size _ _ _ s _ b (fun n s1 => n = bsz b /\ s1 = s) Ha
    ltac:(apply blk_in_cases; tauto) (conj eq_refl eq_refl)) as H1.
  pose proof (runs_next_fits out s l b r (min_size req)
    (fun f s1 => f = next_fits_b b r (min_size req) /\ s1 = s) Hp (conj eq_refl eq_refl)) as H2.
  assert (H3 : runs (mpool_alloc (min_size req)) s (fun p s1 => p = NULL /\ s1 = s)).
  { eapply (runs_alloc out s); [done|done|done|done|]. rewrite min_size_idem by done. tauto. }
  apply runs_inv in H1 as (n & s1 & E1 & -> & ->). apply runs_inv in H2 as (f & s2 & E2 & -> & ->).
  apply runs_inv in H3 as (p & s3 & E3 & -> & ->).
  unfold mpool_realloc. rewrite (listed_nonnull _ _ _ _ _ _ _ Ha). unfold bind at 1. rewrite E1.
  replace (min_size req <=? bsz b) with false by lia. unfold grow_or_move, bind at 1. rewrite E2.
  destruct (next_fits_b b r (min_size req)); [tauto|]. unfold bind at 1. rewrite E3.
  destruct (area_blk _ _ _ _ _ b Ha) as [(?&_) _ _ _ _ _ _ _ _]; [apply blk_in_cases; tauto|].
  unfold bind at 1. by rewrite (memcpy_null s (bptr b) (bsz b)) by (done || lia).
Qed.

Lemma demo_low s bs : pool_inv demo_mem s bs -> smem s !! 0 = None.
Proof.
  intros [[Ha _] _]. pose proof (ao_base _ _ _ _ _ Ha).
  rewrite (ao_out _ _ _ _ _ Ha) by lia. apply demo_mem_low.
Qed.

(** In the demo pool no block can become 20000 bytes long. *)
Lemma demo_no_room s l b r :
  pool_inv demo_mem s (l ++ b :: r) -> mp_size (smgr s) = demo_size ->
  ~ can_resize (l ++ b :: r) b r 20000.
Proof.
  intros [[Ha _] _] Hs. rewrite Hs in Ha.
  assert (Hd : demo_size = 16416) by done. rewrite Hd in Ha. clear Hd.
  assert (Hall : forall c, c ∈ l ++ b :: r -> bsz c <= 16384).
  { intros c Hc. destruct (area_blk _ _ _ _ _ _ Ha Hc). lia. }
  intros [H|[H|H]].
  - specialize (Hall b ltac:(apply blk_in_cases; tauto)). lia.
  - destruct r as [|c r]; [done|]. apply andb_true_iff in H as [_ H].
    pose proof (ao_chain _ _ _ _ _ Ha) as Hch.
    apply chain_app in Hch as (x & _ & Hx & Hc & _).
    destruct (area_blk _ _ _ _ _ b Ha); [apply blk_in_cases; tauto|].
    destruct (area_blk _ _ _ _ _ c Ha); [set_solver|]. lia.
  - apply H. intros c Hc _. apply Z.leb_gt. specialize (Hall c Hc). lia.
Qed.
