(* ===== verification/PoolWidth.v ===== *)
(** PoolWidth: [mpool_alloc] on every 64-bit request size, the sizes that wrap around in [PADDING]
    included. *)

From Stdlib Require Import ZArith Lia.
From stdpp Require Import prelude gmap.
From S2P Require Import Prelude Mem Block Freelist Pool HeapInv HeapOps ListOps.
From S2P Require Import PoolOps PoolMatch PoolFacts PoolInit PoolSpec PoolThms.

(** A request above [2^64 - 16] wraps around in [PADDING] and is rounded to 0. *)
Lemma min_size_wraps req : two64 - 16 < req < two64 -> min_size req = 0.
Proof.
  intros H. unfold min_size, PADDING, add64, sub64. sizes.
  assert (0 < two64 - 16) by done. replace (req =? 0) with false by lia.
  rewrite <- (u64_shift (req + 16) (-1)), (u64_small (req + 16 + -1 * two64)) by lia.
  rewrite u64_small by lia. change (16 - 1) with 15.
  rewrite align_down_16 by lia. Z.div_mod_to_equations; lia.
Qed.

(** ** A block cut at 0 *)

Section Cut.
Context (out : mem) (s : st mpool) (l r : list blk) (b : blk).
Hypothesis Hp : pool_ok out s (l ++ b :: r).
Hypothesis Hb : blisted b = false.
Hypothesis Hlen : 64 <= bsz b.

(** What [blk_split] leaves behind the empty block: the rest, tagged in use, and its tag words. *)
Definition tail_blk : blk := Blk (bptr b + 16) (bsz b - 16) false false [].

(** A change of memory within the extent of [b]. *)
Record inside (m : mem) : Prop := {
  in_frame : forall a, a < bptr b - 8 \/ bptr b + bsz b + 8 <= a -> m !! a = smem s !! a;
  in_mapped : forall lo hi, mapped (smem s) lo hi -> mapped m lo hi
}.

Lemma cut_facts :
  blk_ok b /\ 80 <= bptr b /\ bptr b + bsz b + 16 < two64 /\ bptr b mod 16 = 0 /\
  mapped (smem s) (bptr b - 16) (bptr b + bsz b + 16).
Proof using Hp.
  destruct Hp as [Ha _]. destruct (area_blk _ _ _ _ _ b Ha); [apply blk_in_cases; tauto|].
  split_ands; [done|lia|lia|done|]. eapply mapped_sub; [done|lia|lia].
Qed.

(** The nodes of the free lists lie outside [b]. *)
Lemma node_beside ls id x :
  lists_ok (smem s) (mp_large_blk (smgr s)) (mp_freed (smgr s)) (l ++ b :: r) ls ->
  -1 <= id < 8 -> x ∈ ls id -> x + 32 <= bptr b \/ bptr b + bsz b + 16 <= x.
Proof using Hp Hb.
  intros Hl Hid Hx. destruct Hp as [Ha _].
  destruct (node_block _ _ _ _ _ _ _ Hl Hid Hx) as (c & Hc & <- & Hcl & _).
  destruct (area_blk _ _ _ _ _ _ Ha Hc) as [(?&_) _ _ _ _ _ _ _ _].
  destruct (chain_one _ _ _ _ _ (ao_blk _ _ _ _ _ Ha) (ao_chain _ _ _ _ _ Ha)) as [Hll Hrr].
  apply blk_in_cases in Hc as [->|[Hc|Hc]]; [congruence| |].
  - apply Hll in Hc. lia.
  - apply Hrr in Hc. lia.
Qed.

(** The free lists are the same in a memory that differs inside [b] only. *)
Lemma lists_inside m ls id :
  lists_ok (smem s) (mp_large_blk (smgr s)) (mp_freed (smgr s)) (l ++ b :: r) ls ->
  inside m -> -1 <= id < 8 ->
  dll m (ls id) /\ NoDup (ls id) /\ bptr tail_blk ∉ ls id /\ nodes_ok m (bptr tail_blk :: ls id).
Proof using Hp Hb Hlen.
  intros Hl [Hfr Hmp] Hid. destruct cut_facts as (_ & ? & ? & Hal & Hm).
  assert (Hn : forall x, x ∈ ls id -> x + 32 <= bptr b \/ bptr b + bsz b + 16 <= x).
  { intros x. by apply node_beside. }
  split_ands.
  - apply (dll_frame (smem s)); [| |by apply (lo_dll _ _ _ _ _ Hl)]; intros x Hx;
      apply load64_frame; intros a Ha; apply Hfr.
    + apply Hn in Hx. lia.
    + assert (Hx' : x ∈ ls id) by (destruct (ls id); [by apply not_elem_of_nil in Hx|by right]).
      apply Hn in Hx'. lia.
  - by apply (lo_nodup _ _ _ _ _ Hl).
  - intros Hx. apply Hn in Hx. simpl in Hx. lia.
  - constructor.
    + unfold node_ok, tail_blk. simpl. split_ands; [Z.div_mod_to_equations; lia|lia|lia|].
      apply Hmp. eapply mapped_sub; [exact Hm|lia|lia].
    + destruct Hp as [Ha _]. eapply Forall_impl; [by eapply lists_nodes|].
      intros x (? & ? & ? & ?). unfold node_ok. auto.
Qed.

Lemma tail_facts :
  bsz tail_blk mod 16 = 0 /\ 0 <= bsz tail_blk /\ bsz tail_blk + 16 < two64 /\
  bptr tail_blk = bptr b + 16 /\ bsz tail_blk = bsz b - 16.
Proof using Hp Hlen.
  destruct cut_facts as ((_ & ? & _) & ? & ? & _). unfold tail_blk. simpl.
  split_ands; try lia. Z.div_mod_to_equations; lia.
Qed.

Lemma runs_tail_size (s1 : st mpool) w f Q :
  load64 (smem s1) (bptr tail_blk - 8) = Some w -> tagw (set_flag f tail_blk) w ->
  Q (bsz tail_blk) s1 -> runs (blk_size (bptr tail_blk)) s1 Q.
Proof using Hp Hlen.
  intros Hw Ht HQ. destruct tail_facts as (? & ? & ? & E1 & _).
  destruct cut_facts as (_ & ? & ? & _).
  unfold blk_size, blk_head, SIZEOF_SIZE_T. norm_words.
  eapply runs_bind, runs_ld; [done|]. apply runs_ret.
  by rewrite (tag_size (set_flag f tail_blk)).
Qed.

(** The words of the empty block are in [m'] as in [m]. *)
Definition words_kept (m m' : mem) : Prop :=
  mapped m' (bptr b - 8) (bptr b + 8) /\
  load64 m' (bptr b - 8) = load64 m (bptr b - 8) /\ load64 m' (bptr b) = load64 m (bptr b).

(** Putting the rest on a free list leaves the two words of the empty block alone. *)
Lemma runs_put_rest ls id (s2 : st mpool) m1 Q :
  lists_ok (smem s) (mp_large_blk (smgr s)) (mp_freed (smgr s)) (l ++ b :: r) ls ->
  inside (smem s2) -> -1 <= id < 8 ->
  (forall a, bptr b - 8 <= a < bptr b + 8 -> smem s2 !! a = m1 !! a) ->
  (forall m3, words_kept m1 m3 -> Q (bptr tail_blk) (with_mem m3 s2)) ->
  runs (freelist_put (head_of (mp_large_blk (smgr s)) (mp_freed (smgr s)) id) (bptr tail_blk)) s2 Q.
Proof using Hp Hb Hlen.
  intros Hl Hin Hid Hk HQ. destruct (lists_inside _ ls id Hl Hin Hid) as (Hd & Hnd & Hnx & Hok).
  destruct cut_facts as (_ & ? & ? & _ & Hm). destruct tail_facts as (_ & _ & _ & E1 & _).
  rewrite (lo_head _ _ _ _ _ Hl) by done. apply runs_freelist_put; [done..|].
  intros m3 [_ F2 F3]. apply HQ.
  assert (Hkeep : forall a, bptr b - 8 <= a < bptr b + 8 -> m3 !! a = m1 !! a).
  { intros a Ha. rewrite F2, Hk; [done|lia|].
    intros y [->|Hy]%elem_of_cons; [lia|]. apply (node_beside ls id y Hl Hid) in Hy. lia. }
  unfold words_kept. split_ands; [|apply load64_frame; intros; apply Hkeep; lia..].
  apply F3, (in_mapped _ Hin). eapply mapped_sub; [exact Hm|lia|lia].
Qed.

Lemma runs_free_rest (s1 : st mpool) w Q :
  smgr s1 = smgr s -> inside (smem s1) ->
  load64 (smem s1) (bptr tail_blk - 8) = Some w -> tagw tail_blk w ->
  load64 (smem s1) (bptr tail_blk + bsz tail_blk) = Some w ->
  (forall s2, words_kept (smem s1) (smem s2) -> Q tt s2) ->
  runs (do_free (bptr tail_blk)) s1 Q.
Proof using Hp Hb Hlen.
  intros Hg Hin Hw Ht Hw2 HQ. destruct cut_facts as (_ & ? & ? & Hal & Hm).
  destruct tail_facts as (Ht1 & Ht2 & Ht3 & Et1 & Et2).
  pose proof (tag_setfreed tail_blk Ht1 Ht2 Ht3 w Ht) as Htf.
  assert (Hr : 0 <= w |! FREE_FLAG < two64) by by eapply (tag_range (set_flag true tail_blk)).
  unfold do_free. eapply runs_bind, (runs_tail_size _ _ false); [exact Hw|exact Ht|].
  unfold blk_setfreed. apply runs_bind, (runs_blk_update _ _ _ _ w w); [lia|done|lia| |done..|].
  { apply (in_mapped _ Hin). eapply mapped_sub; [exact Hm|lia|lia]. }
  intros m2 [U1 U2 U3 U4]. pose proof Hp as [_ [ls Hl]].
  pose proof (size2id_range (bsz tail_blk)) as Hid.
  set (id := freelists_size2id (bsz tail_blk)) in *.
  assert (Hin2 : inside m2).
  { split; [|by intros; apply U4, (in_mapped _ Hin)].
    intros a Ha. rewrite U3 by lia. by apply (in_frame _ Hin). }
  assert (Hput : forall (s2 : st mpool) Q', smem s2 = m2 ->
    (forall m3, words_kept (smem s1) m3 -> Q' (bptr tail_blk) (with_mem m3 s2)) ->
    runs (freelist_put (head_of (mp_large_blk (smgr s)) (mp_freed (smgr s)) id)
            (bptr tail_blk)) s2 Q').
  { intros s2 Q' <- HQ'. apply (runs_put_rest ls id s2 (smem s1)); [done..| |done].
    intros a Ha. apply U3; lia. }
  apply runs_bind, runs_gets, runs_bind. cbn [smgr with_mem]. unfold freelists_put.
  eapply runs_bind, (runs_tail_size _ _ true); [exact U1|exact Htf|]. fold id. cbv zeta.
  destruct (Z.ltb_spec id 0) as [Hneg|Hpos]; rewrite Hg.
  - apply runs_ret, runs_bind, runs_modify, runs_bind, runs_gets, runs_bind.
    cbn [smgr with_mgr with_mem set_freed mp_large_blk]. rewrite Hg. unfold head_of in Hput.
    replace (id <? 0) with true in Hput by lia.
    apply Hput; [done|]. intros m3 Hk. by apply runs_modify, HQ.
  - apply runs_bind. rewrite <- (head_of_freed (mp_large_blk (smgr s))) by done.
    apply Hput; [done|]. intros m3 Hk. by apply runs_ret, runs_bind, runs_modify, runs_ret, HQ.
Qed.
End Cut.

(** An empty block: both its tag words say 0 and may carry the 2M flag. *)
Definition empty_at (m : mem) (p : Z) (w : Z) : Prop :=
  (w = 0 \/ w = 4) /\ mapped m (p - 8) (p + 8) /\ load64 m (p - 8) = Some w /\ load64 m p = Some w.

Lemma empty_size {X} (s : st X) p w :
  empty_at (smem s) p w -> 8 <= p < two64 -> blk_size p s = Some (0, s).
Proof.
  intros (Hw & _ & H1 & _) Hp. unfold blk_size, blk_head, SIZEOF_SIZE_T, bind, ld. norm_words.
  rewrite H1. by destruct Hw as [->| ->].
Qed.

(** [finish_alloc] gives an empty block out as one of 0 bytes. *)
Lemma runs_finish_empty (s : st mpool) p w Q :
  empty_at (smem s) p w -> 8 <= p -> p + 16 < two64 ->
  (forall s', mpool_msize p s' = Some (0, s') -> Q p s') ->
  runs (finish_alloc p) s Q.
Proof.
  intros He Hp Hhi HQ. pose proof He as (Hw & Hm & H1 & H2). unfold finish_alloc.
  apply runs_bind. unfold runs. rewrite (empty_size s p w) by (done || lia).
  assert (Hf : w &! ~! FREE_FLAG = w) by by destruct Hw as [->| ->].
  assert (Hr : 0 <= w &! ~! FREE_FLAG < two64) by (rewrite Hf; unfold two64; lia).
  apply runs_bind. unfold blk_setalloced.
  apply (runs_blk_update p 0 _ s w w); rewrite ?Z.add_0_r; [lia|lia|lia|done..|].
  intros m' [T1 T2 _ T4]. apply runs_bind, runs_gets, runs_bind, runs_modify, runs_ret, HQ.
  unfold mpool_msize. replace (p =? NULL) with false by (unfold NULL; lia).
  apply (empty_size _ p w); [|lia]. rewrite Hf, ?Z.add_0_r in *.
  unfold empty_at. auto.
Qed.

Lemma runs_cut_at_0 out (s : st mpool) l b r Q :
  pool_ok out s (l ++ b :: r) -> blisted b = false -> 64 <= bsz b ->
  (forall s', mpool_msize (bptr b) s' = Some (0, s') -> Q (bptr b) s') ->
  runs (try_split_and_free (bptr b) 0 ;; finish_alloc (bptr b)) s Q.
Proof.
  intros Hp Hb Hlen HQ. pose proof Hp as [Ha _].
  destruct (cut_facts _ _ _ _ _ Hp) as ((_ & Hm16 & _) & ? & ? & Hal & Hm).
  destruct (tail_facts _ _ _ _ _ Hp Hlen) as (Ht1 & Ht2 & Ht3 & Et1 & Et2).
  assert (Hbi : b ∈ l ++ b :: r) by (apply blk_in_cases; tauto).
  unfold try_split_and_free. apply runs_bind. eapply runs_bind, runs_blk_size; [done..|].
  sizes. norm_words. replace (0 + 64 <=? bsz b) with true by lia. apply runs_bind.
  unfold blk_split. eapply runs_bind, runs_blk_area_is_2M; [done..|]. intros big.
  eapply runs_bind, runs_blk_size; [done..|].
  apply runs_retag; try done; try lia. { eapply mapped_sub; [exact Hm|lia|lia]. }
  intros m1 [T1 T2 T3 T4]. cbv zeta. sizes. norm_words. change (0 + 16) with 16.
  rewrite <- Et1, <- Et2.
  apply runs_retag; try done; try lia.
  { apply T4. eapply mapped_sub; [exact Hm|lia|lia]. }
  intros m2 [U1 U2 U3 U4]. apply runs_ret. cbn [smem with_mem] in *.
  eapply runs_bind, (runs_free_rest out s l r b); try done.
  { split; cbn [smem with_mem]; [|by auto]. intros a Hx. rewrite U3, T3 by lia. done. }
  { apply tag_new. }
  intros s2 (K1 & K2 & K3). apply runs_ret. cbn [smem with_mem] in *.
  apply (runs_finish_empty s2 _ (0 + 4 * b2z big)); [|lia|lia|done].
  rewrite Z.add_0_r in T2. unfold empty_at. split_ands; [destruct big; simpl; lia|done|rewrite K2|rewrite K3].
  - rewrite <- T1. apply load64_frame. intros. apply U3; lia.
  - rewrite <- T2. apply load64_frame. intros. apply U3; lia.
Qed.

(** The size [mpool_msize] tells of a block, and of a live one. *)
Lemma block_msize out (s : st mpool) bs b :
  pool_ok out s bs -> b ∈ bs -> mpool_msize (bptr b) s = Some (bsz b, s).
Proof.
  intros [Ha _] Hb. destruct (area_blk _ _ _ _ _ _ Ha Hb).
  assert (Hr : runs (blk_size (bptr b)) s (fun v s' => v = bsz b /\ s' = s)) by by eapply runs_blk_size.
  unfold mpool_msize. replace (bptr b =? NULL) with false by (unfold NULL; lia).
  by apply runs_inv in Hr as (v & s3 & -> & -> & ->).
Qed.

Lemma live_msize out (s : st mpool) bs p n d :
  pool_inv out s bs -> (p, n, d) ∈ live bs -> mpool_msize p s = Some (n, s).
Proof.
  intros [Hp _] (l & b & r & -> & _ & <- & <- & _)%live_in.
  eapply block_msize; [done|]. apply blk_in_cases. tauto.
Qed.

(** A request that wraps around is answered with the first free block the search meets, cut to
    nothing when it is 64 bytes or longer. *)
Lemma runs_alloc_wrapped out (s : st mpool) bs req Q :
  pool_inv out s bs -> mp_cb_reqmem (smgr s) = None -> two64 - 16 < req < two64 ->
  (Forall (fun b => bflag b = false) bs -> Q NULL s) ->
  (forall p n s', p <> NULL -> n < 64 -> mpool_msize p s' = Some (n, s') -> Q p s') ->
  runs (mpool_alloc req) s Q.
Proof.
  intros Hi Hcb Hreq HQ1 HQ2. pose proof Hi as [Hp Hq]. pose proof Hp as [Ha _].
  unfold mpool_alloc. rewrite min_size_wraps by done. apply runs_bind.
  assert (Hall : forall b, b ∈ bs -> fits_b 0 b = true).
  { intros b Hb. destruct (area_blk _ _ _ _ _ _ Ha Hb) as [(?&_) _ _ _ _ _ _ _ _].
    unfold fits_b. lia. }
  eapply (runs_match_any out _ (fits_b 0)); [done|by eapply picks_size| | |].
  - intros b _ Hf. unfold fits_b in Hf. lia.
  - intros x s1 (l & b & r & -> & -> & Hb & _ & _ & Hp1).
    rewrite (listed_nonnull _ _ _ _ _ _ _ Ha). change (bptr b) with (bptr (set_listed false b)).
    assert (Hnn : bptr b <> NULL) by by apply Z.eqb_neq; eapply listed_nonnull.
    destruct (decide (64 <= bsz b)).
    + apply (runs_cut_at_0 out s1 l _ r); [done..|]. intros s2. by apply HQ2.
    + apply runs_bind. unfold try_split_and_free.
      eapply runs_bind, runs_blk_size; [apply Hp1|apply blk_in_cases; tauto|].
      change (0 +! 8 * SIZEOF_SIZE_T) with 64. simpl bsz. replace (64 <=? bsz b) with false by lia.
      apply runs_ret. eapply runs_finish_alloc; [exact Hp1|done|]. intros s2 Hp2 _ _ _ _.
      apply (HQ2 _ (bsz b)); [done|lia|].
      eapply (block_msize _ _ _ (set_flag false (set_listed false b))); [exact Hp2|].
      apply blk_in_cases. tauto.
  - intros x s1 Hnf. pose proof (none_found_no_fit _ _ _ _ _ Hq Hnf) as Hno.
    destruct Hnf as (-> & -> & _). simpl. apply runs_bind, mpool_reqmem_none; [done|].
    apply runs_ret, HQ1, Forall_forall. intros b Hb. destruct (bflag b) eqn:E; [|done].
    specialize (Hno b Hb E). rewrite Hall in Hno; done.
Qed.

(** C8: the size of the block against the size asked for, at every width.  [mpool_alloc] returns
    for each of the [2^64] request sizes.  A block given for at most [2^64 - 16] bytes holds at
    least these and less than 96 more.  Above, the rounding wraps around to 0: the request that no
    memory can serve is not refused but served, from any free block, with fewer than 64 bytes;
    only a pool without a free block answers it with NULL. *)
Theorem mpool_alloc_bounds (out : mem) (s : st mpool) (bs : list blk) (req : Z) :
  pool_inv out s bs -> mp_cb_reqmem (smgr s) = None -> 0 <= req < two64 ->
  exists p s', mpool_alloc req s = Some (p, s') /\ (p = NULL -> s' = s) /\
    (p <> NULL -> exists n, mpool_msize p s' = Some (n, s') /\
       (req <= two64 - 16 -> req <= n < req + 96) /\ (two64 - 16 < req -> n < 64)) /\
    (two64 - 16 < req -> (exists b, b ∈ bs /\ bflag b = true) -> p <> NULL).
Proof.
  intros Hi Hcb Hreq. set (R := fun p s' => (p = NULL -> s' = s) /\
    (p <> NULL -> exists n, mpool_msize p s' = Some (n, s') /\
       (req <= two64 - 16 -> req <= n < req + 96) /\ (two64 - 16 < req -> n < 64)) /\
    (two64 - 16 < req -> (exists b, b ∈ bs /\ bflag b = true) -> p <> NULL)).
  assert (Hr : runs (mpool_alloc req) s R).
  { unfold R. destruct (decide (req <= two64 - 16)) as [Hle|Hgt].
    - destruct (min_size_ok req ltac:(lia)) as (Hm & _).
      apply (runs_alloc out s bs); [done|done|lia| |].
      + intros _. split_ands; [done|done|lia].
      + intros p s' _ (_ & bs' & sz & l1 & l2 & Hi' & _ & _ & Hl & Hsz & _ & Hn).
        split_ands; [done| |done]. intros _. exists sz. split_ands; [|lia|lia].
        apply (live_msize out s' bs' p sz []); [done|]. rewrite Hl. set_solver.
    - apply (runs_alloc_wrapped out s bs); [done|done|lia| |].
      + intros Hall. split_ands; [done|done|]. intros _ (b & Hb & Hf).
        rewrite Forall_forall in Hall. rewrite Hall in Hf by done. done.
      + intros p n s' Hn Hlt Hsz. split_ands; [done| |done].
        intros _. exists n. split_ands; [done|lia|done]. }
  apply runs_inv in Hr as (p & s' & E & H). by exists p, s'.
Qed.

(** In a pool of 16416 bytes a request for [2^64 - 1] bytes is granted, with fewer than 64. *)
Lemma mpool_alloc_bounds_witness :
  exists p s' n, mpool_alloc (two64 - 1) demo_pool = Some (p, s') /\ p <> NULL /\
    mpool_msize p s' = Some (n, s') /\ n < 64.
Proof.
  destruct demo_inv as (Hi & _ & Hcb & _).
  destruct (mpool_alloc_bounds demo_mem demo_pool demo_blks (two64 - 1) Hi Hcb)
    as (p & s' & E & _ & Hsz & Hnn); [unfold two64; lia|].
  assert (Hp : p <> NULL).
  { apply Hnn; [lia|]. exists (first_blk 4096 demo_size true true). split; [left|done]. }
  destruct (Hsz Hp) as (n & Hn & _ & Hlt). exists p, s', n.
  split_ands; [exact E|exact Hp|exact Hn|apply Hlt; lia].
Defined.
