(* ===== verification/Heap.v ===== *)
(** Heap: the kernel's [malloc] family ([mm/heap/heap.cpp]): one pool behind one spin lock. *)

From Stdlib Require Import ZArith Lia.
From stdpp Require Import prelude gmap.
From S2P Require Import Prelude Mem Spinlock Block Klibc Pool.

(** The two static variables of the file, and the RFLAGS of the calling processor. *)
Record heap := HeapSt { hp_pool : mpool; hp_lock : spinlock_t; hp_flags : Z }.

Definition set_pool v h := HeapSt v (hp_lock h) (hp_flags h).
Definition set_lock v f h := HeapSt (hp_pool h) v f.

Abbreviation HM := (M (st heap)).

(** The pool part of the state, and a pool operation run on [&pool]. *)
Definition pool_of (s : st heap) : st mpool := St (smem s) (hp_pool (smgr s)).
Definition put_pool (s : st heap) (p : st mpool) : st heap := St (smem p) (set_pool (smgr p) (smgr s)).
Definition on_pool {A} (c : PM A) : HM A :=
  fun s => match c (pool_of s) with Some (a, p) => Some (a, put_pool s p) | None => None end.

Definition KERNEL_HEAP_START : Z := 18446673704965373952. (* 0xffffc00000000000 *)
Definition KERNEL_HEAP_SIZE : Z := 8 * 1024 * 1024.

Definition get_all_memusage : HM Z := ret KERNEL_HEAP_SIZE.

Definition alloc_enter : HM unit :=
  h <- gets (@smgr _) ;;
  '(l, f) <- of_opt (spin_lock (hp_lock h) (hp_flags h)) ;;
  modify (with_mgr (set_lock l f h)).
Definition alloc_exit : HM unit :=
  h <- gets (@smgr _) ;;
  let '(l, f) := spin_unlock (hp_lock h) in
  modify (with_mgr (set_lock l f h)).

(** [alloc_enter(); x = c; alloc_exit(); return x;] *)
Definition locked {A} (c : PM A) : HM A :=
  alloc_enter ;; x <- on_pool c ;; alloc_exit ;; ret x.

Definition malloc (size : Z) : HM Z := locked (mpool_alloc size).
Definition free (ptr : Z) : HM unit := locked (mpool_free ptr).
Definition xmalloc (size : Z) : HM Z := malloc size.

Definition calloc (n size0 : Z) : HM Z :=
  if two64 <=? n * size0 then ret NULL
  else
    let size := n * size0 in
    ptr <- malloc size ;;
    if ptr =? NULL then ret NULL
    else memset ptr 0 size ;; ret ptr.

Definition realloc (ptr newsize : Z) : HM Z := locked (mpool_realloc ptr newsize).
Definition reallocarray (ptr n size : Z) : HM Z := realloc ptr (n *! size).
Definition aligned_alloc (align size : Z) : HM Z := locked (mpool_aligned_alloc size align).
Definition malloc_usable_size (ptr : Z) : HM Z := locked (mpool_msize ptr).
Definition memalign (align size : Z) : HM Z := locked (mpool_aligned_alloc size align).

Definition posix_memalign (memptr alignment size : Z) : HM Z :=
  ptr <- locked (mpool_aligned_alloc size alignment) ;;
  if ptr =? NULL then ret 1
  else sto memptr ptr ;; ret 0.

Definition valloc (size : Z) : HM Z := locked (mpool_aligned_alloc size PAGE_SIZE).
Definition pvalloc (size : Z) : HM Z := locked (mpool_aligned_alloc size PAGE_SIZE).

(** [table::page_table_flags] *)
Definition flag_present : Z := 1.
Definition flag_read_write : Z := 2.

(** The heap's client view of [arch_table::page_table::map_range] on the current address space:
    it makes [count] pages from [virt] readable and writable.  [physical = 0] asks for fresh
    frames. *)
Class AddressSpace := {
  map_range : Z -> Z -> Z -> Z -> mem -> option mem;
  map_range_maps : forall virt count flags m m',
    map_range virt 0 count flags m = Some m' -> has_flag flags flag_present = true ->
    has_flag flags flag_read_write = true -> mapped m' virt (virt + count * PAGE_SIZE)
}.

Definition init_heap `{AddressSpace} : HM unit :=
  let base_addr := KERNEL_HEAP_START in
  m <- gets (@smem _) ;;
  m' <- of_opt (map_range base_addr 0 (KERNEL_HEAP_SIZE / PAGE_SIZE)
                  (flag_present |! flag_read_write) m) ;;
  modify (with_mem m') ;;
  on_pool (mpool_init base_addr KERNEL_HEAP_SIZE) ;; ret tt.

(** ** Rules *)

Lemma runs_on_pool {A} (c : PM A) s Q :
  runs c (pool_of s) (fun a p => Q a (put_pool s p)) -> runs (on_pool c) s Q.
Proof. unfold runs, on_pool. by destruct (c (pool_of s)) as [[a p]|]. Qed.

(** No processor is inside the allocator. *)
Definition unlocked (s : st heap) : Prop := lock (hp_lock (smgr s)) = 0.

(** [s'] is [s] with the pool and the memory replaced; the lock is free again and the processor
    has its flags back. *)
Record released (s : st heap) (p : st mpool) (s' : st heap) : Prop := {
  rl_mem : pool_of s' = p;
  rl_lock : unlocked s';
  rl_flags : hp_flags (smgr s') = hp_flags (smgr s)
}.

Lemma runs_locked {A} (c : PM A) s Q :
  unlocked s -> runs c (pool_of s) (fun a p => forall s', released s p s' -> Q a s') ->
  runs (locked c) s Q.
Proof.
  intros Hu Hc. unfold locked, alloc_enter. apply runs_bind, runs_bind, runs_gets, runs_bind.
  eapply runs_of_opt; [by apply spin_lock_free|]. apply runs_modify, runs_bind, runs_on_pool.
  apply runs_inv in Hc as (a & p & E & HQ). eapply runs_intro; [exact E|].
  unfold alloc_exit. apply runs_bind, runs_bind, runs_gets. simpl.
  apply runs_modify, runs_ret, HQ. split; try done. by destruct p.
Qed.

(** A fault inside the lock is a fault. *)
Lemma locked_faults {A} (c : PM A) s : unlocked s -> c (pool_of s) = None -> locked c s = None.
Proof.
  intros Hu E. assert (H : runs alloc_enter s (fun _ s' => pool_of s' = pool_of s)).
  { unfold alloc_enter. apply runs_bind, runs_gets, runs_bind. eapply runs_of_opt; [by apply spin_lock_free|].
    by apply runs_modify. }
  apply runs_inv in H as ([] & s' & E1 & Ep). unfold locked, bind at 1. rewrite E1.
  unfold bind at 1, on_pool. by rewrite Ep, E.
Qed.
