(* ===== verification/HeapThms.v ===== *)
(** HeapThms: the kernel heap as its callers see it: every call gives the lock and the interrupt
    flags back, and the live blocks follow a finite map. *)

From Stdlib Require Import ZArith Lia.
From stdpp Require Import prelude gmap.
From S2P Require Import Prelude Mem Spinlock Block Klibc Freelist Pool.
From S2P Require Import HeapInv HeapOps ListOps PoolOps PoolMatch PoolFacts PoolInit PoolSpec.
From S2P Require Import PoolView PoolRealloc PoolRefine Heap.

(** ** The abstract heap and its calls *)

Inductive call :=
  | CMalloc (size : Z)
  | CXmalloc (size : Z)
  | CCalloc (n size : Z)
  | CFree (ptr : Z)
  | CRealloc (ptr newsize : Z)
  | CReallocarray (ptr n size : Z)
  | CAlignedAlloc (align size : Z)
  | CMemalign (align size : Z)
  | CValloc (size : Z)
  | CPvalloc (size : Z)
  | CPosixMemalign (memptr align size : Z)
  | CUsable (ptr : Z).

Definition run_call (c : call) : HM Z :=
  match c with
  | CMalloc size => malloc size
  | CXmalloc size => xmalloc size
  | CCalloc n size => calloc n size
  | CFree ptr => free ptr ;; ret NULL
  | CRealloc ptr newsize => realloc ptr newsize
  | CReallocarray ptr n size => reallocarray ptr n size
  | CAlignedAlloc align size => aligned_alloc align size
  | CMemalign align size => memalign align size
  | CValloc size => valloc size
  | CPvalloc size => pvalloc size
  | CPosixMemalign memptr align size => posix_memalign memptr align size
  | CUsable ptr => malloc_usable_size ptr
  end.

Definition resizable (v : aheap) (p req : Z) : Prop := request req /\ (p = NULL \/ is_Some (v !! p)).
Definition alignable (s : st mpool) (align req : Z) : Prop :=
  request req /\ 0 <= align /\ aligned_ok s req align.

(** The word at [memptr] is mapped, and not in the area of the pool. *)
Definition out_word (s : st mpool) (memptr : Z) : Prop :=
  mapped (smem s) memptr (memptr + 8) /\
  (memptr + 8 <= mp_ptr (smgr s) \/ mp_ptr (smgr s) + mp_size (smgr s) <= memptr).

(** What a caller must observe.  [calloc] may be called with any two sizes; [reallocarray]'s
    product may overflow. *)
Definition legal_call (s : st mpool) (v : aheap) (c : call) : Prop :=
  match c with
  | CMalloc size | CXmalloc size => request size
  | CCalloc n size => 0 <= n < two64 /\ 0 <= size < two64 /\ ~ two64 - 16 < n * size < two64
  | CFree p => p = NULL \/ is_Some (v !! p)
  | CRealloc p req => resizable v p req
  | CReallocarray p n size => resizable v p (n *! size)
  | CAlignedAlloc align size | CMemalign align size => alignable s align size
  | CValloc size | CPvalloc size => alignable s PAGE_SIZE size
  | CPosixMemalign memptr align size => alignable s align size /\ out_word s memptr
  | CUsable p => p = NULL \/ is_Some (v !! p)
  end.

(** A block at an aligned address, or NULL; NULL for what is not an alignment. *)
Definition allocates_at (v : aheap) (align req a : Z) (v' : aheap) : Prop :=
  allocates v req [] a v' /\ at_align align a /\ (power_of_two align = false -> a = NULL).

Definition call_spec (v : aheap) (c : call) (a : Z) (v' : aheap) : Prop :=
  match c with
  | CMalloc size | CXmalloc size => allocates v size [] a v'
  | CCalloc n size =>
      (two64 <= n * size -> a = NULL) /\
      allocates v (n * size) (replicate (Z.to_nat (n * size)) 0) a v'
  | CFree p => v' = delete p v
  | CRealloc p req => resizes v p req a v'
  | CReallocarray p n size => resizes v p (n *! size) a v'
  | CAlignedAlloc align size | CMemalign align size => allocates_at v align size a v'
  | CValloc size | CPvalloc size => allocates_at v PAGE_SIZE size a v'
  | CPosixMemalign _ align size => exists p, allocates_at v align size p v' /\
      ((a = 1 /\ p = NULL) \/ (a = 0 /\ p <> NULL))
  | CUsable p => v' = v /\ (p = NULL -> a = 0) /\ forall n d, v !! p = Some (n, d) -> a = n
  end.

(** The memory outside the pool: only [posix_memalign] writes there, its result to [*memptr]. *)
Definition rest_spec (v : aheap) (c : call) (a : Z) (v' : aheap) (m0 m1 : mem) : Prop :=
  match c with
  | CPosixMemalign memptr _ _ =>
      if a =? 0 then exists p, v !! p = None /\ is_Some (v' !! p) /\ store64 m0 memptr p = Some m1
      else m1 = m0
  | _ => m1 = m0
  end.

(** A [realloc] or [reallocarray] that must grow its block and finds no room for it. *)
Definition starved_call (s : st mpool) (v : aheap) (c : call) : Prop :=
  match c with
  | CRealloc p req => starved s v (ORealloc p req)
  | CReallocarray p n size => starved s v (ORealloc p (n *! size))
  | _ => False
  end.

(** Between two calls: the lock is free and the pool refines [v]. *)
Record heap_ready (m0 : mem) (ptr size : Z) (s : st heap) (v : aheap) : Prop := {
  hr_lock : unlocked s;
  hr_pool : refines any_op m0 ptr size (pool_of s) v
}.

(** ** The pool's operations, in these terms *)

Section Heap.
Context (m0 : mem) (ptr size : Z).
Abbreviation refines := (refines any_op m0 ptr size).
Abbreviation ready := (heap_ready m0 ptr size).

Lemma pool_usable s v p :
  refines s v -> p = NULL \/ is_Some (v !! p) ->
  runs (mpool_msize p) s (fun a s' => s' = s /\ (p = NULL -> a = 0) /\
    forall n d, v !! p = Some (n, d) -> a = n).
Proof.
  intros Hr [->|[[n d] Hv]].
  - unfold mpool_msize. simpl. apply runs_ret. split_ands; try done. intros n d Hv.
    by rewrite (refines_null _ _ _ _ _ _ Hr) in Hv.
  - eapply refines_msize; [exact Hr|exact Hv|]. split_ands; [done| |].
    + intros ->. by rewrite (refines_null _ _ _ _ _ _ Hr) in Hv.
    + intros n' d' Hv'. rewrite Hv in Hv'. by injection Hv' as <- <-.
Qed.

Lemma pool_filled s v p n d L m' :
  refines s v -> v !! p = Some (n, d) -> written (smem s) m' p L -> Z.of_nat (length L) <= n ->
  refines (with_mem m' s) (<[p := (n, L)]> v).
Proof.
  intros Hr Hv Hw Hlen. pose proof Hr as [Hp Hs Hc _]. split; try done.
  destruct (refines_block _ _ _ _ _ _ _ _ _ Hr Hv) as (l & b & r & Hi & -> & _ & Hb & <- & <- & <-).
  pose proof (pi_ok _ _ _ Hi) as [Ha _].
  pose proof (pool_fill m0 s l b r (length L) L m' Hi Hb Hw Hlen) as Hi'. rewrite take_ge in Hi' by done.
  eexists. split_ands; [exact Hi'| |].
  - pose proof (pi_ok _ _ _ Hi') as [Ha' _].
    destruct (view_app l b r _ _ _ _ Ha Hb) as [-> _].
    destruct (view_app l (set_data L b) r _ _ _ _ Ha' Hb) as [-> _]. by rewrite insert_insert_eq.
  - intros Hu. by destruct any_op_cuts.
Qed.

(** ** The calls *)

Lemma runs_locked_ready {A} (c : PM A) s v (Q : A -> st heap -> Prop) :
  ready s v ->
  runs c (pool_of s) (fun a p => exists v', refines p v' /\
    forall s', ready s' v' -> hp_flags (smgr s') = hp_flags (smgr s) -> Q a s') ->
  runs (locked c) s Q.
Proof.
  intros [Hu _] Hc. apply runs_locked; [done|]. eapply runs_mono; [exact Hc|].
  intros a p (v' & Hr & HQ) s' [Hm Hl Hf]. apply HQ; [|done]. split; [done|]. by rewrite Hm.
Qed.

(** A locked pool operation whose effect on the map is [P]. *)
Lemma locked_call {A} (c : PM A) s v (P : A -> aheap -> Prop) :
  ready s v -> runs c (pool_of s) (fun a p => exists v', P a v' /\ refines p v') ->
  runs (locked c) s (fun a s' => exists v', P a v' /\ ready s' v' /\
    hp_flags (smgr s') = hp_flags (smgr s)).
Proof.
  intros Hr Hc. eapply runs_locked_ready; [exact Hr|]. eapply runs_mono; [exact Hc|].
  intros a p (v' & HP & Hr'). exists v'. split; [done|]. intros s' H1 H2. by exists v'.
Qed.

Lemma calloc_ok s v n k :
  ready s v -> 0 <= n < two64 /\ 0 <= k < two64 /\ ~ two64 - 16 < n * k < two64 ->
  runs (calloc n k) s (fun a s' => exists v', call_spec v (CCalloc n k) a v' /\ ready s' v' /\
    hp_flags (smgr s') = hp_flags (smgr s)).
Proof.
  intros Hr (Hn & Hk & Hnk). unfold calloc, call_spec. destruct (Z.leb_spec two64 (n * k)) as [Ho|Ho].
  { apply runs_ret. exists v. split_ands; try done. by left. }
  assert (Hreq : request (n * k)) by (unfold request; nia).
  apply runs_bind. eapply runs_mono; [apply (locked_call _ s v (allocates v (n * k) []) Hr), pool_alloc; [apply Hr|done]|].
  intros a s1 (v1 & Ha & Hr1 & Hf1). pose proof (hr_pool _ _ _ _ _ Hr1) as Hp1.
  destruct (allocates_answer _ _ _ _ _ _ _ _ _ Hp1 Ha) as [[-> ->]|(sz & Hv & E1)].
  - apply runs_ret. exists v. split_ands; try done. by left.
  - destruct (refines_place _ _ _ _ _ _ _ _ _ Hp1 Hv) as (Hb & H0 & _ & H1 & H2 & Hm).
    replace (a =? NULL) with false by (unfold NULL; lia).
    destruct Ha as [[-> _]|(sz' & Hv0 & H16 & Hsz & ->)]; [unfold NULL in *; lia|].
    rewrite lookup_insert_eq in Hv. injection Hv as ->.
    apply runs_bind, runs_memset; [lia|lia|lia|eapply mapped_sub; [exact Hm|lia..]|].
    intros m' Hw. apply runs_ret. exists (<[a := (sz, replicate (Z.to_nat (n * k)) 0)]> v).
    split_ands; [lia| | |done].
    + right. by exists sz.
    + split; [apply Hr1|].
      pose proof (pool_filled _ _ a sz [] _ m' Hp1 (lookup_insert_eq _ _ _) Hw) as H.
      rewrite insert_insert_eq in H. apply H. rewrite length_replicate. lia.
Qed.

(** A store outside the pool's area. *)
Lemma refines_outside s v a x m' :
  refines s v -> out_word s a -> store64 (smem s) a x = Some m' ->
  exists m1, store64 m0 a x = Some m1 /\ PoolRefine.refines any_op m1 ptr size (with_mem m' s) v.
Proof.
  intros [Ep Es Er (bs & Hi & Hv & _)] [Hm Hout] E. pose proof (pi_ok _ _ _ Hi) as [Ha _].
  assert (Hsame : forall b, b < ptr \/ ptr + size <= b -> smem s !! b = m0 !! b).
  { intros b Hb. apply (ao_out _ _ _ _ _ Ha). by rewrite Ep, Es. }
  destruct (store64_Some m0 a x) as [m1 E1].
  { intros b Hb. unfold is_Some. rewrite <- Hsame by lia. by apply Hm. }
  exists m1. split; [done|]. split; try done. exists bs. split_ands; [|done|by intros Hu; destruct any_op_cuts].
  apply (pool_outside m0 m1 s bs m' Hi); intros b Hb.
  - apply (store64_lookup _ _ _ _ _ E). lia.
  - apply (store64_agree _ _ _ _ _ _ _ E E1), Hsame. lia.
Qed.

(** The calls that return the lock, the flags and the memory outside the pool as they were. *)
Definition plain_call (c : call) : Prop := match c with CPosixMemalign _ _ _ => False | _ => True end.

Lemma locked_resize s v p req :
  ready s v -> resizable v p req ->
  runs (locked (mpool_realloc p req)) s (fun a s' => exists v', resizes v p req a v' /\ ready s' v' /\
    hp_flags (smgr s') = hp_flags (smgr s)) \/
  (starved (pool_of s) v (ORealloc p req) /\ (m0 !! NULL = None -> locked (mpool_realloc p req) s = None)).
Proof.
  intros Hr [Hreq Hp]. destruct (pool_resize any_op m0 ptr size (pool_of s) v p req (hr_pool _ _ _ _ _ Hr) Hreq Hp)
    as [H|[H Hf]]; [by intros Hu; destruct any_op_cuts|left; by apply (locked_call _ s v _ Hr)|right].
  split; [done|]. intros Hz. apply locked_faults; [apply Hr|auto].
Qed.

Lemma locked_aligned s v align req :
  ready s v -> alignable (pool_of s) align req ->
  runs (locked (mpool_aligned_alloc req align)) s (fun a s' => exists v', allocates_at v align req a v' /\
    ready s' v' /\ hp_flags (smgr s') = hp_flags (smgr s)).
Proof.
  intros Hr (Hreq & Hal & Hok). apply (locked_call _ s v _ Hr).
  eapply runs_mono; [apply (pool_aligned any_op m0 ptr size _ v); [apply Hr|done..]|].
  intros a s' (v' & ? & ? & ? & ?). by exists v'.
Qed.

Lemma plain_call_ok s v c :
  ready s v -> legal_call (pool_of s) v c -> plain_call c ->
  runs (run_call c) s (fun a s' => exists v', call_spec v c a v' /\ ready s' v' /\
    hp_flags (smgr s') = hp_flags (smgr s)) \/
  (starved_call (pool_of s) v c /\ (m0 !! NULL = None -> run_call c s = None)).
Proof.
  intros Hr Hl Hpl. pose proof (hr_pool _ _ _ _ _ Hr) as Hp.
  destruct c as [n|n|n k|p|p n|p n k|al n|al n|n|n|mp al n|p]; simpl run_call; try done.
  - left. by apply (locked_call _ s v _ Hr), pool_alloc.
  - left. by apply (locked_call _ s v _ Hr), pool_alloc.
  - left. by apply calloc_ok.
  - left. apply runs_bind. unfold free. eapply runs_mono; [apply (locked_call _ s v (fun _ v' => v' = delete p v) Hr)|].
    + eapply runs_mono; [by apply (pool_free any_op m0 ptr size _ v)|]. intros [] s' H. by exists (delete p v).
    + intros [] s' (v' & -> & H). apply runs_ret. by exists (delete p v).
  - by apply locked_resize.
  - by apply locked_resize.
  - left. by apply locked_aligned.
  - left. by apply locked_aligned.
  - left. by apply locked_aligned.
  - left. by apply locked_aligned.
  - left. unfold malloc_usable_size. apply (locked_call _ s v _ Hr). eapply runs_mono; [by apply pool_usable|].
    intros a s' (-> & H). by exists v.
Qed.

Lemma posix_ok s v memptr align req :
  ready s v -> alignable (pool_of s) align req -> out_word (pool_of s) memptr ->
  runs (posix_memalign memptr align req) s (fun a s' => exists v' m1,
    call_spec v (CPosixMemalign memptr align req) a v' /\
    rest_spec v (CPosixMemalign memptr align req) a v' m0 m1 /\
    heap_ready m1 ptr size s' v' /\ hp_flags (smgr s') = hp_flags (smgr s)).
Proof.
  intros Hr Hal Ho. pose proof (hr_pool _ _ _ _ _ Hr) as Hp. unfold posix_memalign. apply runs_bind.
  eapply runs_mono; [by apply locked_aligned|]. intros p s1 (v1 & Ha & Hr1 & Hf1).
  pose proof (hr_pool _ _ _ _ _ Hr1) as Hp1.
  destruct (allocates_answer _ _ _ _ _ _ _ _ _ Hp1 (proj1 Ha)) as [[-> ->]|(n & Hv & _)].
  - apply runs_ret. exists v, m0. split_ands; try done. exists NULL. split; [done|by left].
  - destruct (refines_place _ _ _ _ _ _ _ _ _ Hp1 Hv) as (Hb & Hn & _).
    replace (p =? NULL) with false by (unfold NULL; lia). apply runs_bind.
    assert (Ho1 : out_word (pool_of s1) memptr).
    { destruct Hp as [Ep Es _ (bs & [[Hao _] _] & _)]. destruct Hp1 as [Ep1 Es1 _ (bs1 & [[Hao1 _] _] & _)].
      destruct Ho as [Hm Ho]. split; [|by rewrite Ep1, Es1, <- Ep, <- Es]. intros b Hb'.
      rewrite (ao_out _ _ _ _ _ Hao1) by (rewrite Ep1, Es1; rewrite Ep, Es in Ho; lia).
      rewrite <- (ao_out _ _ _ _ _ Hao) by (rewrite Ep, Es in *; lia). by apply Hm. }
    destruct (store64_Some (smem s1) memptr p) as [m' E]; [apply Ho1|].
    destruct (refines_outside _ _ _ _ _ Hp1 Ho1 E) as (m1 & E1 & Hp2).
    unfold runs, sto. rewrite E. simpl. exists v1, m1. split_ands; [| | |done].
    + exists p. split; [done|]. right. unfold NULL. lia.
    + exists p. split_ands; [|by eexists|done].
      destruct (proj1 Ha) as [[-> _]|(k & ? & _)]; [unfold NULL in *; lia|done].
    + split; [apply Hr1|done].
Qed.

Lemma call_ok s v c :
  ready s v -> legal_call (pool_of s) v c ->
  runs (run_call c) s (fun a s' => exists v' m1, call_spec v c a v' /\ rest_spec v c a v' m0 m1 /\
    heap_ready m1 ptr size s' v' /\ hp_flags (smgr s') = hp_flags (smgr s)) \/
  (starved_call (pool_of s) v c /\ (m0 !! NULL = None -> run_call c s = None)).
Proof.
  intros Hr Hl. assert (Hc : plain_call c \/ exists mp al n, c = CPosixMemalign mp al n)
    by (destruct c; simpl; eauto). destruct Hc as [Hc|(mp & al & n & ->)].
  - destruct (plain_call_ok s v c Hr Hl Hc) as [H|H]; [left|by right]. eapply runs_mono; [exact H|].
    intros a s' (v' & ? & ? & ?). exists v', m0. split_ands; try done. by destruct c.
  - left. destruct Hl. by apply posix_ok.
Qed.
End Heap.

(** ** A concrete heap *)

(** An address space whose pages are zero-filled, and the machine before [init_heap]. *)
#[export] Instance fill_space : AddressSpace.
Proof.
  refine {| map_range virt _ count _ m := Some (fill virt (Z.to_nat (count * PAGE_SIZE)) 0 m) |}.
  intros virt count flags m m' [= <-] _ _ a Ha. apply fill_mapped. lia.
Defined.
Definition boot_flags : Z := 514.
Definition heap_boot : st heap := St ∅ (HeapSt mpool_zero SPIN_INIT boot_flags).
Definition demo_heap : st heap :=
  match init_heap heap_boot with Some (_, s) => s | None => heap_boot end.

Lemma runs_init_heap `{AddressSpace} s m' :
  map_range KERNEL_HEAP_START 0 (KERNEL_HEAP_SIZE / PAGE_SIZE)
    (flag_present |! flag_read_write) (smem s) = Some m' -> unlocked s ->
  runs init_heap s (fun _ s' =>
    heap_ready m' KERNEL_HEAP_START KERNEL_HEAP_SIZE s' ∅ /\ hp_flags (smgr s') = hp_flags (smgr s) /\
    pool_inv m' (pool_of s') [first_blk KERNEL_HEAP_START KERNEL_HEAP_SIZE true true] /\
    tidy (pool_of s') [first_blk KERNEL_HEAP_START KERNEL_HEAP_SIZE true true]).
Proof.
  intros E Hu. unfold init_heap. apply runs_bind, runs_gets, runs_bind. eapply runs_of_opt; [exact E|].
  apply runs_bind, runs_modify, runs_bind, runs_on_pool. apply map_range_maps in E; [|done..].
  change (KERNEL_HEAP_SIZE / PAGE_SIZE * PAGE_SIZE) with KERNEL_HEAP_SIZE in E.
  apply runs_mpool_init; [by split|]. intros p Hi Ht Hp Hs Hr. apply runs_ret.
  destruct p as [m p]. split; [|done]. split; [done|]. split; try done.
  exists [first_blk KERNEL_HEAP_START KERNEL_HEAP_SIZE true true]. split_ands; try done.
Qed.

(** The memory of the demo heap when it was made. *)
Definition demo_heap_mem : mem := fill KERNEL_HEAP_START (Z.to_nat KERNEL_HEAP_SIZE) 0 ∅.

Lemma demo_heap_map : map_range KERNEL_HEAP_START 0 2048 3 (smem heap_boot) = Some demo_heap_mem.
Proof.
  change (Some (fill KERNEL_HEAP_START (Z.to_nat (2048 * PAGE_SIZE)) 0 ∅) = Some demo_heap_mem).
  unfold demo_heap_mem. by replace (2048 * PAGE_SIZE) with KERNEL_HEAP_SIZE by done.
Qed.

Lemma demo_heap_ready :
  heap_ready demo_heap_mem KERNEL_HEAP_START KERNEL_HEAP_SIZE demo_heap ∅ /\
  hp_flags (smgr demo_heap) = boot_flags.
Proof.
  pose proof (runs_init_heap heap_boot demo_heap_mem demo_heap_map eq_refl) as H.
  apply runs_inv in H as (a & s' & E & H1 & H2 & _). unfold demo_heap. rewrite E. split; [exact H1|exact H2].
Qed.

#[local] Opaque demo_heap demo_heap_mem.

(** ** Properties *)

(** C19: the kernel heap.  From any state between two calls, every legal call of [malloc],
    [xmalloc], [calloc], [free], [realloc], [reallocarray], [aligned_alloc], [memalign], [valloc],
    [pvalloc], [posix_memalign] and [malloc_usable_size] - on live blocks or NULL, for requests of at
    most [2^64 - 16] bytes, and with no aligned search that wraps or finds a block 16 bytes before
    the aligned address - returns, with the answer and the new blocks that the finite map allows
    ([calloc] refuses an overflowing product, and its blocks are full of zeros; [realloc] keeps the
    contents; [reallocarray] resizes to its product modulo [2^64]), with the lock free again, with
    the caller's interrupt flags as they were, and with nothing written outside the pool but
    [posix_memalign]'s result.  The one other outcome: a [realloc] or [reallocarray] that must grow
    its block and finds no room for it, which faults when address 0 is not mapped. *)
Theorem heap_call_correct (m0 : mem) (ptr size : Z) (s : st heap) (v : aheap) (c : call) :
  heap_ready m0 ptr size s v -> legal_call (pool_of s) v c ->
  (exists a s' v' m1, run_call c s = Some (a, s') /\ call_spec v c a v' /\ rest_spec v c a v' m0 m1 /\
     heap_ready m1 ptr size s' v' /\ hp_flags (smgr s') = hp_flags (smgr s)) \/
  (starved_call (pool_of s) v c /\ (m0 !! NULL = None -> run_call c s = None)).
Proof.
  intros Hr Hl. destruct (call_ok m0 ptr size s v c Hr Hl) as [H|H]; [left|by right].
  apply runs_inv in H as (a & s' & E & v' & m1 & H). by exists a, s', v', m1.
Qed.

Lemma heap_call_correct_witness :
  (exists a s' v' m1, run_call (CCalloc 10 10) demo_heap = Some (a, s') /\
    call_spec ∅ (CCalloc 10 10) a v' /\ rest_spec ∅ (CCalloc 10 10) a v' demo_heap_mem m1 /\
    heap_ready m1 KERNEL_HEAP_START KERNEL_HEAP_SIZE s' v' /\
    hp_flags (smgr s') = hp_flags (smgr demo_heap)) \/
  (starved_call (pool_of demo_heap) ∅ (CCalloc 10 10) /\
   (demo_heap_mem !! NULL = None -> run_call (CCalloc 10 10) demo_heap = None)).
Proof.
  apply (heap_call_correct demo_heap_mem KERNEL_HEAP_START KERNEL_HEAP_SIZE demo_heap ∅ (CCalloc 10 10)).
  - apply demo_heap_ready.
  - unfold legal_call, two64. lia.
Defined.

(** [init_heap] maps the 8 MiB of the heap and leaves it ready and empty, whatever the
    address space that keeps [map_range]'s promise and whatever was in the pool before. *)
Lemma init_heap_correct (A : AddressSpace) (s : st heap) (m' : mem) :
  map_range KERNEL_HEAP_START 0 2048 3 (smem s) = Some m' -> unlocked s ->
  exists s', init_heap s = Some (tt, s') /\
    heap_ready m' KERNEL_HEAP_START KERNEL_HEAP_SIZE s' ∅ /\ hp_flags (smgr s') = hp_flags (smgr s).
Proof.
  intros E Hu. pose proof (runs_init_heap s m' E Hu) as H.
  apply runs_inv in H as ([] & s' & E' & H1 & H2 & _). by exists s'.
Qed.

(** What [posix_memalign] promises about the state it leaves: the pool served the request with
    [p], and afterwards only [*memptr] was written. *)
Definition posix_served (out : mem) (s : st heap) (bs : list blk) (memptr n align p : Z)
    (s' : st heap) : Prop :=
  p mod align = 0 /\ load64 (smem s') memptr = Some p /\
  exists m, served out (pool_of s) bs n p (St m (hp_pool (smgr s'))) /\
    forall a, a < memptr \/ memptr + 8 <= a -> smem s' !! a = m !! a.

(** [posix_memalign], on both branches.  For an alignment of 16 or more it returns 1, with
    pool and memory as they were, when no free block holds the request at an aligned address;
    otherwise it returns 0 with an aligned block in [*memptr].  Lock and flags come back. *)
Lemma posix_memalign_correct (out : mem) (s : st heap) (bs : list blk) (memptr req k : Z) :
  unlocked s -> pool_inv out (pool_of s) bs -> mp_cb_reqmem (hp_pool (smgr s)) = None ->
  aligned_args (pool_of s) req k -> no_sliver (2 ^ k) bs ->
  mapped (smem s) memptr (memptr + 8) ->
  memptr + 8 <= mp_ptr (hp_pool (smgr s)) \/
    mp_ptr (hp_pool (smgr s)) + mp_size (hp_pool (smgr s)) <= memptr ->
  exists r s', posix_memalign memptr (2 ^ k) req s = Some (r, s') /\ unlocked s' /\
    hp_flags (smgr s') = hp_flags (smgr s) /\
    ((r = 1 /\ pool_of s' = pool_of s /\ no_fit (fits_aligned_b (min_size req) (2 ^ k)) bs) \/
     (r = 0 /\ exists p, posix_served out s bs memptr (min_size req) (2 ^ k) p s')).
Proof.
  intros Hu Hi Hcb Hargs Hns Hm Hd. apply runs_inv. unfold posix_memalign.
  apply runs_bind, runs_locked; [done|]. eapply (runs_aligned_alloc out); [done..| |].
  - intros Hno s' [Hp Hl Hf]. apply runs_ret. split_ands; try done. by left.
  - intros p q _ Hs Hal s' [Hp Hl Hf]. pose proof Hs as ([O1 O2 _] & bs' & sz & l1 & l2 & Hi' & _ & _ & Hlv & _ & _ & Hne).
    apply Z.eqb_neq in Hne as ->. subst q. simpl in O1, O2.
    pose proof (pi_ok _ _ _ Hi') as [Ha _]. pose proof (pi_ok _ _ _ Hi) as [Ha0 _]. simpl in Ha, Ha0.
    destruct (store64_Some (smem s') memptr p) as [m' Em].
    { intros a Hin. rewrite (ao_out _ _ _ _ _ Ha) by lia.
      rewrite <- (ao_out _ _ _ _ _ Ha0) by lia. by apply Hm. }
    assert (Hrange : 0 <= p < two64).
    { assert (Hin : (p, sz, []) ∈ live bs') by (rewrite Hlv; set_solver).
      apply live_in in Hin as (l & b & r & -> & _ & <- & _).
      destruct (area_blk _ _ _ _ _ b Ha) as [(?&_) ? ? ? ? ? ? ? ?]; [apply blk_in_cases; tauto|]. lia. }
    apply runs_bind. unfold runs, sto. rewrite Em. simpl.
    split_ands; [done|done|]. right. split; [done|]. exists p.
    split; [done|]. split.
    + simpl. rewrite (load64_store64_eq _ _ _ _ Em). by rewrite u64_small.
    + exists (smem s'). split; [done|]. intros a Ha'. by apply (store64_lookup _ _ _ _ _ Em).
Qed.

(** [reallocarray] does not check its product: when it overflows and what is left of it fits in
    the block, the call succeeds with the old block. *)
Lemma reallocarray_overflow m0 ptr size s v p n k sz d :
  heap_ready m0 ptr size s v -> v !! p = Some (sz, d) -> two64 <= n * k ->
  request (n *! k) -> min_size (n *! k) <= sz ->
  exists s' v', reallocarray p n k s = Some (p, s') /\ heap_ready m0 ptr size s' v'.
Proof.
  intros Hr Hv Ho Hreq Hle. pose proof (refines_null _ _ _ _ _ _ (hr_pool _ _ _ _ _ Hr)) as Hnull.
  destruct (locked_resize m0 ptr size s v p (n *! k) Hr) as [H|[(_ & Hg & _) _]].
  - split; [done|]. right. by exists (sz, d).
  - apply runs_inv in H as (a & s' & E & v' & Hs & Hr' & _).
    destruct Hs as [[-> _]|(n1 & n' & d' & Hv' & _ & _ & _ & [->|[Hlt _]] & _)]; [congruence|by exists s', v'|].
    rewrite Hv in Hv'. injection Hv' as -> ->. lia.
  - specialize (Hg sz d Hv). lia.
Qed.
