(* ===== verification/Mman.v ===== *)
(** Mman: the memory manager with several areas ([mm/heap/mman.cpp], [struct mman] of
    [mm/alloc/alloc.hpp]) and its table of large blocks ([mm/alloc/large-blk.hpp]): definitions.

    An area is 4 KiB or 2 MiB and starts with the address of its [struct mman_pool]: that of the
    first area is [man->main], the others have theirs in their first block.  These structures are
    bytes of the shared memory; the other fields of [struct mman] are a record.  The nodes of the
    table of large blocks come from the kernel heap, which is part of the state. *)

From Stdlib Require Import ZArith Lia.
From stdpp Require Import prelude gmap.
From S2P Require Import Prelude Mem Spinlock Block Klibc Freelist Pool Heap.

Definition ALLOC_LARGE_BLK_SIZE : Z := 16384.
Definition LARGEBLKLIST_NUM : Z := 16.

(** [struct mman_pool] *)
Definition SIZEOF_MMAN_POOL : Z := 24.
Definition pool_ptr : Z := 0.
Definition pool_alloced_size : Z := 8.
Definition pool_next : Z := 16.

(** [struct large_blk] *)
Definition SIZEOF_LARGE_BLK : Z := 32.
Definition lblk_next : Z := 0.
Definition lblk_prev : Z := 8.
Definition lblk_ptr : Z := 16.
Definition lblk_size : Z := 24.

Record mman := Mman {
  mn_size : Z;
  mn_alloced_size : Z;
  mn_cb_reqmem : option cb_reqmem_t;
  mn_cb_delmem : option cb_delmem_t;
  mn_large_blk : Z;
  mn_freed : list Z;
  mn_large : list Z;
  mn_heap : heap
}.

Definition set_mn_size v m := Mman v (mn_alloced_size m) (mn_cb_reqmem m) (mn_cb_delmem m)
  (mn_large_blk m) (mn_freed m) (mn_large m) (mn_heap m).
Definition set_mn_alloced v m := Mman (mn_size m) v (mn_cb_reqmem m) (mn_cb_delmem m)
  (mn_large_blk m) (mn_freed m) (mn_large m) (mn_heap m).
Definition set_mn_cbs r d m := Mman (mn_size m) (mn_alloced_size m) r d
  (mn_large_blk m) (mn_freed m) (mn_large m) (mn_heap m).
Definition set_mn_large_blk v m := Mman (mn_size m) (mn_alloced_size m) (mn_cb_reqmem m) (mn_cb_delmem m)
  v (mn_freed m) (mn_large m) (mn_heap m).
Definition set_mn_freed v m := Mman (mn_size m) (mn_alloced_size m) (mn_cb_reqmem m) (mn_cb_delmem m)
  (mn_large_blk m) v (mn_large m) (mn_heap m).
Definition set_mn_large v m := Mman (mn_size m) (mn_alloced_size m) (mn_cb_reqmem m) (mn_cb_delmem m)
  (mn_large_blk m) (mn_freed m) v (mn_heap m).
Definition set_mn_heap v m := Mman (mn_size m) (mn_alloced_size m) (mn_cb_reqmem m) (mn_cb_delmem m)
  (mn_large_blk m) (mn_freed m) (mn_large m) v.

Abbreviation MM := (M (st mman)).

Definition mfield {A} (f : mman -> A) : MM A := gets (fun s => f (smgr s)).
Definition massign (f : mman -> mman) : MM unit := modify (fun s => with_mgr (f (smgr s)) s).

(** A call of [malloc] or [free] of heap.cpp. *)
Definition on_heap {A} (c : HM A) : MM A :=
  fun s => match c (St (smem s) (mn_heap (smgr s))) with
           | Some (a, h) => Some (a, St (smem h) (set_mn_heap (smgr h) (smgr s)))
           | None => None
           end.

(** A call through a function pointer; through a null pointer it faults. *)
Definition call_reqmem (f : option cb_reqmem_t) (ptr size : Z) : MM Z :=
  fun s => match f with
           | Some f => (fun '(r, m) => (r, with_mem m s)) <$> f ptr size (smem s)
           | None => None
           end.
Definition call_delmem (f : option cb_delmem_t) (ptr size : Z) : MM unit :=
  fun s => match f with
           | Some f => (fun m => (tt, with_mem m s)) <$> f ptr size (smem s)
           | None => None
           end.

(** Blocks of the areas take 32 bytes at least, and so do the nodes of large blocks in the heap:
    no list is longer than this. *)
Definition mman_fuel (m : mman) : nat := S (Z.to_nat (mn_size m / 32)).
Definition large_fuel (m : mman) : nat := pool_fuel (hp_pool (mn_heap m)).

(** ** large-blk.hpp *)

(** The list of [blks] that [ptr] belongs to, as an index. *)
Definition large_blk_blokp (ptr : Z) : Z :=
  let hash := ptr / SIZE_4k |! ptr / SIZE_4k / LARGEBLKLIST_NUM / 2 in
  hash mod LARGEBLKLIST_NUM.

(** [*blk_p] and its assignment. *)
Definition large_get (id : Z) : MM Z := l <- mfield mn_large ;; ret (list_get l id).
Definition large_set (id v : Z) : MM unit := l <- mfield mn_large ;; massign (set_mn_large (list_set l id v)).

Definition large_blk_put (ptr size : Z) : MM Z :=
  let id := large_blk_blokp ptr in
  blk <- on_heap (malloc SIZEOF_LARGE_BLK) ;;
  if blk =? NULL then ret NULL
  else
    sto (blk +! lblk_ptr) ptr ;;
    sto (blk +! lblk_size) size ;;
    head <- large_get id ;;
    head' <- freelist_put head blk ;;
    large_set id head' ;;
    ret blk.

Fixpoint large_find_from (fuel : nat) (blk ptr : Z) : MM Z :=
  match fuel with
  | O => stuck
  | S fuel' =>
      if blk =? NULL then ret NULL
      else
        p <- ld (blk +! lblk_ptr) ;;
        if p =? ptr then ret blk
        else n <- ld (blk +! lblk_next) ;; large_find_from fuel' n ptr
  end.
Definition large_blk_find (ptr : Z) : MM Z :=
  blk <- large_get (large_blk_blokp ptr) ;;
  fuel <- mfield large_fuel ;;
  large_find_from fuel blk ptr.

Definition large_blk_alloc (size0 : Z) (reqmem : option cb_reqmem_t) (delmem : option cb_delmem_t) : MM Z :=
  let size := PADDING_4k size0 in
  ptr <- call_reqmem reqmem NULL size ;;
  if ptr =? NULL then ret NULL
  else
    blk <- large_blk_put ptr size ;;
    if blk =? NULL then call_delmem delmem ptr size ;; ret NULL
    else
      sto (blk +! lblk_ptr) ptr ;;
      sto (blk +! lblk_size) size ;;
      sto (blk +! lblk_prev) NULL ;;
      sto (blk +! lblk_next) NULL ;;
      ret ptr.

Definition large_blk_free (ptr : Z) (delmem : option cb_delmem_t) : MM bool :=
  let id := large_blk_blokp ptr in
  blk <- large_blk_find ptr ;;
  if blk =? NULL then ret false
  else
    head <- large_get id ;;
    head' <- freelist_detach head blk ;;
    large_set id head' ;;
    p <- ld (blk +! lblk_ptr) ;;
    size <- ld (blk +! lblk_size) ;;
    call_delmem delmem p size ;;
    on_heap (free blk) ;;
    ret true.

(** ** mman.cpp *)

Section Mman.
(** [&man->main], which is also [man]. *)
Variable main : Z.

Definition mman_detach (ptr : Z) : MM unit :=
  size <- blk_size ptr ;;
  let id := freelists_size2id size in
  if id <? 0 then
    large <- mfield mn_large_blk ;;
    large' <- freelist_detach large ptr ;;
    massign (set_mn_large_blk large')
  else
    freed <- mfield mn_freed ;;
    freed' <- freelists_detach freed id ptr ;;
    massign (set_mn_freed freed').

Definition mman_put_large (ptr : Z) : MM unit :=
  large <- mfield mn_large_blk ;;
  large' <- freelist_put large ptr ;;
  massign (set_mn_large_blk large').

Definition mman_init (ptr size : Z) : MM bool :=
  if (main =? NULL) || (ptr =? NULL) || (size =? 0) then ret false
  else if negb (size =? SIZE_2M) && negb (size =? SIZE_4k) then ret false
  else
    sto (main +! pool_ptr) ptr ;;
    sto (main +! pool_alloced_size) 0 ;;
    sto (main +! pool_next) NULL ;;
    massign (set_mn_size size) ;;
    massign (set_mn_alloced 0) ;;
    massign (set_mn_cbs None None) ;;
    massign (set_mn_large_blk NULL) ;;
    massign (set_mn_freed (replicate FREELIST_NUM NULL)) ;;
    massign (set_mn_large (replicate (Z.to_nat LARGEBLKLIST_NUM) NULL)) ;;
    allocarea_init ptr size main ;;
    mman_put_large (ptr +! 2 * SIZEOF_SIZE_T) ;;
    ret true.

(** The loop of [mman_deinit] over the areas after the first: [p], and [n = p->next]. *)
Fixpoint deinit_pools (fuel : nat) (delmem : option cb_delmem_t) (p n : Z) : MM unit :=
  match fuel with
  | O => stuck
  | S fuel' =>
      if p =? NULL then ret tt
      else
        area <- ld (p +! pool_ptr) ;;
        size <- allocarea_size area ;;
        call_delmem delmem area size ;;
        let p := n in
        n <- ld (p +! pool_next) ;;
        deinit_pools fuel' delmem p n
  end.

Definition mman_deinit : MM unit :=
  if main =? NULL then ret tt
  else
    cb <- mfield mn_cb_delmem ;;
    match cb with
    | None => ret tt
    | Some _ =>
        p <- ld (main +! pool_next) ;;
        n <- ld (p +! pool_next) ;;
        fuel <- mfield mman_fuel ;;
        deinit_pools fuel cb p n ;;
        area <- ld (main +! pool_ptr) ;;
        size <- allocarea_size area ;;
        call_delmem cb area size
    end ;;
    sto (main +! pool_ptr) NULL ;;
    sto (main +! pool_alloced_size) 0 ;;
    sto (main +! pool_next) NULL ;;
    massign (fun m => Mman 0 0 None None NULL (replicate FREELIST_NUM NULL)
      (replicate (Z.to_nat LARGEBLKLIST_NUM) NULL) (mn_heap m)).

Definition mman_alloced_size : MM Z := if main =? NULL then ret 0 else mfield mn_alloced_size.
Definition mman_total_size : MM Z := if main =? NULL then ret 0 else mfield mn_size.
Definition mman_setcb (reqmem : option cb_reqmem_t) (delmem : option cb_delmem_t) : MM unit :=
  if main =? NULL then ret tt else massign (set_mn_cbs reqmem delmem).

Definition mman_reqmem (size0 : Z) : MM bool :=
  let size := size0 +! (SIZEOF_MMAN_POOL + 4 * SIZEOF_SIZE_T) in
  cb <- mfield mn_cb_reqmem ;;
  match cb with
  | None => ret false
  | Some _ =>
      if SIZE_2M <? size then ret false
      else
        let size := if SIZE_4k <? size then SIZE_2M else SIZE_4k in
        mem <- call_reqmem cb NULL size ;;
        if mem =? NULL then ret false
        else
          let pool := mem +! 2 * SIZEOF_SIZE_T in
          allocarea_init mem size pool ;;
          total <- mfield mn_size ;;
          massign (set_mn_size (total +! size)) ;;
          ptr <- blk_split pool (PADDING SIZEOF_MMAN_POOL) ;;
          s1 <- blk_size pool ;;
          blk_setalloced pool s1 ;;
          s2 <- blk_size ptr ;;
          blk_setfreed ptr s2 ;;
          sto (pool +! pool_ptr) mem ;;
          sto (pool +! pool_alloced_size) 0 ;;
          n <- ld (main +! pool_next) ;;
          sto (pool +! pool_next) n ;;
          sto (main +! pool_next) pool ;;
          mman_put_large ptr ;;
          ret true
  end.

(** The search of [mman_delmem] for the area before [pool]; NULL when there is none. *)
Fixpoint pool_before (fuel : nat) (prev pool : Z) : MM Z :=
  match fuel with
  | O => stuck
  | S fuel' =>
      if prev =? NULL then ret NULL
      else
        n <- ld (prev +! pool_next) ;;
        if n =? pool then ret prev else pool_before fuel' n pool
  end.

Definition mman_delmem (pool : Z) : MM bool :=
  cb <- mfield mn_cb_delmem ;;
  match cb with
  | None => ret false
  | Some _ =>
      fuel <- mfield mman_fuel ;;
      prev <- pool_before fuel main pool ;;
      if prev =? NULL then ret false
      else
        n <- ld (pool +! pool_next) ;;
        sto (prev +! pool_next) n ;;
        area <- ld (pool +! pool_ptr) ;;
        size <- allocarea_size area ;;
        area <- ld (pool +! pool_ptr) ;;
        call_delmem cb area size ;;
        total <- mfield mn_size ;;
        massign (set_mn_size (total -! size)) ;;
        ret true
  end.

Definition mman_do_free (ptr : Z) : MM unit :=
  size <- blk_size ptr ;;
  blk_setfreed ptr size ;;
  freed <- mfield mn_freed ;;
  '(freed', puted) <- freelists_put freed ptr ;;
  massign (set_mn_freed freed') ;;
  whenM (negb puted) (mman_put_large ptr).

Definition mman_try_split_and_free (ptr size : Z) : MM bool :=
  bs <- blk_size ptr ;;
  if size +! 8 * SIZEOF_SIZE_T <=? bs then
    new_ptr <- blk_split ptr size ;;
    mman_do_free new_ptr ;;
    ret true
  else ret false.

(** The two searches, with the heads updated, and the operator [?:] between them. *)
Definition mman_match_freed (find : nat -> list Z -> MM (list Z * Z)) : MM Z :=
  fuel <- mfield mman_fuel ;;
  freed <- mfield mn_freed ;;
  '(freed', ptr) <- find fuel freed ;;
  massign (set_mn_freed freed') ;;
  ret ptr.
Definition mman_match_large (find : nat -> Z -> MM (Z * Z)) : MM Z :=
  fuel <- mfield mman_fuel ;;
  large <- mfield mn_large_blk ;;
  '(large', ptr) <- find fuel large ;;
  massign (set_mn_large_blk large') ;;
  ret ptr.
Definition mman_match_any (find1 : nat -> list Z -> MM (list Z * Z)) (find2 : nat -> Z -> MM (Z * Z)) : MM Z :=
  p <- mman_match_freed find1 ;; if p =? NULL then mman_match_large find2 else ret p.

(** The block's size counted in its area, and in the manager. *)
Definition count_area (pool : Z) (f : Z -> Z) : MM unit :=
  n <- ld (pool +! pool_alloced_size) ;; sto (pool +! pool_alloced_size) (f n).
Definition count_total (f : Z -> Z) : MM unit :=
  n <- mfield mn_alloced_size ;; massign (set_mn_alloced (f n)).

(** The end of both allocation functions. *)
Definition mman_finish_alloc (ptr : Z) : MM Z :=
  size <- blk_size ptr ;;
  blk_setalloced ptr size ;;
  pool <- blk_poolptr ptr ;;
  count_area pool (fun n => n +! size) ;;
  count_total (fun n => n +! size) ;;
  ret ptr.

Definition mman_alloc (size0 : Z) : MM Z :=
  let size := min_size size0 in
  if ALLOC_LARGE_BLK_SIZE <=? size then
    reqmem <- mfield mn_cb_reqmem ;;
    delmem <- mfield mn_cb_delmem ;;
    large_blk_alloc size reqmem delmem
  else
    ptr <- mman_match_any (fun fuel freed => freelists_match fuel freed size)
                          (fun fuel large => freelist_match fuel large size) ;;
    if ptr =? NULL then
      ok <- mman_reqmem size ;;
      if negb ok then ret NULL
      else
        ptr <- mman_match_large (fun fuel large => freelist_match fuel large size) ;;
        mman_try_split_and_free ptr size ;;
        mman_finish_alloc ptr
    else
      mman_try_split_and_free ptr size ;;
      mman_finish_alloc ptr.

(** From [size_t offset = ...] to the end of [mman_aligned_alloc]. *)
Definition mman_carve_aligned (ptr size align : Z) : MM Z :=
  let offset := PADDING_UP ptr align -! ptr in
  ptr' <- (if 0 <? offset then
             new_ptr <- blk_split ptr (offset -! 2 * SIZEOF_SIZE_T) ;;
             mman_do_free ptr ;;
             ret new_ptr
           else ret ptr) ;;
  mman_try_split_and_free ptr' size ;;
  mman_finish_alloc ptr'.

Definition mman_aligned_alloc (size0 align : Z) : MM Z :=
  if negb (align &! (align -! 1) =? 0) then ret NULL
  else if align <? 2 * SIZEOF_SIZE_T then mman_alloc size0
  else
    let size := min_size size0 in
    if (ALLOC_LARGE_BLK_SIZE <=? size) || (ALLOC_LARGE_BLK_SIZE <=? align) then
      reqmem <- mfield mn_cb_reqmem ;;
      delmem <- mfield mn_cb_delmem ;;
      ptr <- large_blk_alloc size reqmem delmem ;;
      if negb (ptr mod align =? 0) then large_blk_free ptr delmem ;; ret NULL
      else ret ptr
    else
      ptr <- mman_match_any (fun fuel freed => freelists_aligned_match fuel freed size align)
                            (fun fuel large => freelist_aligned_match fuel large size align) ;;
      if ptr =? NULL then
        ok <- mman_reqmem (size +! align) ;;
        if negb ok then ret NULL
        else
          ptr <- mman_match_large (fun fuel large => freelist_aligned_match fuel large size align) ;;
          mman_carve_aligned ptr size align
      else mman_carve_aligned ptr size align.

(** From [size_t size = blk_size(ptr)] to the end of [mman_free]. *)
Definition free_in_area (ptr : Z) : MM unit :=
  size <- blk_size ptr ;;
  pool <- blk_poolptr ptr ;;
  count_area pool (fun n => n -! size) ;;
  count_total (fun n => n -! size) ;;
  ptr' <- blk_trymerge ptr (Some mman_detach) ;;
  gone <- (if negb (pool =? main) then
             n <- ld (pool +! pool_alloced_size) ;;
             if n =? 0 then mman_delmem pool else ret false
           else ret false) ;;
  if gone : bool then ret tt else mman_do_free ptr'.

Definition mman_free (ptr : Z) : MM unit :=
  if ptr =? NULL then ret tt
  else
    large <- (if ptr mod SIZE_4k =? 0 then
                delmem <- mfield mn_cb_delmem ;; large_blk_free ptr delmem
              else ret false) ;;
    if large : bool then ret tt else free_in_area ptr.

Definition mman_msize (ptr : Z) : MM Z :=
  if ptr =? NULL then ret 0 else blk_size ptr.

(** From the label [L1] to the end of both reallocation functions. *)
Definition mman_grow_or_move (ptr size newsize : Z) (alloc : MM Z) : MM Z :=
  fits <- (if negb (ptr mod SIZE_4k =? 0) then
             next <- blk_next ptr ;;
             if next =? NULL then ret false
             else
               freed <- blk_freed next ;;
               if freed : bool then
                 nsize <- blk_size next ;;
                 let total_size := size +! 2 * SIZEOF_SIZE_T +! nsize in
                 ret (newsize <=? total_size)
               else ret false
           else ret false) ;;
  if fits : bool then
    ptr' <- blk_mergenext ptr (Some mman_detach) ;;
    mman_try_split_and_free ptr' newsize ;;
    ret ptr'
  else
    new_ptr <- alloc ;;
    memcpy new_ptr ptr size ;;
    mman_free ptr ;;
    ret new_ptr.

(** From [size_t size = blk_size(ptr)] to the end of both. *)
Definition mman_resize (ptr newsize : Z) (alloc : MM Z) : MM Z :=
  size <- blk_size ptr ;;
  if newsize <=? size then
    if ptr mod SIZE_4k =? 0 then
      if 2 * SIZE_4k <=? size -! newsize then mman_grow_or_move ptr size newsize alloc
      else ret ptr
    else mman_try_split_and_free ptr newsize ;; ret ptr
  else mman_grow_or_move ptr size newsize alloc.

Definition mman_realloc (ptr newsize0 : Z) : MM Z :=
  if ptr =? NULL then mman_alloc newsize0
  else
    let newsize := PADDING (if newsize0 =? 0 then 2 * SIZEOF_SIZE_T else newsize0) in
    mman_resize ptr newsize (mman_alloc newsize).

Definition mman_aligned_realloc (ptr newsize0 align : Z) : MM Z :=
  if ptr =? NULL then mman_aligned_alloc newsize0 align
  else if negb (align &! (align -! 1) =? 0) then ret NULL
  else if align <? 2 * SIZEOF_SIZE_T then mman_realloc ptr newsize0
  else
    let newsize := min_size newsize0 in
    mman_resize ptr newsize (mman_aligned_alloc newsize align).
End Mman.
