(* ===== verification/MmanThms.v ===== *)
(** MmanThms: a manager with one area serves requests as a memory pool does
    ([mm/heap/mman.cpp] against [mm/heap/pool.cpp]), and runs that show its defects. *)

From Stdlib Require Import ZArith Lia.
From stdpp Require Import prelude gmap.
From S2P Require Import Prelude Mem Spinlock Block Klibc Freelist Pool Heap Mman.

(** ** Computations on the two managers that do the same *)

(** A manager and a pool with the same memory, free lists and counters. *)
Record alike (s : st mman) (t : st mpool) : Prop := {
  al_mem : smem s = smem t;
  al_size : mn_size (smgr s) = mp_size (smgr t);
  al_alloced : mn_alloced_size (smgr s) = mp_alloced_size (smgr t);
  al_large : mn_large_blk (smgr s) = mp_large_blk (smgr t);
  al_freed : mn_freed (smgr s) = mp_freed (smgr t);
  al_reqmem : mn_cb_reqmem (smgr s) = mp_cb_reqmem (smgr t)
}.

(** What only the manager has, and is not changed. *)
Definition own_part (s : st mman) : list Z * heap * option cb_delmem_t :=
  (mn_large (smgr s), mn_heap (smgr s), mn_cb_delmem (smgr s)).

(** What an operation of a pool other than the end of an allocation or of a release keeps. *)
Definition kept_part (t : st mpool) : Z * option cb_reqmem_t := (mp_alloced_size (smgr t), mp_cb_reqmem (smgr t)).

(** From like states, [c] and [d] both fault, or give the same answer and like states. *)
Definition sim {A} (c : MM A) (d : PM A) : Prop :=
  forall s t, alike s t ->
    match c s, d t with
    | Some (a, s'), Some (b, t') =>
        a = b /\ alike s' t' /\ own_part s' = own_part s /\ kept_part t' = kept_part t
    | None, None => True
    | _, _ => False
    end.

Lemma sim_ret {A} (a : A) : sim (ret a) (ret a).
Proof. intros s t Ha. by split_ands. Qed.
Lemma sim_bind {A B} (c : MM A) (d : PM A) (k : A -> MM B) (j : A -> PM B) :
  sim c d -> (forall a, sim (k a) (j a)) -> sim (bind c k) (bind d j).
Proof.
  intros Hc Hk s t Ha. unfold bind. specialize (Hc s t Ha).
  destruct (c s) as [[a s']|], (d t) as [[b t']|]; try done. destruct Hc as (-> & Ha' & Ho & Hn).
  specialize (Hk b s' t' Ha'). destruct (k b s') as [[x s2]|], (j b t') as [[y t2]|]; try done.
  destruct Hk as (-> & Ha2 & Ho2 & Hn2). split_ands; [done|done|congruence|congruence].
Qed.
Lemma sim_stuck {A} : sim (@stuck _ A) stuck.
Proof. done. Qed.
Lemma sim_ld a : sim (ld a) (ld a).
Proof. intros s t Ha. unfold ld. rewrite (al_mem _ _ Ha). destruct (load64 (smem t) a); [by split_ands|done]. Qed.
Lemma sim_sto a v : sim (sto a v) (sto a v).
Proof.
  intros s t Ha. unfold sto. rewrite (al_mem _ _ Ha). destruct (store64 (smem t) a v); [|done].
  destruct Ha. by split_ands.
Qed.
Lemma sim_if {A} (b : bool) (c1 c2 : MM A) d1 d2 :
  sim c1 d1 -> sim c2 d2 -> sim (if b then c1 else c2) (if b then d1 else d2).
Proof. by destruct b. Qed.
Lemma sim_whenM b (c : MM unit) d : sim c d -> sim (whenM b c) (whenM b d).
Proof. intros Hc. apply sim_if; [done|apply sim_ret]. Qed.

Lemma sim_field {A} (f : mman -> A) (g : mpool -> A) :
  (forall s t, alike s t -> f (smgr s) = g (smgr t)) -> sim (mfield f) (field g).
Proof. intros Hf s t Ha. unfold mfield, field, gets. rewrite (Hf s t Ha). by split_ands. Qed.
Lemma sim_large : sim (mfield mn_large_blk) (field mp_large_blk).
Proof. apply sim_field, al_large. Qed.
Lemma sim_freed : sim (mfield mn_freed) (field mp_freed).
Proof. apply sim_field, al_freed. Qed.
Lemma sim_fuel : sim (mfield mman_fuel) (field pool_fuel).
Proof. apply sim_field. intros s t Ha. unfold mman_fuel, pool_fuel. by rewrite (al_size _ _ Ha). Qed.
Lemma sim_set_large v : sim (massign (set_mn_large_blk v)) (assign (set_large v)).
Proof. intros s t []. by split_ands. Qed.
Lemma sim_set_freed v : sim (massign (set_mn_freed v)) (assign (set_freed v)).
Proof. intros s t []. by split_ands. Qed.

Create HintDb sim.
#[export] Hint Resolve sim_ret sim_stuck sim_ld sim_sto sim_large sim_freed sim_fuel sim_set_large sim_set_freed : sim.

(** Two computations built alike. *)
Ltac sim :=
  lazymatch goal with
  | |- sim (bind _ _) (bind _ _) => apply sim_bind; [sim|let a := fresh "a" in intros a;
      try match type of a with (_ * _)%type => destruct a end; sim]
  | |- sim (if _ then _ else _) (if _ then _ else _) => apply sim_if; sim
  | |- sim (whenM _ _) (whenM _ _) => apply sim_whenM; sim
  | |- sim _ _ => first [solve [auto with sim nocore]|assumption|progress cbv zeta; sim|match goal with Hs : _ |- _ => apply Hs end|idtac]
  end.

(** ** The operations on blocks and free lists *)

(** The operations of a block's tags are made of loads and stores. *)
Ltac sim_tags :=
  unfold blk_split, blk_set_area_2M, blk_setsize, blk_setfreed, blk_setalloced, blk_update, blk_size,
    blk_area_is_2M, blk_head, blk_tail, set_next, set_prev, next_of, prev_of; sim.

Lemma sim_blk_size p : sim (blk_size p) (blk_size p).
Proof. sim_tags. Qed.
Lemma sim_blk_split p n : sim (blk_split p n) (blk_split p n).
Proof. sim_tags. Qed.
Lemma sim_setfreed p n : sim (blk_setfreed p n) (blk_setfreed p n).
Proof. sim_tags. Qed.
Lemma sim_setalloced p n : sim (blk_setalloced p n) (blk_setalloced p n).
Proof. sim_tags. Qed.
Lemma sim_next p : sim (next_of p) (next_of p).
Proof. sim_tags. Qed.
#[export] Hint Resolve sim_blk_size sim_blk_split sim_setfreed sim_setalloced sim_next : sim.

Lemma sim_unlink p : sim (unlink p) (unlink p).
Proof. unfold unlink. sim_tags. Qed.
#[export] Hint Resolve sim_unlink : sim.
Lemma sim_freelist_detach l p : sim (freelist_detach l p) (freelist_detach l p).
Proof. unfold freelist_detach. sim. Qed.
Lemma sim_freelists_detach l id p : sim (freelists_detach l id p) (freelists_detach l id p).
Proof. unfold freelists_detach. sim. Qed.
Lemma sim_freelist_put l p : sim (freelist_put l p) (freelist_put l p).
Proof. unfold freelist_put. sim_tags. Qed.
#[export] Hint Resolve sim_freelist_detach sim_freelists_detach sim_freelist_put : sim.
Lemma sim_freelists_put l p : sim (freelists_put l p) (freelists_put l p).
Proof. unfold freelists_put. sim. Qed.
#[export] Hint Resolve sim_freelists_put : sim.

(** The searches, for tests that do the same. *)
Definition sim_fits (f : Z -> MM bool) (g : Z -> PM bool) : Prop := forall p, sim (f p) (g p).

Lemma sim_fits_size n : sim_fits (fits_size n) (fits_size n).
Proof. intros p. unfold fits_size. sim. Qed.
Lemma sim_fits_aligned n a : sim_fits (fits_aligned n a) (fits_aligned n a).
Proof. intros p. unfold fits_aligned, aligned_size_of. sim. Qed.

Lemma sim_list_search f g fuel l : sim_fits f g -> sim (list_search fuel f l) (list_search fuel g l).
Proof.
  intros Hf. revert l. induction fuel as [|fuel IH]; intros l; [apply sim_stuck|]. cbn [list_search].
  apply sim_if; [sim|]. apply sim_bind; [apply Hf|]. intros ok. apply sim_if; [sim|].
  apply sim_bind; [sim|]. intros n. apply IH.
Qed.
Lemma sim_match_with f g fuel l : sim_fits f g -> sim (match_with fuel f l) (match_with fuel g l).
Proof. intros Hf. unfold match_with. apply sim_bind; [apply sim_list_search, Hf|]. intros p. sim.
Qed.
Lemma sim_matches_with f g n fuel ls id :
  sim_fits f g -> sim (matches_with n fuel f ls id) (matches_with n fuel g ls id).
Proof.
  intros Hf. revert id. induction n as [|n IH]; intros id; [apply sim_ret|]. cbn [matches_with].
  apply sim_bind; [apply sim_list_search, Hf|]. intros p. apply sim_if; [apply IH|sim].
Qed.

Lemma sim_match_any f g f' g' :
  (forall fuel ls, sim (f fuel ls) (g fuel ls)) -> (forall fuel l, sim (f' fuel l) (g' fuel l)) ->
  sim (mman_match_any f f') (match_any g g').
Proof.
  intros H1 H2. unfold mman_match_any, match_any, mman_match_freed, match_freed, mman_match_large, match_large. sim.
Qed.

(** ** The operations of the managers *)

Lemma sim_put_large p : sim (mman_put_large p) (put_large p).
Proof. unfold mman_put_large, put_large. sim. Qed.
#[export] Hint Resolve sim_put_large : sim.
Lemma sim_do_free p : sim (mman_do_free p) (do_free p).
Proof. unfold mman_do_free, do_free. sim. Qed.
#[export] Hint Resolve sim_do_free : sim.
Lemma sim_try_split p n : sim (mman_try_split_and_free p n) (try_split_and_free p n).
Proof. unfold mman_try_split_and_free, try_split_and_free. sim. Qed.
#[export] Hint Resolve sim_try_split : sim.

(** ** Allocation *)

(** [count_in p k]: the area of the block at [p] counts [k] bytes more. *)
Definition count_in (p k : Z) : MM Z := pool <- blk_poolptr p ;; count_area pool (fun n => n +! k) ;; ret p.

(** The manager's [c] does what the pool's [d] does, and then counts in the area. *)
Definition serves_like (c : MM Z) (d : PM Z) : Prop :=
  forall s t, alike s t -> mp_cb_reqmem (smgr t) = None ->
    match d t with
    | None => c s = None
    | Some (p, t') => exists s', alike s' t' /\ own_part s' = own_part s /\
        (c s = count_in p (mp_alloced_size (smgr t') -! mp_alloced_size (smgr t)) s' \/
         p = NULL /\ c s = Some (NULL, s'))
    end.

Lemma serves_bind {A} (c : MM A) d (k : A -> MM Z) j :
  sim c d -> (forall a, serves_like (k a) (j a)) -> serves_like (bind c k) (bind d j).
Proof.
  intros Hc Hk s t Ha Hcb. unfold bind. specialize (Hc s t Ha).
  destruct (c s) as [[a s1]|], (d t) as [[b t1]|]; try done. destruct Hc as (-> & Ha1 & Ho & [= Hn Hr]).
  specialize (Hk b s1 t1 Ha1). rewrite Hr, Hn, Ho in Hk. by apply Hk.
Qed.
Lemma serves_if (b : bool) c1 c2 d1 d2 :
  serves_like c1 d1 -> serves_like c2 d2 -> serves_like (if b then c1 else c2) (if b then d1 else d2).
Proof. by destruct b. Qed.
Lemma serves_null : serves_like (ret NULL) (ret NULL).
Proof. intros s t Ha _. exists s. split; [done|]. split; [done|]. by right. Qed.

(** The total of the manager and the count of the area are apart. *)
Lemma count_total_last p k (f : Z -> Z) s :
  (pool <- blk_poolptr p ;; count_area pool (fun n => n +! k) ;; count_total f ;; ret p) s =
  count_in p k (with_mgr (set_mn_alloced (f (mn_alloced_size (smgr s))) (smgr s)) s).
Proof.
  unfold count_in, blk_poolptr, blk_areaptr, blk_area_is_2M, blk_head, count_area, count_total.
  unfold bind, ret, ld, sto, mfield, massign, gets, modify, with_mem, with_mgr. cbn [smem smgr].
  destruct (load64 (smem s) (p -! SIZEOF_SIZE_T)) as [w|]; [|done]. simpl.
  destruct (load64 (smem s) _) as [v|]; [|done]. simpl.
  destruct (load64 (smem s) _) as [n|]; [|done]. simpl.
  by destruct (store64 (smem s) _ _).
Qed.

Lemma add_back a n m : m +! (a +! n -! a) = m +! n.
Proof.
  unfold add64, sub64, u64. rewrite Zminus_mod_idemp_l, Z.add_mod_idemp_r by (unfold two64; lia).
  f_equal. lia.
Qed.
Lemma count_in_ext p k k' s : (forall m, m +! k = m +! k') -> count_in p k s = count_in p k' s.
Proof.
  intros Hk. unfold count_in, count_area, bind. destruct (blk_poolptr p s) as [[pool s1]|]; [|done].
  destruct (ld (pool +! pool_alloced_size) s1) as [[n s2]|]; [|done]. by rewrite Hk.
Qed.

Lemma serves_count p n :
  serves_like (pool <- blk_poolptr p ;; count_area pool (fun m => m +! n) ;; count_total (fun m => m +! n) ;; ret p)
    (alloced <- field mp_alloced_size ;; assign (set_alloced (alloced +! n)) ;; ret p).
Proof.
  intros s t [A1 A2 A3 A4 A5 A6] _. cbn. rewrite count_total_last.
  exists (with_mgr (set_mn_alloced (mn_alloced_size (smgr s) +! n) (smgr s)) s).
  split; [split; cbn; congruence|]. split; [done|]. left. apply count_in_ext. intros m. by rewrite add_back.
Qed.
Lemma serves_finish p : serves_like (mman_finish_alloc p) (finish_alloc p).
Proof.
  unfold mman_finish_alloc, finish_alloc. apply serves_bind; [apply sim_blk_size|]. intros n.
  apply serves_bind; [apply sim_setalloced|]. intros _. apply serves_count.
Qed.
Lemma serves_split p n :
  serves_like (mman_try_split_and_free p n ;; mman_finish_alloc p) (try_split_and_free p n ;; finish_alloc p).
Proof. apply serves_bind; [apply sim_try_split|]. intros _. apply serves_finish. Qed.
Lemma serves_carve p n a : serves_like (mman_carve_aligned p n a) (carve_aligned p n a).
Proof.
  unfold mman_carve_aligned, carve_aligned. apply serves_bind; [apply sim_if; sim|]. intros q. apply serves_split.
Qed.

(** Without a callback neither manager gets more memory. *)
Lemma serves_no_memory main n m c d :
  serves_like (ok <- mman_reqmem main n ;; if negb ok then ret NULL else c)
    (ok <- mpool_reqmem m ;; if negb ok then ret NULL else d).
Proof.
  intros s t Ha Hcb. pose proof (al_reqmem _ _ Ha) as Hr. rewrite Hcb in Hr.
  unfold mman_reqmem, mpool_reqmem, bind, mfield, field, gets, ret. rewrite Hr, Hcb. simpl.
  by apply serves_null.
Qed.

Lemma serves_alloc main req :
  min_size req < ALLOC_LARGE_BLK_SIZE -> serves_like (mman_alloc main req) (mpool_alloc req).
Proof.
  intros Hreq. unfold mman_alloc, mpool_alloc. cbv zeta. rewrite (proj2 (Z.leb_gt _ _) Hreq).
  apply serves_bind.
  { apply sim_match_any; intros fuel l; unfold freelists_match, freelist_match.
    - apply sim_if; [sim|apply sim_matches_with, sim_fits_size].
    - apply sim_match_with, sim_fits_size. }
  intros p. apply serves_if; [apply serves_no_memory|apply serves_split].
Qed.
Lemma serves_aligned_alloc main req align :
  min_size req < ALLOC_LARGE_BLK_SIZE -> align < ALLOC_LARGE_BLK_SIZE ->
  serves_like (mman_aligned_alloc main req align) (mpool_aligned_alloc req align).
Proof.
  intros Hreq Hal. unfold mman_aligned_alloc, mpool_aligned_alloc. cbv zeta.
  rewrite (proj2 (Z.leb_gt _ _) Hreq), (proj2 (Z.leb_gt _ _) Hal). simpl orb. cbn iota.
  apply serves_if; [apply serves_null|]. apply serves_if; [by apply serves_alloc|].
  apply serves_bind.
  { apply sim_match_any; intros fuel l; unfold freelists_aligned_match, freelist_aligned_match.
    - apply sim_if; [sim|apply sim_matches_with, sim_fits_aligned].
    - apply sim_match_with, sim_fits_aligned. }
  intros p. apply serves_if; [apply serves_no_memory|apply serves_carve].
Qed.

(** The manager seen as a pool. *)
Definition as_pool (s : st mman) : st mpool :=
  let m := smgr s in
  St (smem s) (Mpool NULL (mn_size m) (mn_alloced_size m) (mn_cb_reqmem m) (mn_cb_delmem m) (mn_large_blk m) (mn_freed m)).

(** What [c] does in [s] when the pool's [d] does the same in [as_pool s]: it faults when [d] does;
    else there is a state like the one [d] leaves, with the table of large blocks and the heap as
    before, from which it only counts the bytes in the block's area, unless there is no block. *)
Definition same_service (s : st mman) (c : MM Z) (d : PM Z) : Prop :=
  match d (as_pool s) with
  | None => c s = None
  | Some (p, t') => exists s', alike s' t' /\ own_part s' = own_part s /\
      (c s = count_in p (mp_alloced_size (smgr t') -! mn_alloced_size (smgr s)) s' \/
       p = NULL /\ c s = Some (NULL, s'))
  end.

(** C35: the manager and the pool.  A manager that cannot ask for more memory serves every request
    below the limit for large blocks, aligned or not, as a pool with the same memory, free lists and
    counters does: it chooses the same block, splits it alike, leaves the same free lists and total,
    and adds the block's size to the counter of the area the block lies in; or both return NULL. *)
Theorem mman_serves_like_pool (main : Z) (s : st mman) (req align : Z) :
  mn_cb_reqmem (smgr s) = None -> min_size req < ALLOC_LARGE_BLK_SIZE -> align < ALLOC_LARGE_BLK_SIZE ->
  same_service s (mman_alloc main req) (mpool_alloc req) /\
  same_service s (mman_aligned_alloc main req align) (mpool_aligned_alloc req align).
Proof.
  intros Hcb Hreq Hal. assert (Ha : alike s (as_pool s)) by done. split.
  - by apply (serves_alloc main req Hreq s (as_pool s)).
  - by apply (serves_aligned_alloc main req align Hreq Hal s (as_pool s)).
Qed.

(** ** Concrete runs *)

(** A manager at 1000 with one area of 4 KiB at 8192. *)
Definition demo_heap0 : heap := HeapSt mpool_zero SPIN_INIT 0.
Definition mman_blank : st mman :=
  St (fill 1000 24 0 (fill 8192 4096 0 ∅)) (Mman 0 0 None None NULL [] [] demo_heap0).
Definition run_or {A} (c : MM A) (s : st mman) : st mman :=
  match c s with Some (_, s') => s' | None => s end.
Definition demo_mman : st mman := run_or (mman_init 1000 8192 SIZE_4k) mman_blank.


Lemma mman_serves_like_pool_witness :
  same_service demo_mman (mman_alloc 1000 100) (mpool_alloc 100) /\
  fst <$> mman_alloc 1000 100 demo_mman = Some 8208.
Proof.
  split; [|vm_compute; reflexivity].
  destruct (mman_serves_like_pool 1000 demo_mman 100 64) as [Ha _];
    [vm_compute; reflexivity|reflexivity|reflexivity|exact Ha].
Defined.

(** With a callback for releasing memory, [mman_deinit] always ends at NULL and reads its [next]. *)
Lemma mman_deinit_faults (main : Z) (s : st mman) (f : cb_delmem_t) :
  main <> NULL -> mn_cb_delmem (smgr s) = Some f -> load64 (smem s) (main +! pool_next) = Some NULL ->
  load64 (smem s) pool_next = None -> mman_deinit main s = None.
Proof.
  intros Hm Hcb Hn Hf. unfold mman_deinit. rewrite (proj2 (Z.eqb_neq main NULL)) by done.
  unfold bind, mfield, gets, ld. rewrite Hcb, Hn. simpl. change (NULL +! pool_next) with pool_next. by rewrite Hf.
Qed.

(** The area asked for a request of 4032 bytes is too small by 16: the search after it finds nothing
    and the code goes on with NULL. *)
Definition give_area : cb_reqmem_t := fun _ n m => Some (16384, fill 16384 (Z.to_nat n) 0 m).
Lemma mman_alloc_4032_faults :
  let s := run_or (mman_alloc 1000 4064) (run_or (mman_setcb 1000 (Some give_area) None) demo_mman) in
  mman_alloc 1000 4032 s = None /\ fst <$> mman_alloc 1000 4016 s = Some 16448.
Proof. split; vm_compute; reflexivity. Qed.

(** Of two large blocks in one list the table forgets the first: its [next] is cleared after the
    block has been put before the others. *)
Definition give_large : cb_reqmem_t := fun _ n m => Some (if n =? 16384 then 1048576 else 1081344, m).
Definition take_back : cb_delmem_t := fun _ _ m => Some m.
Definition large_heap : st mpool :=
  match mpool_init 32768 8192 (St (fill 32768 8192 0 (smem demo_mman)) mpool_zero) with
  | Some (_, t) => t
  | None => St ∅ mpool_zero
  end.
Definition large_mman : st mman :=
  run_or (mman_setcb 1000 (Some give_large) (Some take_back))
    (St (smem large_heap) (set_mn_heap (HeapSt (smgr large_heap) SPIN_INIT 0) (smgr demo_mman))).
Lemma large_blk_forgotten :
  let s1 := run_or (mman_alloc 1000 16384) large_mman in
  let s2 := run_or (mman_alloc 1000 20480) s1 in
  fst <$> mman_alloc 1000 16384 large_mman = Some 1048576 /\
  fst <$> mman_alloc 1000 20480 s1 = Some 1081344 /\
  fst <$> large_blk_free 1048576 (Some take_back) s1 = Some true /\
  fst <$> large_blk_free 1048576 (Some take_back) s2 = Some false /\
  fst <$> large_blk_free 1081344 (Some take_back) s2 = Some true.
Proof. cbv zeta. split_ands; vm_compute; reflexivity. Qed.

(** In an area of 2 MiB a block that [mman_realloc] has merged with the next one loses the tag that
    says so. *)
Definition two_mib : st mman :=
  run_or (mman_init 1000 2097152 SIZE_2M)
    (St (fill 1000 24 0 (fill 2097152 8192 0 (fill 4194240 64 0 ∅))) (smgr mman_blank)).
Lemma mman_realloc_drops_2M :
  let s := run_or (mman_alloc 1000 100) two_mib in
  fst <$> mman_alloc 1000 100 two_mib = Some 2097168 /\
  fst <$> blk_area_is_2M 2097168 s = Some true /\
  fst <$> mman_realloc 1000 2097168 1000 s = Some 2097168 /\
  fst <$> blk_area_is_2M 2097168 (run_or (mman_realloc 1000 2097168 1000) s) = Some false.
Proof. cbv zeta. split_ands; vm_compute; reflexivity. Qed.
