(* ===== verification/Kernel.v ===== *)
(** Kernel: the objects of the thread and driver-socket layers ([thread/thread.hpp],
    [hel/dsocket.hpp], [arch/x86_64/context.hpp]) and the state that the code above the memory
    managers runs on.

    An object that the kernel gets from [malloc] is a record in a finite map from addresses; two
    pointers to one object are two uses of one key, and an access through a pointer that is not a
    key is a fault.  Buffers, strings, register frames and [mm_context_t] are bytes of the shared
    memory, so that [memcpy], the page-table code and the frame allocator act on them. *)

From Stdlib Require Import ZArith Lia.
From stdpp Require Import prelude gmap.
From S2P Require Import Prelude Mem Spinlock Block Klibc Bitmap Frame.

(** ** hel/dsocket.hpp *)

Definition DSOCK_ADDR_MAX : Z := 109.
Definition DSOCK_BUFF_SIZE : Z := 4096.
Definition DSOCKET_CONN_MAX : Z := 8.

(** [d_socket_addr_t]: one byte, then the path. *)
Definition logical_address_of (addr : Z) : Z := addr.
Definition d_path_of (addr : Z) : Z := addr +! 1.

Record dsocket_pair := DsocketPair {
  dp_connected : bool;
  dp_path : Z;
  dp_client_buffer : Z;
  dp_client_buffer_pos : Z;
  dp_client_buffer_size : Z;
  dp_client_fds : Z;
  dp_server_buffer : Z;
  dp_server_buffer_pos : Z;
  dp_server_fds : Z
}.

Inductive dsocket_state :=
  | dsocket_state_disconnected
  | dsocket_state_listening
  | dsocket_state_connected.
#[export] Instance dsocket_state_eq_dec : EqDecision dsocket_state.
Proof. solve_decision. Defined.

Record dsocket := Dsocket {
  ds_next : Z;
  ds_flags : Z;
  ds_bind_addr : Z;
  ds_state : dsocket_state;
  ds_conn_max : Z;
  ds_conn_curr : Z;
  ds_backlog : Z;
  ds_pair : Z
}.

(** A [dsocket_op_t *]: one of the two static tables, or whatever an uninitialised word holds. *)
Inductive dsocket_op := normal_ops | accept_ops | no_ops.

Record dsocket_handle := DsocketHandle { dh_op : dsocket_op; dh_socket : Z }.

(** ** thread/thread.hpp *)

Definition DEFAULT_FD_NUM : Z := 32.
Definition CLONE_FILES : Z := 1024.
Definition CLONE_VFORK : Z := 16384.
Definition CLONE_SETTLS : Z := 524288.
Definition CLONE_PARENT_SETTID : Z := 1048576.
Definition CLONE_CHILD_SETTID : Z := 16777216.

Definition kMaxThreadCount : Z := 4096.
Definition kThreadStackSize : Z := 65536.

Inductive run_state :=
  | kRunNone
  | kRunActive
  | kRunSuspended
  | kRunDeferred
  | kRunBlocked
  | kRunInterrupted
  | kRunTerminated.
#[export] Instance run_state_eq_dec : EqDecision run_state.
Proof. solve_decision. Defined.

Definition kFlagNone : Z := 0.
Definition kFlagServer : Z := 1.

Definition fd_info_type_dsocket : Z := 0.
Record fd_info := FdInfo { fd_kind : Z; fd_dsock_handle : Z }.

Record thread_file_info := FileInfo { fi_fds : Z; fi_max_fd_count : Z; fi_ref_count : Z }.

Record thread := Thread {
  th_id : Z;
  th_call_in_signal : bool;
  th_cpu_id : Z;
  th_jiffies : Z;
  th_arch_context : Z;
  th_syscall_stack : Z;
  th_mm : Z;
  th_file_info : Z;
  th_tflags : Z;
  th_status : Z;
  th_child_vfork_done : bool;
  th_is_vfork : bool;
  th_state : run_state
}.

(** ** arch/x86_64/context.hpp *)

Record arch_context := ArchContext {
  ac_context : Z;
  ac_fpu : Z;
  ac_fs : Z;
  ac_gs : Z;
  ac_fsbase : Z;
  ac_gsbase : Z
}.

(** ** The state *)

(** The objects, by address.  The last two maps hold the arrays [fd_info_t **fds] and
    [dsocket_pair_t **backlog]. *)
Record objects := Objects {
  o_threads : gmap Z thread;
  o_files : gmap Z thread_file_info;
  o_fds : gmap Z fd_info;
  o_handles : gmap Z dsocket_handle;
  o_socks : gmap Z dsocket;
  o_pairs : gmap Z dsocket_pair;
  o_contexts : gmap Z arch_context;
  o_arrays : gmap Z (list Z)
}.

(** The static variables of [thread.cpp], and the lock of [clone_page_table] ([table.cpp]). *)
Record statics := Statics {
  threads : list Z;
  idle_threads : list Z;
  cpu_idx : Z;
  new_thread_lock : spinlock_t;
  search_lock : spinlock_t;
  thread_initialized : bool;
  clone_lock : spinlock_t
}.

(** The static variables of [apic.cpp] and the registers of the I/O APIC behind its window. *)
Record apic := Apic {
  x2apic_mode : bool;
  lapic_address : Z;
  cpu_count : Z;
  cpuid_to_lapicid : list Z;
  ioapic_regs : gmap Z Z
}.

(** What the code reads and writes of the processor that runs it: CR3, RFLAGS, FS, GS, the 512
    bytes that [fxsave] stores, the model-specific registers, the [rsp0] of each TSS, and the register
    frame that [thread_switch_to] has jumped to, if it has.  [mc_out] is the bytes sent to the
    serial port, [mc_lsr] what its line status register will answer before it stays ready. *)
Record machine := Machine {
  mc_cr3 : Z;
  mc_rflags : Z;
  mc_fs : Z;
  mc_gs : Z;
  mc_fpu : list Z;
  mc_msr : gmap Z Z;
  mc_rsp0 : list Z;
  mc_resume : option Z;
  mc_out : list Z;
  mc_lsr : list Z;
  mc_debug_lock : spinlock_t
}.

(** What start-up sets.  Of the processor: the descriptor-table registers (limit and base), the
    segment and task registers besides FS and GS, the stacks of each TSS besides [rsp0] ([rsp1],
    [rsp2], [ist1] to [ist7]), CR0 and CR4.  [bt_io] is the bytes written to ports by the initialisers,
    with the port, in order.  Then the static variables of [acpi.cpp] ([x]) and [hpet.cpp] and the
    [ioapic_address] of [apic.cpp], what the main counter of the HPET will answer, read by read, and
    [ap_initialized] of [apic.cpp]. *)
Record boot := Boot {
  bt_gdtr : Z * Z;
  bt_idtr : Z * Z;
  bt_cs : Z;
  bt_ds : Z;
  bt_es : Z;
  bt_ss : Z;
  bt_tr : Z;
  bt_tss : list (list Z);
  bt_cr0 : Z;
  bt_cr4 : Z;
  bt_io : list (Z * Z);
  acpi_x : Z;
  hpet_addr : Z;
  hpet_period : Z;
  ioapic_address : Z;
  bt_counter : list Z;
  ap_initialized : bool
}.

(** [k_heap] is the state of the kernel heap, [k_frames] that of the frame allocator. *)
Record kernel (H : Type) := Kern {
  k_heap : H;
  k_frames : bitmap;
  k_obj : objects;
  k_static : statics;
  k_apic : apic;
  k_cpu : machine;
  k_boot : boot
}.
Arguments Kern {H}.
Arguments k_heap {H}.
Arguments k_frames {H}.
Arguments k_obj {H}.
Arguments k_static {H}.
Arguments k_apic {H}.
Arguments k_cpu {H}.
Arguments k_boot {H}.

(** ** What the layers above expect of the heap

    [kmalloc], [kfree] and [kaligned_alloc] are [malloc], [free] and [aligned_alloc].  [heap_rep h l]
    says that [l] is the live blocks, with their usable sizes. *)

Definition apart (a n b k : Z) : Prop := a + n <= b \/ b + k <= a.

(** What a request for [n] bytes answers. *)
Definition grants {H} (rep : H -> gmap Z Z -> Prop) (lo hi n a : Z) (h' : H) (l : gmap Z Z) : Prop :=
  (a = NULL /\ rep h' l) \/
  (exists k, n <= k /\ (0 < a /\ lo <= a /\ a + k <= hi /\ a + k < two64) /\ l !! a = None /\
     (forall b j, l !! b = Some j -> apart a k b j) /\ rep h' (<[a := k]> l)).

Class KernelHeap (H : Type) := {
  kmalloc : Z -> H -> option (Z * H);
  kfree : Z -> H -> option H;
  kaligned_alloc : Z -> Z -> H -> option (Z * H);
  heap_rep : H -> gmap Z Z -> Prop;
  heap_lo : Z;
  heap_hi : Z;
  kmalloc_spec : forall h l n, heap_rep h l -> 0 <= n < two32 ->
    exists a h', kmalloc n h = Some (a, h') /\ grants heap_rep heap_lo heap_hi n a h' l;
  kaligned_spec : forall h l n, heap_rep h l -> 0 <= n < two32 ->
    exists a h', kaligned_alloc 16 n h = Some (a, h') /\ grants heap_rep heap_lo heap_hi n a h' l;
  kfree_spec : forall h l a, heap_rep h l -> a = NULL \/ is_Some (l !! a) ->
    exists h', kfree a h = Some h' /\ heap_rep h' (delete a l)
}.

(** What a block holds when [malloc] returns it: anything. *)
Class Garbage := {
  any_thread : Z -> thread;
  any_file : Z -> thread_file_info;
  any_fd : Z -> fd_info;
  any_handle : Z -> dsocket_handle;
  any_sock : Z -> dsocket;
  any_pair : Z -> dsocket_pair;
  any_context : Z -> arch_context;
  any_array : Z -> nat -> Z
}.

(** ** One field of a record replaced *)

Definition set_dp_connected v (r : dsocket_pair) :=
  DsocketPair v (dp_path r) (dp_client_buffer r) (dp_client_buffer_pos r) (dp_client_buffer_size r)
    (dp_client_fds r) (dp_server_buffer r) (dp_server_buffer_pos r) (dp_server_fds r).
Definition set_dp_path v (r : dsocket_pair) :=
  DsocketPair (dp_connected r) v (dp_client_buffer r) (dp_client_buffer_pos r) (dp_client_buffer_size r)
    (dp_client_fds r) (dp_server_buffer r) (dp_server_buffer_pos r) (dp_server_fds r).
Definition set_dp_client_buffer v (r : dsocket_pair) :=
  DsocketPair (dp_connected r) (dp_path r) v (dp_client_buffer_pos r) (dp_client_buffer_size r)
    (dp_client_fds r) (dp_server_buffer r) (dp_server_buffer_pos r) (dp_server_fds r).
Definition set_dp_client_buffer_pos v (r : dsocket_pair) :=
  DsocketPair (dp_connected r) (dp_path r) (dp_client_buffer r) v (dp_client_buffer_size r)
    (dp_client_fds r) (dp_server_buffer r) (dp_server_buffer_pos r) (dp_server_fds r).
Definition set_dp_client_buffer_size v (r : dsocket_pair) :=
  DsocketPair (dp_connected r) (dp_path r) (dp_client_buffer r) (dp_client_buffer_pos r) v
    (dp_client_fds r) (dp_server_buffer r) (dp_server_buffer_pos r) (dp_server_fds r).
Definition set_dp_client_fds v (r : dsocket_pair) :=
  DsocketPair (dp_connected r) (dp_path r) (dp_client_buffer r) (dp_client_buffer_pos r) (dp_client_buffer_size r)
    v (dp_server_buffer r) (dp_server_buffer_pos r) (dp_server_fds r).
Definition set_dp_server_buffer v (r : dsocket_pair) :=
  DsocketPair (dp_connected r) (dp_path r) (dp_client_buffer r) (dp_client_buffer_pos r) (dp_client_buffer_size r)
    (dp_client_fds r) v (dp_server_buffer_pos r) (dp_server_fds r).
Definition set_dp_server_buffer_pos v (r : dsocket_pair) :=
  DsocketPair (dp_connected r) (dp_path r) (dp_client_buffer r) (dp_client_buffer_pos r) (dp_client_buffer_size r)
    (dp_client_fds r) (dp_server_buffer r) v (dp_server_fds r).
Definition set_dp_server_fds v (r : dsocket_pair) :=
  DsocketPair (dp_connected r) (dp_path r) (dp_client_buffer r) (dp_client_buffer_pos r) (dp_client_buffer_size r)
    (dp_client_fds r) (dp_server_buffer r) (dp_server_buffer_pos r) v.
Definition set_ds_next v (r : dsocket) :=
  Dsocket v (ds_flags r) (ds_bind_addr r) (ds_state r)
    (ds_conn_max r) (ds_conn_curr r) (ds_backlog r) (ds_pair r).
Definition set_ds_flags v (r : dsocket) :=
  Dsocket (ds_next r) v (ds_bind_addr r) (ds_state r)
    (ds_conn_max r) (ds_conn_curr r) (ds_backlog r) (ds_pair r).
Definition set_ds_bind_addr v (r : dsocket) :=
  Dsocket (ds_next r) (ds_flags r) v (ds_state r)
    (ds_conn_max r) (ds_conn_curr r) (ds_backlog r) (ds_pair r).
Definition set_ds_state v (r : dsocket) :=
  Dsocket (ds_next r) (ds_flags r) (ds_bind_addr r) v
    (ds_conn_max r) (ds_conn_curr r) (ds_backlog r) (ds_pair r).
Definition set_ds_conn_max v (r : dsocket) :=
  Dsocket (ds_next r) (ds_flags r) (ds_bind_addr r) (ds_state r)
    v (ds_conn_curr r) (ds_backlog r) (ds_pair r).
Definition set_ds_conn_curr v (r : dsocket) :=
  Dsocket (ds_next r) (ds_flags r) (ds_bind_addr r) (ds_state r)
    (ds_conn_max r) v (ds_backlog r) (ds_pair r).
Definition set_ds_backlog v (r : dsocket) :=
  Dsocket (ds_next r) (ds_flags r) (ds_bind_addr r) (ds_state r)
    (ds_conn_max r) (ds_conn_curr r) v (ds_pair r).
Definition set_ds_pair v (r : dsocket) :=
  Dsocket (ds_next r) (ds_flags r) (ds_bind_addr r) (ds_state r)
    (ds_conn_max r) (ds_conn_curr r) (ds_backlog r) v.
Definition set_dh_op v (r : dsocket_handle) :=
  DsocketHandle v (dh_socket r).
Definition set_dh_socket v (r : dsocket_handle) :=
  DsocketHandle (dh_op r) v.
Definition set_fd_kind v (r : fd_info) :=
  FdInfo v (fd_dsock_handle r).
Definition set_fd_dsock_handle v (r : fd_info) :=
  FdInfo (fd_kind r) v.
Definition set_fi_fds v (r : thread_file_info) :=
  FileInfo v (fi_max_fd_count r) (fi_ref_count r).
Definition set_fi_max_fd_count v (r : thread_file_info) :=
  FileInfo (fi_fds r) v (fi_ref_count r).
Definition set_fi_ref_count v (r : thread_file_info) :=
  FileInfo (fi_fds r) (fi_max_fd_count r) v.
Definition set_th_id v (r : thread) :=
  Thread v (th_call_in_signal r) (th_cpu_id r) (th_jiffies r) (th_arch_context r) (th_syscall_stack r) (th_mm r)
    (th_file_info r) (th_tflags r) (th_status r) (th_child_vfork_done r) (th_is_vfork r) (th_state r).
Definition set_th_call_in_signal v (r : thread) :=
  Thread (th_id r) v (th_cpu_id r) (th_jiffies r) (th_arch_context r) (th_syscall_stack r) (th_mm r)
    (th_file_info r) (th_tflags r) (th_status r) (th_child_vfork_done r) (th_is_vfork r) (th_state r).
Definition set_th_cpu_id v (r : thread) :=
  Thread (th_id r) (th_call_in_signal r) v (th_jiffies r) (th_arch_context r) (th_syscall_stack r) (th_mm r)
    (th_file_info r) (th_tflags r) (th_status r) (th_child_vfork_done r) (th_is_vfork r) (th_state r).
Definition set_th_jiffies v (r : thread) :=
  Thread (th_id r) (th_call_in_signal r) (th_cpu_id r) v (th_arch_context r) (th_syscall_stack r) (th_mm r)
    (th_file_info r) (th_tflags r) (th_status r) (th_child_vfork_done r) (th_is_vfork r) (th_state r).
Definition set_th_arch_context v (r : thread) :=
  Thread (th_id r) (th_call_in_signal r) (th_cpu_id r) (th_jiffies r) v (th_syscall_stack r) (th_mm r)
    (th_file_info r) (th_tflags r) (th_status r) (th_child_vfork_done r) (th_is_vfork r) (th_state r).
Definition set_th_syscall_stack v (r : thread) :=
  Thread (th_id r) (th_call_in_signal r) (th_cpu_id r) (th_jiffies r) (th_arch_context r) v (th_mm r)
    (th_file_info r) (th_tflags r) (th_status r) (th_child_vfork_done r) (th_is_vfork r) (th_state r).
Definition set_th_mm v (r : thread) :=
  Thread (th_id r) (th_call_in_signal r) (th_cpu_id r) (th_jiffies r) (th_arch_context r) (th_syscall_stack r) v
    (th_file_info r) (th_tflags r) (th_status r) (th_child_vfork_done r) (th_is_vfork r) (th_state r).
Definition set_th_file_info v (r : thread) :=
  Thread (th_id r) (th_call_in_signal r) (th_cpu_id r) (th_jiffies r) (th_arch_context r) (th_syscall_stack r) (th_mm r)
    v (th_tflags r) (th_status r) (th_child_vfork_done r) (th_is_vfork r) (th_state r).
Definition set_th_tflags v (r : thread) :=
  Thread (th_id r) (th_call_in_signal r) (th_cpu_id r) (th_jiffies r) (th_arch_context r) (th_syscall_stack r) (th_mm r)
    (th_file_info r) v (th_status r) (th_child_vfork_done r) (th_is_vfork r) (th_state r).
Definition set_th_status v (r : thread) :=
  Thread (th_id r) (th_call_in_signal r) (th_cpu_id r) (th_jiffies r) (th_arch_context r) (th_syscall_stack r) (th_mm r)
    (th_file_info r) (th_tflags r) v (th_child_vfork_done r) (th_is_vfork r) (th_state r).
Definition set_th_child_vfork_done v (r : thread) :=
  Thread (th_id r) (th_call_in_signal r) (th_cpu_id r) (th_jiffies r) (th_arch_context r) (th_syscall_stack r) (th_mm r)
    (th_file_info r) (th_tflags r) (th_status r) v (th_is_vfork r) (th_state r).
Definition set_th_is_vfork v (r : thread) :=
  Thread (th_id r) (th_call_in_signal r) (th_cpu_id r) (th_jiffies r) (th_arch_context r) (th_syscall_stack r) (th_mm r)
    (th_file_info r) (th_tflags r) (th_status r) (th_child_vfork_done r) v (th_state r).
Definition set_th_state v (r : thread) :=
  Thread (th_id r) (th_call_in_signal r) (th_cpu_id r) (th_jiffies r) (th_arch_context r) (th_syscall_stack r) (th_mm r)
    (th_file_info r) (th_tflags r) (th_status r) (th_child_vfork_done r) (th_is_vfork r) v.
Definition set_ac_context v (r : arch_context) :=
  ArchContext v (ac_fpu r) (ac_fs r) (ac_gs r) (ac_fsbase r) (ac_gsbase r).
Definition set_ac_fpu v (r : arch_context) :=
  ArchContext (ac_context r) v (ac_fs r) (ac_gs r) (ac_fsbase r) (ac_gsbase r).
Definition set_ac_fs v (r : arch_context) :=
  ArchContext (ac_context r) (ac_fpu r) v (ac_gs r) (ac_fsbase r) (ac_gsbase r).
Definition set_ac_gs v (r : arch_context) :=
  ArchContext (ac_context r) (ac_fpu r) (ac_fs r) v (ac_fsbase r) (ac_gsbase r).
Definition set_ac_fsbase v (r : arch_context) :=
  ArchContext (ac_context r) (ac_fpu r) (ac_fs r) (ac_gs r) v (ac_gsbase r).
Definition set_ac_gsbase v (r : arch_context) :=
  ArchContext (ac_context r) (ac_fpu r) (ac_fs r) (ac_gs r) (ac_fsbase r) v.
Definition set_o_threads v (r : objects) :=
  Objects v (o_files r) (o_fds r) (o_handles r) (o_socks r) (o_pairs r) (o_contexts r) (o_arrays r).
Definition set_o_files v (r : objects) :=
  Objects (o_threads r) v (o_fds r) (o_handles r)
    (o_socks r) (o_pairs r) (o_contexts r) (o_arrays r).
Definition set_o_fds v (r : objects) :=
  Objects (o_threads r) (o_files r) v (o_handles r)
    (o_socks r) (o_pairs r) (o_contexts r) (o_arrays r).
Definition set_o_handles v (r : objects) :=
  Objects (o_threads r) (o_files r) (o_fds r) v (o_socks r) (o_pairs r) (o_contexts r) (o_arrays r).
Definition set_o_socks v (r : objects) :=
  Objects (o_threads r) (o_files r) (o_fds r) (o_handles r)
    v (o_pairs r) (o_contexts r) (o_arrays r).
Definition set_o_pairs v (r : objects) :=
  Objects (o_threads r) (o_files r) (o_fds r) (o_handles r)
    (o_socks r) v (o_contexts r) (o_arrays r).
Definition set_o_contexts v (r : objects) :=
  Objects (o_threads r) (o_files r) (o_fds r) (o_handles r) (o_socks r) (o_pairs r) v (o_arrays r).
Definition set_o_arrays v (r : objects) :=
  Objects (o_threads r) (o_files r) (o_fds r) (o_handles r)
    (o_socks r) (o_pairs r) (o_contexts r) v.
Definition set_threads v (r : statics) :=
  Statics v (idle_threads r) (cpu_idx r) (new_thread_lock r) (search_lock r) (thread_initialized r) (clone_lock r).
Definition set_idle_threads v (r : statics) :=
  Statics (threads r) v (cpu_idx r) (new_thread_lock r) (search_lock r) (thread_initialized r) (clone_lock r).
Definition set_cpu_idx v (r : statics) :=
  Statics (threads r) (idle_threads r) v (new_thread_lock r) (search_lock r) (thread_initialized r) (clone_lock r).
Definition set_new_thread_lock v (r : statics) :=
  Statics (threads r) (idle_threads r) (cpu_idx r) v (search_lock r) (thread_initialized r) (clone_lock r).
Definition set_search_lock v (r : statics) :=
  Statics (threads r) (idle_threads r) (cpu_idx r) (new_thread_lock r) v (thread_initialized r) (clone_lock r).
Definition set_thread_initialized v (r : statics) :=
  Statics (threads r) (idle_threads r) (cpu_idx r) (new_thread_lock r) (search_lock r) v (clone_lock r).
Definition set_clone_lock v (r : statics) :=
  Statics (threads r) (idle_threads r) (cpu_idx r) (new_thread_lock r) (search_lock r) (thread_initialized r) v.
Definition set_x2apic_mode v (r : apic) :=
  Apic v (lapic_address r) (cpu_count r) (cpuid_to_lapicid r) (ioapic_regs r).
Definition set_lapic_address v (r : apic) :=
  Apic (x2apic_mode r) v (cpu_count r) (cpuid_to_lapicid r) (ioapic_regs r).
Definition set_cpu_count v (r : apic) :=
  Apic (x2apic_mode r) (lapic_address r) v (cpuid_to_lapicid r) (ioapic_regs r).
Definition set_cpuid_to_lapicid v (r : apic) :=
  Apic (x2apic_mode r) (lapic_address r) (cpu_count r) v (ioapic_regs r).
Definition set_ioapic_regs v (r : apic) :=
  Apic (x2apic_mode r) (lapic_address r) (cpu_count r) (cpuid_to_lapicid r) v.
Definition set_mc_cr3 v (r : machine) :=
  Machine v (mc_rflags r) (mc_fs r) (mc_gs r) (mc_fpu r) (mc_msr r)
    (mc_rsp0 r) (mc_resume r) (mc_out r) (mc_lsr r) (mc_debug_lock r).
Definition set_mc_rflags v (r : machine) :=
  Machine (mc_cr3 r) v (mc_fs r) (mc_gs r) (mc_fpu r) (mc_msr r)
    (mc_rsp0 r) (mc_resume r) (mc_out r) (mc_lsr r) (mc_debug_lock r).
Definition set_mc_fs v (r : machine) :=
  Machine (mc_cr3 r) (mc_rflags r) v (mc_gs r) (mc_fpu r) (mc_msr r)
    (mc_rsp0 r) (mc_resume r) (mc_out r) (mc_lsr r) (mc_debug_lock r).
Definition set_mc_gs v (r : machine) :=
  Machine (mc_cr3 r) (mc_rflags r) (mc_fs r) v (mc_fpu r) (mc_msr r)
    (mc_rsp0 r) (mc_resume r) (mc_out r) (mc_lsr r) (mc_debug_lock r).
Definition set_mc_fpu v (r : machine) :=
  Machine (mc_cr3 r) (mc_rflags r) (mc_fs r) (mc_gs r) v (mc_msr r)
    (mc_rsp0 r) (mc_resume r) (mc_out r) (mc_lsr r) (mc_debug_lock r).
Definition set_mc_msr v (r : machine) :=
  Machine (mc_cr3 r) (mc_rflags r) (mc_fs r) (mc_gs r) (mc_fpu r) v
    (mc_rsp0 r) (mc_resume r) (mc_out r) (mc_lsr r) (mc_debug_lock r).
Definition set_mc_rsp0 v (r : machine) :=
  Machine (mc_cr3 r) (mc_rflags r) (mc_fs r) (mc_gs r) (mc_fpu r) (mc_msr r)
    v (mc_resume r) (mc_out r) (mc_lsr r) (mc_debug_lock r).
Definition set_mc_resume v (r : machine) :=
  Machine (mc_cr3 r) (mc_rflags r) (mc_fs r) (mc_gs r) (mc_fpu r) (mc_msr r)
    (mc_rsp0 r) v (mc_out r) (mc_lsr r) (mc_debug_lock r).
Definition set_mc_out v (r : machine) :=
  Machine (mc_cr3 r) (mc_rflags r) (mc_fs r) (mc_gs r) (mc_fpu r) (mc_msr r)
    (mc_rsp0 r) (mc_resume r) v (mc_lsr r) (mc_debug_lock r).
Definition set_mc_lsr v (r : machine) :=
  Machine (mc_cr3 r) (mc_rflags r) (mc_fs r) (mc_gs r) (mc_fpu r) (mc_msr r)
    (mc_rsp0 r) (mc_resume r) (mc_out r) v (mc_debug_lock r).
Definition set_mc_debug_lock v (r : machine) :=
  Machine (mc_cr3 r) (mc_rflags r) (mc_fs r) (mc_gs r) (mc_fpu r) (mc_msr r)
    (mc_rsp0 r) (mc_resume r) (mc_out r) (mc_lsr r) v.
Definition set_bt_gdtr v (r : boot) :=
  Boot v (bt_idtr r) (bt_cs r) (bt_ds r) (bt_es r) (bt_ss r) (bt_tr r) (bt_tss r) (bt_cr0 r)
    (bt_cr4 r) (bt_io r) (acpi_x r) (hpet_addr r) (hpet_period r) (ioapic_address r) (bt_counter r)
    (ap_initialized r).
Definition set_bt_idtr v (r : boot) :=
  Boot (bt_gdtr r) v (bt_cs r) (bt_ds r) (bt_es r) (bt_ss r) (bt_tr r) (bt_tss r) (bt_cr0 r)
    (bt_cr4 r) (bt_io r) (acpi_x r) (hpet_addr r) (hpet_period r) (ioapic_address r) (bt_counter r)
    (ap_initialized r).
Definition set_bt_cs v (r : boot) :=
  Boot (bt_gdtr r) (bt_idtr r) v (bt_ds r) (bt_es r) (bt_ss r) (bt_tr r) (bt_tss r) (bt_cr0 r)
    (bt_cr4 r) (bt_io r) (acpi_x r) (hpet_addr r) (hpet_period r) (ioapic_address r) (bt_counter r)
    (ap_initialized r).
Definition set_bt_ds v (r : boot) :=
  Boot (bt_gdtr r) (bt_idtr r) (bt_cs r) v (bt_es r) (bt_ss r) (bt_tr r) (bt_tss r) (bt_cr0 r)
    (bt_cr4 r) (bt_io r) (acpi_x r) (hpet_addr r) (hpet_period r) (ioapic_address r) (bt_counter r)
    (ap_initialized r).
Definition set_bt_es v (r : boot) :=
  Boot (bt_gdtr r) (bt_idtr r) (bt_cs r) (bt_ds r) v (bt_ss r) (bt_tr r) (bt_tss r) (bt_cr0 r)
    (bt_cr4 r) (bt_io r) (acpi_x r) (hpet_addr r) (hpet_period r) (ioapic_address r) (bt_counter r)
    (ap_initialized r).
Definition set_bt_ss v (r : boot) :=
  Boot (bt_gdtr r) (bt_idtr r) (bt_cs r) (bt_ds r) (bt_es r) v (bt_tr r) (bt_tss r) (bt_cr0 r)
    (bt_cr4 r) (bt_io r) (acpi_x r) (hpet_addr r) (hpet_period r) (ioapic_address r) (bt_counter r)
    (ap_initialized r).
Definition set_bt_tr v (r : boot) :=
  Boot (bt_gdtr r) (bt_idtr r) (bt_cs r) (bt_ds r) (bt_es r) (bt_ss r) v (bt_tss r) (bt_cr0 r)
    (bt_cr4 r) (bt_io r) (acpi_x r) (hpet_addr r) (hpet_period r) (ioapic_address r) (bt_counter r)
    (ap_initialized r).
Definition set_bt_tss v (r : boot) :=
  Boot (bt_gdtr r) (bt_idtr r) (bt_cs r) (bt_ds r) (bt_es r) (bt_ss r) (bt_tr r) v (bt_cr0 r)
    (bt_cr4 r) (bt_io r) (acpi_x r) (hpet_addr r) (hpet_period r) (ioapic_address r) (bt_counter r)
    (ap_initialized r).
Definition set_bt_cr0 v (r : boot) :=
  Boot (bt_gdtr r) (bt_idtr r) (bt_cs r) (bt_ds r) (bt_es r) (bt_ss r) (bt_tr r) (bt_tss r) v
    (bt_cr4 r) (bt_io r) (acpi_x r) (hpet_addr r) (hpet_period r) (ioapic_address r) (bt_counter r)
    (ap_initialized r).
Definition set_bt_cr4 v (r : boot) :=
  Boot (bt_gdtr r) (bt_idtr r) (bt_cs r) (bt_ds r) (bt_es r) (bt_ss r) (bt_tr r) (bt_tss r)
    (bt_cr0 r) v (bt_io r) (acpi_x r) (hpet_addr r) (hpet_period r) (ioapic_address r)
    (bt_counter r)
    (ap_initialized r).
Definition set_bt_io v (r : boot) :=
  Boot (bt_gdtr r) (bt_idtr r) (bt_cs r) (bt_ds r) (bt_es r) (bt_ss r) (bt_tr r) (bt_tss r)
    (bt_cr0 r) (bt_cr4 r) v (acpi_x r) (hpet_addr r) (hpet_period r) (ioapic_address r)
    (bt_counter r)
    (ap_initialized r).
Definition set_acpi_x v (r : boot) :=
  Boot (bt_gdtr r) (bt_idtr r) (bt_cs r) (bt_ds r) (bt_es r) (bt_ss r) (bt_tr r) (bt_tss r)
    (bt_cr0 r) (bt_cr4 r) (bt_io r) v (hpet_addr r) (hpet_period r) (ioapic_address r)
    (bt_counter r)
    (ap_initialized r).
Definition set_hpet_addr v (r : boot) :=
  Boot (bt_gdtr r) (bt_idtr r) (bt_cs r) (bt_ds r) (bt_es r) (bt_ss r) (bt_tr r) (bt_tss r)
    (bt_cr0 r) (bt_cr4 r) (bt_io r) (acpi_x r) v (hpet_period r) (ioapic_address r) (bt_counter r)
    (ap_initialized r).
Definition set_hpet_period v (r : boot) :=
  Boot (bt_gdtr r) (bt_idtr r) (bt_cs r) (bt_ds r) (bt_es r) (bt_ss r) (bt_tr r) (bt_tss r)
    (bt_cr0 r) (bt_cr4 r) (bt_io r) (acpi_x r) (hpet_addr r) v (ioapic_address r) (bt_counter r)
    (ap_initialized r).
Definition set_ioapic_address v (r : boot) :=
  Boot (bt_gdtr r) (bt_idtr r) (bt_cs r) (bt_ds r) (bt_es r) (bt_ss r) (bt_tr r) (bt_tss r)
    (bt_cr0 r) (bt_cr4 r) (bt_io r) (acpi_x r) (hpet_addr r) (hpet_period r) v (bt_counter r)
    (ap_initialized r).
Definition set_bt_counter v (r : boot) :=
  Boot (bt_gdtr r) (bt_idtr r) (bt_cs r) (bt_ds r) (bt_es r) (bt_ss r) (bt_tr r) (bt_tss r)
    (bt_cr0 r) (bt_cr4 r) (bt_io r) (acpi_x r) (hpet_addr r) (hpet_period r) (ioapic_address r) v
    (ap_initialized r).
Definition set_ap_initialized v (r : boot) :=
  Boot (bt_gdtr r) (bt_idtr r) (bt_cs r) (bt_ds r) (bt_es r) (bt_ss r) (bt_tr r) (bt_tss r)
    (bt_cr0 r) (bt_cr4 r) (bt_io r) (acpi_x r) (hpet_addr r) (hpet_period r) (ioapic_address r) (bt_counter r) v.
Definition set_k_heap {H} (v : H) (r : kernel H) :=
  Kern v (k_frames r) (k_obj r) (k_static r) (k_apic r) (k_cpu r) (k_boot r).
Definition set_k_frames {H} v (r : kernel H) :=
  Kern (k_heap r) v (k_obj r) (k_static r) (k_apic r) (k_cpu r) (k_boot r).
Definition set_k_obj {H} v (r : kernel H) :=
  Kern (k_heap r) (k_frames r) v (k_static r) (k_apic r) (k_cpu r) (k_boot r).
Definition set_k_static {H} v (r : kernel H) :=
  Kern (k_heap r) (k_frames r) (k_obj r) v (k_apic r) (k_cpu r) (k_boot r).
Definition set_k_apic {H} v (r : kernel H) :=
  Kern (k_heap r) (k_frames r) (k_obj r) (k_static r) v (k_cpu r) (k_boot r).
Definition set_k_cpu {H} v (r : kernel H) :=
  Kern (k_heap r) (k_frames r) (k_obj r) (k_static r) (k_apic r) v (k_boot r).
Definition set_k_boot {H} v (r : kernel H) :=
  Kern (k_heap r) (k_frames r) (k_obj r) (k_static r) (k_apic r) (k_cpu r) v.

(** ** Reading and writing objects *)

(** A kind of object: where its map is and what a fresh block of it holds. *)
Record store (T : Type) := Store {
  objs : objects -> gmap Z T;
  put_objs : gmap Z T -> objects -> objects;
  fresh : Z -> T
}.
Arguments Store {T}.
Arguments objs {T}.
Arguments put_objs {T}.
Arguments fresh {T}.

Section Kernel.
Context {H : Type} `{KernelHeap H} `{Garbage}.
Abbreviation KM := (M (st (kernel H))).

Definition thread_s : store thread := Store o_threads set_o_threads any_thread.
Definition file_s : store thread_file_info := Store o_files set_o_files any_file.
Definition fd_s : store fd_info := Store o_fds set_o_fds any_fd.
Definition handle_s : store dsocket_handle := Store o_handles set_o_handles any_handle.
Definition sock_s : store dsocket := Store o_socks set_o_socks any_sock.
Definition pair_s : store dsocket_pair := Store o_pairs set_o_pairs any_pair.
Definition context_s : store arch_context := Store o_contexts set_o_contexts any_context.
(** An array of [n] pointers. *)
Definition array_s (n : nat) : store (list Z) :=
  Store o_arrays set_o_arrays (fun a => any_array a <$> seq 0 n).

Definition with_k (f : kernel H -> kernel H) : KM unit := modify (fun s => St (smem s) (f (smgr s))).
Definition with_obj (f : objects -> objects) : KM unit := with_k (fun k => set_k_obj (f (k_obj k)) k).
Definition with_static (f : statics -> statics) : KM unit :=
  with_k (fun k => set_k_static (f (k_static k)) k).
Definition with_apic (f : apic -> apic) : KM unit := with_k (fun k => set_k_apic (f (k_apic k)) k).
Definition with_cpu (f : machine -> machine) : KM unit := with_k (fun k => set_k_cpu (f (k_cpu k)) k).
Definition with_boot (f : boot -> boot) : KM unit := with_k (fun k => set_k_boot (f (k_boot k)) k).
Definition static {A} (f : statics -> A) : KM A := gets (fun s => f (k_static (smgr s))).
Definition of_apic {A} (f : apic -> A) : KM A := gets (fun s => f (k_apic (smgr s))).
Definition cpu {A} (f : machine -> A) : KM A := gets (fun s => f (k_cpu (smgr s))).
Definition of_boot {A} (f : boot -> A) : KM A := gets (fun s => f (k_boot (smgr s))).

(** Reading and writing what [p] points to, and [p->field = e] for [f] the field's setter applied to [e]. *)
Definition rd {T} (S : store T) (p : Z) : KM T :=
  o <- gets (fun s => objs S (k_obj (smgr s))) ;; of_opt (o !! p).
Definition wr {T} (S : store T) (p : Z) (v : T) : KM unit :=
  rd S p ;; with_obj (fun o => put_objs S (<[p := v]> (objs S o)) o).
Definition upd {T} (S : store T) (p : Z) (f : T -> T) : KM unit := v <- rd S p ;; wr S p (f v).

(** [a[i]] and [a[i] = v] for an array of pointers; outside the array is a fault. *)
Definition rd_at (a i : Z) : KM Z :=
  l <- rd (array_s 0) a ;; if i <? 0 then stuck else of_opt (l !! Z.to_nat i).
Definition wr_at (a i v : Z) : KM unit :=
  l <- rd (array_s 0) a ;;
  if (i <? 0) || (Z.of_nat (length l) <=? i) then stuck
  else wr (array_s 0) a (<[Z.to_nat i := v]> l).

(** [malloc(n)] for bytes, and [malloc(sizeof(T))] for an object. *)
Definition malloc_bytes (n : Z) : KM Z :=
  fun s => match kmalloc n (k_heap (smgr s)) with
           | Some (a, h) => Some (a, with_mgr (set_k_heap h (smgr s)) s)
           | None => None
           end.
Definition malloc_obj {T} (S : store T) (size : Z) : KM Z :=
  a <- malloc_bytes size ;;
  if a =? NULL then ret NULL
  else with_obj (fun o => put_objs S (<[a := fresh S a]> (objs S o)) o) ;; ret a.
(** [free(p)]: the object is gone. *)
Definition free_bytes (p : Z) : KM unit :=
  fun s => match kfree p (k_heap (smgr s)) with
           | Some h => Some (tt, with_mgr (set_k_heap h (smgr s)) s)
           | None => None
           end.
Definition free_obj {T} (S : store T) (p : Z) : KM unit :=
  free_bytes p ;; with_obj (fun o => put_objs S (delete p (objs S o)) o).

(** An operation of the frame allocator or of the page tables. *)
Definition on_frames {A} (c : M (st bitmap) A) : KM A :=
  fun s => match c (St (smem s) (k_frames (smgr s))) with
           | Some (a, b) => Some (a, St (smem b) (set_k_frames (smgr b) (smgr s)))
           | None => None
           end.

(** A static lock, taken and given back by one processor. *)
Definition lock_with (get : kernel H -> spinlock_t) (put : spinlock_t -> kernel H -> kernel H) : KM unit :=
  l <- gets (fun s => get (smgr s)) ;; f <- cpu mc_rflags ;;
  '(l', f') <- of_opt (spin_lock l f) ;;
  with_k (put l') ;; with_cpu (set_mc_rflags f').
Definition unlock_with (get : kernel H -> spinlock_t) (put : spinlock_t -> kernel H -> kernel H) : KM unit :=
  l <- gets (fun s => get (smgr s)) ;;
  let '(l', f') := spin_unlock l in
  with_k (put l') ;; with_cpu (set_mc_rflags f').

(** Reads and writes of 4 and 2 bytes. *)
Definition ld32 (a : Z) : KM Z := m <- gets (@smem _) ;; of_opt (load_le 4 m a).
Definition sto32 (a v : Z) : KM unit :=
  m <- gets (@smem _) ;; m' <- of_opt (store_le 4 m a v) ;; modify (with_mem m').
Definition sto16 (a v : Z) : KM unit :=
  m <- gets (@smem _) ;; m' <- of_opt (store_le 2 m a v) ;; modify (with_mem m').

(** ** io.hpp: model-specific registers and the serial port *)

Definition rdmsr (msr : Z) : KM Z := m <- cpu mc_msr ;; of_opt (m !! msr).
Definition wrmsr (msr value : Z) : KM unit := with_cpu (fun c => set_mc_msr (<[msr := value]> (mc_msr c)) c).

Definition IA32_KERNEL_GS_BASE : Z := 3221225730. (* 0xc0000102 *)

(** context.hpp, and the functions of [namespace thread] on top of it. *)
Definition get_current_thread_addr : KM Z := rdmsr IA32_KERNEL_GS_BASE.
Definition set_current_thread_addr (t : Z) : KM unit := wrmsr IA32_KERNEL_GS_BASE t.
Definition get_current_thread : KM Z := get_current_thread_addr.
Definition set_current_thread (t : Z) : KM unit := set_current_thread_addr t.
End Kernel.

(** ** What the linker and the boot loader choose

    The offset of the direct map, the addresses of static variables, of functions whose address is
    taken and of string literals. *)
Class Image := {
  physical_memory_offset : Z;
  driver_sockets : Z;
  debug_buf : Z;
  idle_entry : Z;
  init_entry : Z;
  str_no_cpu : Z;
  str_info : Z;
  str_debug : Z;
  str_warning : Z;
  str_error : Z
}.

(** Enough turns for every string and format the kernel handles: [strlen] stops after [PAGE_SIZE]
    characters. *)
Definition str_fuel : nat := 4200.
