(* ===== verification/Apic.v ===== *)
(** Apic: the kernel's console ([arch/x86_64/debug.cpp]) and its interrupt controllers
    ([arch/x86_64/apic.cpp]): definitions. *)

From Stdlib Require Import ZArith Lia.
From stdpp Require Import prelude gmap.
From S2P Require Import Prelude Mem Spinlock Block Klibc Printf Bitmap Frame.
From S2P Require Import PageTable Kernel.

(** [acpi.hpp] and [apic.hpp] *)
Definition LAPIC_REG_ID : Z := 32.
Definition idx_timer : Z := 32.
Definition idx_keyboard : Z := 33.
Definition idx_mouse : Z := 34.

Section Apic.
Context {H : Type} `{KernelHeap H} `{Garbage} `{Image}.
Abbreviation KM := (M (st (kernel H))).

(** ** debug.cpp *)

(** [while ((io_in8(SERIAL_PORT + 5) & 0x20) == 0);] on the answers still to come. *)
Fixpoint wait_ready (answers : list Z) : list Z :=
  match answers with
  | [] => []
  | x :: rest => if x &! 32 =? 0 then wait_ready rest else rest
  end.
Definition write (a : Z) : KM unit :=
  with_cpu (fun c => set_mc_lsr (wait_ready (mc_lsr c)) c) ;;
  with_cpu (fun c => set_mc_out (mc_out c ++ [a]) c).

Definition debug_lock (k : kernel H) : spinlock_t := mc_debug_lock (k_cpu k).
Definition set_debug_lock (l : spinlock_t) (k : kernel H) : kernel H :=
  set_k_cpu (set_mc_debug_lock l (k_cpu k)) k.

Definition printk (fmt : Z) (args : list Z) : KM Z :=
  lock_with debug_lock set_debug_lock ;;
  len <- vsprintf str_fuel debug_buf fmt args ;;
  forM 0 len (fun i =>
    c <- ld8 (debug_buf +! i) ;;
    whenM (c =? 10) (write 13) ;;
    c <- ld8 (debug_buf +! i) ;; write c) ;;
  unlock_with debug_lock set_debug_lock ;;
  ret len.

(** ** apic.cpp: the local APIC *)

Fixpoint cpuid_from (n : nat) (cpu_id lapic_id : Z) : KM Z :=
  match n with
  | O => printk str_no_cpu [lapic_id] ;; ret 0
  | S n' =>
      ids <- of_apic cpuid_to_lapicid ;; id <- of_opt (ids !! Z.to_nat cpu_id) ;;
      if id =? lapic_id then ret cpu_id else cpuid_from n' (cpu_id + 1) lapic_id
  end.
Definition get_cpuid_by_lapic_id (lapic_id : Z) : KM Z :=
  n <- of_apic cpu_count ;; cpuid_from (Z.to_nat n) 0 lapic_id.

Definition lapic_write (reg value : Z) : KM unit :=
  x2 <- of_apic x2apic_mode ;;
  if x2 : bool then wrmsr (2048 + Z.shiftr reg 4) value
  else base <- of_apic lapic_address ;; sto32 (base +! reg) value.
Definition lapic_read (reg : Z) : KM Z :=
  x2 <- of_apic x2apic_mode ;;
  if x2 : bool then v <- rdmsr (2048 + Z.shiftr reg 4) ;; ret (u32 v)
  else base <- of_apic lapic_address ;; ld32 (base +! reg).

Definition lapic_id : KM Z :=
  phy_id <- lapic_read LAPIC_REG_ID ;;
  x2 <- of_apic x2apic_mode ;;
  ret (if x2 : bool then phy_id else Z.shiftr phy_id 24).

(** [arch::get_current_cpu_id] *)
Definition get_current_cpu_id : KM Z := id <- lapic_id ;; get_cpuid_by_lapic_id (u32 id).

Definition end_of_interrupt : KM unit := lapic_write 176 0.

(** ** apic.cpp: the I/O APIC *)

(** The register is selected through one window and accessed through the other; a register that
    was never written reads as 0. *)
Definition ioapic_write (reg value : Z) : KM unit :=
  with_apic (fun a => set_ioapic_regs (<[reg := u32 value]> (ioapic_regs a)) a).
Definition ioapic_read (reg : Z) : KM Z :=
  regs <- of_apic ioapic_regs ;; ret (default 0 (regs !! reg)).

Definition ioapic_add (vector irq : Z) : KM unit :=
  let ioredtbl := u32 (16 + u32 (irq * 2)) in
  id <- lapic_id ;;
  let redirect := vector |! u64 (Z.shiftl id 56) in
  ioapic_write ioredtbl (u32 redirect) ;;
  ioapic_write (u32 (ioredtbl + 1)) (u32 (Z.shiftr redirect 32)).

Definition ioapic_enable (vector : Z) : KM unit :=
  let index := u64 (16 + (vector - 32) * 2) in
  high <- ioapic_read (u32 (index +! 1)) ;;
  low <- ioapic_read (u32 index) ;;
  let value := (Z.shiftl high 32 |! low) &! ~! 65536 in
  ioapic_write (u32 index) (value &! 4294967295) ;;
  ioapic_write (u32 (index +! 1)) (u32 (Z.shiftr value 32)).

(** The three interrupts that [io_apic_init] routes, after it has mapped the window. *)
Definition io_apic_routes : KM unit :=
  ioapic_add idx_timer 0 ;; ioapic_enable idx_timer ;;
  ioapic_add idx_keyboard 1 ;; ioapic_enable idx_keyboard ;;
  ioapic_add idx_mouse 12 ;; ioapic_enable idx_mouse.
Definition io_apic_init (ioapic_address : Z) : KM unit :=
  cr3 <- cpu mc_cr3 ;;
  on_frames (map_range physical_memory_offset (from_current cr3 false)
    (phys_to_virt physical_memory_offset ioapic_address) ioapic_address 1
    (pt_present |! pt_read_write)) ;;
  io_apic_routes.
End Apic.
