(* ===== verification/Thread.v ===== *)
(** Thread: execution contexts ([arch/x86_64/context.cpp]), threads ([thread/thread.cpp]) and the
    switch between them ([thread/schedule.cpp], the timer handler of [arch/x86_64/idt.cpp]):
    definitions. *)

From Stdlib Require Import ZArith Lia.
From stdpp Require Import prelude gmap strings.
From S2P Require Import Prelude Mem Spinlock Block Klibc Bitmap Frame.
From S2P Require Import PageTable Kernel Apic.

(** Offsets of [struct pt_regs], and the sizes of the objects. *)
Definition SIZEOF_PT_REGS : Z := 192.
Definition pr_r11 : Z := 32.
Definition pr_r10 : Z := 40.
Definition pr_r8 : Z := 56.
Definition pr_rcx : Z := 72.
Definition pr_rdx : Z := 80.
Definition pr_rsi : Z := 88.
Definition pr_rdi : Z := 96.
Definition pr_ds : Z := 112.
Definition pr_es : Z := 120.
Definition pr_rax : Z := 128.
Definition pr_rip : Z := 152.
Definition pr_cs : Z := 160.
Definition pr_rflags : Z := 168.
Definition pr_rsp : Z := 176.
Definition pr_ss : Z := 184.

Definition SIZEOF_ARCH_CONTEXT : Z := 48.
Definition SIZEOF_FX_STATE : Z := 512.
Definition fx_fcw : Z := 0.
Definition fx_mxcsr : Z := 24.
(** [struct fx_state]: its fields in order with their sizes in bytes.  Each lies at a multiple of its
    element's size, so there is no padding. *)
Definition fx_state : list (string * Z) :=
  [("fcw", 2); ("fsw", 2); ("ftw", 1); ("reserved0", 1); ("fop", 2); ("fpuIp", 8); ("fpuDp", 8);
   ("mxcsr", 4); ("mxcsrMask", 4);
   ("st0", 10); ("reserved1", 6); ("st1", 10); ("reserved2", 6); ("st2", 10); ("reserved3", 6);
   ("st3", 10); ("reserved4", 6); ("st4", 10); ("reserved5", 6); ("st5", 10); ("reserved6", 6);
   ("st6", 10); ("reserved7", 6); ("st7", 10); ("reserved8", 6);
   ("xmm0", 16); ("xmm1", 16); ("xmm2", 16); ("xmm3", 16); ("xmm4", 16); ("xmm5", 16); ("xmm6", 16);
   ("xmm7", 16); ("xmm8", 16); ("xmm9", 16); ("xmm10", 16); ("xmm11", 16); ("xmm12", 16);
   ("xmm13", 16); ("xmm14", 16); ("xmm15", 16); ("reserved9", 48); ("available", 48)]%string.

(** The offset of a field in such a layout. *)
Fixpoint offset_of (layout : list (string * Z)) (field : string) : option Z :=
  match layout with
  | [] => None
  | (name, size) :: layout' =>
      if bool_decide (name = field) then Some 0 else Z.add size <$> offset_of layout' field
  end.

Definition SIZEOF_THREAD : Z := 80.
Definition SIZEOF_MM_CONTEXT : Z := 16.
Definition SIZEOF_FILE_INFO : Z := 16.
Definition SIZEOF_FD_INFO : Z := 16.

Definition MSR_FS_BASE : Z := 3221225728. (* 0xc0000100 *)
Definition MSR_GS_BASE : Z := 3221225729. (* 0xc0000101 *)

Section Thread.
Context {H : Type} `{KernelHeap H} `{Garbage} `{Image}.
Abbreviation KM := (M (st (kernel H))).

(** ** context.cpp *)

(** [aligned_alloc(align, n)] for bytes. *)
Definition aligned_bytes (align n : Z) : KM Z :=
  fun s => match kaligned_alloc align n (k_heap (smgr s)) with
           | Some (a, h) => Some (a, with_mgr (set_k_heap h (smgr s)) s)
           | None => None
           end.

Definition arch_context_init (entry stack : Z) : KM Z :=
  ctx <- malloc_obj context_s SIZEOF_ARCH_CONTEXT ;;
  let regs := stack -! SIZEOF_PT_REGS in
  upd context_s ctx (set_ac_context regs) ;;
  memset regs 0 SIZEOF_ARCH_CONTEXT ;;
  sto (regs +! pr_rflags) 512 ;;
  sto (regs +! pr_rip) entry ;;
  sto (regs +! pr_rsp) (regs &! ~! 10) ;;
  sto (regs +! pr_cs) 8 ;;
  sto (regs +! pr_ss) 16 ;;
  sto (regs +! pr_ds) 16 ;;
  sto (regs +! pr_es) 16 ;;
  upd context_s ctx (set_ac_fs 16) ;;
  upd context_s ctx (set_ac_gs 16) ;;
  upd context_s ctx (set_ac_fsbase 0) ;;
  upd context_s ctx (set_ac_gsbase 0) ;;
  fpu <- aligned_bytes 16 SIZEOF_FX_STATE ;;
  upd context_s ctx (set_ac_fpu fpu) ;;
  sto32 (fpu +! fx_mxcsr) 8064 ;;
  sto16 (fpu +! fx_fcw) 895 ;;
  ret ctx.

Definition arch_context_free (ctx : Z) : KM unit :=
  c <- rd context_s ctx ;; free_bytes (ac_fpu c) ;; free_obj context_s ctx.

Definition thread_switch_mm (next : Z) : KM unit := with_cpu (set_mc_cr3 next).

(** [fxsave] and [fxrstor]: the 512 bytes of the FPU state. *)
Definition fxsave (p : Z) : KM unit :=
  image <- cpu mc_fpu ;; forM 0 SIZEOF_FX_STATE (fun i => sto8 (p +! i) (nth (Z.to_nat i) image 0)).
Fixpoint read_bytes (n : nat) (p : Z) : KM (list Z) :=
  match n with
  | O => ret []
  | S n' => b <- ld8 p ;; l <- read_bytes n' (p +! 1) ;; ret (b :: l)
  end.
Definition fxrstor (p : Z) : KM unit :=
  image <- read_bytes (Z.to_nat SIZEOF_FX_STATE) p ;; with_cpu (set_mc_fpu image).

(** The last two instructions load RSP and jump to [ret_from_exception], which resumes the
    register frame. *)
Definition thread_switch_to (intr_frame prev next : Z) : KM unit :=
  whenM (negb (intr_frame =? NULL) && negb (prev =? NULL)) (
    upd context_s prev (set_ac_context intr_frame) ;;
    p <- rd context_s prev ;; fxsave (ac_fpu p) ;;
    n <- rd context_s next ;; fxrstor (ac_fpu n) ;;
    fsbase <- rdmsr MSR_FS_BASE ;; upd context_s prev (set_ac_fsbase fsbase) ;;
    gsbase <- rdmsr MSR_GS_BASE ;; upd context_s prev (set_ac_gsbase gsbase)) ;;
  n <- rd context_s next ;;
  id <- get_current_cpu_id ;;
  rsp0 <- cpu mc_rsp0 ;;
  (if Z.of_nat (length rsp0) <=? id then stuck
   else with_cpu (set_mc_rsp0 (<[Z.to_nat id := ac_context n +! SIZEOF_PT_REGS]> rsp0))) ;;
  with_cpu (set_mc_fs (ac_fs n)) ;;
  with_cpu (set_mc_gs (ac_gs n)) ;;
  wrmsr MSR_FS_BASE (ac_fsbase n) ;;
  wrmsr MSR_GS_BASE (ac_gsbase n) ;;
  with_cpu (set_mc_resume (Some (ac_context n))).

Definition context_copy (to from : Z) : KM unit :=
  t <- rd context_s to ;; f <- rd context_s from ;;
  memcpy (ac_context t) (ac_context f) SIZEOF_PT_REGS ;;
  memcpy (ac_fpu t) (ac_fpu f) SIZEOF_FX_STATE ;;
  upd context_s to (set_ac_fs (ac_fs f)) ;;
  upd context_s to (set_ac_gs (ac_gs f)) ;;
  upd context_s to (set_ac_fsbase (ac_fsbase f)) ;;
  upd context_s to (set_ac_gsbase (ac_gsbase f)).

(** ** thread.cpp *)

(** Both loops of [get_free_thread]: the first entry of a static table, from index [i] on, that
    holds NULL gets a new thread whose id is [mkid i].  [None] is a full table. *)
Fixpoint take_slot (n : nat) (i : Z) (get : statics -> list Z) (put : list Z -> statics -> statics)
    (mkid : Z -> Z) : KM (option Z) :=
  match n with
  | O => ret None
  | S n' =>
      l <- static get ;; p <- of_opt (l !! Z.to_nat i) ;;
      if p =? NULL then
        t <- malloc_obj thread_s SIZEOF_THREAD ;;
        with_static (put (<[Z.to_nat i := t]> l)) ;;
        upd thread_s t (set_th_id (mkid i)) ;;
        ret (Some t)
      else take_slot n' (i + 1) get put mkid
  end.

Definition get_free_thread : KM Z :=
  cpus <- of_apic cpu_count ;;
  o <- take_slot (Z.to_nat cpus) 0 idle_threads set_idle_threads (fun _ => 0) ;;
  match o with
  | Some t => ret t
  | None =>
      o <- take_slot (Z.to_nat (kMaxThreadCount - 1)) 1 threads set_threads (fun i => i) ;;
      ret (default NULL o)
  end.

Definition alloc_cpu_id : KM Z :=
  idx <- static cpu_idx ;;
  cpus <- of_apic cpu_count ;;
  (if cpus =? 0 then stuck else with_static (set_cpu_idx (u32 (u32 (idx + 1) mod cpus)))) ;;
  ret idx.

Definition get_new_lock (k : kernel H) : spinlock_t := new_thread_lock (k_static k).
Definition put_new_lock (l : spinlock_t) (k : kernel H) : kernel H :=
  set_k_static (set_new_thread_lock l (k_static k)) k.
Definition get_search_lock (k : kernel H) : spinlock_t := search_lock (k_static k).
Definition put_search_lock (l : spinlock_t) (k : kernel H) : kernel H :=
  set_k_static (set_search_lock l (k_static k)) k.

Definition alloc_stack : KM Z :=
  frame <- on_frames (alloc_frames (kThreadStackSize / PAGE_SIZE)) ;;
  ret (phys_to_virt physical_memory_offset frame).

(** [new_mm]: the [mm_context_t] of a new thread, on the current page table. *)
Definition new_mm : KM Z :=
  mm <- malloc_bytes SIZEOF_MM_CONTEXT ;;
  memset mm 0 SIZEOF_MM_CONTEXT ;;
  cr3 <- cpu mc_cr3 ;;
  sto (page_table_phys_of mm) cr3 ;;
  n <- ld (ref_count_of mm) ;; sto (ref_count_of mm) (n +! 1) ;;
  ret mm.

(** [new_file_info]: an empty descriptor table. *)
Definition new_file_info : KM Z :=
  fi <- malloc_obj file_s SIZEOF_FILE_INFO ;;
  wr file_s fi (FileInfo NULL 0 0) ;;
  fds <- malloc_obj (array_s (Z.to_nat DEFAULT_FD_NUM)) (8 * DEFAULT_FD_NUM) ;;
  upd file_s fi (set_fi_fds fds) ;;
  wr (array_s 0) fds (replicate (Z.to_nat DEFAULT_FD_NUM) NULL) ;;
  upd file_s fi (set_fi_max_fd_count DEFAULT_FD_NUM) ;;
  upd file_s fi (fun v => set_fi_ref_count (s32 (fi_ref_count v + 1)) v) ;;
  ret fi.

Definition create (entry tflags : Z) : KM Z :=
  lock_with get_new_lock put_new_lock ;;
  t <- get_free_thread ;;
  upd thread_s t (set_th_call_in_signal false) ;;
  id <- alloc_cpu_id ;;
  upd thread_s t (set_th_cpu_id (s32 id)) ;;
  upd thread_s t (set_th_jiffies 0) ;;
  stack <- alloc_stack ;;
  ctx <- arch_context_init entry stack ;;
  upd thread_s t (set_th_arch_context ctx) ;;
  syscall_stack <- alloc_stack ;;
  upd thread_s t (set_th_syscall_stack syscall_stack) ;;
  mm <- new_mm ;;
  upd thread_s t (set_th_mm mm) ;;
  upd thread_s t (set_th_tflags tflags) ;;
  upd thread_s t (set_th_status 0) ;;
  fi <- new_file_info ;;
  upd thread_s t (set_th_file_info fi) ;;
  upd thread_s t (set_th_child_vfork_done false) ;;
  upd thread_s t (set_th_is_vfork false) ;;
  upd thread_s t (set_th_state kRunNone) ;;
  unlock_with get_new_lock put_new_lock ;;
  ret t.

(** [for (int i = 0; i < max_fd_count; i++)], from [i], with [n] turns left. *)
Fixpoint add_fd_from (n : nat) (i t f : Z) : KM Z :=
  match n with
  | O => ret (u64 (-1))
  | S n' =>
      th <- rd thread_s t ;; fi <- rd file_s (th_file_info th) ;;
      p <- rd_at (fi_fds fi) i ;;
      if p =? NULL then wr_at (fi_fds fi) i f ;; ret i
      else add_fd_from n' (i + 1) t f
  end.
Definition add_fd_info (t f : Z) : KM Z :=
  th <- rd thread_s t ;;
  if th_file_info th =? NULL then ret (u64 (-1))
  else
    fi <- rd file_s (th_file_info th) ;;
    add_fd_from (Z.to_nat (fi_max_fd_count fi)) 0 t f.

(** The loop of [search] from index [i]; [task] is the best candidate so far, or NULL. *)
Fixpoint search_from (n : nat) (i : Z) (state : run_state) (cpu_id task : Z) : KM Z :=
  match n with
  | O => ret task
  | S n' =>
      l <- static threads ;; ptr <- of_opt (l !! Z.to_nat i) ;;
      if ptr =? NULL then ret task
      else
        p <- rd thread_s ptr ;;
        if negb (bool_decide (th_state p = state)) then search_from n' (i + 1) state cpu_id task
        else if negb (th_cpu_id p =? cpu_id) then search_from n' (i + 1) state cpu_id task
        else
          better <- (if task =? NULL then ret true
                     else b <- rd thread_s task ;; ret (th_jiffies p <? th_jiffies b)) ;;
          search_from n' (i + 1) state cpu_id (if better : bool then ptr else task)
  end.

Definition search (state : run_state) (cpu_id : Z) : KM Z :=
  lock_with get_search_lock put_search_lock ;;
  task <- search_from (Z.to_nat (kMaxThreadCount - 1)) 1 state cpu_id NULL ;;
  task <- (if (task =? NULL) && bool_decide (state = kRunNone)
           then l <- static idle_threads ;; if cpu_id <? 0 then stuck else of_opt (l !! Z.to_nat cpu_id)
           else ret task) ;;
  unlock_with get_search_lock put_search_lock ;;
  ret task.

Definition init : KM unit :=
  with_static (set_threads (replicate (Z.to_nat kMaxThreadCount) NULL)) ;;
  cpus <- of_apic cpu_count ;;
  forM 0 cpus (fun _ => create idle_entry kFlagNone ;; ret tt) ;;
  with_static (set_cpu_idx 0) ;;
  create init_entry kFlagServer ;;
  id <- get_current_cpu_id ;;
  l <- static idle_threads ;; t <- of_opt (l !! Z.to_nat id) ;;
  set_current_thread t ;;
  with_static (set_thread_initialized true).

Definition getpid : KM Z := t <- get_current_thread ;; th <- rd thread_s t ;; ret (th_id th).

(** The stubs of [thread.cpp]; the system calls do not use them. *)
Definition clone (regs : Z) : Z := 2.
Definition exit (exit_code : Z) : Z := 0.

(** ** schedule.cpp *)

Definition switch_to (intr_frame from to : Z) : KM unit :=
  dest <- rd thread_s to ;;
  phys <- ld (page_table_phys_of (th_mm dest)) ;;
  thread_switch_mm phys ;;
  upd thread_s from (set_th_state kRunNone) ;;
  upd thread_s to (set_th_state kRunActive) ;;
  f <- rd thread_s from ;; t <- rd thread_s to ;;
  thread_switch_to intr_frame (th_arch_context f) (th_arch_context t).

(** [do_lapic_timer] of [idt.cpp] *)
Definition do_lapic_timer (regs : Z) : KM unit :=
  end_of_interrupt ;;
  id <- get_current_cpu_id ;;
  next <- search kRunNone id ;;
  current <- get_current_thread ;;
  whenM (negb (current =? next)) (switch_to regs current next).
End Thread.
