(* ===== verification/Syscall.v ===== *)
(** Syscall: driver sockets ([hel/dsocket.cpp]), the system calls ([hel/syscall.cpp]) and their
    dispatcher ([arch/x86_64/syscall.cpp]): definitions. *)

From Stdlib Require Import ZArith Lia.
From stdpp Require Import prelude gmap.
From S2P Require Import Prelude Mem Spinlock Block Klibc Bitmap Frame.
From S2P Require Import PageTable Kernel Apic Thread.

(** ** syscall.hpp *)

Definition k_hel_debug_kind_info : Z := 1.
Definition k_hel_debug_kind_debug : Z := 2.
Definition k_hel_debug_kind_warning : Z := 3.
Definition k_hel_debug_kind_error : Z := 4.

Definition k_hel_error_none : Z := 0.
Definition k_hel_error_invalid_argument : Z := 1.
Definition k_hel_error_not_implemented : Z := 2.
Definition k_hel_error_bad_handler : Z := 3.
Definition k_hel_error_not_found : Z := 4.
Definition k_hel_error_already_connected : Z := 5.
Definition k_hel_error_not_connected : Z := 6.

(** [(std::size_t)-e] *)
Definition error (e : Z) : Z := u64 (- e).

Definition k_hel_base : Z := 2147483648. (* 0x80000000 *)
Definition k_debug : Z := k_hel_base + 1.
Definition k_physmap : Z := k_hel_base + 2.
Definition k_physunmap : Z := k_hel_base + 3.
Definition k_driver_cskt : Z := k_hel_base + 10.
Definition k_driver_bind : Z := k_hel_base + 11.
Definition k_driver_connect : Z := k_hel_base + 12.
Definition k_driver_accept : Z := k_hel_base + 13.
Definition k_driver_listen : Z := k_hel_base + 14.
Definition k_driver_send : Z := k_hel_base + 15.
Definition k_driver_recv : Z := k_hel_base + 16.
Definition k_driver_dskt : Z := k_hel_base + 17.
Definition k_getpid : Z := k_hel_base + 20.
Definition k_clone : Z := k_hel_base + 21.
Definition k_exit : Z := k_hel_base + 22.

Definition SIZEOF_HANDLE : Z := 16.
Definition SIZEOF_DSOCKET : Z := 56.
Definition SIZEOF_PAIR : Z := 56.

Section Syscall.
Context {H : Type} `{KernelHeap H} `{Garbage} `{Image}.
Abbreviation KM := (M (st (kernel H))).

(** [arch::yield] raises the timer interrupt: the other threads run.  What they do is arbitrary. *)
Context (yield : KM unit).

(** [while (!c) arch::yield();] for at most [fuel] turns. *)
Fixpoint wait_until (fuel : nat) (c : KM bool) : KM unit :=
  b <- c ;;
  if b : bool then ret tt
  else match fuel with O => stuck | S fuel' => yield ;; wait_until fuel' c end.

(** ** dsocket.cpp *)

(** A direction of a pair: where its buffer and its fill position are. *)
Definition server_side : (dsocket_pair -> Z) * (dsocket_pair -> Z) * (Z -> dsocket_pair -> dsocket_pair) :=
  (dp_server_buffer, dp_server_buffer_pos, set_dp_server_buffer_pos).
Definition client_side : (dsocket_pair -> Z) * (dsocket_pair -> Z) * (Z -> dsocket_pair -> dsocket_pair) :=
  (dp_client_buffer, dp_client_buffer_pos, set_dp_client_buffer_pos).

(** [int pos += size_t n] and [pos -= n] *)
Definition send_into (side : (dsocket_pair -> Z) * (dsocket_pair -> Z) * (Z -> dsocket_pair -> dsocket_pair))
    (dsock inp limit : Z) : KM Z :=
  let '(buffer, pos, set_pos) := side in
  d <- rd sock_s dsock ;;
  if ds_pair d =? NULL then ret (error k_hel_error_not_connected)
  else
    p <- rd pair_s (ds_pair d) ;;
    memcpy (buffer p +! pos p) inp limit ;;
    upd pair_s (ds_pair d) (fun p => set_pos (s32 (pos p + limit)) p) ;;
    ret limit.

Definition recv_from (side : (dsocket_pair -> Z) * (dsocket_pair -> Z) * (Z -> dsocket_pair -> dsocket_pair))
    (dsock out limit : Z) : KM Z :=
  let '(buffer, pos, set_pos) := side in
  d <- rd sock_s dsock ;;
  if ds_pair d =? NULL then ret (error k_hel_error_not_connected)
  else
    p <- rd pair_s (ds_pair d) ;;
    let toCopy := Z.min limit (u64 (pos p)) in
    memcpy out (buffer p) toCopy ;;
    memmove (buffer p) (buffer p +! toCopy) (pos p -! toCopy) ;;
    upd pair_s (ds_pair d) (fun p => set_pos (s32 (pos p - toCopy)) p) ;;
    ret limit.

Definition dsocket_send (dsock inp limit : Z) : KM Z := send_into server_side dsock inp limit.
Definition dsocket_accept_send (dsock inp limit : Z) : KM Z := send_into client_side dsock inp limit.
Definition dsocket_recv (dsock out limit : Z) : KM Z := recv_from client_side dsock out limit.
Definition dsocket_accept_recv (dsock out limit : Z) : KM Z := recv_from server_side dsock out limit.

(** [op->send] and [op->recv]; an uninitialised [op] is a fault. *)
Definition op_send (op : dsocket_op) : Z -> Z -> Z -> KM Z :=
  match op with
  | normal_ops => dsocket_send
  | accept_ops => dsocket_accept_send
  | no_ops => fun _ _ _ => stuck
  end.
Definition op_recv (op : dsocket_op) : Z -> Z -> Z -> KM Z :=
  match op with
  | normal_ops => dsocket_recv
  | accept_ops => dsocket_accept_recv
  | no_ops => fun _ _ _ => stuck
  end.

(** ** syscall.cpp: output and memory *)

Definition k_hel_debug_impl (kind str_ptr : Z) : KM Z :=
  if negb (kind =? k_hel_debug_kind_info) && negb (kind =? k_hel_debug_kind_debug)
     && negb (kind =? k_hel_debug_kind_error) && negb (kind =? k_hel_debug_kind_warning)
  then ret (error k_hel_error_invalid_argument)
  else
    size <- (if kind =? k_hel_debug_kind_info then printk str_info [str_ptr]
             else if kind =? k_hel_debug_kind_debug then printk str_debug [str_ptr]
             else if kind =? k_hel_debug_kind_warning then printk str_warning [str_ptr]
             else printk str_error [str_ptr]) ;;
    ret (u64 size).

Definition page_count (size : Z) : Z := (size +! PAGE_SIZE -! 1) / PAGE_SIZE.

Definition k_hel_physmap_impl (physaddr size : Z) : KM Z :=
  cr3 <- cpu mc_cr3 ;;
  let table := from_current cr3 true in
  let count := page_count size in
  virtaddr <- on_frames (alloc_frames count) ;;
  on_frames (map_range physical_memory_offset table virtaddr physaddr count
    (pt_present |! pt_read_write |! pt_user)) ;;
  ret virtaddr.

Definition k_hel_physunmap_impl (virtaddr size : Z) : KM Z :=
  cr3 <- cpu mc_cr3 ;;
  let table := from_current cr3 true in
  let count := page_count size in
  on_frames (free_frames virtaddr count) ;;
  on_frames (unmap_range physical_memory_offset table virtaddr count) ;;
  ret k_hel_error_none.

(** ** syscall.cpp: driver sockets *)

(** [while (d->next) d = d->next;], with as many turns as there are sockets. *)
Fixpoint last_socket (n : nat) (d : Z) : KM Z :=
  v <- rd sock_s d ;;
  if ds_next v =? NULL then ret d
  else match n with O => stuck | S n' => last_socket n' (ds_next v) end.
Definition socket_count : KM nat := gets (fun s => size (o_socks (k_obj (smgr s)))).

(** A new descriptor with its handle and socket; the socket's [bind_addr] is a fresh buffer. *)
Definition new_dsocket (flags : Z) : KM (Z * Z * Z) :=
  file_info <- malloc_obj fd_s SIZEOF_FD_INFO ;;
  upd fd_s file_info (set_fd_kind fd_info_type_dsocket) ;;
  handle <- malloc_obj handle_s SIZEOF_HANDLE ;;
  upd fd_s file_info (set_fd_dsock_handle handle) ;;
  socket <- malloc_obj sock_s SIZEOF_DSOCKET ;;
  upd handle_s handle (set_dh_socket socket) ;;
  upd sock_s socket (set_ds_flags flags) ;;
  bind_addr <- malloc_bytes DSOCK_ADDR_MAX ;;
  upd sock_s socket (set_ds_bind_addr bind_addr) ;;
  ret (file_info, handle, socket).

Definition link_dsocket (socket : Z) : KM unit :=
  n <- socket_count ;; d <- last_socket n driver_sockets ;; upd sock_s d (set_ds_next socket).

Definition k_driver_cskt_impl (flags : Z) : KM Z :=
  '(file_info, handle, socket) <- new_dsocket flags ;;
  upd sock_s socket (set_ds_pair NULL) ;;
  upd sock_s socket (set_ds_state dsocket_state_disconnected) ;;
  link_dsocket socket ;;
  t <- get_current_thread ;;
  add_fd_info t file_info.

(** The checks every call on a handle starts with; [k] gets the thread, the handle and the socket. *)
Definition with_handle (handle_id : Z) (k : Z -> Z -> Z -> KM Z) : KM Z :=
  t <- get_current_thread ;; th <- rd thread_s t ;;
  if th_file_info th =? NULL then ret (error k_hel_error_bad_handler)
  else
    fi <- rd file_s (th_file_info th) ;;
    if fi_fds fi =? NULL then ret (error k_hel_error_bad_handler)
    else
      p <- rd_at (fi_fds fi) handle_id ;;
      if p =? NULL then ret (error k_hel_error_bad_handler)
      else
        fd <- rd fd_s p ;;
        if negb (fd_kind fd =? fd_info_type_dsocket) then ret (error k_hel_error_bad_handler)
        else
          handle <- rd handle_s (fd_dsock_handle fd) ;;
          k t (fd_dsock_handle fd) (dh_socket handle).

(** The length of an address; a logical address has one byte in front of its string. *)
Definition addr_len (addr : Z) : KM Z :=
  logical <- ld8 (logical_address_of addr) ;;
  if negb (logical =? 0) then n <- strlen str_fuel (d_path_of addr +! 1) ;; ret (n +! 1)
  else strlen str_fuel (d_path_of addr).

Definition k_driver_bind_impl (handle_id addr : Z) : KM Z :=
  with_handle handle_id (fun _ _ dsock =>
    len <- addr_len addr ;;
    d <- rd sock_s dsock ;;
    memcpy (ds_bind_addr d) (d_path_of addr) len ;;
    ret 0).

(** [while (d && !memcmp(d->bind_addr, addr->d_path, len)) d = d->next;] *)
Fixpoint connect_find (n : nat) (d path len : Z) : KM Z :=
  if d =? NULL then ret NULL
  else
    v <- rd sock_s d ;;
    c <- memcmp (ds_bind_addr v) path len ;;
    if negb (c =? 0) then ret d
    else match n with O => stuck | S n' => connect_find n' (ds_next v) path len end.

(** [d->backlog[d->conn_curr++] = pair;] *)
Definition push_backlog (d pair : Z) : KM unit :=
  v <- rd sock_s d ;;
  wr_at (ds_backlog v) (ds_conn_curr v) pair ;;
  upd sock_s d (fun v => set_ds_conn_curr (s32 (ds_conn_curr v + 1)) v).

(** [connect] up to the loop that waits: an error, or the new pair. *)
Definition connect_request (dsock addr : Z) : KM (Z + Z) :=
  v <- rd sock_s dsock ;;
  if negb (ds_pair v =? NULL) then ret (inl (error k_hel_error_already_connected))
  else
    len <- addr_len addr ;;
    n <- socket_count ;;
    d <- connect_find n driver_sockets (d_path_of addr) len ;;
    listening <- (if d =? NULL then ret false
                  else v <- rd sock_s d ;; ret (bool_decide (ds_state v = dsocket_state_listening))) ;;
    if negb listening then ret (inl (error k_hel_error_not_found))
    else
      pair <- malloc_obj pair_s SIZEOF_PAIR ;;
      wr pair_s pair (DsocketPair false NULL NULL 0 0 0 NULL 0 0) ;;
      upd pair_s pair (set_dp_client_fds 1) ;;
      upd pair_s pair (set_dp_connected false) ;;
      push_backlog d pair ;;
      upd sock_s dsock (set_ds_pair pair) ;;
      ret (inr pair).

Definition k_driver_connect_impl (fuel : nat) (handle_id addr : Z) : KM Z :=
  with_handle handle_id (fun _ handle dsock =>
    r <- connect_request dsock addr ;;
    match r with
    | inl e => ret e
    | inr pr =>
        wait_until fuel (p <- rd pair_s pr ;; ret (dp_connected p)) ;;
        upd sock_s dsock (set_ds_state dsocket_state_connected) ;;
        upd handle_s handle (set_dh_op normal_ops) ;;
        ret 0
    end).

(** [memmove(backlog, &backlog[1], 8 * n)] on an array of pointers. *)
Definition shift_array (a n : Z) : KM unit :=
  l <- rd (array_s 0) a ;;
  if (n <? 0) || (Z.of_nat (length l) <? n + 1) then stuck
  else wr (array_s 0) a (take (Z.to_nat n) (drop 1 l) ++ drop (Z.to_nat n) l).

(** The server's half of a connection: buffers for both directions. *)
Definition open_pair (pair : Z) : KM unit :=
  upd pair_s pair (fun p => set_dp_server_fds (s32 (dp_server_fds p + 1)) p) ;;
  path <- malloc_bytes DSOCK_ADDR_MAX ;; upd pair_s pair (set_dp_path path) ;;
  b <- malloc_bytes DSOCK_BUFF_SIZE ;; upd pair_s pair (set_dp_server_buffer b) ;;
  upd pair_s pair (set_dp_server_buffer_pos 0) ;;
  b <- malloc_bytes DSOCK_BUFF_SIZE ;; upd pair_s pair (set_dp_client_buffer b) ;;
  upd pair_s pair (set_dp_client_buffer_pos 0) ;;
  upd pair_s pair (set_dp_connected true).

(** The request at the head of the backlog is taken out. *)
Definition pop_backlog (dsock : Z) : KM unit :=
  v <- rd sock_s dsock ;;
  wr_at (ds_backlog v) 0 NULL ;;
  shift_array (ds_backlog v) (ds_conn_max v - 1) ;;
  upd sock_s dsock (fun v => set_ds_conn_max (s32 (ds_conn_max v - 1)) v) ;;
  upd sock_s dsock (set_ds_state dsocket_state_disconnected).

Definition k_driver_accept_impl (fuel : nat) (handle_id flags : Z) : KM Z :=
  with_handle handle_id (fun t _ dsock =>
    wait_until fuel (v <- rd sock_s dsock ;; ret (negb (ds_conn_curr v =? 0))) ;;
    v <- rd sock_s dsock ;;
    pair <- rd_at (ds_backlog v) 0 ;;
    open_pair pair ;;
    pop_backlog dsock ;;
    '(file_info, handle, socket) <- new_dsocket flags ;;
    upd sock_s socket (set_ds_pair pair) ;;
    upd sock_s socket (set_ds_state dsocket_state_connected) ;;
    upd handle_s handle (set_dh_op accept_ops) ;;
    link_dsocket socket ;;
    add_fd_info t file_info).

Definition k_driver_listen_impl (handle_id : Z) : KM Z :=
  with_handle handle_id (fun _ _ dsock =>
    upd sock_s dsock (set_ds_state dsocket_state_listening) ;;
    upd sock_s dsock (set_ds_conn_curr 0) ;;
    upd sock_s dsock (set_ds_conn_max DSOCKET_CONN_MAX) ;;
    b <- malloc_obj (array_s (Z.to_nat DSOCKET_CONN_MAX)) (8 * DSOCKET_CONN_MAX) ;;
    upd sock_s dsock (set_ds_backlog b) ;;
    ret 0).

Definition k_driver_send_impl (handle_id inp limit : Z) : KM Z :=
  with_handle handle_id (fun _ handle dsock =>
    h <- rd handle_s handle ;; op_send (dh_op h) dsock inp limit).
Definition k_driver_recv_impl (handle_id out limit : Z) : KM Z :=
  with_handle handle_id (fun _ handle dsock =>
    h <- rd handle_s handle ;; op_recv (dh_op h) dsock out limit).

(** ** syscall.cpp: threads *)

(** [clone_page_table] under [clone_lock]; its [malloc], which only the copying branch calls, comes
    first. *)
Definition get_clone_lock (k : kernel H) : spinlock_t := clone_lock (k_static k).
Definition put_clone_lock (l : spinlock_t) (k : kernel H) : kernel H :=
  set_k_static (set_clone_lock l (k_static k)) k.
Definition clone_mm (old flags : Z) : KM Z :=
  if has_flag flags 256 then
    on_frames (clone_page_table physical_memory_offset (fun _ => stuck) old flags)
  else
    lock_with get_clone_lock put_clone_lock ;;
    mm <- malloc_bytes SIZEOF_MM_CONTEXT ;;
    on_frames (clone_page_table physical_memory_offset (fun _ => ret mm) old flags) ;;
    unlock_with get_clone_lock put_clone_lock ;;
    ret mm.

(** The copy of the descriptor table for a clone without [CLONE_FILES]. *)
Definition copy_files (t parent_info : Z) : KM unit :=
  th <- rd thread_s t ;; fi <- rd file_s (th_file_info th) ;;
  wr_at (fi_fds fi) 0 NULL ;;
  pi <- rd file_s parent_info ;;
  forM 0 (fi_max_fd_count pi) (fun i =>
    fd <- rd_at (fi_fds pi) i ;;
    if negb (fd =? NULL) then
      new <- malloc_obj fd_s SIZEOF_FD_INFO ;;
      wr_at (fi_fds fi) i new ;;
      v <- rd fd_s fd ;; wr fd_s new v
    else wr_at (fi_fds fi) i NULL).

Definition k_clone_impl (fuel : nat) (regs flags newsp parent_tid child_tid tls : Z) : KM Z :=
  parent <- get_current_thread ;;
  p <- rd thread_s parent ;;
  t <- create NULL (th_tflags p) ;;
  upd context_s (th_arch_context p) (set_ac_context regs) ;;
  upd thread_s t (set_th_call_in_signal (th_call_in_signal p)) ;;
  c <- rd thread_s t ;;
  context_copy (th_arch_context c) (th_arch_context p) ;;
  mm <- clone_mm (th_mm p) flags ;;
  upd thread_s t (set_th_mm mm) ;;
  whenM (negb (newsp =? 0))
    (ctx <- rd context_s (th_arch_context c) ;; sto (ac_context ctx +! pr_rsp) newsp) ;;
  upd thread_s t (set_th_jiffies (th_jiffies p)) ;;
  (if has_flag flags CLONE_FILES then
     upd thread_s t (set_th_file_info (th_file_info p)) ;;
     upd file_s (th_file_info p) (fun v => set_fi_ref_count (s32 (fi_ref_count v + 1)) v)
   else
     fi <- malloc_obj file_s SIZEOF_FILE_INFO ;;
     upd thread_s t (set_th_file_info fi) ;;
     copy_files t (th_file_info p)) ;;
  whenM (has_flag flags CLONE_SETTLS) (upd context_s (th_arch_context c) (set_ac_fsbase tls)) ;;
  whenM (has_flag flags CLONE_PARENT_SETTID) (sto32 parent_tid (u32 (th_id p))) ;;
  whenM (has_flag flags CLONE_CHILD_SETTID) (c <- rd thread_s t ;; sto32 child_tid (u32 (th_id c))) ;;
  upd thread_s t (set_th_child_vfork_done false) ;;
  upd thread_s t (set_th_is_vfork (has_flag flags CLONE_VFORK)) ;;
  whenM (has_flag flags CLONE_VFORK)
    (upd thread_s parent (set_th_child_vfork_done false) ;;
     wait_until fuel (cur <- get_current_thread ;; c <- rd thread_s cur ;; ret (th_child_vfork_done c)) ;;
     cur <- get_current_thread ;; upd thread_s cur (set_th_child_vfork_done false)) ;;
  c <- rd thread_s t ;;
  ret (th_id c).

(** [exit] ends in [thread_switch_to], which does not come back: there is no result. *)
Definition k_exit_impl (exit_code : Z) : KM unit :=
  t <- get_current_thread ;;
  th <- rd thread_s t ;;
  ctx <- rd context_s (th_arch_context th) ;;
  on_frames (free_frames (virt_to_phys physical_memory_offset (ac_context ctx +! SIZEOF_PT_REGS))
    (kThreadStackSize / PAGE_SIZE)) ;;
  arch_context_free (th_arch_context th) ;;
  n <- ld (ref_count_of (th_mm th)) ;; sto (ref_count_of (th_mm th)) (n -! 1) ;;
  n <- ld (ref_count_of (th_mm th)) ;;
  whenM (n =? 0) (on_frames (free_page_table physical_memory_offset (th_mm th))) ;;
  fi <- rd file_s (th_file_info th) ;;
  forM 0 (fi_max_fd_count fi) (fun i =>
    fd <- rd_at (fi_fds fi) i ;; whenM (negb (fd =? NULL)) (free_obj fd_s fd)) ;;
  free_obj (array_s 0) (fi_fds fi) ;;
  free_obj file_s (th_file_info th) ;;
  upd thread_s t (set_th_status exit_code) ;;
  upd thread_s t (set_th_state kRunTerminated) ;;
  id <- get_current_cpu_id ;;
  next <- search kRunNone id ;;
  n <- rd thread_s next ;;
  thread_switch_to NULL NULL (th_arch_context n).

(** ** arch/x86_64/syscall.cpp *)

Definition switch_to_kernel_stack : KM Z :=
  t <- get_current_thread ;; th <- rd thread_s t ;;
  ret (if th_call_in_signal th then th_syscall_stack th -! kThreadStackSize / 2 else th_syscall_stack th).

(** A call that returns puts its result into [regs->rax]. *)
Definition syscall_result (fuel : nat) (regs rax rdi rsi rdx rcx r10 r8 : Z) : KM Z :=
  if rax =? k_debug then k_hel_debug_impl (s32 rdi) rsi
  else if rax =? k_physmap then k_hel_physmap_impl rdi rsi
  else if rax =? k_physunmap then k_hel_physunmap_impl rdi rsi
  else if rax =? k_driver_cskt then k_driver_cskt_impl rdi
  else if rax =? k_driver_connect then k_driver_connect_impl fuel rdi rsi
  else if rax =? k_driver_listen then k_driver_listen_impl rdi
  else if rax =? k_driver_accept then k_driver_accept_impl fuel rdi r10
  else if rax =? k_driver_send then k_driver_send_impl rdi rsi rdx
  else if rax =? k_driver_recv then k_driver_recv_impl rdi rsi rdx
  else if rax =? k_getpid then getpid
  else if rax =? k_clone then k_clone_impl fuel regs rdi rsi rdx r10 r8
  else ret (error k_hel_error_not_implemented).

Definition syscall_handler (fuel : nat) (regs user_regs : Z) : KM unit :=
  rcx <- ld (regs +! pr_rcx) ;; sto (regs +! pr_rip) rcx ;;
  r11 <- ld (regs +! pr_r11) ;; sto (regs +! pr_rflags) r11 ;;
  sto (regs +! pr_cs) 35 ;;
  sto (regs +! pr_ss) 27 ;;
  sto (regs +! pr_ds) 27 ;;
  sto (regs +! pr_es) 27 ;;
  sto (regs +! pr_rsp) (user_regs +! SIZEOF_PT_REGS) ;;
  rax <- ld (regs +! pr_rax) ;;
  rdi <- ld (regs +! pr_rdi) ;;
  rsi <- ld (regs +! pr_rsi) ;;
  rdx <- ld (regs +! pr_rdx) ;;
  rcx <- ld (regs +! pr_rcx) ;;
  r10 <- ld (regs +! pr_r10) ;;
  r8 <- ld (regs +! pr_r8) ;;
  if rax =? k_exit then k_exit_impl rdi
  else r <- syscall_result fuel regs rax rdi rsi rdx rcx r10 r8 ;; sto (regs +! pr_rax) r.
End Syscall.
