(* ===== verification/KernelFacts.v ===== *)
(** KernelFacts: rules for the kernel's objects, locks and heap. *)

From Stdlib Require Import ZArith Lia.
From stdpp Require Import prelude gmap.
From S2P Require Import Prelude Mem Spinlock Block Klibc Bitmap Frame.
From S2P Require Import PageTable Kernel.

Section Facts.
Context {H : Type} `{KernelHeap H} `{Garbage}.
Implicit Types (s : st (kernel H)).

(** The state with object [v] at [p]. *)
Definition put_at {T} (S : store T) (p : Z) (v : T) s : st (kernel H) :=
  St (smem s) (set_k_obj (put_objs S (<[p := v]> (objs S (k_obj (smgr s)))) (k_obj (smgr s))) (smgr s)).
Definition obj_at {T} (S : store T) s (p : Z) : option T := objs S (k_obj (smgr s)) !! p.

Lemma runs_rd {T} (S : store T) p v s Q : obj_at S s p = Some v -> Q v s -> runs (rd S p) s Q.
Proof. intros Hp HQ. apply runs_bind, runs_gets. by eapply runs_of_opt. Qed.

Lemma runs_with_k f s Q : Q tt (St (smem s) (f (smgr s))) -> runs (with_k f) s Q.
Proof. done. Qed.
Lemma runs_with_obj f s Q :
  Q tt (St (smem s) (set_k_obj (f (k_obj (smgr s))) (smgr s))) -> runs (with_obj f) s Q.
Proof. done. Qed.
Lemma runs_with_static f s Q :
  Q tt (St (smem s) (set_k_static (f (k_static (smgr s))) (smgr s))) -> runs (with_static f) s Q.
Proof. done. Qed.
Lemma runs_with_cpu f s Q :
  Q tt (St (smem s) (set_k_cpu (f (k_cpu (smgr s))) (smgr s))) -> runs (with_cpu f) s Q.
Proof. done. Qed.
Lemma runs_with_apic f s Q :
  Q tt (St (smem s) (set_k_apic (f (k_apic (smgr s))) (smgr s))) -> runs (with_apic f) s Q.
Proof. done. Qed.
Lemma runs_static {A} (f : statics -> A) s Q : Q (f (k_static (smgr s))) s -> runs (static f) s Q.
Proof. done. Qed.
Lemma runs_cpu {A} (f : machine -> A) s Q : Q (f (k_cpu (smgr s))) s -> runs (cpu f) s Q.
Proof. done. Qed.
Lemma runs_of_apic {A} (f : apic -> A) s Q : Q (f (k_apic (smgr s))) s -> runs (of_apic f) s Q.
Proof. done. Qed.

Lemma runs_wr {T} (S : store T) p v w s Q :
  obj_at S s p = Some v -> Q tt (put_at S p w s) -> runs (wr S p w) s Q.
Proof. intros Hp HQ. eapply runs_bind, runs_rd; [done|]. by apply runs_with_obj. Qed.
Lemma runs_upd {T} (S : store T) p v f s Q :
  obj_at S s p = Some v -> Q tt (put_at S p (f v) s) -> runs (upd S p f) s Q.
Proof. intros Hp HQ. eapply runs_bind, runs_rd; [done|]. by eapply runs_wr. Qed.

Lemma runs_rd_at a i l p s Q :
  obj_at (array_s 0) s a = Some l -> 0 <= i -> l !! Z.to_nat i = Some p -> Q p s ->
  runs (rd_at a i) s Q.
Proof.
  intros Ha Hi Hl HQ. eapply runs_bind, runs_rd; [done|].
  replace (i <? 0) with false by lia. by eapply runs_of_opt.
Qed.
Lemma runs_wr_at a i l p s Q :
  obj_at (array_s 0) s a = Some l -> 0 <= i < Z.of_nat (length l) ->
  Q tt (put_at (array_s 0) a (<[Z.to_nat i := p]> l) s) -> runs (wr_at a i p) s Q.
Proof.
  intros Ha Hi HQ. eapply runs_bind, runs_rd; [done|].
  replace ((i <? 0) || (Z.of_nat (length l) <=? i)) with false by lia. by eapply runs_wr.
Qed.

Lemma runs_rdmsr n v s Q : mc_msr (k_cpu (smgr s)) !! n = Some v -> Q v s -> runs (rdmsr n) s Q.
Proof. intros Hn HQ. apply runs_bind, runs_cpu. by eapply runs_of_opt. Qed.

(** A lock that nobody holds is taken and given back. *)
Lemma runs_lock_with get put s Q :
  lock (get (smgr s)) = 0 ->
  (forall f l' f', spin_lock (get (smgr s)) f = Some (l', f') -> l' = Spin 1 f /\ f' = cli f ->
     f = mc_rflags (k_cpu (smgr s)) ->
     Q tt (St (smem s) (set_k_cpu (set_mc_rflags f' (k_cpu (put l' (smgr s)))) (put l' (smgr s))))) ->
  runs (lock_with get put) s Q.
Proof.
  intros Hl HQ. apply runs_bind, runs_gets, runs_bind, runs_cpu, runs_bind.
  eapply runs_of_opt; [by apply spin_lock_free|]. apply runs_bind, runs_with_k, runs_with_cpu.
  apply (HQ (mc_rflags (k_cpu (smgr s)))); [by apply spin_lock_free|done|done].
Qed.

(** ** The heap *)

(** The heap's blocks and their addresses. *)
Definition heap_is s (l : gmap Z Z) : Prop := heap_rep (k_heap (smgr s)) l.
Definition with_heap h s : st (kernel H) := with_mgr (set_k_heap h (smgr s)) s.

(** The next [n] requests, each of at most a page, are granted. *)
Fixpoint plenty (n : nat) (h : H) : Prop :=
  match n with
  | O => True
  | S n' =>
      forall size, 0 <= size <= PAGE_SIZE ->
        (forall a h', kmalloc size h = Some (a, h') -> a <> NULL /\ plenty n' h') /\
        (forall a h', kaligned_alloc 16 size h = Some (a, h') -> a <> NULL /\ plenty n' h')
  end.

(** A granted block. *)
Record new_block (n a k : Z) (l : gmap Z Z) : Prop := {
  nb_size : n <= k;
  nb_place : 0 < a /\ heap_lo <= a /\ a + k <= heap_hi /\ a + k < two64;
  nb_fresh : l !! a = None;
  nb_apart : forall b j, l !! b = Some j -> apart a k b j
}.

Lemma grants_new n a h' l :
  grants heap_rep heap_lo heap_hi n a h' l -> a <> NULL ->
  exists k, new_block n a k l /\ heap_rep h' (<[a := k]> l).
Proof. intros [[? _]|(k & ?)] Hn; [done|]. destr_ands. exists k. split; [by split|done]. Qed.

Lemma runs_malloc_bytes size n l s Q :
  heap_is s l -> plenty (S n) (k_heap (smgr s)) -> 0 <= size <= PAGE_SIZE ->
  (forall a k h', new_block size a k l -> heap_rep h' (<[a := k]> l) -> plenty n h' ->
     Q a (with_heap h' s)) ->
  runs (malloc_bytes size) s Q.
Proof.
  intros Hl Hp Hs HQ. unfold runs, malloc_bytes.
  destruct (kmalloc_spec _ _ size Hl) as (a & h' & E & Hg); [unfold PAGE_SIZE, two32 in *; lia|].
  destruct (Hp size Hs) as [Hp1 _]. destruct (Hp1 _ _ E) as [Hn Hp'].
  destruct (grants_new _ _ _ _ Hg Hn) as (k & Hb & Hr). rewrite E. by eapply HQ.
Qed.

Lemma runs_malloc_obj {T} (S : store T) size n l s Q :
  heap_is s l -> plenty (Datatypes.S n) (k_heap (smgr s)) -> 0 <= size <= PAGE_SIZE ->
  (forall a k h', new_block size a k l -> heap_rep h' (<[a := k]> l) -> plenty n h' ->
     Q a (put_at S a (fresh S a) (with_heap h' s))) ->
  runs (malloc_obj S size) s Q.
Proof.
  intros Hl Hp Hs HQ. eapply runs_bind, runs_malloc_bytes; [done..|]. intros a k h' Hb Hr Hp'.
  destruct (nb_place _ _ _ _ Hb) as [? _]. replace (a =? NULL) with false by (unfold NULL; lia).
  apply runs_bind, runs_with_obj, runs_ret. by eapply HQ.
Qed.

Lemma runs_on_frames {A} (c : M (st bitmap) A) s Q :
  runs c (St (smem s) (k_frames (smgr s)))
    (fun a b => Q a (St (smem b) (set_k_frames (smgr b) (smgr s)))) -> runs (on_frames c) s Q.
Proof. unfold runs, on_frames. by destruct (c _) as [[a b]|]. Qed.

(** ** Objects after a write *)

Class Lawful {T} (S : store T) : Prop := {
  objs_put : forall m o, objs S (put_objs S m o) = m;
  put_put_objs : forall m m' o, put_objs S m (put_objs S m' o) = put_objs S m o
}.
#[global] Instance thread_lawful : Lawful thread_s. Proof. by split. Qed.
#[global] Instance file_lawful : Lawful file_s. Proof. by split. Qed.
#[global] Instance fd_lawful : Lawful fd_s. Proof. by split. Qed.
#[global] Instance handle_lawful : Lawful handle_s. Proof. by split. Qed.
#[global] Instance sock_lawful : Lawful sock_s. Proof. by split. Qed.
#[global] Instance pair_lawful : Lawful pair_s. Proof. by split. Qed.
#[global] Instance context_lawful : Lawful context_s. Proof. by split. Qed.
#[global] Instance array_lawful n : Lawful (array_s n). Proof. by split. Qed.

Lemma obj_put_eq {T} (S : store T) `{!Lawful S} p v s : obj_at S (put_at S p v s) p = Some v.
Proof. unfold obj_at, put_at. simpl. rewrite objs_put. apply lookup_insert_eq. Qed.
Lemma obj_put_ne {T} (S : store T) `{!Lawful S} p q v s :
  p <> q -> obj_at S (put_at S p v s) q = obj_at S s q.
Proof. intros Hn. unfold obj_at, put_at. simpl. rewrite objs_put. by apply lookup_insert_ne. Qed.
Lemma put_put {T} (S : store T) `{!Lawful S} p v w s : put_at S p v (put_at S p w s) = put_at S p v s.
Proof.
  unfold put_at, set_k_obj. simpl. by rewrite objs_put, insert_insert_eq, put_put_objs.
Qed.
Lemma with_heap_put {T} (S : store T) h p v s : with_heap h (put_at S p v s) = put_at S p v (with_heap h s).
Proof. done. Qed.
Lemma with_heap_heap h h' s : with_heap h (with_heap h' s) = with_heap h s.
Proof. done. Qed.
Lemma put_array n p v s : put_at (array_s n) p v s = put_at (array_s 0) p v s.
Proof. done. Qed.
Lemma put_fd_handle p v q w s : put_at fd_s p v (put_at handle_s q w s) = put_at handle_s q w (put_at fd_s p v s).
Proof. done. Qed.
Lemma put_handle_sock p v q w s :
  put_at handle_s p v (put_at sock_s q w s) = put_at sock_s q w (put_at handle_s p v s).
Proof. done. Qed.
Lemma smem_put {T} (S : store T) p v s : smem (put_at S p v s) = smem s.
Proof. done. Qed.
Lemma heap_put {T} (S : store T) p v s : k_heap (smgr (put_at S p v s)) = k_heap (smgr s).
Proof. done. Qed.
Lemma frames_put {T} (S : store T) p v s : k_frames (smgr (put_at S p v s)) = k_frames (smgr s).
Proof. done. Qed.
Lemma static_put {T} (S : store T) p v s : k_static (smgr (put_at S p v s)) = k_static (smgr s).
Proof. done. Qed.
Lemma apic_put {T} (S : store T) p v s : k_apic (smgr (put_at S p v s)) = k_apic (smgr s).
Proof. done. Qed.
Lemma cpu_put {T} (S : store T) p v s : k_cpu (smgr (put_at S p v s)) = k_cpu (smgr s).
Proof. done. Qed.
Lemma obj_heap {T} (S : store T) h p s : obj_at S (with_heap h s) p = obj_at S s p.
Proof. done. Qed.
Lemma obj_mem {T} (S : store T) m p s : obj_at S (with_mem m s) p = obj_at S s p.
Proof. done. Qed.
Lemma with_mem_put {T} (S : store T) m p v s : with_mem m (put_at S p v s) = put_at S p v (with_mem m s).
Proof. done. Qed.
Lemma with_mem_heap m h s : with_mem m (with_heap h s) = with_heap h (with_mem m s).
Proof. done. Qed.
Lemma with_mem_mem m m' s : with_mem m (with_mem m' s) = with_mem m s.
Proof. done. Qed.
End Facts.

(** [objs] computes which object is at an address of a state built by [put_at]. *)
Ltac objs_step :=
  match goal with
  | |- context [smem (put_at ?S ?q ?w ?s)] => rewrite (smem_put S q w s)
  | |- context [k_heap (smgr (put_at ?S ?q ?w ?s))] => rewrite (heap_put S q w s)
  | |- context [k_frames (smgr (put_at ?S ?q ?w ?s))] => rewrite (frames_put S q w s)
  | |- context [k_static (smgr (put_at ?S ?q ?w ?s))] => rewrite (static_put S q w s)
  | |- context [k_apic (smgr (put_at ?S ?q ?w ?s))] => rewrite (apic_put S q w s)
  | |- context [k_cpu (smgr (put_at ?S ?q ?w ?s))] => rewrite (cpu_put S q w s)
  | |- context [obj_at ?S (with_heap ?h ?s) ?p] => rewrite (obj_heap S h p s)
  | |- context [obj_at ?S (with_mem ?m ?s) ?p] => rewrite (obj_mem S m p s)
  | |- context [smem (with_mem ?m ?s)] => change (smem (with_mem m s)) with m
  | |- context [smem (with_heap ?h ?s)] => change (smem (with_heap h s)) with (smem s)
  | |- context [smgr (with_mem ?m ?s)] => change (smgr (with_mem m s)) with (smgr s)
  | |- context [obj_at ?S (put_at ?S ?p ?w ?s) ?p] => rewrite (obj_put_eq S p w s)
  | |- context [obj_at ?S (put_at ?S ?q ?w ?s) ?p] =>
      rewrite (obj_put_ne S q p w s) by (first [assumption | congruence | lia])
  | |- context [obj_at ?S (put_at ?S' ?q ?w ?s) ?p] =>
      change (obj_at S (put_at S' q w s) p) with (obj_at S s p)
  end.
Ltac objs := repeat objs_step.

(** [tidy] gathers the writes of a state: memory and heap innermost, one write per object. *)
Ltac tidy :=
  repeat first [rewrite with_mem_put | rewrite with_heap_put | rewrite with_mem_heap
    | rewrite with_mem_mem | rewrite with_heap_heap | rewrite (put_put _ _ _ _)].

(** [kstep] runs one read or write of an object whose value is known. *)
Ltac known := objs; first [reflexivity | eassumption].
Ltac kstep :=
  lazymatch goal with
  | |- runs (bind _ _) _ _ => apply runs_bind
  | |- runs (ret _) _ _ => apply runs_ret
  | |- runs (rd ?S ?p) _ _ => eapply (runs_rd S p); [known|]
  | |- runs (upd ?S ?p ?f) _ _ => eapply (runs_upd S p); [known|]
  | |- runs (wr ?S ?p ?v) _ _ => eapply (runs_wr S p); [known|]
  end.
Ltac ksteps := repeat kstep.

Arguments put_at : simpl never.
Arguments obj_at : simpl never.
