(* ===== verification/ConsoleFacts.v ===== *)
(** ConsoleFacts: what [printk] ([arch/x86_64/debug.cpp]) sends to the serial port. *)

From Stdlib Require Import ZArith Lia.
From stdpp Require Import prelude gmap.
From S2P Require Import Prelude Mem Spinlock Block Klibc Bitmap Frame.
From S2P Require Import Printf PrintfFacts PrintfParse PrintfThms.
From S2P Require Import PageTable Kernel Apic KernelFacts.

(** Each line feed with the carriage return that goes before it. *)
Definition crlf (l : list Z) : list Z := flat_map (fun c => if c =? 10 then [13; 10] else [c]) l.

Lemma crlf_app l1 l2 : crlf (l1 ++ l2) = crlf l1 ++ crlf l2.
Proof. apply flat_map_app. Qed.

(** The processor after [l] went to the port: each byte has used up the answers of the line status
    register up to the first that says ready. *)
Definition sent (l : list Z) (c : machine) : machine :=
  set_mc_lsr (Nat.iter (length l) wait_ready (mc_lsr c)) (set_mc_out (mc_out c ++ l) c).

Lemma sent_nil c : sent [] c = c.
Proof. unfold sent, set_mc_out, set_mc_lsr. simpl. rewrite app_nil_r. by destruct c. Qed.
Lemma sent_app l1 l2 c : sent l2 (sent l1 c) = sent (l1 ++ l2) c.
Proof.
  unfold sent, set_mc_out, set_mc_lsr. simpl.
  by rewrite length_app, Nat.add_comm, Nat.iter_add, app_assoc.
Qed.

Section Console.
Context {H : Type} `{KernelHeap H} `{Garbage} `{Image}.
Implicit Types (s : st (kernel H)).

Definition on_machine (f : machine -> machine) s : st (kernel H) :=
  St (smem s) (set_k_cpu (f (k_cpu (smgr s))) (smgr s)).

Lemma on_machine_comp f g s : on_machine f (on_machine g s) = on_machine (fun c => f (g c)) s.
Proof. done. Qed.

Lemma runs_write a s Q : Q tt (on_machine (sent [a]) s) -> runs (write a) s Q.
Proof. intros HQ. by apply runs_bind, runs_with_cpu, runs_with_cpu. Qed.

(** The state after printing [out] from a memory whose buffer now holds it. *)
Definition printed (out : list Z) (m : mem) s : st (kernel H) :=
  with_mem m (on_machine (fun c => set_mc_debug_lock (Spin 0 (mc_rflags c)) (sent (crlf out) c)) s).

(** The loop of [printk]. *)
Lemma runs_put_text (s0 : st (kernel H)) out Q :
  holds (smem s0) debug_buf out -> 0 <= debug_buf -> debug_buf + Z.of_nat (length out) < two64 ->
  Q tt (on_machine (sent (crlf out)) s0) ->
  runs (forM 0 (Z.of_nat (length out)) (fun i =>
    c <- ld8 (debug_buf +! i) ;;
    whenM (c =? 10) (write 13) ;;
    c <- ld8 (debug_buf +! i) ;; write c)) s0 Q.
Proof.
  intros Hh Hb Htop HQ.
  apply (runs_forM (fun i s => s = on_machine (sent (crlf (take (Z.to_nat i) out))) s0)); [lia| | |].
  - simpl. unfold on_machine. change (crlf []) with (@nil Z). rewrite sent_nil. by destruct s0 as [? []].
  - intros i s Hi ->. destruct (lookup_lt_is_Some_2 out (Z.to_nat i)) as [x Hx]; [lia|].
    pose proof (Hh _ _ Hx) as Hl. rewrite Z2Nat.id in Hl by lia. norm_words.
    replace (Z.to_nat (i + 1)) with (S (Z.to_nat i)) by lia. rewrite (take_S_r _ _ x) by done.
    eapply runs_bind, runs_ld8; [exact Hl|]. apply runs_bind. rewrite crlf_app.
    unfold crlf at 2. simpl. destruct (x =? 10) eqn:Ex; simpl.
    + apply Z.eqb_eq in Ex as ->. apply runs_write. eapply runs_bind, runs_ld8; [exact Hl|]. apply runs_write.
      rewrite !on_machine_comp. unfold on_machine. rewrite !sent_app. by rewrite <- ?app_assoc.
    + apply runs_ret. eapply runs_bind, runs_ld8; [exact Hl|]. apply runs_write.
      rewrite !on_machine_comp. unfold on_machine. by rewrite sent_app.
  - intros s ->. by rewrite Nat2Z.id, firstn_all.
Qed.

(** [debug_buf] and the format it is to hold. *)
Record can_print s (fmt : Z) (ps : list piece) (args out : list Z) : Prop := {
  cp_lock : lock (mc_debug_lock (k_cpu (smgr s))) = 0;
  cp_buf : 0 <= debug_buf /\ debug_buf + 4096 < two64;
  cp_mapped : mapped (smem s) debug_buf (debug_buf + 4096);
  cp_pieces : Forall piece_ok ps;
  cp_format : str_apart (smem s) debug_buf 4096 fmt (format_text ps);
  cp_short : (length (format_text ps) < str_fuel)%nat;
  cp_text : text_of (printable (smem s) str_fuel debug_buf 4096) ps args out;
  cp_fits : Z.of_nat (length out) < 4096
}.

Lemma runs_printk s fmt ps args out Q :
  can_print s fmt ps args out ->
  (forall m', written (smem s) m' debug_buf (out ++ [0]) -> Q (Z.of_nat (length out)) (printed out m' s)) ->
  runs (printk fmt args) s Q.
Proof.
  intros [Hlk [Hb Htop] Hm Hps Hf Hfu Htext Hfit] HQ. unfold printk. apply runs_bind, runs_lock_with; [exact Hlk|].
  intros f l' f' _ [-> ->] ->. apply runs_bind.
  eapply (runs_vsprintf _ str_fuel debug_buf 4096 fmt ps args out);
    [exact Hb|exact Htop|exact Hm|done|exact Hps|exact Hf|exact Hfu|exact Htext|exact Hfit|].
  intros s1 Hw Hg. simpl in Hw. apply runs_bind. apply runs_put_text.
  - destruct Hw as [Hh _]. by apply holds_app in Hh as [Hh _].
  - exact Hb.
  - lia.
  - apply runs_bind, runs_bind, runs_gets. cbn [on_machine smgr]. rewrite Hg. simpl.
    apply runs_bind, runs_with_k, runs_with_cpu, runs_ret. simpl.
    match goal with |- Q _ ?S => replace S with (printed out (smem s1) s) end; [by apply HQ|].
    unfold printed, on_machine, with_mem. simpl. unfold set_debug_lock, sent, set_k_cpu, set_mc_lsr, set_mc_out. simpl.
    rewrite Hg. simpl. by destruct (k_cpu (smgr s)).
Qed.
End Console.
