(* ===== verification/SearchThms.v ===== *)
(** SearchThms: the scheduler's choice ([search]), the descriptor table ([add_fd_info]) and the
    distribution of threads over processors ([alloc_cpu_id]). *)

From Stdlib Require Import ZArith Lia.
From stdpp Require Import prelude gmap.
From S2P Require Import Prelude Mem Spinlock Block Klibc Bitmap Frame.
From S2P Require Import PageTable Kernel Apic Thread KernelFacts.

(** ** The choice, abstractly *)

(** The table's threads: everything before the first NULL. *)
Fixpoint in_use (l : list Z) : list Z :=
  match l with
  | p :: l' => if p =? NULL then [] else p :: in_use l'
  | [] => []
  end.

Definition eligible (ths : gmap Z thread) (state : run_state) (cpu_id p : Z) (th : thread) : Prop :=
  ths !! p = Some th /\ th_state th = state /\ th_cpu_id th = cpu_id.

(** [task] is the first of the eligible threads of [l] with the fewest jiffies. *)
Definition first_least ths state cpu_id (l : list Z) (task : Z) : Prop :=
  exists i th, l !! i = Some task /\ eligible ths state cpu_id task th /\
    forall j p th', l !! j = Some p -> eligible ths state cpu_id p th' ->
      th_jiffies th < th_jiffies th' \/ (th_jiffies th = th_jiffies th' /\ (i <= j)%nat).
Definition chosen ths state cpu_id (l : list Z) (task : Z) : Prop :=
  (task <> NULL /\ first_least ths state cpu_id l task) \/
  (task = NULL /\ forall j p th, l !! j = Some p -> ~ eligible ths state cpu_id p th).

Lemma lookup_snoc_cases {A} (l : list A) x j y :
  (l ++ [x]) !! j = Some y -> l !! j = Some y \/ (j = length l /\ y = x).
Proof.
  intros [Hj|[Hj Hx]]%lookup_app_Some; [by left|]. right.
  apply list_lookup_singleton_Some in Hx as [? ->]. split; [lia|done].
Qed.

Lemma chosen_nil ths state cpu_id : chosen ths state cpu_id [] NULL.
Proof. right. split; [done|]. intros j p th Hj. by rewrite lookup_nil in Hj. Qed.

(** A thread that is not eligible changes nothing. *)
Lemma chosen_skip ths state cpu_id l task p th :
  ths !! p = Some th -> th_state th <> state \/ th_cpu_id th <> cpu_id ->
  chosen ths state cpu_id l task -> chosen ths state cpu_id (l ++ [p]) task.
Proof.
  intros Hp Hne [[Hn (i & b & Hi & Hb & Hmin)]|[-> Hno]].
  - left. split; [done|]. exists i, b. split_ands; [by apply lookup_app_l_Some|done|].
    intros j q th' [Hj|[-> ->]]%lookup_snoc_cases He; [by eapply Hmin|].
    destruct He as (? & ? & ?). naive_solver.
  - right. split; [done|]. intros j q th' [Hj|[-> ->]]%lookup_snoc_cases He; [by eapply Hno|].
    destruct He as (? & ? & ?). naive_solver.
Qed.

(** An eligible one is taken if there was none or if it has fewer jiffies. *)
Lemma chosen_take ths state cpu_id l task p th :
  p <> NULL -> eligible ths state cpu_id p th ->
  (task = NULL \/ exists b, ths !! task = Some b /\ th_jiffies th < th_jiffies b) ->
  chosen ths state cpu_id l task -> chosen ths state cpu_id (l ++ [p]) p.
Proof.
  intros Hn He Hcase Hc. left. split; [done|]. exists (length l), th.
  split_ands; [by apply list_lookup_middle|done|].
  intros j q th' [Hj|[-> ->]]%lookup_snoc_cases He'.
  - destruct Hc as [[Ht (i & b & Hi & Hb & Hmin)]|[-> Hno]]; [|by edestruct Hno].
    left. destruct Hcase as [?|(b' & Hb' & Hlt)]; [done|].
    destruct Hb as (Hb & _). simplify_eq. specialize (Hmin j q th' Hj He'). lia.
  - right. destruct He as (H1 & _), He' as (H2 & _). simplify_eq. split; [done|lia].
Qed.
Lemma chosen_keep ths state cpu_id l task p th b :
  eligible ths state cpu_id p th -> ths !! task = Some b -> th_jiffies b <= th_jiffies th ->
  task <> NULL -> chosen ths state cpu_id l task -> chosen ths state cpu_id (l ++ [p]) task.
Proof.
  intros He Hb Hle Hn [[_ (i & b' & Hi & Hb' & Hmin)]|[-> _]]; [|done].
  left. split; [done|]. exists i, b'. split_ands; [by apply lookup_app_l_Some|done|].
  pose proof Hb' as (E & _). simplify_eq.
  intros j q th' [Hj|[-> ->]]%lookup_snoc_cases He'; [by eapply Hmin|].
  destruct He as (H1 & _), He' as (H2 & _). simplify_eq. apply lookup_lt_Some in Hi. lia.
Qed.

Section Search.
Context {H : Type} `{KernelHeap H} `{Garbage} `{Image}.
Implicit Types (s : st (kernel H)).

Definition thread_map s : gmap Z thread := o_threads (k_obj (smgr s)).

(** Every thread of the table is an object. *)
Definition threads_live s (l : list Z) : Prop := Forall (fun p => is_Some (thread_map s !! p)) (in_use l).

Lemma runs_search_from state cpu_id s Q n i seen rest task :
  threads (k_static (smgr s)) = seen ++ rest -> 0 <= i -> Z.to_nat i = length seen ->
  length rest = n -> threads_live s rest ->
  chosen (thread_map s) state cpu_id (drop 1 seen) task -> (1 <= length seen)%nat ->
  (forall t, chosen (thread_map s) state cpu_id (drop 1 seen ++ in_use rest) t -> Q t s) ->
  runs (search_from n i state cpu_id task) s Q.
Proof.
  revert i seen rest task. induction n as [|n IH];
    intros i seen rest task Htab Hi0 Hi Hlen Hlive Hc Hseen HQ; destruct rest as [|p rest]; try done.
  { apply runs_ret, HQ. by rewrite app_nil_r. }
  simpl search_from. apply runs_bind, runs_static, runs_bind.
  eapply (runs_of_opt _ p). { rewrite Htab, Hi. by apply list_lookup_middle. }
  unfold threads_live in Hlive. simpl in HQ, Hlive.
  destruct (Z.eqb_spec p NULL) as [->|Hn]; [apply runs_ret, HQ; by rewrite app_nil_r|].
  apply Forall_cons in Hlive as [[th Hth] Hlive].
  assert (Hdrop : drop 1 (seen ++ [p]) = drop 1 seen ++ [p]) by (destruct seen; [simpl in Hseen; lia|done]).
  assert (Hnext : forall t, chosen (thread_map s) state cpu_id (drop 1 seen ++ [p]) t ->
    runs (search_from n (i + 1) state cpu_id t) s Q).
  { intros t Ht. apply (IH (i + 1) (seen ++ [p]) rest); try done; try lia.
    - by rewrite <- app_assoc.
    - rewrite length_app. simpl. lia.
    - simpl in Hlen. lia.
    - by rewrite Hdrop.
    - rewrite length_app. simpl. lia.
    - intros u Hu. apply HQ. by rewrite Hdrop, <- app_assoc in Hu. }
  eapply runs_bind, runs_rd; [exact Hth|].
  case_bool_decide as Hst; simpl; [|apply Hnext; by eapply chosen_skip; eauto].
  destruct (Z.eqb_spec (th_cpu_id th) cpu_id) as [Hcpu|]; simpl;
    [|apply Hnext; by eapply chosen_skip; eauto].
  destruct (Z.eqb_spec task NULL) as [->|Ht].
  - apply runs_bind, runs_ret. apply Hnext. eapply chosen_take; eauto. by split_ands.
  - destruct Hc as [[_ Hf]|[? _]]; [|done]. pose proof Hf as (k & b & _ & (Hb & _) & _).
    eapply runs_bind, runs_bind, runs_rd; [exact Hb|]. apply runs_ret.
    destruct (Z.ltb_spec (th_jiffies th) (th_jiffies b)); apply Hnext.
    + eapply chosen_take; [done|by split_ands|right; eauto|left; eauto].
    + eapply chosen_keep; [by split_ands|done|lia|done|left; eauto].
Qed.

(** The state after a search: only the saved flags of the lock differ. *)
Definition after_search s : st (kernel H) :=
  St (smem s) (set_k_static (set_search_lock (Spin 0 (mc_rflags (k_cpu (smgr s)))) (k_static (smgr s))) (smgr s)).

Lemma runs_search state cpu_id s Q :
  lock (search_lock (k_static (smgr s))) = 0 ->
  Z.of_nat (length (threads (k_static (smgr s)))) = kMaxThreadCount ->
  threads_live s (drop 1 (threads (k_static (smgr s)))) ->
  0 <= cpu_id < Z.of_nat (length (idle_threads (k_static (smgr s)))) ->
  (forall task, chosen (thread_map s) state cpu_id (in_use (drop 1 (threads (k_static (smgr s))))) task ->
     Q (if (task =? NULL) && bool_decide (state = kRunNone)
        then nth (Z.to_nat cpu_id) (idle_threads (k_static (smgr s))) NULL else task) (after_search s)) ->
  runs (search state cpu_id) s Q.
Proof.
  intros Hl Hlen Hlive Hcpu HQ. unfold search. apply runs_bind, runs_lock_with; [done|].
  intros f l' f' _ [-> ->] ->. destruct s as [m [h fr o stat ap c bt]], stat as [tab idle idx nl sl ini cl].
  apply runs_bind.
  cbn [smgr k_static threads idle_threads] in Hlen, Hlive, Hcpu, HQ.
  destruct tab as [|t0 tab]; [exfalso; unfold kMaxThreadCount in Hlen; simpl in Hlen; lia|].
  apply (runs_search_from _ _ _ _ _ _ [t0] tab);
    [reflexivity|lia|reflexivity|unfold kMaxThreadCount in *; simpl in Hlen; lia|exact Hlive
    |apply chosen_nil|simpl; lia|].
  intros task Hc. specialize (HQ task Hc). apply runs_bind.
  assert (Hend : forall t s1, s1 = St m (Kern h fr o (Statics (t0 :: tab) idle idx nl (Spin 1 (mc_rflags c)) ini cl)
      ap (set_mc_rflags (cli (mc_rflags c)) c) bt) -> Q t (after_search
        (St m (Kern h fr o (Statics (t0 :: tab) idle idx nl sl ini cl) ap c bt))) ->
    runs (unlock_with get_search_lock put_search_lock ;; ret t) s1 Q).
  { intros t s1 -> Hq. apply runs_bind, runs_bind, runs_gets. simpl. apply runs_bind, runs_with_k, runs_with_cpu, runs_ret.
    unfold after_search in Hq. simpl in Hq |- *. by destruct c. }
  destruct ((task =? NULL) && bool_decide (state = kRunNone)); [|apply runs_ret; by eapply Hend].
  apply runs_bind, runs_static. simpl. replace (cpu_id <? 0) with false by lia.
  destruct (lookup_lt_is_Some_2 idle (Z.to_nat cpu_id)) as [t Ht]; [lia|].
  eapply runs_of_opt; [exact Ht|]. eapply Hend; [done|]. by rewrite (nth_lookup_Some _ _ NULL _ Ht) in HQ.
Qed.
End Search.

(** ** Handing out processors *)

Section Cpus.
Context {H : Type} `{KernelHeap H} `{Garbage} `{Image}.
Implicit Types (s : st (kernel H)).

(** [n] calls in a row and their results. *)
Fixpoint calls {A} (n : nat) (c : M (st (kernel H)) A) : M (st (kernel H)) (list A) :=
  match n with
  | O => ret []
  | S n' => x <- c ;; l <- calls n' c ;; ret (x :: l)
  end.

Definition with_idx (i : Z) s : st (kernel H) :=
  St (smem s) (set_k_static (set_cpu_idx i (k_static (smgr s))) (smgr s)).

Lemma runs_alloc_cpu_id s Q :
  0 < cpu_count (k_apic (smgr s)) < two32 -> 0 <= cpu_idx (k_static (smgr s)) < cpu_count (k_apic (smgr s)) ->
  Q (cpu_idx (k_static (smgr s)))
    (with_idx ((cpu_idx (k_static (smgr s)) + 1) mod cpu_count (k_apic (smgr s))) s) ->
  runs alloc_cpu_id s Q.
Proof.
  intros Hc Hi HQ. unfold alloc_cpu_id. apply runs_bind, runs_static, runs_bind, runs_of_apic, runs_bind.
  replace (cpu_count (k_apic (smgr s)) =? 0) with false by lia.
  apply runs_with_static, runs_ret. unfold u32.
  rewrite (Z.mod_small (cpu_idx _ + 1)) by lia.
  rewrite (Z.mod_small (_ mod cpu_count _)); [exact HQ|].
  pose proof (Z.mod_pos_bound (cpu_idx (k_static (smgr s)) + 1) (cpu_count (k_apic (smgr s)))). lia.
Qed.

Lemma runs_calls_alloc n s Q :
  0 < cpu_count (k_apic (smgr s)) < two32 -> 0 <= cpu_idx (k_static (smgr s)) < cpu_count (k_apic (smgr s)) ->
  (forall l, length l = n ->
     (forall j c, l !! j = Some c ->
        c = (cpu_idx (k_static (smgr s)) + Z.of_nat j) mod cpu_count (k_apic (smgr s))) ->
     Q l (with_idx ((cpu_idx (k_static (smgr s)) + Z.of_nat n) mod cpu_count (k_apic (smgr s))) s)) ->
  runs (calls n alloc_cpu_id) s Q.
Proof.
  revert s Q. induction n as [|n IH]; intros s Q Hc Hi HQ; cbn [calls].
  { apply runs_ret. specialize (HQ [] eq_refl). rewrite Z.add_0_r, Z.mod_small in HQ by lia.
    destruct s as [m [h fr o [] ap c]]. apply HQ. intros j c0 Hj. by rewrite lookup_nil in Hj. }
  apply runs_bind, runs_alloc_cpu_id; [done|done|]. apply runs_bind.
  pose proof (Z.mod_pos_bound (cpu_idx (k_static (smgr s)) + 1) (cpu_count (k_apic (smgr s)))).
  apply IH; simpl; [done|lia|]. intros l Hlen Hl. apply runs_ret. simpl.
  assert (E : forall k, ((cpu_idx (k_static (smgr s)) + 1) mod cpu_count (k_apic (smgr s)) + k)
      mod cpu_count (k_apic (smgr s)) = (cpu_idx (k_static (smgr s)) + (1 + k)) mod cpu_count (k_apic (smgr s))).
  { intros k. rewrite Zplus_mod_idemp_l. f_equal. lia. }
  rewrite E. replace (1 + Z.of_nat n) with (Z.of_nat (S n)) by lia.
  apply (HQ (cpu_idx (k_static (smgr s)) :: l)); [simpl; lia|].
  intros [|j] c Hj; simpl in Hj.
  - injection Hj as <-. rewrite Z.add_0_r. by rewrite Z.mod_small.
  - rewrite (Hl _ _ Hj), E. f_equal. lia.
Qed.

(** ** The descriptor table *)

(** Thread [t]'s descriptors: the array at [fds]. *)
Record fd_table s (t fi fds : Z) (l : list Z) : Prop := {
  ft_thread : exists th, obj_at thread_s s t = Some th /\ th_file_info th = fi;
  ft_file : exists n, obj_at file_s s fi = Some (FileInfo fds (Z.of_nat (length l)) n);
  ft_array : obj_at (array_s 0) s fds = Some l
}.

(** The first free descriptor. *)
Definition free_fd (l : list Z) : option nat := fst <$> list_find (fun p => p = NULL) l.

Lemma free_fd_Some l i : free_fd l = Some i ->
  l !! i = Some NULL /\ forall j p, l !! j = Some p -> (j < i)%nat -> p <> NULL.
Proof.
  unfold free_fd. destruct (list_find _ l) as [[k x]|] eqn:E; [|done]. simpl. intros [= <-].
  apply list_find_Some in E as (Hk & -> & Hmin). split; [done|]. intros. by eapply Hmin.
Qed.
Lemma free_fd_None l : free_fd l = None -> Forall (fun p => p <> NULL) l.
Proof. unfold free_fd. rewrite fmap_None. apply list_find_None. Qed.

Lemma runs_add_fd_from n i t f fi fds l s Q :
  fd_table s t fi fds l -> 0 <= i -> (Z.to_nat i + n = length l)%nat ->
  match free_fd (drop (Z.to_nat i) l) with
  | Some j => Q (i + Z.of_nat j) (put_at (array_s 0) fds (<[(Z.to_nat i + j)%nat := f]> l) s)
  | None => Q (u64 (-1)) s
  end -> runs (add_fd_from n i t f) s Q.
Proof.
  intros Ht. revert i. induction n as [|n IH]; intros i Hi Hlen HQ; cbn [add_fd_from].
  { rewrite drop_ge in HQ by lia. by apply runs_ret. }
  pose proof Ht as [(th & Hth & <-) (k & Hf) Ha].
  eapply runs_bind, runs_rd; [exact Hth|]. eapply runs_bind, runs_rd; [exact Hf|]. simpl fi_fds.
  destruct (lookup_lt_is_Some_2 l (Z.to_nat i)) as [p Hp]; [lia|].
  eapply runs_bind, runs_rd_at; [exact Ha|lia|exact Hp|].
  rewrite (drop_S _ _ _ Hp) in HQ. unfold free_fd in HQ. simpl in HQ.
  destruct (Z.eqb_spec p NULL) as [->|Hn].
  - rewrite decide_True in HQ by done. simpl in HQ. eapply runs_bind, runs_wr_at; [exact Ha|lia|].
    apply runs_ret. by rewrite Z.add_0_r, Nat.add_0_r in HQ.
  - rewrite decide_False in HQ by done. apply IH; [lia|lia|].
    replace (Z.to_nat (i + 1)) with (S (Z.to_nat i)) by lia. unfold free_fd.
    destruct (list_find _ (drop (S (Z.to_nat i)) l)) as [[j x]|]; simpl in HQ |- *; [|done].
    replace (i + 1 + Z.of_nat j) with (i + Z.of_nat (S j)) by lia.
    by replace (S (Z.to_nat i + j))%nat with (Z.to_nat i + S j)%nat by lia.
Qed.

Lemma runs_add_fd_info t f fi fds l s Q :
  fd_table s t fi fds l -> fi <> NULL ->
  match free_fd l with
  | Some j => Q (Z.of_nat j) (put_at (array_s 0) fds (<[j := f]> l) s)
  | None => Q (u64 (-1)) s
  end -> runs (add_fd_info t f) s Q.
Proof.
  intros Ht Hfi HQ. pose proof Ht as [(th & Hth & <-) (k & Hf) Ha]. unfold add_fd_info.
  eapply runs_bind, runs_rd; [exact Hth|].
  replace (th_file_info th =? NULL) with false by lia.
  eapply runs_bind, runs_rd; [exact Hf|]. simpl fi_max_fd_count. rewrite Nat2Z.id.
  by eapply runs_add_fd_from; [exact Ht|lia..|].
Qed.
End Cpus.
