(* ===== verification/KernelDemo.v ===== *)
(** KernelDemo: a small concrete kernel to instantiate the theorems on: a heap that hands out
    consecutive addresses, arbitrary but fixed contents of fresh memory, and fixed addresses. *)

From Stdlib Require Import ZArith Lia.
From stdpp Require Import prelude gmap.
From S2P Require Import Prelude Mem Spinlock Block Klibc Bitmap Frame.
From S2P Require Import PageTable Kernel Apic KernelFacts.

(** ** A bump allocator between 65536 and 1114112 *)

Definition bump_lo : Z := 65536.
Definition bump_hi : Z := 1114112.

Definition bump_malloc (n h : Z) : option (Z * Z) :=
  Some (if h + (n + 16) <=? bump_hi then (h, h + (n + 16)) else (NULL, h)).
Definition bump_rep (h : Z) (l : gmap Z Z) : Prop :=
  bump_lo <= h <= bump_hi /\ forall b j, l !! b = Some j -> bump_lo <= b /\ 0 < j /\ b + j <= h.

Lemma bump_malloc_spec h l n :
  bump_rep h l -> 0 <= n < two32 ->
  exists a h', bump_malloc n h = Some (a, h') /\ grants bump_rep bump_lo bump_hi n a h' l.
Proof.
  intros [Hh Hl] Hn. unfold bump_malloc.
  destruct (Z.leb_spec (h + (n + 16)) bump_hi) as [Hle|Hgt]; [|exists NULL, h; split; [done|by left]].
  exists h, (h + (n + 16)). split; [done|]. right. exists (n + 16).
  unfold bump_lo, bump_hi, two64 in *. split; [lia|]. split; [lia|]. split; [|split].
  - destruct (l !! h) as [j|] eqn:E; [|done]. apply Hl in E. lia.
  - intros b j E%Hl. right. lia.
  - split; [unfold bump_lo, bump_hi; lia|]. intros b j [[<- <-]|[_ E%Hl]]%lookup_insert_Some;
      unfold bump_lo in *; lia.
Qed.
Lemma bump_free_spec h l a :
  bump_rep h l -> a = NULL \/ is_Some (l !! a) -> exists h', Some h = Some h' /\ bump_rep h' (delete a l).
Proof.
  intros [Hh Hl] _. exists h. split; [done|]. split; [done|].
  intros b j [_ E]%lookup_delete_Some. by apply Hl.
Qed.

#[export] Instance bump_heap : KernelHeap Z := {|
  kmalloc := bump_malloc;
  kfree := fun _ h => Some h;
  kaligned_alloc := fun _ => bump_malloc;
  heap_rep := bump_rep;
  heap_lo := bump_lo;
  heap_hi := bump_hi;
  kmalloc_spec := bump_malloc_spec;
  kaligned_spec := bump_malloc_spec;
  kfree_spec := bump_free_spec
|}.

(** Fresh memory holds values that no code expects. *)
#[export] Instance demo_garbage : Garbage := {|
  any_thread := fun a => Thread 99 true 99 99 a a a a 99 99 true true kRunTerminated;
  any_file := fun a => FileInfo a 99 99;
  any_fd := fun a => FdInfo 99 a;
  any_handle := fun a => DsocketHandle no_ops a;
  any_sock := fun a => Dsocket NULL 99 a dsocket_state_connected 99 99 a a;
  any_pair := fun a => DsocketPair true a a 99 99 99 a 99 99;
  any_context := fun a => ArchContext a a 99 99 99 99;
  any_array := fun a _ => a
|}.

#[export] Instance demo_image : Image := {|
  physical_memory_offset := 4294967296;
  driver_sockets := 16;
  debug_buf := 2000;
  idle_entry := 4096;
  init_entry := 4112;
  str_no_cpu := 1000;
  str_info := 1100;
  str_debug := 1120;
  str_warning := 1140;
  str_error := 1160
|}.

(** No object and nothing in the tables; one processor. *)
Definition no_objects : objects := Objects ∅ ∅ ∅ ∅ ∅ ∅ ∅ ∅.
Definition demo_statics : statics := Statics [] [] 0 SPIN_INIT SPIN_INIT false SPIN_INIT.
Definition demo_apic : apic := Apic true 0 1 [7] ∅.
Definition demo_machine : machine :=
  Machine 0 514 16 16 [] {[ 2050 := 7 ]} [0] None [] [] SPIN_INIT.
Definition demo_boot : boot := Boot (0, 0) (0, 0) 0 0 0 0 0 [] 0 0 [] 0 0 0 0 [] false.

Lemma bump_rep_empty h : bump_lo <= h <= bump_hi -> bump_rep h ∅.
Proof. intros Hh. split; [done|]. intros b j Hb. by rewrite lookup_empty in Hb. Qed.
