(* ===== verification/SocketFacts.v ===== *)
(** SocketFacts: what one call on a connected driver socket does: [send] appends to the byte queue
    of its direction, [recv] takes bytes from the front of the other. *)

From Stdlib Require Import ZArith Lia.
From stdpp Require Import prelude gmap.
From S2P Require Import Prelude Mem Spinlock Block Klibc Bitmap Frame.
From S2P Require Import PageTable Kernel Apic Thread Syscall KernelFacts.

Abbreviation len l := (Z.of_nat (length l)).

(** The bytes from [u] on set to [l]. *)
Fixpoint put_bytes (u : Z) (l : list Z) (m : mem) : mem :=
  match l with
  | [] => m
  | x :: l' => <[u := x]> (put_bytes (u + 1) l' m)
  end.

Lemma put_bytes_lookup u l m a :
  put_bytes u l m !! a = if decide (u <= a < u + len l) then l !! Z.to_nat (a - u) else m !! a.
Proof.
  revert u. induction l as [|x l IH]; intros u; cbn [put_bytes length].
  { case_decide; [lia|done]. }
  rewrite lookup_insert, IH. repeat case_decide; try lia; try done.
  - replace (a - u) with 0 by lia. done.
  - by replace (Z.to_nat (a - u)) with (S (Z.to_nat (a - (u + 1)))) by lia.
Qed.

Lemma put_bytes_written u l m :
  Forall (fun v => 0 <= v < 256) l -> mapped m u (u + len l) -> written m (put_bytes u l m) u l.
Proof.
  intros Hb Hm. split; [|split].
  - intros i v Hi. pose proof (lookup_lt_Some _ _ _ Hi). unfold load8.
    rewrite put_bytes_lookup, decide_True by lia.
    replace (Z.to_nat (u + Z.of_nat i - u)) with i by lia. rewrite Hi. simpl.
    rewrite Z.mod_small; [done|]. exact (Forall_lookup_1 _ _ _ _ Hb Hi).
  - intros a Ha. rewrite put_bytes_lookup, decide_False; [done|exact Ha].
  - intros lo hi Hlh a Ha. rewrite put_bytes_lookup. case_decide; [|by apply Hlh].
    apply lookup_lt_is_Some_2. lia.
Qed.

(** ** A queue in memory *)

(** The buffer at [b] holds the queue [q], its fill position is [pos]. *)
Record queue_at (m : mem) (b pos : Z) (q : list Z) : Prop := {
  qa_mapped : mapped m b (b + DSOCK_BUFF_SIZE);
  qa_range : 0 <= b /\ b + DSOCK_BUFF_SIZE < two64;
  qa_pos : pos = len q;
  qa_fits : len q <= DSOCK_BUFF_SIZE;
  qa_holds : holds m b q
}.

Lemma queue_at_bytes m b pos q : queue_at m b pos q -> Forall (fun v => 0 <= v < 256) q.
Proof. intros [_ _ _ _ Hh]. by eapply holds_bytes. Qed.

(** A write somewhere else. *)
Lemma queue_at_other m m' b pos q a l :
  queue_at m b pos q -> written m m' a l -> apart b DSOCK_BUFF_SIZE a (len l) -> queue_at m' b pos q.
Proof.
  intros [Hm Hr Hp Hf Hh] (_ & Hout & Hmap) Ha. split; try done.
  - by apply Hmap.
  - eapply holds_frame; [|exact Hh]. intros c Hc. apply Hout. unfold apart in Ha. lia.
Qed.

Lemma s32_nonneg z : 0 <= z < 2147483648 -> s32 z = z.
Proof.
  intros. unfold s32. change (two32 / 2) with 2147483648.
  rewrite Z.mod_small; unfold two32; lia.
Qed.

(** ** One call *)

Section Calls.
Context {H : Type} `{KernelHeap H} `{Garbage}.
Implicit Types (s : st (kernel H)).

(** A direction of a pair. *)
Context (buffer pos : dsocket_pair -> Z) (set_pos : Z -> dsocket_pair -> dsocket_pair).
Hypothesis pos_set : forall v p, pos (set_pos v p) = v.

(** The socket at [sk] is connected through the pair [p] at [pr]. *)
Record connected s (sk pr : Z) (p : dsocket_pair) : Prop := {
  cn_sock : exists d, obj_at sock_s s sk = Some d /\ ds_pair d = pr;
  cn_pair : obj_at pair_s s pr = Some p;
  cn_null : pr <> NULL
}.

Lemma runs_send_into s sk pr p q u data Q :
  connected s sk pr p -> queue_at (smem s) (buffer p) (pos p) q ->
  holds (smem s) u data -> 0 <= u -> u + len data <= two64 -> apart (buffer p) DSOCK_BUFF_SIZE u (len data) ->
  len q + len data <= DSOCK_BUFF_SIZE ->
  (forall m', written (smem s) m' (buffer p + len q) data ->
     queue_at m' (buffer p) (len q + len data) (q ++ data) ->
     Q (len data) (put_at pair_s pr (set_pos (len q + len data) p) (with_mem m' s))) ->
  runs (send_into (buffer, pos, set_pos) sk u (len data)) s Q.
Proof.
  intros [(d & Hd & Hpr) Hp Hnull] Hq Hu Hu0 Hutop Hap Hroom HQ. unfold send_into.
  pose proof Hq as [Hm [Hb0 Hbtop] Hpos Hfit Hh].
  eapply runs_bind, runs_rd; [exact Hd|]. rewrite Hpr. replace (pr =? NULL) with false by lia.
  eapply runs_bind, runs_rd; [exact Hp|]. unfold DSOCK_BUFF_SIZE, apart in *. rewrite Hpos.
  destruct data as [|x data0] eqn:Edata.
  { (* nothing to send: the loop does not run *)
    apply runs_bind, runs_bind. simpl. apply runs_ret, runs_ret, runs_bind.
    eapply runs_upd; [exact Hp|]. apply runs_ret. rewrite Hpos, Z.add_0_r, s32_nonneg by lia.
    specialize (HQ (smem s)). rewrite Z.add_0_r, app_nil_r in HQ.
    replace s with (with_mem (smem s) s) at 1 by by destruct s. apply HQ; [|by split].
    split; [by intros i v Hi|by split]. }
  rewrite <- Edata in *. assert (0 < len data) by (subst; simpl; lia). clear Edata.
  norm_words. apply runs_bind. eapply runs_memcpy; [|done|lia|].
  - split; try done; try lia. eapply mapped_sub; [exact Hm|lia|lia].
  - intros m' Hw. apply runs_bind. eapply runs_upd; [exact Hp|]. apply runs_ret.
    rewrite Hpos, s32_nonneg by lia. apply HQ; [exact Hw|]. destruct Hw as (Hin & Hout & Hmap).
    split; unfold DSOCK_BUFF_SIZE; try done; try (rewrite length_app; lia).
    + by apply Hmap.
    + apply holds_app. split; [|exact Hin]. eapply holds_frame; [|exact Hh]. intros c Hc. apply Hout. lia.
Qed.

Lemma runs_recv_from s sk pr p q u limit Q :
  connected s sk pr p -> queue_at (smem s) (buffer p) (pos p) q -> 0 <= limit ->
  let k := Z.to_nat (Z.min limit (len q)) in
  mapped (smem s) u (u + Z.of_nat k) -> 0 <= u -> u + Z.of_nat k <= two64 ->
  apart (buffer p) DSOCK_BUFF_SIZE u (Z.of_nat k) ->
  (forall m1 m', written (smem s) m1 u (take k q) -> written m1 m' (buffer p) (drop k q) ->
     queue_at m' (buffer p) (len (drop k q)) (drop k q) -> holds m' u (take k q) ->
     Q limit (put_at pair_s pr (set_pos (len (drop k q)) p) (with_mem m' s))) ->
  runs (recv_from (buffer, pos, set_pos) sk u limit) s Q.
Proof.
  intros [(d & Hd & Hpr) Hp Hnull] Hq Hlim k Hu Hu0 Hutop Hap HQ. unfold recv_from.
  pose proof Hq as [Hm [Hb0 Hbtop] Hpos Hfit Hh]. unfold DSOCK_BUFF_SIZE, apart in *.
  eapply runs_bind, runs_rd; [exact Hd|]. rewrite Hpr. replace (pr =? NULL) with false by lia.
  eapply runs_bind, runs_rd; [exact Hp|]. rewrite Hpos, (u64_small (len q)) by (unfold two64; lia).
  assert (Ek : Z.min limit (len q) = Z.of_nat k) by lia. rewrite Ek.
  assert (Hk : (k <= length q)%nat) by lia.
  pose proof Hh as Hh'. rewrite <- (take_drop k q) in Hh'. apply holds_app in Hh' as [Ht Hd'].
  rewrite length_take_le in Hd' by done.
  apply runs_bind. eapply runs_memcpy; [| | |].
  - split; [exact Ht|..]; rewrite ?length_take_le by done; try done; lia.
  - by rewrite length_take_le.
  - destruct Hap; [right; lia|left; lia].
  - intros m1 (Hin1 & Hout1 & Hmap1). rewrite length_take_le in Hout1 by done.
    apply runs_bind. unfold sub64, add64. rewrite (u64_small (buffer p + _)) by (unfold two64 in *; lia).
    rewrite (u64_small (len q - _)) by (unfold two64; lia).
    assert (Hh1 : holds m1 (buffer p + Z.of_nat k) (drop k q)).
    { eapply holds_frame; [|exact Hd']. rewrite length_drop. intros c Hc. apply Hout1. lia. }
    eapply (runs_memmove _ _ _ (drop k q)).
    + split; simpl; [exact Hh1|..]; rewrite ?length_drop; try lia.
      apply Hmap1. eapply mapped_sub; [exact Hm|lia|lia].
    + rewrite length_drop. lia.
    + intros m' (Hin & Hout & Hmap). apply runs_bind. eapply runs_upd; [exact Hp|]. apply runs_ret.
      rewrite Hpos, s32_nonneg by lia. rewrite length_drop in Hout, HQ. simpl smem in Hout, Hmap.
      replace (len q - Z.of_nat k) with (Z.of_nat (length q - k)) by lia.
      apply (HQ m1); unfold written; rewrite ?length_take_le, ?length_drop by done.
      * split_ands; assumption.
      * split_ands; assumption.
      * split; unfold DSOCK_BUFF_SIZE; rewrite ?length_drop; try done; try lia. by apply Hmap, Hmap1.
      * eapply holds_frame; [|exact Hin1]. rewrite length_take_le by done. intros c Hc. apply Hout. lia.
Qed.
End Calls.
