(* ===== verification/SocketThms.v ===== *)
(** SocketThms: a connected pair of driver sockets is two byte queues: whatever the two ends send
    and receive through the system calls, in any order, is what two queues give. *)

From Stdlib Require Import ZArith Lia.
From stdpp Require Import prelude gmap.
From S2P Require Import Prelude Mem Spinlock Block Klibc Bitmap Frame.
From S2P Require Import PageTable Kernel Apic Thread Syscall KernelFacts KernelDemo SocketFacts.

(** ** The abstract connection: the bytes on the way to the server and to the client *)

Inductive sock_op :=
  | Send (client : bool) (data : list Z)
  | Recv (client : bool) (limit : Z).

Record queues := Queues { to_server : list Z; to_client : list Z }.

(** The queue an operation works on. *)
Definition sends_to (client : bool) (q : queues) : list Z := if client then to_server q else to_client q.
Definition set_sends_to (client : bool) (l : list Z) (q : queues) : queues :=
  if client then Queues l (to_client q) else Queues (to_server q) l.

Definition legal_op (q : queues) (o : sock_op) : Prop :=
  match o with
  | Send c data => Forall (fun v => 0 <= v < 256) data /\
      len (sends_to c q) + len data <= DSOCK_BUFF_SIZE
  | Recv c limit => 0 <= limit
  end.

(** The queues afterwards, the number returned and the bytes delivered.  [recv] returns the size
    of the caller's buffer, not the number of bytes. *)
Definition spec_step (q : queues) (o : sock_op) : queues * (Z * list Z) :=
  match o with
  | Send c data => (set_sends_to c (sends_to c q ++ data) q, (len data, []))
  | Recv c limit =>
      let l := sends_to (negb c) q in
      let k := Z.to_nat (Z.min limit (len l)) in
      (set_sends_to (negb c) (drop k l) q, (limit, take k l))
  end.
Fixpoint spec_run (q : queues) (ops : list sock_op) : queues * list (Z * list Z) :=
  match ops with
  | [] => (q, [])
  | o :: rest =>
      let '(q1, r) := spec_step q o in
      let '(q2, rs) := spec_run q1 rest in (q2, r :: rs)
  end.
Fixpoint legal_ops (q : queues) (ops : list sock_op) : Prop :=
  match ops with
  | [] => True
  | o :: rest => legal_op q o /\ legal_ops (spec_step q o).1 rest
  end.

(** What an end has sent, and what it has been delivered. *)
Definition sent (client : bool) (ops : list sock_op) : list Z :=
  concat ((fun o => match o with
                    | Send c data => if bool_decide (c = client) then data else []
                    | Recv _ _ => []
                    end) <$> ops).
Fixpoint delivered (client : bool) (ops : list sock_op) (rs : list (Z * list Z)) : list Z :=
  match ops, rs with
  | Recv c _ :: ops', (_, d) :: rs' =>
      (if bool_decide (c = client) then d else []) ++ delivered client ops' rs'
  | _ :: ops', _ :: rs' => delivered client ops' rs'
  | _, _ => []
  end.

(** Nothing is lost, duplicated or reordered. *)
Lemma spec_fifo ops q q' rs client :
  spec_run q ops = (q', rs) ->
  sends_to client q ++ sent client ops = delivered (negb client) ops rs ++ sends_to client q'.
Proof.
  revert q q' rs. induction ops as [|o ops IH]; intros q q' rs; cbn [spec_run].
  { intros [= <- <-]. unfold sent. simpl. by rewrite app_nil_r. }
  destruct (spec_step q o) as [q1 r] eqn:E1. destruct (spec_run q1 ops) as [q2 rs2] eqn:E2.
  intros [= <- <-]. specialize (IH _ _ _ E2). destruct o as [c data|c limit]; injection E1 as <- <-.
  - unfold sent in *. simpl. destruct c, client; simpl in *; rewrite <- IH; by rewrite <- ?app_assoc.
  - unfold sent in *. simpl. destruct c, client; simpl in *; rewrite <- ?app_assoc, <- IH;
      rewrite ?app_assoc, ?take_drop; done.
Qed.

(** ** The concrete connection *)

Section Connection.
Context {H : Type} `{KernelHeap H} `{Garbage} `{Image}.
Implicit Types (s : st (kernel H)).

(** Descriptor [h] of thread [t] is the handle [hd], of socket [sk], with operations [op]. *)
Definition descriptor s (t h hd sk : Z) (op : dsocket_op) : Prop :=
  exists th fi l p, obj_at thread_s s t = Some th /\ th_file_info th <> NULL /\
    obj_at file_s s (th_file_info th) = Some fi /\ fi_fds fi <> NULL /\
    obj_at (array_s 0) s (fi_fds fi) = Some l /\ 0 <= h /\ l !! Z.to_nat h = Some p /\ p <> NULL /\
    obj_at fd_s s p = Some (FdInfo fd_info_type_dsocket hd) /\
    obj_at handle_s s hd = Some (DsocketHandle op sk).

(** States with the same objects but for the pairs. *)
Definition same_files s s' : Prop :=
  o_threads (k_obj (smgr s')) = o_threads (k_obj (smgr s)) /\
  o_files (k_obj (smgr s')) = o_files (k_obj (smgr s)) /\
  o_arrays (k_obj (smgr s')) = o_arrays (k_obj (smgr s)) /\
  o_fds (k_obj (smgr s')) = o_fds (k_obj (smgr s)) /\
  o_handles (k_obj (smgr s')) = o_handles (k_obj (smgr s)) /\
  o_socks (k_obj (smgr s')) = o_socks (k_obj (smgr s)).

Lemma descriptor_same s s' t h hd sk op :
  same_files s s' -> descriptor s t h hd sk op -> descriptor s' t h hd sk op.
Proof.
  intros (E1 & E2 & E3 & E4 & E5 & E6). unfold descriptor, obj_at. simpl.
  by rewrite E1, E2, E3, E4, E5.
Qed.

Lemma descriptor_handle s t h hd sk op :
  descriptor s t h hd sk op -> obj_at handle_s s hd = Some (DsocketHandle op sk).
Proof. intros (th & fi & l & p & Hd). by destruct_and!. Qed.

Lemma runs_with_handle s t h hd sk op k Q :
  mc_msr (k_cpu (smgr s)) !! IA32_KERNEL_GS_BASE = Some t -> descriptor s t h hd sk op ->
  runs (k t hd sk) s Q -> runs (with_handle h k) s Q.
Proof.
  intros Ht (th & fi & l & p & Hth & Hn1 & Hfi & Hn2 & Hl & Hh & Hp & Hn3 & Hfd & Hhd) Hk.
  apply Z.eqb_neq in Hn1, Hn2, Hn3.
  unfold with_handle. eapply runs_bind, runs_rdmsr; [done|]. eapply runs_bind, runs_rd; [done|].
  rewrite Hn1. eapply runs_bind, runs_rd; [done|]. rewrite Hn2.
  eapply runs_bind, runs_rd_at; [done|done|done|]. rewrite Hn3.
  eapply runs_bind, runs_rd; [done|]. simpl. by eapply runs_bind, runs_rd.
Qed.

(** An end of a connection: a thread and one of its descriptors. *)
Record endpoint := Endpoint { ep_thread : Z; ep_fd : Z }.

Definition end_on s (e : endpoint) (op : dsocket_op) (pr : Z) : Prop :=
  exists hd sk d, descriptor s (ep_thread e) (ep_fd e) hd sk op /\
    obj_at sock_s s sk = Some d /\ ds_pair d = pr.

(** The caller's buffer of a page at [u], away from the connection's buffers. *)
Record user_buffer (m : mem) (u b : Z) : Prop := {
  ub_mapped : mapped m u (u + DSOCK_BUFF_SIZE);
  ub_range : 0 <= u /\ u + DSOCK_BUFF_SIZE <= two64;
  ub_apart : apart b DSOCK_BUFF_SIZE u DSOCK_BUFF_SIZE
}.

Record connection s (client server : endpoint) (pr u : Z) (q : queues) : Prop := {
  co_client : end_on s client normal_ops pr;
  co_server : end_on s server accept_ops pr;
  co_pair : exists p, obj_at pair_s s pr = Some p /\
    queue_at (smem s) (dp_server_buffer p) (dp_server_buffer_pos p) (to_server q) /\
    queue_at (smem s) (dp_client_buffer p) (dp_client_buffer_pos p) (to_client q) /\
    apart (dp_server_buffer p) DSOCK_BUFF_SIZE (dp_client_buffer p) DSOCK_BUFF_SIZE /\
    user_buffer (smem s) u (dp_server_buffer p) /\ user_buffer (smem s) u (dp_client_buffer p);
  co_null : pr <> NULL
}.

(** One operation: the end's thread runs, has its data in the buffer at [u], and makes the call;
    the result is the number returned and the memory at that point. *)
Definition end_of (client server : endpoint) (c : bool) : endpoint := if c then client else server.
Definition run_sock_op (client server : endpoint) (u : Z) (o : sock_op) : M (st (kernel H)) (Z * mem) :=
  match o with
  | Send c data =>
      set_current_thread (ep_thread (end_of client server c)) ;;
      modify (fun s => with_mem (put_bytes u data (smem s)) s) ;;
      r <- k_driver_send_impl (ep_fd (end_of client server c)) u (len data) ;;
      m <- gets (@smem _) ;; ret (r, m)
  | Recv c limit =>
      set_current_thread (ep_thread (end_of client server c)) ;;
      r <- k_driver_recv_impl (ep_fd (end_of client server c)) u limit ;;
      m <- gets (@smem _) ;; ret (r, m)
  end.
Fixpoint run_sock_ops (client server : endpoint) (u : Z) (ops : list sock_op) :
    M (st (kernel H)) (list (Z * mem)) :=
  match ops with
  | [] => ret []
  | o :: rest =>
      r <- run_sock_op client server u o ;; rs <- run_sock_ops client server u rest ;; ret (r :: rs)
  end.

(** What is seen agrees with what the specification says. *)
Definition seen_as (u : Z) (x : Z * mem) (y : Z * list Z) : Prop := x.1 = y.1 /\ holds x.2 u y.2.

(** ** One step *)

Lemma end_on_same s s' e op pr : same_files s s' -> end_on s e op pr -> end_on s' e op pr.
Proof.
  intros Hs (hd & sk & d & Hd & Hsk & Hpr). exists hd, sk, d. split_ands; [by eapply descriptor_same| |done].
  destruct Hs as (_&_&_&_&_&E). unfold obj_at in *. simpl in *. by rewrite E.
Qed.

Lemma user_buffer_written m m' u b a l :
  written m m' a l -> user_buffer m u b -> user_buffer m' u b.
Proof. intros (_ & _ & Hmap) [U1 U2 U3]. split; [by apply Hmap|done|done]. Qed.

(** The end's thread runs: the registers change, the objects do not. *)
Definition as_thread (t : Z) s : st (kernel H) :=
  St (smem s) (set_k_cpu (set_mc_msr (<[IA32_KERNEL_GS_BASE := t]> (mc_msr (k_cpu (smgr s))))
    (k_cpu (smgr s))) (smgr s)).
Lemma as_thread_current t s : mc_msr (k_cpu (smgr (as_thread t s))) !! IA32_KERNEL_GS_BASE = Some t.
Proof. apply lookup_insert_eq. Qed.

(** A call through an end finds its socket. *)
Lemma runs_end s e op pr k Q :
  end_on s e op pr -> mc_msr (k_cpu (smgr s)) !! IA32_KERNEL_GS_BASE = Some (ep_thread e) ->
  (forall sk d, obj_at sock_s s sk = Some d -> ds_pair d = pr -> runs (k op sk) s Q) ->
  runs (with_handle (ep_fd e) (fun _ handle dsock => h <- rd handle_s handle ;; k (dh_op h) dsock)) s Q.
Proof.
  intros (hd & sk & d & Hd & Hsk & Hpr) Ht Hk. eapply runs_with_handle; [exact Ht|exact Hd|].
  eapply runs_bind, runs_rd; [by eapply descriptor_handle|].
  by eapply Hk.
Qed.

Lemma step_send client server pr u c data s q Q :
  connection s client server pr u q -> legal_op q (Send c data) ->
  (forall m s', connection s' client server pr u (spec_step q (Send c data)).1 -> Q (len data, m) s') ->
  runs (run_sock_op client server u (Send c data)) s Q.
Proof.
  intros [Hcl Hsv (p & Hp & Hq1 & Hq2 & Hap & [Hum Hur Hua1] & [_ _ Hua2]) Hn] [Hb Hroom] HQ.
  apply runs_bind. change (runs (set_current_thread ?t) s ?P) with (P tt (as_thread t s)).
  set (s1 := as_thread _ s). apply runs_bind, runs_modify. set (s2 := with_mem _ s1).
  assert (Hdl : len data <= DSOCK_BUFF_SIZE) by lia.
  assert (Hw : written (smem s) (smem s2) u data).
  { apply put_bytes_written; [done|]. eapply mapped_sub; [exact Hum|lia|lia]. }
  assert (Hs2 : same_files s s2) by by split_ands.
  assert (Hp2 : obj_at pair_s s2 pr = Some p) by done.
  assert (Hq1' : queue_at (smem s2) (dp_server_buffer p) (dp_server_buffer_pos p) (to_server q)).
  { eapply queue_at_other; [exact Hq1|exact Hw|]. unfold apart in *. lia. }
  assert (Hq2' : queue_at (smem s2) (dp_client_buffer p) (dp_client_buffer_pos p) (to_client q)).
  { eapply queue_at_other; [exact Hq2|exact Hw|]. unfold apart in *. lia. }
  pose proof Hw as (Hud & _ & Hmap). apply runs_bind. unfold k_driver_send_impl.
  eapply (runs_end _ (end_of client server c) (if c then normal_ops else accept_ops) pr
    (fun op dsock => op_send op dsock u (len data))).
  - eapply end_on_same; [exact Hs2|]. by destruct c.
  - apply as_thread_current.
  - intros sk d Hd Hpr. destruct c; simpl in Hroom |- *.
    + eapply (runs_send_into dp_server_buffer dp_server_buffer_pos set_dp_server_buffer_pos s2 sk pr p);
        [split; eauto|exact Hq1'|exact Hud|lia|lia|unfold apart in *; lia|exact Hroom|].
      intros m' Hw' Hq'. apply runs_bind, runs_gets, runs_ret, HQ.
      split; [by eapply (end_on_same s)|by eapply (end_on_same s)| |done].
      exists (set_dp_server_buffer_pos (len (to_server q) + len data) p).
      split; [apply lookup_insert_eq|]. split_ands; try done.
      * eapply queue_at_other; [exact Hq2'|exact Hw'|]. unfold apart in *. simpl. lia.
      * split; [apply Hw', Hmap, Hum|done|done].
      * split; [apply Hw', Hmap, Hum|done|done].
    + eapply (runs_send_into dp_client_buffer dp_client_buffer_pos set_dp_client_buffer_pos s2 sk pr p);
        [split; eauto|exact Hq2'|exact Hud|lia|lia|unfold apart in *; lia|exact Hroom|].
      intros m' Hw' Hq'. apply runs_bind, runs_gets, runs_ret, HQ.
      split; [by eapply (end_on_same s)|by eapply (end_on_same s)| |done].
      exists (set_dp_client_buffer_pos (len (to_client q) + len data) p).
      split; [apply lookup_insert_eq|]. split_ands; try done.
      * eapply queue_at_other; [exact Hq1'|exact Hw'|]. unfold apart in *. simpl. lia.
      * split; [apply Hw', Hmap, Hum|done|done].
      * split; [apply Hw', Hmap, Hum|done|done].
Qed.

Lemma step_recv client server pr u c limit s q Q :
  connection s client server pr u q -> legal_op q (Recv c limit) ->
  (forall m s', connection s' client server pr u (spec_step q (Recv c limit)).1 ->
     holds m u (spec_step q (Recv c limit)).2.2 -> Q (limit, m) s') ->
  runs (run_sock_op client server u (Recv c limit)) s Q.
Proof.
  intros [Hcl Hsv (p & Hp & Hq1 & Hq2 & Hap & [Hum Hur Hua1] & [_ _ Hua2]) Hn] Hlim HQ.
  simpl in Hlim. apply runs_bind.
  change (runs (set_current_thread ?t) s ?P) with (P tt (as_thread t s)). set (s1 := as_thread _ s).
  assert (Hs1 : same_files s s1) by by split_ands.
  apply runs_bind. unfold k_driver_recv_impl.
  eapply (runs_end _ (end_of client server c) (if c then normal_ops else accept_ops) pr
    (fun op dsock => op_recv op dsock u limit)).
  - eapply end_on_same; [exact Hs1|]. by destruct c.
  - apply as_thread_current.
  - intros sk d Hd Hpr. pose proof (qa_fits _ _ _ _ Hq1). pose proof (qa_fits _ _ _ _ Hq2).
    destruct c; simpl in HQ |- *.
    + eapply (runs_recv_from dp_client_buffer dp_client_buffer_pos set_dp_client_buffer_pos s1 sk pr p);
        [split; eauto|exact Hq2|exact Hlim|eapply mapped_sub; [exact Hum|lia|lia]|lia|lia
        |unfold apart in *; lia|].
      intros m1 m' Hw1 Hw' Hq' Hh. apply runs_bind, runs_gets, runs_ret, HQ; [|exact Hh].
      split; [by eapply (end_on_same s)|by eapply (end_on_same s)| |done].
      eexists. split; [apply lookup_insert_eq|]. split_ands; try done; simpl.
      * eapply queue_at_other; [eapply queue_at_other; [exact Hq1|exact Hw1|]|exact Hw'|];
          rewrite ?length_take, ?length_drop; unfold apart in *; lia.
      * split; [apply Hw', Hw1, Hum|done|done].
      * split; [apply Hw', Hw1, Hum|done|done].
    + eapply (runs_recv_from dp_server_buffer dp_server_buffer_pos set_dp_server_buffer_pos s1 sk pr p);
        [split; eauto|exact Hq1|exact Hlim|eapply mapped_sub; [exact Hum|lia|lia]|lia|lia
        |unfold apart in *; lia|].
      intros m1 m' Hw1 Hw' Hq' Hh. apply runs_bind, runs_gets, runs_ret, HQ; [|exact Hh].
      split; [by eapply (end_on_same s)|by eapply (end_on_same s)| |done].
      eexists. split; [apply lookup_insert_eq|]. split_ands; try done; simpl.
      * eapply queue_at_other; [eapply queue_at_other; [exact Hq2|exact Hw1|]|exact Hw'|];
          rewrite ?length_take, ?length_drop; unfold apart in *; lia.
      * split; [apply Hw', Hw1, Hum|done|done].
      * split; [apply Hw', Hw1, Hum|done|done].
Qed.

Lemma step_sock_op client server pr u o s q Q :
  connection s client server pr u q -> legal_op q o ->
  (forall x s', connection s' client server pr u (spec_step q o).1 ->
     seen_as u x (spec_step q o).2 -> Q x s') ->
  runs (run_sock_op client server u o) s Q.
Proof.
  intros Hc Hl HQ. destruct o as [c data|c limit].
  - eapply step_send; [done|done|]. intros m s' Hc'. apply HQ; [done|].
    split; [done|]. by intros i v Hi.
  - eapply step_recv; [done|done|]. intros m s' Hc' Hh. by apply HQ.
Qed.
End Connection.

(** ** Properties *)

(** C29: a connection is a pair of FIFO byte queues.  Whatever sequence of [k_driver_send] and
    [k_driver_recv] the client's and the server's thread make, as long as no [send] exceeds the
    room left in its 4096-byte buffer: every call returns what the specification says and delivers
    exactly those bytes, the connection represents the specification's queues afterwards, and what
    one end has sent is what the other has been delivered followed by what is still queued. *)
Theorem driver_socket_fifo {H : Type} `{KernelHeap H} `{Garbage} `{Image}
    (s : st (kernel H)) (client server : endpoint) (pr u : Z) (q : queues) (ops : list sock_op) :
  connection s client server pr u q -> legal_ops q ops ->
  exists xs s', run_sock_ops client server u ops s = Some (xs, s') /\
    Forall2 (seen_as u) xs (spec_run q ops).2 /\
    connection s' client server pr u (spec_run q ops).1 /\
    (forall c, sends_to c q ++ sent c ops =
       delivered (negb c) ops (spec_run q ops).2 ++ sends_to c (spec_run q ops).1).
Proof.
  intros Hc Hl.
  enough (Hr : runs (run_sock_ops client server u ops) s (fun xs s' =>
    Forall2 (seen_as u) xs (spec_run q ops).2 /\ connection s' client server pr u (spec_run q ops).1)).
  { apply runs_inv in Hr as (xs & s' & E & Hxs & Hc'). exists xs, s'. split_ands; try done.
    intros c. apply spec_fifo, surjective_pairing. }
  revert s q Hc Hl. induction ops as [|o ops IH]; intros s q Hc Hl; cbn [run_sock_ops spec_run].
  { by apply runs_ret. }
  destruct Hl as [Hl Hls]. apply runs_bind. eapply step_sock_op; [exact Hc|exact Hl|].
  intros x s1 Hc1 Hx. apply runs_bind. eapply runs_mono; [by apply IH|].
  intros xs s2 [Hxs Hc2]. apply runs_ret.
  destruct (spec_step q o) as [q1 r]. simpl in *. destruct (spec_run q1 ops) as [q2 rs]. simpl in *.
  split; [by constructor|done].
Qed.

(** A client thread at 300 and a server thread at 400, descriptor 0 of each, joined by the pair at
    700 with buffers at 65536 and 69632; the caller's buffer is at 73728. *)
Definition fifo_thread (fi : Z) : thread := Thread 1 false 0 0 NULL 0 NULL fi 0 0 false false kRunActive.
Definition fifo_sock : dsocket := Dsocket NULL 0 NULL dsocket_state_connected 0 0 NULL 700.
Definition fifo_pair : dsocket_pair := DsocketPair true NULL 69632 0 0 1 65536 0 1.
Definition fifo_objects : objects := Objects
  {[ 300 := fifo_thread 310; 400 := fifo_thread 410 ]}
  {[ 310 := FileInfo 320 1 1; 410 := FileInfo 420 1 1 ]}
  {[ 330 := FdInfo 0 340; 430 := FdInfo 0 440 ]}
  {[ 340 := DsocketHandle normal_ops 350; 440 := DsocketHandle accept_ops 450 ]}
  {[ 350 := fifo_sock; 450 := fifo_sock ]}
  {[ 700 := fifo_pair ]} ∅
  {[ 320 := [330]; 420 := [430] ]}.
Definition fifo_mem : mem := fill 65536 (Z.to_nat 12288) 0 ∅.
Definition fifo_state : st (kernel Z) :=
  St fifo_mem (Kern 500000 (Bitmap 0 0) fifo_objects demo_statics demo_apic demo_machine demo_boot).
Definition fifo_ops : list sock_op :=
  [Send true [1; 2; 3]; Recv false 2; Send false [9]; Recv false 5; Recv true 4].

Lemma fifo_mapped : mapped fifo_mem 65536 (65536 + 12288).
Proof. apply (fill_mapped 65536 (Z.to_nat 12288)). Qed.
#[global] Opaque fifo_mem.

Lemma fifo_connection :
  connection fifo_state (Endpoint 300 0) (Endpoint 400 0) 700 73728 (Queues [] []).
Proof.
  pose proof fifo_mapped as Hm.
  assert (Hq : forall b, 65536 <= b <= 69632 -> queue_at fifo_mem b 0 []).
  { intros b Hb. split; [|unfold DSOCK_BUFF_SIZE, two64; lia|done|done|by intros i v Hi].
    eapply mapped_sub; [exact Hm|lia|unfold DSOCK_BUFF_SIZE; lia]. }
  assert (Hu : forall b, 65536 <= b <= 69632 -> user_buffer fifo_mem 73728 b).
  { intros b Hb. unfold DSOCK_BUFF_SIZE in *. split; unfold DSOCK_BUFF_SIZE, apart, two64; try lia.
    eapply mapped_sub; [exact Hm|lia|lia]. }
  split; [| | |done].
  - exists 340, 350, fifo_sock. split; [|done]. by eexists _, _, _, _.
  - exists 440, 450, fifo_sock. split; [|done]. by eexists _, _, _, _.
  - exists fifo_pair. split; [done|]. simpl.
    split_ands; try (apply Hq; lia); try (apply Hu; lia). unfold apart, DSOCK_BUFF_SIZE. lia.
Qed.
Lemma driver_socket_fifo_witness :
  exists xs s', run_sock_ops (Endpoint 300 0) (Endpoint 400 0) 73728 fifo_ops fifo_state = Some (xs, s') /\
    Forall2 (seen_as 73728) xs
      [(3, []); (2, [1; 2]); (1, []); (5, [3]); (4, [9])].
Proof.
  destruct (driver_socket_fifo fifo_state (Endpoint 300 0) (Endpoint 400 0) 700 73728 (Queues [] [])
    fifo_ops fifo_connection) as (xs & s' & E & Hxs & _).
  - unfold fifo_ops, legal_ops, legal_op, DSOCK_BUFF_SIZE. simpl.
    rewrite !Forall_cons, Forall_nil. lia.
  - exists xs, s'. split; [exact E|exact Hxs].
Defined.
