(* ===== verification/ConnectFacts.v ===== *)
(** ConnectFacts: making sockets and connections: rules for [new_dsocket], the list of sockets,
    [connect] and [accept]. *)

From Stdlib Require Import ZArith Lia.
From stdpp Require Import prelude gmap.
From S2P Require Import Prelude Mem Spinlock Block Klibc Bitmap Frame.
From S2P Require Import PageTable Kernel Apic Thread Syscall KernelFacts SocketFacts SearchThms.

Section Connect.
Context {H : Type} `{KernelHeap H} `{Garbage} `{Image}.
Implicit Types (s : st (kernel H)).

(** ** New sockets *)

(** The three objects of a new socket, at three fresh addresses. *)
Definition new_fd (hd : Z) : fd_info := FdInfo fd_info_type_dsocket hd.
Definition new_sock (sk b flags : Z) : dsocket := set_ds_bind_addr b (set_ds_flags flags (any_sock sk)).
Definition new_handle (hd sk : Z) : dsocket_handle := set_dh_socket sk (any_handle hd).

Lemma runs_new_dsocket flags n l s Q :
  heap_is s l -> plenty (4 + n) (k_heap (smgr s)) ->
  (forall fi hd sk b k1 k2 k3 k4 h',
     new_block SIZEOF_FD_INFO fi k1 l -> new_block SIZEOF_HANDLE hd k2 (<[fi := k1]> l) ->
     new_block SIZEOF_DSOCKET sk k3 (<[hd := k2]> (<[fi := k1]> l)) ->
     new_block DSOCK_ADDR_MAX b k4 (<[sk := k3]> (<[hd := k2]> (<[fi := k1]> l))) ->
     heap_rep h' (<[b := k4]> (<[sk := k3]> (<[hd := k2]> (<[fi := k1]> l)))) -> plenty n h' ->
     Q (fi, hd, sk) (put_at sock_s sk (new_sock sk b flags) (put_at handle_s hd (new_handle hd sk)
       (put_at fd_s fi (new_fd hd) (with_heap h' s))))) ->
  runs (new_dsocket flags) s Q.
Proof.
  intros Hl Hp HQ. unfold new_dsocket.
  apply runs_bind. eapply runs_malloc_obj; [exact Hl|exact Hp|vm_compute; split; congruence|].
  intros fi k1 h1 Hb1 Hr1 Hp1. ksteps.
  eapply runs_malloc_obj; [exact Hr1|exact Hp1|vm_compute; split; congruence|].
  intros hd k2 h2 Hb2 Hr2 Hp2. ksteps.
  eapply runs_malloc_obj; [exact Hr2|exact Hp2|vm_compute; split; congruence|].
  intros sk k3 h3 Hb3 Hr3 Hp3. ksteps.
  eapply runs_malloc_bytes; [exact Hr3|exact Hp3|vm_compute; split; congruence|].
  intros b k4 h4 Hb4 Hr4 Hp4. ksteps. specialize (HQ _ _ _ _ _ _ _ _ _ Hb1 Hb2 Hb3 Hb4 Hr4 Hp4).
  by rewrite !with_heap_put, !with_heap_heap, !put_fd_handle, !put_handle_sock, !put_put in *.
Qed.

(** ** Where objects are *)

(** An address is a live block's or outside the heap. *)
Definition placed (l : gmap Z Z) (a : Z) : Prop := is_Some (l !! a) \/ a < heap_lo \/ heap_hi <= a.

Lemma placed_insert l a b k : placed l a -> placed (<[b := k]> l) a.
Proof. intros [Ha|Ha]; [left|by right]. rewrite lookup_insert. by case_decide. Qed.
Lemma placed_new l a k : placed (<[a := k]> l) a.
Proof. left. rewrite lookup_insert_eq. by eexists. Qed.
Lemma new_block_ne n a k l x : new_block n a k l -> 0 < n -> placed l x -> x <> a.
Proof.
  intros [Hs (? & ? & ? & ?) Hf _] Hn [[y Hy]|Ho] ->; [congruence|lia].
Qed.

Record objects_placed s (l : gmap Z Z) : Prop := {
  op_fds : forall a v, obj_at fd_s s a = Some v -> placed l a;
  op_handles : forall a v, obj_at handle_s s a = Some v -> placed l a;
  op_socks : forall a v, obj_at sock_s s a = Some v -> placed l a;
  op_pairs : forall a v, obj_at pair_s s a = Some v -> placed l a;
  op_arrays : forall a v, obj_at (array_s 0) s a = Some v -> placed l a
}.

(** ** The list of sockets *)

Fixpoint sock_list s (d : Z) (l : list Z) : Prop :=
  match l with
  | [] => False
  | x :: l' => x = d /\ exists v, obj_at sock_s s d = Some v /\
      match l' with [] => ds_next v = NULL | _ => ds_next v <> NULL /\ sock_list s (ds_next v) l' end
  end.

Lemma sock_list_live s d l : sock_list s d l -> Forall (fun x => is_Some (obj_at sock_s s x)) l.
Proof.
  revert d. induction l as [|x l IH]; intros d Hl; [done|]. destruct Hl as (-> & v & Hv & Hl).
  constructor; [by eexists|]. destruct l as [|y l]; [done|]. destruct Hl as [_ Hl]. by eapply IH.
Qed.

(** Only [next] matters. *)
Lemma sock_list_ext s s' d l :
  (forall x v, x ∈ l -> obj_at sock_s s x = Some v ->
     exists v', obj_at sock_s s' x = Some v' /\ ds_next v' = ds_next v) ->
  sock_list s d l -> sock_list s' d l.
Proof.
  revert d. induction l as [|x l IH]; intros d He Hl; [done|]. destruct Hl as (-> & v & Hv & Hl).
  destruct (He d v) as (v' & Hv' & En); [left|done|]. split; [done|]. exists v'. split; [done|].
  rewrite En. destruct l as [|y l]; [done|]. destruct Hl as [Hn Hl]. split; [done|].
  apply IH; [|done]. intros z w Hz. apply He. by right.
Qed.

Lemma runs_last_socket n d l x s Q :
  sock_list s d l -> (length l <= S n)%nat -> last l = Some x -> Q x s -> runs (last_socket n d) s Q.
Proof.
  revert d l. induction n as [|n IH]; intros d l Hl Hlen Hx HQ; destruct l as [|y l]; try done;
    destruct Hl as (-> & v & Hv & Hl); cbn [last_socket]; apply runs_bind;
    (eapply runs_rd; [exact Hv|]).
  - destruct l; [|simpl in Hlen; lia]. rewrite Hl. simpl. apply runs_ret. by injection Hx as ->.
  - destruct l as [|z l].
    + rewrite Hl. simpl. apply runs_ret. by injection Hx as ->.
    + destruct Hl as [Hn Hl]. apply Z.eqb_neq in Hn as ->. eapply IH; [exact Hl|simpl in *; lia|done|done].
Qed.

Lemma socket_count_enough s l :
  NoDup l -> Forall (fun x => is_Some (obj_at sock_s s x)) l -> (length l <= size (o_socks (k_obj (smgr s))))%nat.
Proof.
  intros Hnd Hl. rewrite <- size_dom. rewrite <- (size_list_to_set (C := gset Z) l Hnd).
  apply subseteq_size. intros x Hx. apply elem_of_list_to_set in Hx.
  rewrite Forall_forall in Hl. apply elem_of_dom, (Hl x Hx).
Qed.

Lemma runs_link s l sk Q :
  sock_list s driver_sockets l -> NoDup l ->
  (forall x v, x ∈ l -> obj_at sock_s s x = Some v -> Q tt (put_at sock_s x (set_ds_next sk v) s)) ->
  runs (link_dsocket sk) s Q.
Proof.
  intros Hl Hnd HQ. pose proof (sock_list_live _ _ _ Hl) as Hlive.
  pose proof (socket_count_enough _ _ Hnd Hlive). unfold link_dsocket, socket_count.
  apply runs_bind, runs_gets, runs_bind. destruct (last l) as [x|] eqn:Ex.
  - eapply runs_last_socket; [exact Hl|lia|exact Ex|].
    apply last_Some in Ex as [l' ->]. assert (Hx : x ∈ l' ++ [x]) by (apply elem_of_app; right; by left).
    rewrite Forall_forall in Hlive. destruct (Hlive x Hx) as [v Hv].
    eapply runs_upd; [exact Hv|]. by apply HQ.
  - apply last_None in Ex as ->. done.
Qed.

(** Linking changes nothing of a socket but [next]. *)
Lemma link_keeps s x v sk y d :
  obj_at sock_s s x = Some v -> obj_at sock_s s y = Some d ->
  exists n, obj_at sock_s (put_at sock_s x (set_ds_next sk v) s) y = Some (set_ds_next n d).
Proof.
  intros Hx Hy. destruct (decide (x = y)) as [->|Hn]; objs.
  - simplify_eq. by eexists.
  - exists (ds_next d). rewrite Hy. by destruct d.
Qed.

(** ** Accepting *)

Lemma runs_open_pair pr p n l s Q :
  obj_at pair_s s pr = Some p -> heap_is s l -> plenty (3 + n) (k_heap (smgr s)) ->
  (forall path sb cb k1 k2 k3 h',
     new_block DSOCK_ADDR_MAX path k1 l -> new_block DSOCK_BUFF_SIZE sb k2 (<[path := k1]> l) ->
     new_block DSOCK_BUFF_SIZE cb k3 (<[sb := k2]> (<[path := k1]> l)) ->
     heap_rep h' (<[cb := k3]> (<[sb := k2]> (<[path := k1]> l))) -> plenty n h' ->
     Q tt (put_at pair_s pr (DsocketPair true path cb 0 (dp_client_buffer_size p) (dp_client_fds p)
       sb 0 (s32 (dp_server_fds p + 1))) (with_heap h' s))) ->
  runs (open_pair pr) s Q.
Proof.
  intros Hpr Hl Hp HQ. unfold open_pair. ksteps.
  eapply runs_malloc_bytes; [exact Hl|exact Hp|vm_compute; split; congruence|].
  intros path k1 h1 Hb1 Hr1 Hp1. ksteps.
  eapply runs_malloc_bytes; [exact Hr1|exact Hp1|vm_compute; split; congruence|].
  intros sb k2 h2 Hb2 Hr2 Hp2. ksteps.
  eapply runs_malloc_bytes; [exact Hr2|exact Hp2|vm_compute; split; congruence|].
  intros cb k3 h3 Hb3 Hr3 Hp3. ksteps. specialize (HQ _ _ _ _ _ _ _ Hb1 Hb2 Hb3 Hr3 Hp3).
  by rewrite !with_heap_put, !with_heap_heap, !put_put in *.
Qed.

(** The backlog after its head has been taken. *)
Definition popped (l : list Z) (n : Z) : list Z :=
  take (Z.to_nat n) (drop 1 (<[0%nat := NULL]> l)) ++ drop (Z.to_nat n) (<[0%nat := NULL]> l).

Lemma runs_pop_backlog s sk v l Q :
  obj_at sock_s s sk = Some v -> obj_at (array_s 0) s (ds_backlog v) = Some l ->
  1 <= ds_conn_max v <= len l -> ds_conn_max v < 2147483648 ->
  Q tt (put_at (array_s 0) (ds_backlog v) (popped l (ds_conn_max v - 1))
    (put_at sock_s sk (set_ds_state dsocket_state_disconnected (set_ds_conn_max (ds_conn_max v - 1) v)) s)) ->
  runs (pop_backlog sk) s Q.
Proof.
  intros Hv Hl Hc Hc' HQ. unfold pop_backlog. kstep. kstep. kstep.
  eapply runs_wr_at; [exact Hl|lia|]. kstep. unfold shift_array. kstep. kstep.
  rewrite length_insert. replace ((ds_conn_max v - 1 <? 0) || (len l <? ds_conn_max v - 1 + 1)) with false by lia.
  ksteps. rewrite s32_nonneg by lia. rewrite !put_put by apply _.
  match goal with |- Q _ ?s' => match type of HQ with Q _ ?s'' => replace s' with s''; [exact HQ|] end end.
  done.
Qed.

(** ** Connecting *)

Lemma lex_cmp_eq l1 l2 : length l1 = length l2 -> lex_cmp l1 l2 = 0 <-> l1 = l2.
Proof.
  revert l2. induction l1 as [|x l1 IH]; intros [|y l2]; simpl; intros Hl; try done.
  destruct (Z.eqb_spec x y) as [->|Hn]; [rewrite IH by lia; naive_solver|].
  split; [destruct (x <? y); lia|naive_solver].
Qed.

(** The address [name] of the socket at [x], for as many bytes as are compared. *)
Definition bound s (x : Z) (name : list Z) : Prop :=
  exists v, obj_at sock_s s x = Some v /\ holds (smem s) (ds_bind_addr v) name /\
    0 <= ds_bind_addr v /\ ds_bind_addr v + len name < two64.

(** The search returns the first socket of the list whose address differs from [path]. *)
Fixpoint first_other (l : list Z) (names : list (list Z)) (path : list Z) : Z :=
  match l, names with
  | x :: l', name :: names' => if bool_decide (name = path) then first_other l' names' path else x
  | _, _ => NULL
  end.

Lemma runs_connect_find n d l names p path s Q :
  sock_list s d l -> Forall (fun x => x <> NULL) l -> (length l <= n)%nat ->
  Forall2 (fun x name => bound s x name /\ length name = length path) l names ->
  holds (smem s) p path -> 0 <= p -> p + len path < two64 ->
  Q (first_other l names path) s -> runs (connect_find n d p (len path)) s Q.
Proof.
  revert d l names. induction n as [|n IH]; intros d l names Hl Hnn Hlen Hf Hp Hp0 Hpt HQ;
    (destruct l as [|x l]; [done|]); [simpl in Hlen; lia|].
  apply Forall2_cons_inv_l in Hf as (name & names' & ((v & Hv & Hh & Hb0 & Hbt) & Hln) & Hf & ->).
  apply Forall_cons in Hnn as [Hn Hnn]. destruct Hl as (-> & v' & Hv' & Hl). simplify_eq.
  cbn [connect_find]. apply Z.eqb_neq in Hn as ->. kstep. kstep. apply runs_bind.
  unfold memcmp. rewrite Nat2Z.id.
  eapply (runs_memcmp_from (length path) 0 s _ _ name path); try (rewrite ?Z.add_0_r; done); try lia.
  simpl in HQ. pose proof (lex_cmp_eq name path Hln) as Hlex.
  destruct (Z.eqb_spec (lex_cmp name path) 0) as [He|He]; simpl.
  - rewrite bool_decide_true in HQ by by apply Hlex. destruct l as [|y l].
    + rewrite Hl. apply Forall2_nil_inv_l in Hf as ->. clear IH. by destruct n; apply runs_ret.
    + destruct Hl as [_ Hl]. eapply IH; try done. simpl in *. lia.
  - rewrite bool_decide_false in HQ by (intros E; by apply He, Hlex). by apply runs_ret.
Qed.

(** The address at [addr]: a plain path ended by NUL, or a logical one with a byte in front. *)
Record sock_address (m : mem) (addr : Z) (path : list Z) : Prop := {
  sa_text : exists b, load8 m addr = Some b /\ holds m (addr + 1) (path ++ [0]) /\
    if b =? 0 then Forall (fun c => c <> 0) path
    else exists c rest, path = c :: rest /\ Forall (fun c => c <> 0) rest;
  sa_range : 0 <= addr /\ addr + len path + 2 < two64;
  sa_len : len path <= PAGE_SIZE
}.

Lemma str_len_ended l : Forall (fun c => c <> 0) l -> str_len (l ++ [0]) = len l.
Proof.
  induction 1 as [|c l Hc _ IH]; [done|]. cbn [app str_len length].
  replace (c =? 0) with false by lia. lia.
Qed.

Lemma runs_strlen a l s Q :
  holds (smem s) a (l ++ [0]) -> Forall (fun c => c <> 0) l -> 0 <= a -> a + len l + 1 < two64 ->
  len l <= PAGE_SIZE -> Q (len l) s -> runs (strlen str_fuel a) s Q.
Proof.
  intros Hh Hl Ha Ht Hp HQ. unfold strlen, strnlen. unfold PAGE_SIZE in *.
  pose proof (str_len_ended l Hl) as Hs.
  assert (Hlen : length (l ++ [0]) = S (length l)) by (rewrite length_app; simpl; lia).
  rewrite <- (Z.add_0_r a) at 2.
  apply (runs_strnlen_from _ _ _ 0 (l ++ [0])); rewrite ?Z.add_0_r, ?Hlen, ?Hs;
    unfold two64, str_fuel in *; try done; try lia.
  - apply elem_of_app. right. by left.
  - rewrite Z.min_r by lia. exact HQ.
Qed.

Lemma runs_addr_len addr path s Q :
  sock_address (smem s) addr path -> Q (len path) s -> runs (addr_len addr) s Q.
Proof.
  intros [(b & Hb & Hh & Hc) [Ha Ht] Hl] HQ. unfold addr_len, logical_address_of, d_path_of.
  eapply runs_bind, runs_ld8; [exact Hb|]. norm_words. destruct (b =? 0); simpl.
  - eapply runs_strlen; [exact Hh|exact Hc|lia|lia|exact Hl|exact HQ].
  - destruct Hc as (c & rest & -> & Hrest). simpl in Hh. apply holds_cons in Hh as [_ Hh].
    cbn [length] in *. apply runs_bind. eapply runs_strlen; [exact Hh|exact Hrest|lia|lia|lia|].
    apply runs_ret. rewrite u64_small by (unfold two64 in *; lia).
    by replace (len rest + 1) with (Z.of_nat (S (length rest))) by lia.
Qed.

(** The list of sockets and their addresses, as long as [path]. *)
Record addressed s (chain : list Z) (names : list (list Z)) (path : list Z) : Prop := {
  ad_list : sock_list s driver_sockets chain;
  ad_nodup : NoDup chain;
  ad_nonnull : Forall (fun x => x <> NULL) chain;
  ad_names : Forall2 (fun x name => bound s x name /\ length name = length path) chain names
}.

Lemma runs_find chain names path addr s Q :
  addressed s chain names path -> sock_address (smem s) addr path ->
  Q (first_other chain names path) s ->
  runs (n <- socket_count ;; connect_find n driver_sockets (d_path_of addr) (len path)) s Q.
Proof.
  intros [Hl Hnd Hnn Hn] [(b & _ & Hh & _) [Ha Ht] Hlen] HQ. apply runs_bind, runs_gets.
  pose proof (socket_count_enough _ _ Hnd (sock_list_live _ _ _ Hl)).
  unfold d_path_of. norm_words. apply holds_app in Hh as [Hh _].
  eapply runs_connect_find; [exact Hl|exact Hnn|done|exact Hn|exact Hh|lia|lia|exact HQ].
Qed.

(** A request: the listener [d] gets the new pair at the end of its backlog. *)
Lemma runs_connect_request sk v addr path chain names vd bl n l s Q :
  let d := first_other chain names path in
  obj_at sock_s s sk = Some v -> ds_pair v = NULL -> sock_address (smem s) addr path ->
  addressed s chain names path -> sk <> d -> d <> NULL ->
  obj_at sock_s s d = Some vd -> ds_state vd = dsocket_state_listening ->
  obj_at (array_s 0) s (ds_backlog vd) = Some bl -> 0 <= ds_conn_curr vd < len bl ->
  ds_conn_curr vd + 1 < 2147483648 -> heap_is s l -> plenty (S n) (k_heap (smgr s)) ->
  (forall pr k h', new_block SIZEOF_PAIR pr k l -> heap_rep h' (<[pr := k]> l) -> plenty n h' ->
     Q (inr pr) (put_at sock_s sk (set_ds_pair pr v)
       (put_at sock_s d (set_ds_conn_curr (ds_conn_curr vd + 1) vd)
       (put_at (array_s 0) (ds_backlog vd) (<[Z.to_nat (ds_conn_curr vd) := pr]> bl)
       (put_at pair_s pr (DsocketPair false NULL NULL 0 0 1 NULL 0 0) (with_heap h' s)))))) ->
  runs (connect_request sk addr) s Q.
Proof.
  intros d Hv Hpair Haddr Had Hne Hnn Hvd Hst Hbl Hcc Hcc' Hl Hp HQ. unfold connect_request.
  kstep. kstep. rewrite Hpair. simpl. apply runs_bind. eapply runs_addr_len; [exact Haddr|].
  assert (Hf : runs (n <- socket_count ;; connect_find n driver_sockets (d_path_of addr) (len path)) s
    (fun x s' => x = d /\ s' = s)) by by eapply runs_find.
  apply runs_bind. apply runs_bind_inv in Hf. eapply runs_mono; [exact Hf|]. intros m s' Hm.
  apply runs_bind. eapply runs_mono; [exact Hm|]. intros x s2 [-> ->]. apply Z.eqb_neq in Hnn.
  rewrite Hnn. kstep. cbn iota. ksteps. rewrite bool_decide_true by done. cbn [negb]. kstep.
  eapply runs_malloc_obj; [exact Hl|exact Hp|vm_compute; split; congruence|].
  intros pr k h' Hb Hr Hp'. ksteps. unfold push_backlog. kstep. kstep. kstep.
  eapply runs_wr_at; [by objs|lia|]. ksteps.
  rewrite !put_put by apply _. rewrite s32_nonneg by lia. by eapply HQ.
Qed.

Lemma runs_connect_refused sk v addr path chain names s Q :
  obj_at sock_s s sk = Some v -> ds_pair v = NULL -> sock_address (smem s) addr path ->
  addressed s chain names path ->
  (forall vd, obj_at sock_s s (first_other chain names path) = Some vd ->
     first_other chain names path <> NULL -> ds_state vd <> dsocket_state_listening) ->
  Q (inl (error k_hel_error_not_found)) s -> runs (connect_request sk addr) s Q.
Proof.
  intros Hv Hpair Haddr Had Hno HQ. set (d := first_other chain names path) in *. unfold connect_request.
  kstep. kstep. rewrite Hpair. simpl. apply runs_bind. eapply runs_addr_len; [exact Haddr|].
  assert (Hf : runs (n <- socket_count ;; connect_find n driver_sockets (d_path_of addr) (len path)) s
    (fun x s' => x = d /\ s' = s)) by by eapply runs_find.
  apply runs_bind. apply runs_bind_inv in Hf. eapply runs_mono; [exact Hf|]. intros m s' Hm.
  apply runs_bind. eapply runs_mono; [exact Hm|]. intros x s2 [-> ->].
  destruct (Z.eqb_spec d NULL) as [E|Hn].
  { kstep. cbn iota. kstep. by apply runs_ret. }
  assert (Hd : exists vd, obj_at sock_s s d = Some vd).
  { destruct Had as [_ _ _ Had]. subst d. clear -Had Hn. induction Had as [|x name l names' [(v & Hv & _) _] _ IH]; [done|].
    simpl in *. case_bool_decide; [by apply IH|by eexists]. }
  destruct Hd as [vd Hvd]. kstep. cbn iota. ksteps. rewrite bool_decide_false by by apply Hno. simpl. by apply runs_ret.
Qed.
End Connect.
