(* ===== verification/AcceptFacts.v ===== *)
(** AcceptFacts: the whole of [accept] on a listening socket with a request. *)

From Stdlib Require Import ZArith Lia.
From stdpp Require Import prelude gmap.
From S2P Require Import Prelude Mem Spinlock Block Klibc Bitmap Frame.
From S2P Require Import PageTable Kernel Apic Thread Syscall KernelFacts KernelDemo.
From S2P Require Import SearchThms SocketFacts SocketThms ConnectFacts.

Section Accept.
Context {H : Type} `{KernelHeap H} `{Garbage} `{Image}.
Implicit Types (s : st (kernel H)).

(** A buffer of [DSOCK_BUFF_SIZE] bytes in the heap. *)
Definition heap_buffer (b : Z) : Prop :=
  heap_lo <= b /\ b + DSOCK_BUFF_SIZE <= heap_hi /\ 0 < b /\ b + DSOCK_BUFF_SIZE < two64.

(** What [accept] makes of the state [s]: [pr] is the pair at the head of the backlog [bl] of the
    listener [sk], and entry [j] of the descriptor table [tab] at [fds] is the new descriptor. *)
Record accepted s s' (sk pr bl fds : Z) (tab : list Z) (j : nat) : Prop := {
  ac_end : exists fi hd sk2 d2, fi <> NULL /\ obj_at (array_s 0) s' fds = Some (<[j := fi]> tab) /\
    obj_at fd_s s' fi = Some (new_fd hd) /\ obj_at handle_s s' hd = Some (DsocketHandle accept_ops sk2) /\
    obj_at sock_s s' sk2 = Some d2 /\ ds_pair d2 = pr /\ ds_state d2 = dsocket_state_connected /\
    obj_at handle_s s hd = None /\ obj_at sock_s s sk2 = None;
  ac_pair : exists p path sb cb, obj_at pair_s s pr = Some p /\
    obj_at pair_s s' pr = Some (DsocketPair true path cb 0 (dp_client_buffer_size p) (dp_client_fds p)
      sb 0 (s32 (dp_server_fds p + 1))) /\
    heap_buffer sb /\ heap_buffer cb /\ apart sb DSOCK_BUFF_SIZE cb DSOCK_BUFF_SIZE;
  ac_listener : exists v v' l, obj_at sock_s s sk = Some v /\ obj_at sock_s s' sk = Some v' /\
    ds_state v' = dsocket_state_disconnected /\ ds_conn_curr v' = ds_conn_curr v /\
    ds_conn_max v' = ds_conn_max v - 1 /\ obj_at (array_s 0) s bl = Some l /\
    obj_at (array_s 0) s' bl = Some (popped l (ds_conn_max v - 1));
  ac_fds : forall a v, obj_at fd_s s a = Some v -> obj_at fd_s s' a = Some v;
  ac_handles : forall a v, obj_at handle_s s a = Some v -> obj_at handle_s s' a = Some v;
  ac_socks : forall a d, obj_at sock_s s a = Some d -> exists d', obj_at sock_s s' a = Some d' /\ ds_pair d' = ds_pair d;
  ac_pairs : forall a, a <> pr -> obj_at pair_s s' a = obj_at pair_s s a;
  ac_arrays : forall a, a <> fds -> a <> bl -> obj_at (array_s 0) s' a = obj_at (array_s 0) s a;
  ac_maps : o_threads (k_obj (smgr s')) = o_threads (k_obj (smgr s)) /\
    o_files (k_obj (smgr s')) = o_files (k_obj (smgr s));
  ac_rest : smem s' = smem s /\ k_cpu (smgr s') = k_cpu (smgr s) /\ k_static (smgr s') = k_static (smgr s)
}.

(** A listener with a request, in a state where [accept] can allocate what it needs. *)
Record acceptable s (t h sk : Z) (v : dsocket) (pr fds : Z) (tab : list Z) (j : nat) (l : gmap Z Z) : Prop := {
  al_current : mc_msr (k_cpu (smgr s)) !! IA32_KERNEL_GS_BASE = Some t;
  al_handle : exists hd op, descriptor s t h hd sk op;
  al_sock : obj_at sock_s s sk = Some v /\ ds_conn_curr v <> 0;
  al_backlog : exists bl, obj_at (array_s 0) s (ds_backlog v) = Some bl /\ bl !! 0%nat = Some pr /\
    1 <= ds_conn_max v <= len bl /\ ds_conn_max v < 2147483648;
  al_pair : is_Some (obj_at pair_s s pr);
  al_table : (exists fi, fd_table s t fi fds tab /\ fi <> NULL) /\ free_fd tab = Some j /\ fds <> ds_backlog v;
  al_list : exists chain, sock_list s driver_sockets chain /\ NoDup chain;
  al_heap : heap_is s l /\ plenty 7 (k_heap (smgr s)) /\ objects_placed s l
}.

Lemma runs_accept yield fuel s t h sk v pr fds tab j l flags Q :
  acceptable s t h sk v pr fds tab j l ->
  (forall s', accepted s s' sk pr (ds_backlog v) fds tab j -> Q (Z.of_nat j) s') ->
  runs (k_driver_accept_impl yield fuel h flags) s Q.
Proof.
  intros [Hcur (hd & op & Hd) [Hv Hcc] (bl & Hbl & Hpr & Hmax & Hmax') [p Hp]
    [(fi & Htab & Hfi) [Hj Hfds]] (chain & Hch & Hnd) (Hl & Hpl & Hplaced)] HQ.
  unfold k_driver_accept_impl. eapply runs_with_handle; [exact Hcur|exact Hd|].
  apply runs_bind. assert (Hwait : runs (wait_until yield fuel
    (v <- rd sock_s sk ;; ret (negb (ds_conn_curr v =? 0)))) s (fun _ s' => s' = s)).
  { destruct fuel; cbn [wait_until]; ksteps; apply Z.eqb_neq in Hcc as ->; by apply runs_ret. }
  eapply runs_mono; [exact Hwait|]. intros [] s0 ->. kstep. kstep. kstep.
  eapply runs_rd_at; [exact Hbl|lia|exact Hpr|]. kstep.
  eapply (runs_open_pair pr p 4); [exact Hp|exact Hl|exact Hpl|].
  intros path sb cb k1 k2 k3 h1 Hb1 Hb2 Hb3 Hr1 Hp1. kstep.
  eapply (runs_pop_backlog _ sk v bl); [by objs|by objs|exact Hmax|exact Hmax'|]. kstep.
  eapply (runs_new_dsocket flags 0); [exact Hr1|exact Hp1|].
  intros fi2 hd2 sk2 b k4 k5 k6 k7 h2 Hb4 Hb5 Hb6 Hb7 Hr2 _. destruct Hplaced as [Pf Ph Ps _ _].
  assert (Nf : forall a w, obj_at fd_s s a = Some w -> a <> fi2).
  { intros a w Ha. eapply new_block_ne; [exact Hb4|done|]. repeat apply placed_insert. by eapply Pf. }
  assert (Nh : forall a w, obj_at handle_s s a = Some w -> a <> hd2).
  { intros a w Ha. eapply new_block_ne; [exact Hb5|done|]. repeat apply placed_insert. by eapply Ph. }
  assert (Ns : forall a w, obj_at sock_s s a = Some w -> a <> sk2).
  { intros a w Ha. eapply new_block_ne; [exact Hb6|done|]. repeat apply placed_insert. by eapply Ps. }
  ksteps. rewrite !put_put by apply _.
  match goal with |- runs _ ?st _ => set (s1 := st) end.
  set (v1 := set_ds_state dsocket_state_disconnected (set_ds_conn_max (ds_conn_max v - 1) v)) in *.
  assert (Hskne : sk <> sk2) by by eapply Ns.
  assert (Hs1 : forall a w, obj_at sock_s s a = Some w -> a <> sk -> obj_at sock_s s1 a = Some w).
  { intros a w Ha Hn. pose proof (Ns _ _ Ha). unfold s1. by objs. }
  assert (Hs1k : obj_at sock_s s1 sk = Some v1) by (unfold s1; by objs).
  assert (Hs12 : exists d2, obj_at sock_s s1 sk2 = Some d2 /\ ds_pair d2 = pr /\
    ds_state d2 = dsocket_state_connected).
  { eexists. split; [unfold s1; by objs|done]. }
  apply runs_bind. eapply runs_link; [|exact Hnd|].
  { eapply sock_list_ext; [|exact Hch]. intros x w _ Hx. destruct (decide (x = sk)) as [->|Hn].
    - exists v1. split; [done|]. simplify_eq. done.
    - exists w. split; [by apply Hs1|done]. }
  intros x w _ Hx. set (s2 := put_at sock_s x (set_ds_next sk2 w) s1).
  assert (Hs2 : forall a d, obj_at sock_s s1 a = Some d -> exists n, obj_at sock_s s2 a = Some (set_ds_next n d)).
  { intros a d Ha. by eapply link_keeps. }
  assert (Ht2 : fd_table s2 t fi fds tab).
  { destruct Htab as [T1 T2 T3]. split; [exact T1|exact T2|]. unfold s2, s1. by objs. }
  eapply runs_add_fd_info; [exact Ht2|exact Hfi|]. rewrite Hj. apply HQ.
  destruct Hs12 as (d2 & Hd2 & Hd2p & Hd2s).
  pose proof (nb_place _ _ _ _ Hb4) as Hfi2. pose proof (nb_place _ _ _ _ Hb2) as Hsb.
  pose proof (nb_size _ _ _ _ Hb2) as Hk2. pose proof (nb_place _ _ _ _ Hb3) as Hcb.
  pose proof (nb_size _ _ _ _ Hb3) as Hk3.
  pose proof (nb_apart _ _ _ _ Hb3 sb k2 (lookup_insert_eq _ _ _)) as Hap.
  split; unfold heap_buffer, apart in *.
  - destruct (Hs2 _ _ Hd2) as [n Hn]. exists fi2, hd2, sk2, (set_ds_next n d2).
    split_ands; try done; [unfold NULL; lia|by objs| | | |].
    + unfold s2, s1. by objs.
    + unfold s2, s1. by objs.
    + destruct (obj_at handle_s s hd2) eqn:E; [by apply Nh in E|done].
    + destruct (obj_at sock_s s sk2) eqn:E; [by apply Ns in E|done].
  - exists p, path, sb, cb. split; [done|]. split; [unfold s2, s1; by objs|]. lia.
  - destruct (Hs2 _ _ Hs1k) as [n Hn]. exists v, (set_ds_next n v1), bl. split_ands; try done.
    unfold s2, s1. by objs.
  - intros a y Ha. pose proof (Nf _ _ Ha). unfold s2, s1. by objs.
  - intros a y Ha. pose proof (Nh _ _ Ha). unfold s2, s1. by objs.
  - intros a d Ha. destruct (decide (a = sk)) as [->|Hn].
    + destruct (Hs2 _ _ Hs1k) as [n Hn]. exists (set_ds_next n v1). split; [exact Hn|]. by simplify_eq.
    + destruct (Hs2 _ _ (Hs1 _ _ Ha Hn)) as [n Hn']. by exists (set_ds_next n d).
  - intros a Hn. unfold s2, s1. by objs.
  - intros a Hn1 Hn2. unfold s2, s1. by objs.
  - done.
  - done.
Qed.
End Accept.
