(* ===== verification/ConnectThms.v ===== *)
(** ConnectThms: the driver-socket calls on bad descriptors and refused connections, and a
    connection made by [connect] and [accept] together. *)

From Stdlib Require Import ZArith Lia.
From stdpp Require Import prelude gmap.
From S2P Require Import Prelude Mem Spinlock Block Klibc Bitmap Frame.
From S2P Require Import PageTable Kernel Apic Thread Syscall KernelFacts KernelDemo.
From S2P Require Import SearchThms SocketFacts SocketThms ConnectFacts AcceptFacts.

(** ** Definitions *)

(** The calls that take a descriptor. *)
Inductive handle_call :=
  | HBind (addr : Z)
  | HConnect (addr : Z)
  | HAccept (flags : Z)
  | HListen
  | HSend (inp limit : Z)
  | HRecv (out limit : Z).

Section Calls.
Context {H : Type} `{KernelHeap H} `{Garbage} `{Image}.
Implicit Types (s : st (kernel H)).

Definition run_handle_call (yield : M (st (kernel H)) unit) (fuel : nat) (h : Z) (c : handle_call) :
    M (st (kernel H)) Z :=
  match c with
  | HBind addr => k_driver_bind_impl h addr
  | HConnect addr => k_driver_connect_impl yield fuel h addr
  | HAccept flags => k_driver_accept_impl yield fuel h flags
  | HListen => k_driver_listen_impl h
  | HSend inp limit => k_driver_send_impl h inp limit
  | HRecv out limit => k_driver_recv_impl h out limit
  end.

(** Descriptor [h] of the running thread is not a socket: no table, a free slot, or another kind. *)
Definition bad_handle s (h : Z) : Prop :=
  exists t th, mc_msr (k_cpu (smgr s)) !! IA32_KERNEL_GS_BASE = Some t /\ obj_at thread_s s t = Some th /\
    (th_file_info th = NULL \/
     exists fi, obj_at file_s s (th_file_info th) = Some fi /\ th_file_info th <> NULL /\
       (fi_fds fi = NULL \/
        exists l p, fi_fds fi <> NULL /\ obj_at (array_s 0) s (fi_fds fi) = Some l /\ 0 <= h /\
          l !! Z.to_nat h = Some p /\
          (p = NULL \/ exists fd, p <> NULL /\ obj_at fd_s s p = Some fd /\ fd_kind fd <> fd_info_type_dsocket))).

Lemma runs_bad_handle s h k Q :
  bad_handle s h -> Q (error k_hel_error_bad_handler) s -> runs (with_handle h k) s Q.
Proof.
  intros (t & th & Ht & Hth & Hc) HQ. unfold with_handle.
  eapply runs_bind, runs_rdmsr; [exact Ht|]. kstep. kstep.
  destruct Hc as [->|(fi & Hfi & Hn1 & Hc)]; [by apply runs_ret|]. apply Z.eqb_neq in Hn1 as ->.
  kstep. kstep. destruct Hc as [->|(l & p & Hn2 & Hl & Hh & Hp & Hc)]; [by apply runs_ret|].
  apply Z.eqb_neq in Hn2 as ->. kstep. eapply runs_rd_at; [exact Hl|exact Hh|exact Hp|].
  destruct Hc as [->|(fd & Hn3 & Hfd & Hk)]; [by apply runs_ret|]. apply Z.eqb_neq in Hn3 as ->.
  kstep. kstep. apply Z.eqb_neq in Hk as ->. by apply runs_ret.
Qed.

(** Descriptor [h] is behind the end of the running thread's table: no call checks for that. *)
Definition past_table s (h : Z) : Prop :=
  exists t th fi l, mc_msr (k_cpu (smgr s)) !! IA32_KERNEL_GS_BASE = Some t /\ obj_at thread_s s t = Some th /\
    th_file_info th <> NULL /\ obj_at file_s s (th_file_info th) = Some fi /\ fi_fds fi <> NULL /\
    obj_at (array_s 0) s (fi_fds fi) = Some l /\ Z.of_nat (length l) <= h.

Lemma rd_obj {T} (S : store T) s p v : obj_at S s p = Some v -> rd S p s = Some (v, s).
Proof. intros E. unfold rd, bind, gets, of_opt. unfold obj_at in E. by rewrite E. Qed.

Lemma with_handle_past s h k : past_table s h -> with_handle h k s = None.
Proof.
  intros (t & th & fi & l & Ht & Hth & Hn1 & Hfi & Hn2 & Hl & Hh).
  assert (E : get_current_thread s = Some (t, s)).
  { assert (Hr : runs get_current_thread s (fun x s' => x = t /\ s' = s)) by by eapply runs_rdmsr.
    by apply runs_inv in Hr as (x & s' & -> & -> & ->). }
  unfold with_handle, bind at 1. rewrite E. unfold bind at 1. rewrite (rd_obj _ _ _ _ Hth).
  apply Z.eqb_neq in Hn1 as ->. unfold bind at 1. rewrite (rd_obj _ _ _ _ Hfi).
  apply Z.eqb_neq in Hn2 as ->. unfold bind at 1. unfold rd_at, bind at 1. rewrite (rd_obj _ _ _ _ Hl).
  destruct (h <? 0); [done|]. by rewrite lookup_ge_None_2 by lia.
Qed.

(** What [send] and [recv] answer on a socket without a pair: they go through the handle's [op],
    and a handle that has never been connected has no valid one. *)
Definition without_pair s (op : dsocket_op) : option (Z * st (kernel H)) :=
  match op with no_ops => None | _ => Some (error k_hel_error_not_connected, s) end.

Lemma send_without_pair s sk op v p n :
  obj_at sock_s s sk = Some v -> ds_pair v = NULL ->
  op_send op sk p n s = without_pair s op /\ op_recv op sk p n s = without_pair s op.
Proof.
  intros Hv Hn. assert (Hs : op <> no_ops -> runs (op_send op sk p n) s (fun r s' =>
      r = error k_hel_error_not_connected /\ s' = s) /\
    runs (op_recv op sk p n) s (fun r s' => r = error k_hel_error_not_connected /\ s' = s)).
  { intros Hop. destruct op; [| |done]; unfold op_send, op_recv, dsocket_send, dsocket_accept_send, dsocket_recv,
      dsocket_accept_recv, send_into, recv_from, server_side, client_side;
      (split; kstep; kstep; rewrite Hn; by apply runs_ret). }
  destruct op; [| |done]; destruct (Hs ltac:(done)) as [Hsend Hrecv];
    apply runs_inv in Hsend as (r1 & s1 & -> & -> & ->); by apply runs_inv in Hrecv as (r2 & s2 & -> & -> & ->).
Qed.

Lemma with_handle_runs s t h hd sk op k :
  mc_msr (k_cpu (smgr s)) !! IA32_KERNEL_GS_BASE = Some t -> descriptor s t h hd sk op ->
  with_handle h k s = k t hd sk s.
Proof.
  intros Ht (th & fi & l & p & Hth & Hn1 & Hfi & Hn2 & Hl & Hh & Hp & Hn3 & Hfd & Hhd).
  assert (E : get_current_thread s = Some (t, s)).
  { assert (Hr : runs get_current_thread s (fun x s' => x = t /\ s' = s)) by by eapply runs_rdmsr.
    by apply runs_inv in Hr as (x & s' & -> & -> & ->). }
  unfold with_handle, bind at 1. rewrite E. unfold bind at 1. rewrite (rd_obj _ _ _ _ Hth).
  apply Z.eqb_neq in Hn1 as ->. unfold bind at 1. rewrite (rd_obj _ _ _ _ Hfi).
  apply Z.eqb_neq in Hn2 as ->. unfold bind at 1. unfold rd_at, bind at 1. rewrite (rd_obj _ _ _ _ Hl).
  replace (h <? 0) with false by lia. rewrite Hp. simpl. apply Z.eqb_neq in Hn3 as ->.
  unfold bind at 1. rewrite (rd_obj _ _ _ _ Hfd). simpl. unfold bind at 1. by rewrite (rd_obj _ _ _ _ Hhd).
Qed.

(** The turn of the server's thread: it accepts, then the client's thread goes on. *)
Definition server_turn (tc ts hs flags : Z) : M (st (kernel H)) unit :=
  set_current_thread ts ;; k_driver_accept_impl (ret tt) 0 hs flags ;; set_current_thread tc.

(** A client thread [tc] whose descriptor [h] is an unconnected socket [sk], about to connect to
    the address at [addr]; the search for that address ends at the socket [lst], on which the
    thread [ts] listens with no request waiting, and [ts] has a free descriptor [j]. *)
Record meeting s (tc h sk addr ts hs lst : Z) (v vl : dsocket) (fds : Z) (tab : list Z) (j : nat)
    (l : gmap Z Z) : Prop := {
  mt_current : mc_msr (k_cpu (smgr s)) !! IA32_KERNEL_GS_BASE = Some tc;
  mt_client : exists hd op, descriptor s tc h hd sk op;
  mt_sock : obj_at sock_s s sk = Some v /\ ds_pair v = NULL;
  mt_address : exists path chain names, sock_address (smem s) addr path /\
    addressed s chain names path /\ first_other chain names path = lst;
  mt_listener : lst <> NULL /\ sk <> lst /\ obj_at sock_s s lst = Some vl /\
    ds_state vl = dsocket_state_listening /\ ds_conn_curr vl = 0;
  mt_backlog : exists bl, obj_at (array_s 0) s (ds_backlog vl) = Some bl /\
    1 <= ds_conn_max vl <= len bl /\ ds_conn_max vl < 2147483648;
  mt_server : exists hd op, descriptor s ts hs hd lst op;
  mt_table : (exists fi, fd_table s ts fi fds tab /\ fi <> NULL) /\ free_fd tab = Some j /\
    fds <> ds_backlog vl /\ fds <> NULL;
  mt_apart : forall th fi, obj_at thread_s s tc = Some th -> obj_at file_s s (th_file_info th) = Some fi ->
    fi_fds fi <> fds /\ fi_fds fi <> ds_backlog vl;
  mt_heap : heap_is s l /\ plenty 8 (k_heap (smgr s)) /\ objects_placed s l;
  mt_mapped : mapped (smem s) heap_lo heap_hi
}.

(** ** Lemmas *)

(** A descriptor survives what keeps its objects. *)
Lemma descriptor_keep s s' t h hd sk op :
  o_threads (k_obj (smgr s')) = o_threads (k_obj (smgr s)) ->
  o_files (k_obj (smgr s')) = o_files (k_obj (smgr s)) ->
  (forall th fi, obj_at thread_s s t = Some th -> obj_at file_s s (th_file_info th) = Some fi ->
     obj_at (array_s 0) s' (fi_fds fi) = obj_at (array_s 0) s (fi_fds fi)) ->
  (forall a v, obj_at fd_s s a = Some v -> obj_at fd_s s' a = Some v) ->
  (forall a v, obj_at handle_s s a = Some v -> obj_at handle_s s' a = Some v) ->
  descriptor s t h hd sk op -> descriptor s' t h hd sk op.
Proof.
  intros E1 E2 Ea Ef Eh (th & fi & l & p & Hth & Hn1 & Hfi & Hn2 & Hl & Hh & Hp & Hn3 & Hfd & Hhd).
  exists th, fi, l, p. rewrite (Ea _ _ Hth Hfi).
  unfold obj_at in *. simpl in *. rewrite E1, E2. split_ands; auto.
Qed.

(** The request leaves a state in which the server's [accept] succeeds. *)
Lemma meeting_acceptable s tc h sk addr ts hs lst v vl fds tab j l pr k h' bl :
  meeting s tc h sk addr ts hs lst v vl fds tab j l -> obj_at (array_s 0) s (ds_backlog vl) = Some bl ->
  new_block SIZEOF_PAIR pr k l -> heap_rep h' (<[pr := k]> l) -> plenty 7 h' ->
  acceptable (as_thread ts (put_at sock_s sk (set_ds_pair pr v)
      (put_at sock_s lst (set_ds_conn_curr 1 vl)
      (put_at (array_s 0) (ds_backlog vl) (<[0%nat := pr]> bl)
      (put_at pair_s pr (DsocketPair false NULL NULL 0 0 1 NULL 0 0) (with_heap h' s))))))
    ts hs lst (set_ds_conn_curr 1 vl) pr fds tab j (<[pr := k]> l).
Proof.
  intros [Hcur Hcl [Hv Hpv] (path & chain & names & Haddr & [Hlist Hnd _ _] & Hfo)
    (Hn & Hne & Hvl & Hst & Hcc) (bl' & Hbl' & Hmax & Hmax') (hds & ops & Hsv)
    [(fi & Htab & Hfi) (Hj & Hfb & Hfn)] Hap (_ & _ & Hpl) Hm] Hbl Hb Hr Hp'.
  assert (bl' = bl) as -> by congruence. subst lst.
  match goal with |- acceptable ?st _ _ _ _ _ _ _ _ _ => set (s1 := st) end.
  assert (Ea : forall a, a <> ds_backlog vl -> obj_at (array_s 0) s1 a = obj_at (array_s 0) s a).
  { intros a Ha. change (obj_at (array_s 0) (put_at (array_s 0) (ds_backlog vl) (<[0%nat := pr]> bl) s) a =
      obj_at (array_s 0) s a). by objs. }
  assert (Es : forall x w, obj_at sock_s s x = Some w ->
    exists w', obj_at sock_s s1 x = Some w' /\ ds_next w' = ds_next w).
  { intros x w Hx. change (exists w', obj_at sock_s (put_at sock_s sk (set_ds_pair pr v)
      (put_at sock_s (first_other chain names path) (set_ds_conn_curr 1 vl) s)) x = Some w' /\ ds_next w' = ds_next w).
    destruct (decide (x = sk)) as [->|Hx1]; [objs; simplify_eq; by eexists|].
    destruct (decide (x = first_other chain names path)) as [->|Hx2]; objs; simplify_eq; by eexists. }
  split.
  - apply as_thread_current.
  - exists hds, ops. eapply (descriptor_keep s); try done. intros th fi' Hth Hfi'. apply Ea.
    destruct Htab as [(th' & Hth' & Efi) (nn & Hf) _]. by simplify_eq.
  - split; [|done]. change (obj_at sock_s (put_at sock_s sk (set_ds_pair pr v)
      (put_at sock_s (first_other chain names path) (set_ds_conn_curr 1 vl) s))
      (first_other chain names path) = Some (set_ds_conn_curr 1 vl)). by objs.
  - exists (<[0%nat := pr]> bl). split.
    { change (obj_at (array_s 0) (put_at (array_s 0) (ds_backlog vl) (<[0%nat := pr]> bl) s) (ds_backlog vl) =
        Some (<[0%nat := pr]> bl)). by objs. }
    rewrite length_insert. split; [apply list_lookup_insert_eq; lia|]. simpl. lia.
  - eexists. apply lookup_insert_eq.
  - split; [|done]. exists fi. split; [|done]. destruct Htab as [T1 T2 T3].
    split; [exact T1|exact T2|]. by rewrite Ea.
  - exists chain. split; [|done]. eapply sock_list_ext; [|exact Hlist]. intros x w _. apply Es.
  - split; [exact Hr|]. split; [exact Hp'|]. destruct Hpl as [Pf Ph Ps Pp Pa]. split.
    + intros a w Ha. by eapply placed_insert, Pf.
    + intros a w Ha. by eapply placed_insert, Ph.
    + intros a w Ha. apply placed_insert. destruct (decide (a = sk)) as [->|Ha1]; [by eapply Ps|].
      destruct (decide (a = first_other chain names path)) as [->|Ha2]; [by eapply Ps|].
      apply (Ps a w). rewrite <- Ha.
      change (obj_at sock_s s a = obj_at sock_s (put_at sock_s sk (set_ds_pair pr v)
        (put_at sock_s (first_other chain names path) (set_ds_conn_curr 1 vl) s)) a). by objs.
    + intros a w Ha. destruct (decide (a = pr)) as [->|Ha1]; [apply placed_new|].
      apply placed_insert, (Pp a w). rewrite <- Ha.
      change (obj_at pair_s s a = obj_at pair_s
        (put_at pair_s pr (DsocketPair false NULL NULL 0 0 1 NULL 0 0) s) a). by objs.
    + intros a w Ha. apply placed_insert. destruct (decide (a = ds_backlog vl)) as [->|Ha1]; [by eapply Pa|].
      apply (Pa a w). by rewrite <- Ea.
Qed.

Lemma descriptor_set s t h hd sk op op' :
  descriptor s t h hd sk op -> descriptor (put_at handle_s hd (DsocketHandle op' sk) s) t h hd sk op'.
Proof.
  intros (th & fi & l & p & Hth & Hn1 & Hfi & Hn2 & Hl & Hh & Hp & Hn3 & Hfd & Hhd).
  exists th, fi, l, p. split_ands; try done. by objs.
Qed.

(** The new descriptor, in a state that keeps what [accept] made. *)
Lemma accepted_end sa s2 s3 ts fi fds tab j lst pr bl hd sk :
  accepted sa s2 lst pr bl fds tab j -> fd_table sa ts fi fds tab -> fi <> NULL -> fds <> NULL ->
  free_fd tab = Some j -> is_Some (obj_at handle_s sa hd) -> is_Some (obj_at sock_s sa sk) ->
  o_threads (k_obj (smgr s3)) = o_threads (k_obj (smgr s2)) ->
  o_files (k_obj (smgr s3)) = o_files (k_obj (smgr s2)) ->
  o_arrays (k_obj (smgr s3)) = o_arrays (k_obj (smgr s2)) ->
  o_fds (k_obj (smgr s3)) = o_fds (k_obj (smgr s2)) ->
  (forall a, a <> hd -> obj_at handle_s s3 a = obj_at handle_s s2 a) ->
  (forall a, a <> sk -> obj_at sock_s s3 a = obj_at sock_s s2 a) ->
  end_on s3 (Endpoint ts (Z.of_nat j)) accept_ops pr.
Proof.
  intros [(fi2 & hd2 & sk2 & d2 & Hn & Harr & Hfd & Hh & Hs & Hp & _ & Nh & Ns) _ _ _ _ _ _ _ [E1 E2] _]
    [(th & Hth & <-) (k & Hf) _] Hfi Hfds Hj [x Hx] [y Hy] F1 F2 F3 F4 F5 F6.
  apply free_fd_Some in Hj as [Hj _]. pose proof (lookup_lt_Some _ _ _ Hj).
  exists hd2, sk2, d2. split; [|split; [rewrite F6 by congruence; exact Hs|exact Hp]].
  exists th, (FileInfo fds (len tab) k), (<[j := fi2]> tab), fi2. cbn [ep_thread ep_fd fi_fds].
  rewrite Nat2Z.id, list_lookup_insert_eq by lia. rewrite (F5 hd2) by congruence.
  unfold obj_at in *. simpl in *. rewrite F1, F2, F3, F4, E1, E2. split_ands; try done. lia.
Qed.

Lemma heap_queue m b : heap_buffer b -> mapped m heap_lo heap_hi -> queue_at m b 0 [].
Proof.
  intros (Hb1 & Hb2 & Hb3 & Hb4) Hm. split; [|lia|done|done|by intros i v Hi].
  eapply mapped_sub; [exact Hm|done|done].
Qed.

Lemma runs_meeting s tc h sk addr ts hs lst v vl fds tab j l flags u Q :
  meeting s tc h sk addr ts hs lst v vl fds tab j l ->
  mapped (smem s) u (u + DSOCK_BUFF_SIZE) -> 0 <= u -> u + DSOCK_BUFF_SIZE <= two64 ->
  u + DSOCK_BUFF_SIZE <= heap_lo \/ heap_hi <= u ->
  (forall pr s', connection s' (Endpoint tc h) (Endpoint ts (Z.of_nat j)) pr u (Queues [] []) -> Q 0 s') ->
  runs (k_driver_connect_impl (server_turn tc ts hs flags) 1 h addr) s Q.
Proof.
  intros M Hum Hu0 Hut Hua HQ. pose proof M as [Hcur (hd & op & Hd) [Hv Hpv] (path & chain & names & Haddr & Had & Hfo)
    (Hn & Hne & Hvl & Hst & Hcc) (bl & Hbl & Hmax & Hmax') _
    [(fi & Htab & Hfi) (Hj & Hfb & Hfn)] Hap (Hl & Hp & Hpl) Hm].
  unfold k_driver_connect_impl. eapply runs_with_handle; [exact Hcur|exact Hd|]. kstep.
  eapply (runs_connect_request sk v addr path chain names vl bl 7 l);
    rewrite ?Hfo; try assumption; try lia.
  intros pr k h' Hb Hr Hp'. rewrite Hcc. cbn iota.
  match goal with |- runs _ ?st _ => set (s1 := st) end.
  assert (Hs1 : obj_at sock_s s1 sk = Some (set_ds_pair pr v)) by (unfold s1; by objs).
  assert (Ha1 : forall a, a <> ds_backlog vl -> obj_at (array_s 0) s1 a = obj_at (array_s 0) s a).
  { intros a Ha. unfold s1. by objs. }
  kstep. cbn [wait_until]. kstep. kstep.
  eapply (runs_rd pair_s pr); [unfold s1; by objs|]. kstep. cbn [dp_connected]. cbn iota. kstep.
  unfold server_turn. kstep.
  change (runs (set_current_thread ts) s1 ?P) with (P tt (as_thread ts s1)). cbv beta. kstep.
  eapply runs_accept; [exact (meeting_acceptable _ _ _ _ _ _ _ _ _ _ _ _ _ _ _ _ _ _ M Hbl Hb Hr Hp')|].
  fold s1. intros s2 Ha. pose proof Ha as [_ (p & path2 & sb & cb & _ & Hpr & Hsb & Hcb & Hsc) _ Kf Kh Ks _ Ka [K1 K2] (K3 & _)].
  change (runs (set_current_thread tc) s2 ?P) with (P tt (as_thread tc s2)). cbv beta.
  cbn [wait_until]. kstep. kstep. eapply (runs_rd pair_s pr); [exact Hpr|]. kstep. cbn [dp_connected]. cbn iota. kstep.
  pose proof (descriptor_handle _ _ _ _ _ _ Hd) as Hhd. destruct (Ks sk _ Hs1) as (d' & Hd' & Hdp).
  kstep. eapply (runs_upd sock_s sk); [exact Hd'|]. kstep.
  eapply (runs_upd handle_s hd); [objs; apply (Kh hd), Hhd|]. kstep. apply (HQ pr).
  pose proof (nb_place _ _ _ _ Hb) as Hpl'. split.
  - exists hd, sk, (set_ds_state dsocket_state_connected d').
    split; [|split; [by objs|exact Hdp]]. apply (descriptor_set _ _ _ _ _ op). eapply (descriptor_keep s).
    + exact K1.
    + exact K2.
    + intros th fi' Hth Hfi'. destruct (Hap _ _ Hth Hfi') as [Hx Hy].
      transitivity (obj_at (array_s 0) s2 (fi_fds fi')); [done|]. rewrite (Ka _ Hx Hy). by apply Ha1.
    + intros a w Hw. by apply (Kf a).
    + intros a w Hw. by apply (Kh a).
    + exact Hd.
  - eapply (accepted_end (as_thread ts s1) s2 _ ts fi fds tab j lst pr (ds_backlog vl) hd sk); try done.
    + destruct Htab as [T1 T2 T3]. split; [exact T1|exact T2|]. rewrite <- T3. by apply Ha1.
    + intros a Hna. by objs.
    + intros a Hna. by objs.
  - exists (DsocketPair true path2 cb 0 (dp_client_buffer_size p) (dp_client_fds p) sb 0 (s32 (dp_server_fds p + 1))).
    cbn [dp_server_buffer dp_server_buffer_pos dp_client_buffer dp_client_buffer_pos to_server to_client].
    objs. change (smem (as_thread tc s2)) with (smem s2). rewrite K3.
    split; [exact Hpr|]. split; [by apply heap_queue|]. split; [by apply heap_queue|]. split; [exact Hsc|].
    unfold heap_buffer, apart in *. split; split; try done; unfold apart; lia.
  - unfold NULL. lia.
Qed.
End Calls.

(** ** Properties *)

(** [connect] refuses.  A socket that has a pair gets [k_hel_error_already_connected]; and
    when the search of the list of sockets - which stops at the first socket whose address differs
    from the one asked for - finds none or one that does not listen, the answer is
    [k_hel_error_not_found].  Either way nothing changes. *)
Lemma connect_refuses {H : Type} `{KernelHeap H} `{Garbage} `{Image}
    (yield : M (st (kernel H)) unit) (fuel : nat) (s : st (kernel H)) (t h hd sk : Z) (op : dsocket_op)
    (v : dsocket) (addr : Z) :
  mc_msr (k_cpu (smgr s)) !! IA32_KERNEL_GS_BASE = Some t -> descriptor s t h hd sk op ->
  obj_at sock_s s sk = Some v ->
  (ds_pair v <> NULL ->
     k_driver_connect_impl yield fuel h addr s = Some (error k_hel_error_already_connected, s)) /\
  (forall path chain names, ds_pair v = NULL -> sock_address (smem s) addr path ->
     addressed s chain names path ->
     (forall vd, obj_at sock_s s (first_other chain names path) = Some vd ->
        first_other chain names path <> NULL -> ds_state vd <> dsocket_state_listening) ->
     k_driver_connect_impl yield fuel h addr s = Some (error k_hel_error_not_found, s)).
Proof.
  intros Ht Hd Hv. split.
  - intros Hp. apply Z.eqb_neq in Hp. assert (Hr : runs (k_driver_connect_impl yield fuel h addr) s
      (fun r s' => r = error k_hel_error_already_connected /\ s' = s)).
    { eapply runs_with_handle; [done|done|]. unfold connect_request. ksteps. rewrite Hp. by ksteps. }
    by apply runs_inv in Hr as (r & s' & -> & -> & ->).
  - intros path chain names Hp Ha Had Hno. assert (Hr : runs (k_driver_connect_impl yield fuel h addr) s
      (fun r s' => r = error k_hel_error_not_found /\ s' = s)).
    { eapply runs_with_handle; [done|done|]. kstep. eapply runs_connect_refused; try done. }
    by apply runs_inv in Hr as (r & s' & -> & -> & ->).
Qed.


