(* ===== verification/ConnectDemo.v ===== *)
(** ConnectDemo: a concrete client and server about to connect, and the theorems of [ConnectThms]
    applied to them. *)

From Stdlib Require Import ZArith Lia.
From stdpp Require Import prelude gmap.
From S2P Require Import Prelude Mem Spinlock Block Klibc Bitmap Frame.
From S2P Require Import PageTable Kernel Apic Thread Syscall KernelFacts KernelDemo.
From S2P Require Import SearchThms SocketFacts SocketThms ConnectFacts AcceptFacts ConnectThms.

(** The client is thread 300 with the socket 350 as descriptor 0, the server thread 400 with the
    listening socket 450 as descriptor 0; descriptor 1 of both is free.  The list of sockets is 16
    (the static head, whose address is "ab"), 450 (address "cd"), 350. *)
Definition meet_thread (fi : Z) : thread := Thread 1 false 0 0 NULL 0 NULL fi 0 0 false false kRunActive.
Definition meet_head : dsocket := Dsocket 450 0 1500 dsocket_state_disconnected 0 0 NULL NULL.
Definition meet_listener : dsocket := Dsocket 350 0 1510 dsocket_state_listening 8 0 460 NULL.
Definition meet_sock : dsocket := Dsocket NULL 0 1520 dsocket_state_disconnected 0 0 NULL NULL.
Definition meet_objects : objects := Objects
  {[ 300 := meet_thread 310; 400 := meet_thread 410 ]}
  {[ 310 := FileInfo 320 2 1; 410 := FileInfo 420 2 1 ]}
  {[ 330 := FdInfo 0 340; 430 := FdInfo 0 440 ]}
  {[ 340 := DsocketHandle normal_ops 350; 440 := DsocketHandle normal_ops 450 ]}
  {[ 16 := meet_head; 350 := meet_sock; 450 := meet_listener ]} ∅ ∅
  {[ 320 := [330; 0]; 420 := [430; 0]; 460 := [0; 0; 0; 0; 0; 0; 0; 0] ]}.

(** The addresses "ab" at 1600 and "cd" at 1610, a page for the caller at 4096, and the heap. *)
Lemma meet_base_sig : {m : mem | mapped m 1024 12288 /\ mapped m bump_lo bump_hi}.
Proof.
  exists (fill 1024 (Z.to_nat 11264) 0 (fill bump_lo (Z.to_nat (bump_hi - bump_lo)) 0 ∅)).
  split; intros a Ha; rewrite !fill_lookup; unfold bump_lo, bump_hi in *.
  - rewrite decide_True by lia. by eexists.
  - rewrite decide_False, decide_True by lia. by eexists.
Qed.
Definition meet_base : mem := proj1_sig meet_base_sig.
Lemma meet_base_mapped : mapped meet_base 1024 12288 /\ mapped meet_base bump_lo bump_hi.
Proof. exact (proj2_sig meet_base_sig). Qed.
Definition meet_mem : mem :=
  put_bytes 1500 [97; 98] (put_bytes 1510 [99; 100] (put_bytes 1520 [0; 0]
    (put_bytes 1600 [0; 97; 98; 0] (put_bytes 1610 [0; 99; 100; 0] meet_base)))).
Definition meet_machine : machine :=
  Machine 0 514 16 16 [] {[ IA32_KERNEL_GS_BASE := 300 ]} [0] None [] [] SPIN_INIT.
Definition meet_state : st (kernel Z) :=
  St meet_mem (Kern bump_lo (Bitmap 0 0) meet_objects demo_statics demo_apic meet_machine demo_boot).

Lemma meet_mem_mapped lo hi : mapped meet_base lo hi -> mapped meet_mem lo hi.
Proof.
  intros Hm a Ha. unfold meet_mem. rewrite !put_bytes_lookup.
  repeat (case_decide; [apply lookup_lt_is_Some_2; simpl in *; lia|]). by apply Hm.
Qed.

(** [meet_mem] holds a literal string at a literal address. *)
Ltac meet_holds :=
  repeat (apply holds_cons; split;
    [unfold load8, meet_mem; rewrite !put_bytes_lookup; cbn [length];
     repeat (case_decide; [first [exfalso; lia|reflexivity]|]); exfalso; lia|]);
  intros ? ? Hlk; by rewrite lookup_nil in Hlk.

Lemma meet_address_ab : sock_address meet_mem 1600 [97; 98].
Proof.
  split; [|unfold two64; simpl; lia|unfold PAGE_SIZE; simpl; lia]. exists 0. split; [|split].
  - assert (Hh : holds meet_mem 1600 [0]) by meet_holds. by apply holds_cons in Hh as [Hh _].
  - simpl. meet_holds.
  - by repeat constructor.
Qed.
Lemma meet_address_cd : sock_address meet_mem 1610 [99; 100].
Proof.
  split; [|unfold two64; simpl; lia|unfold PAGE_SIZE; simpl; lia]. exists 0. split; [|split].
  - assert (Hh : holds meet_mem 1610 [0]) by meet_holds. by apply holds_cons in Hh as [Hh _].
  - simpl. meet_holds.
  - by repeat constructor.
Qed.

Lemma meet_addressed path :
  length path = 2%nat -> addressed meet_state [16; 450; 350] [[97; 98]; [99; 100]; [0; 0]] path.
Proof.
  intros Hp. split.
  - split; [done|]. exists meet_head. split; [done|]. split; [done|].
    split; [done|]. exists meet_listener. split; [done|]. split; [done|].
    split; [done|]. by exists meet_sock.
  - repeat constructor; set_solver.
  - by repeat constructor.
  - repeat constructor; rewrite ?Hp; try done.
    + exists meet_head. split; [done|]. split; [simpl; meet_holds|unfold two64; simpl; lia].
    + exists meet_listener. split; [done|]. split; [simpl; meet_holds|unfold two64; simpl; lia].
    + exists meet_sock. split; [done|]. split; [simpl; meet_holds|unfold two64; simpl; lia].
Qed.

Lemma meet_descriptor_client : descriptor meet_state 300 0 340 350 normal_ops.
Proof. by eexists _, _, _, _. Qed.
Lemma meet_descriptor_server : descriptor meet_state 400 0 440 450 normal_ops.
Proof. by eexists _, _, _, _. Qed.

(** The same with the client's handle as [malloc] found it. *)
Definition fresh_state : st (kernel Z) := put_at handle_s 340 (DsocketHandle no_ops 350) meet_state.

(** ** Witnesses *)


Lemma bump_plenty n h : bump_lo <= h -> h + Z.of_nat n * (PAGE_SIZE + 16) <= bump_hi -> plenty n h.
Proof.
  revert h. induction n as [|n IH]; intros h Hlo Hhi; [done|]. intros size Hs.
  unfold PAGE_SIZE in *. assert (E : (h + (size + 16) <=? bump_hi) = true) by lia.
  assert (Hb : forall a h', bump_malloc size h = Some (a, h') -> a <> NULL /\ plenty n h').
  { intros a h'. unfold bump_malloc. rewrite E. intros [= <- <-]. unfold NULL, bump_lo in *.
    split; [lia|]. apply IH; unfold bump_lo; lia. }
  by split.
Qed.

Lemma meet_ready :
  meeting meet_state 300 0 350 1600 400 0 450 meet_sock meet_listener 420 [430; 0] 1 ∅.
Proof.
  split.
  - done.
  - exists 340, normal_ops. apply meet_descriptor_client.
  - done.
  - exists [97; 98], [16; 450; 350], [[97; 98]; [99; 100]; [0; 0]].
    split; [exact meet_address_ab|]. split; [by apply meet_addressed|done].
  - done.
  - exists [0; 0; 0; 0; 0; 0; 0; 0]. split; [done|]. simpl. lia.
  - exists 440, normal_ops. apply meet_descriptor_server.
  - split; [|done]. exists 410. split; [|done]. split; [by eexists|by eexists|done].
  - intros th fi Hth Hfi. assert (Hth' : th = meet_thread 310) by congruence || (injection Hth as <-; done).
    subst th. injection Hfi as <-. done.
  - split; [by apply bump_rep_empty; unfold bump_lo, bump_hi|].
    split; [apply (bump_plenty 8 bump_lo); unfold bump_lo, bump_hi, PAGE_SIZE; lia|].
    assert (Hlow : forall {T} (m : gmap Z T) a v, m !! a = Some v ->
      (forall b, is_Some (m !! b) -> b < bump_lo) -> placed ∅ a).
    { intros T m a v Ha Hm. right. left. apply (Hm a). by eexists. }
    unfold bump_lo in Hlow. split; intros a v Ha; eapply Hlow; try exact Ha; intros b Hb; simpl in Hb;
      repeat (apply lookup_insert_is_Some in Hb as [<-|[_ Hb]]; [lia|]);
      try (apply lookup_singleton_is_Some in Hb as <-; lia); by destruct Hb.
  - apply meet_mem_mapped, meet_base_mapped.
Qed.

