(* ===== verification/ScheduleThms.v ===== *)
(** ScheduleThms: the properties of the scheduler's choice, of the distribution of threads over
    processors and of the descriptor table. *)

From Stdlib Require Import ZArith Lia.
From stdpp Require Import prelude gmap.
From S2P Require Import Prelude Mem Spinlock Block Klibc Bitmap Frame.
From S2P Require Import PageTable Kernel Apic Thread KernelFacts KernelDemo SearchThms.

(** C33: [search].  With the lock free and a table whose used entries come first, it returns the
    first thread with the fewest jiffies among those in the wanted state on the wanted processor;
    when there is none it returns that processor's idle thread if the wanted state is [kRunNone]
    and NULL otherwise.  The lock is free again and nothing else has changed. *)
Theorem search_correct {H : Type} `{KernelHeap H} `{Garbage} `{Image}
    (s : st (kernel H)) (state : run_state) (cpu_id : Z) :
  lock (search_lock (k_static (smgr s))) = 0 ->
  Z.of_nat (length (threads (k_static (smgr s)))) = kMaxThreadCount ->
  threads_live s (drop 1 (threads (k_static (smgr s)))) ->
  0 <= cpu_id < Z.of_nat (length (idle_threads (k_static (smgr s)))) ->
  let l := in_use (drop 1 (threads (k_static (smgr s)))) in
  exists task, search state cpu_id s = Some (task, after_search s) /\
    ((exists i th, l !! i = Some task /\ task <> NULL /\ eligible (thread_map s) state cpu_id task th /\
        forall j p th', l !! j = Some p -> eligible (thread_map s) state cpu_id p th' ->
          th_jiffies th < th_jiffies th' \/ (th_jiffies th = th_jiffies th' /\ (i <= j)%nat)) \/
     ((forall j p th, l !! j = Some p -> ~ eligible (thread_map s) state cpu_id p th) /\
      (state = kRunNone -> idle_threads (k_static (smgr s)) !! Z.to_nat cpu_id = Some task) /\
      (state <> kRunNone -> task = NULL))).
Proof.
  intros Hl Hlen Hlive Hcpu l.
  enough (Hr : runs (search state cpu_id) s (fun task s' => s' = after_search s /\
    ((task <> NULL /\ first_least (thread_map s) state cpu_id l task) \/
     ((forall j p th, l !! j = Some p -> ~ eligible (thread_map s) state cpu_id p th) /\
      (state = kRunNone -> idle_threads (k_static (smgr s)) !! Z.to_nat cpu_id = Some task) /\
      (state <> kRunNone -> task = NULL))))).
  { apply runs_inv in Hr as (task & s' & E & -> & Hc). exists task. split; [exact E|].
    destruct Hc as [[Hn (i & th & Hi & He & Hmin)]|Hc]; [left|right; exact Hc].
    exists i, th. split_ands; try done; apply He. }
  apply runs_search; try done. intros task Hc. split; [done|].
  destruct Hc as [[Hn Hf]|[-> Hno]].
  - left. apply Z.eqb_neq in Hn as Hn'. rewrite Hn'. by split.
  - right. split; [exact Hno|]. rewrite Z.eqb_refl.
    destruct (lookup_lt_is_Some_2 (idle_threads (k_static (smgr s))) (Z.to_nat cpu_id)) as [t Ht]; [lia|].
    case_bool_decide as Hs; simpl; (split; [intros Hs'|intros Hs']); try done.
    by rewrite (nth_lookup_Some _ _ NULL _ Ht).
Qed.

(** Three threads on two processors, all ready: 500 and 600 on processor 0, 700 on processor 1. *)
Definition demo_thread (cpu j : Z) : thread :=
  Thread 1 false cpu j NULL 0 NULL NULL 0 0 false false kRunNone.
Definition search_state : st (kernel Z) :=
  St ∅ (Kern 500000 (Bitmap 0 0)
    (Objects {[ 500 := demo_thread 0 9; 600 := demo_thread 0 4; 700 := demo_thread 1 1 ]} ∅ ∅ ∅ ∅ ∅ ∅ ∅)
    (Statics ([NULL; 500; 600; 700] ++ replicate 4092 NULL) [800; 900] 0 SPIN_INIT SPIN_INIT true SPIN_INIT)
    demo_apic demo_machine demo_boot).

Lemma search_correct_witness :
  exists task, search kRunNone 0 search_state = Some (task, after_search search_state) /\ task = 600.
Proof.
  destruct (search_correct search_state kRunNone 0) as (task & E & Hc).
  - reflexivity.
  - vm_compute. reflexivity.
  - repeat constructor; by eexists.
  - simpl. lia.
  - exists task. split; [exact E|].
    assert (Hl : in_use (drop 1 (threads (k_static (smgr search_state)))) = [500; 600; 700]) by (vm_compute; reflexivity).
    rewrite Hl in Hc. destruct Hc as [(i & th & Hi & _ & (Ht & _ & Hcpu) & Hmin)|[Hno _]].
    + destruct (Hmin 1%nat 600 (demo_thread 0 4) eq_refl) as [?|?]; [by split_ands| |];
        destruct i as [|[|[|i]]]; simpl in Hi; try (by rewrite lookup_nil in Hi); injection Hi as <-;
        vm_compute in Ht; injection Ht as <-; simpl in *; lia.
    + destruct (Hno 0%nat 500 (demo_thread 0 9)); by split_ands.
Defined.

(** [alloc_cpu_id] deals threads out in turn.  From a counter below the number of processors,
    [n] calls return [(c + 0) mod cpus, (c + 1) mod cpus, ...]; so any [cpus] calls in a row return
    every processor exactly once, and nothing but the counter changes. *)
Lemma alloc_cpu_id_round_robin {H : Type} `{KernelHeap H} `{Garbage} `{Image} (s : st (kernel H)) (n : nat) :
  let cpus := cpu_count (k_apic (smgr s)) in
  let c := cpu_idx (k_static (smgr s)) in
  0 < cpus < two32 -> 0 <= c < cpus ->
  exists l, calls n alloc_cpu_id s = Some (l, with_idx ((c + Z.of_nat n) mod cpus) s) /\
    length l = n /\ (forall j x, l !! j = Some x -> x = (c + Z.of_nat j) mod cpus) /\
    (Z.of_nat n = cpus -> forall x, 0 <= x < cpus -> exists j, l !! j = Some x /\
       forall k, l !! k = Some x -> k = j).
Proof.
  intros cpus c Hcpus Hc.
  enough (Hr : runs (calls n alloc_cpu_id) s (fun l s' => s' = with_idx ((c + Z.of_nat n) mod cpus) s /\
    length l = n /\ forall j x, l !! j = Some x -> x = (c + Z.of_nat j) mod cpus)).
  { apply runs_inv in Hr as (l & s' & E & -> & Hlen & Hl). exists l. split_ands; try done.
    intros Hn x Hx. set (k := (x - c) mod cpus).
    assert (Hk : 0 <= k < cpus) by (apply Z.mod_pos_bound; lia).
    destruct (lookup_lt_is_Some_2 l (Z.to_nat k)) as [y Hy]; [lia|].
    assert (Hsolve : forall i, 0 <= i < cpus -> (c + i) mod cpus = x -> i = k).
    { intros i Hi E'. unfold k. rewrite <- E'. rewrite Zminus_mod_idemp_l.
      replace (c + i - c) with i by lia. symmetry. by apply Z.mod_small. }
    exists (Z.to_nat k). split.
    - rewrite Hy. f_equal. rewrite (Hl _ _ Hy), Z2Nat.id by lia. unfold k. rewrite Zplus_mod_idemp_r.
      replace (c + (x - c)) with x by lia. by apply Z.mod_small.
    - intros i Hi. pose proof (lookup_lt_Some _ _ _ Hi). symmetry in Hi.
      rewrite <- (Hsolve (Z.of_nat i)); [lia|lia|]. symmetry. by apply Hl. }
  apply runs_calls_alloc; [done|done|]. intros l Hlen Hl. by split_ands.
Qed.

(** [add_fd_info].  A thread without a descriptor table gets [-1]; otherwise the lowest free
    descriptor takes the new entry and is returned, and nothing else changes; when the table is
    full the answer is [-1] and nothing changes. *)
Lemma add_fd_info_correct {H : Type} `{KernelHeap H} `{Garbage} `{Image}
    (s : st (kernel H)) (t f : Z) :
  (forall th, obj_at thread_s s t = Some th -> th_file_info th = NULL ->
     add_fd_info t f s = Some (u64 (-1), s)) /\
  (forall fi fds l, fd_table s t fi fds l -> fi <> NULL ->
     (exists j, l !! j = Some NULL /\ (forall k p, l !! k = Some p -> (k < j)%nat -> p <> NULL) /\
        add_fd_info t f s = Some (Z.of_nat j, put_at (array_s 0) fds (<[j := f]> l) s)) \/
     (Forall (fun p => p <> NULL) l /\ add_fd_info t f s = Some (u64 (-1), s))).
Proof.
  split.
  - intros th Hth Hn. assert (Hr : runs (add_fd_info t f) s (fun r s' => r = u64 (-1) /\ s' = s)).
    { unfold add_fd_info. ksteps. rewrite Hn. by apply runs_ret. }
    by apply runs_inv in Hr as (r & s' & -> & -> & ->).
  - intros fi fds l Ht Hfi. destruct (free_fd l) as [j|] eqn:Ej.
    + left. apply free_fd_Some in Ej as Hj. exists j. destruct Hj as [Hj Hmin]. split_ands; try done.
      assert (Hr : runs (add_fd_info t f) s (fun r s' => r = Z.of_nat j /\
        s' = put_at (array_s 0) fds (<[j := f]> l) s)).
      { eapply runs_add_fd_info; [exact Ht|exact Hfi|]. by rewrite Ej. }
      by apply runs_inv in Hr as (r & s' & -> & -> & ->).
    + right. split; [by apply free_fd_None|].
      assert (Hr : runs (add_fd_info t f) s (fun r s' => r = u64 (-1) /\ s' = s)).
      { eapply runs_add_fd_info; [exact Ht|exact Hfi|]. by rewrite Ej. }
      by apply runs_inv in Hr as (r & s' & -> & -> & ->).
Qed.
