(* ===== verification/CreateFacts.v ===== *)
(** CreateFacts: the parts of thread creation: stacks from the frame allocator, register frames,
    address-space records and descriptor tables from the heap. *)

From Stdlib Require Import ZArith Lia.
From stdpp Require Import prelude gmap strings.
From S2P Require Import Prelude Mem Spinlock Block Klibc Bitmap Frame.
From S2P Require Import PageTable Kernel Apic Thread KernelFacts SearchThms.

(** The offsets the code relies on are those of the layout. *)
Lemma fx_state_layout :
  offset_of fx_state "fcw"%string = Some fx_fcw /\ offset_of fx_state "mxcsr"%string = Some fx_mxcsr /\
  foldr Z.add 0 fx_state.*2 = SIZEOF_FX_STATE.
Proof. by split_ands. Qed.

(** Sixteen frames from the first free one.  The allocator looks at that one only. *)
Lemma runs_alloc_frames16 s n Q :
  frames_ok s n -> (forall i, searched s i -> frame_free s i -> i + 16 <= 8 * n) ->
  (forall i m', searched s i -> frame_free s i ->
     bits_set (smem s) m' (bm_data (smgr s)) n (fun j => i <= j < i + 16) false ->
     Q (i * PAGE_SIZE) (with_mem m' s)) ->
  Q 0 s -> runs (alloc_frames (kThreadStackSize / PAGE_SIZE)) s Q.
Proof.
  intros Hf Hroom HQ1 HQ2. pose proof Hf as [Hok Hsz Had].
  change (kThreadStackSize / PAGE_SIZE) with 16. unfold alloc_frames. simpl negb. simpl b2z.
  apply runs_bind, (runs_find_range _ n); [done|lia|lia| |].
  - intros r Hr Hr0 Hle. assert (Hs : searched s r) by (unfold searched; lia).
    destruct (searched_lt _ _ _ Hf Hs) as [Hrs Hrn].
    assert (Hfree : frame_free s r) by (apply (bits_of_true s n); [done|lia|apply Hr; lia]).
    specialize (Hroom r Hs Hfree).
    unfold PAGE_SIZE in *. replace (r =? SIZE_MAX) with false by (unfold SIZE_MAX; lia).
    norm_words. apply runs_bind, (runs_set_range n); [done|lia|lia|].
    intros m' [I O E M]. apply runs_ret. norm_words. apply HQ1; [done|done|]. split; [| |done|done].
    + intros i Hi Hp. apply I; [done|lia].
    + intros i Hi Hne. apply O; [done|lia].
  - intros _. replace (SIZE_MAX =? SIZE_MAX) with true by done. by apply runs_ret.
Qed.

(** A memory that differs only where [P] says, and maps at least as much. *)
Record changed (m m' : mem) (P : Z -> Prop) : Prop := {
  ch_same : forall b, ~ P b -> m' !! b = m !! b;
  ch_mapped : forall lo hi, mapped m lo hi -> mapped m' lo hi
}.
Definition span (a n : Z) (b : Z) : Prop := a <= b < a + n.

Lemma changed_trans m m' m'' (P : Z -> Prop) :
  changed m m' P -> changed m' m'' P -> changed m m'' P.
Proof.
  intros [S1 M1] [S2 M2]. split; [|by intros lo hi ?%M1%M2].
  intros b Hb. by rewrite S2, S1.
Qed.
Lemma changed_weaken m m' (P Q : Z -> Prop) :
  changed m m' P -> (forall b, P b -> Q b) -> changed m m' Q.
Proof. intros [S M] HPQ. split; [|done]. intros b Hb. apply S. intros ?%HPQ. done. Qed.
Lemma store_le_changed n m a v m' : store_le n m a v = Some m' -> changed m m' (span a (Z.of_nat n)).
Proof.
  intros Hs. split.
  - intros b Hb. eapply store_le_lookup; [exact Hs|]. unfold span in Hb. lia.
  - intros lo hi Hm b Hb. rewrite (store_le_is_Some _ _ _ _ _ _ Hs). by apply Hm.
Qed.
Lemma store64_changed m a v m' : store64 m a v = Some m' -> changed m m' (span a 8).
Proof. apply (store_le_changed 8). Qed.
Lemma written_changed m m' a l : written m m' a l -> changed m m' (span a (Z.of_nat (length l))).
Proof. intros (_ & Ho & Hm). by split. Qed.

(** The words and bytes of a memory after a store. *)
Lemma load_le_changed n m m' P a :
  changed m m' P -> (forall b, a <= b < a + Z.of_nat n -> ~ P b) -> load_le n m' a = load_le n m a.
Proof. intros [S _] Hd. apply load_le_ext. intros b Hb. by apply S, Hd. Qed.
Lemma load64_changed m m' P a :
  changed m m' P -> (forall b, a <= b < a + 8 -> ~ P b) -> load64 m' a = load64 m a.
Proof. apply (load_le_changed 8). Qed.
Lemma holds_changed m m' P a l :
  changed m m' P -> (forall b, a <= b < a + Z.of_nat (length l) -> ~ P b) -> holds m a l -> holds m' a l.
Proof. intros [S _] Hd. apply holds_frame. intros b Hb. by apply S, Hd. Qed.

(** ** Register frames *)

(** The register frame of a new thread: it will start at [entry] in kernel mode with interrupts on. *)
Record new_frame (m : mem) (regs entry : Z) : Prop := {
  nf_rip : load64 m (regs + pr_rip) = Some entry;
  nf_rflags : load64 m (regs + pr_rflags) = Some 512;
  nf_rsp : load64 m (regs + pr_rsp) = Some (regs &! ~! 10);
  nf_cs : load64 m (regs + pr_cs) = Some 8;
  nf_ss : load64 m (regs + pr_ss) = Some 16;
  nf_ds : load64 m (regs + pr_ds) = Some 16;
  nf_es : load64 m (regs + pr_es) = Some 16;
  nf_zero : holds m regs (replicate 48 0)
}.
Record new_fpu (m : mem) (fpu : Z) : Prop := {
  nu_mxcsr : load_le 4 m (fpu + fx_mxcsr) = Some 8064;
  nu_fcw : load_le 2 m (fpu + fx_fcw) = Some 895
}.

Lemma new_frame_changed m m' P regs entry :
  changed m m' P -> (forall b, span regs SIZEOF_PT_REGS b -> ~ P b) ->
  new_frame m regs entry -> new_frame m' regs entry.
Proof.
  intros Hc Hd [F1 F2 F3 F4 F5 F6 F7 F8]. unfold span, SIZEOF_PT_REGS in Hd.
  split; try (erewrite load64_changed; [eassumption|exact Hc|intros b Hb; apply Hd;
    unfold pr_rip, pr_rflags, pr_rsp, pr_cs, pr_ss, pr_ds, pr_es in Hb; lia]).
  eapply holds_changed; [exact Hc| |exact F8]. rewrite length_replicate. intros b Hb. apply Hd. lia.
Qed.
Lemma new_fpu_changed m m' P fpu :
  changed m m' P -> (forall b, span fpu SIZEOF_FX_STATE b -> ~ P b) -> new_fpu m fpu -> new_fpu m' fpu.
Proof.
  intros Hc Hd [F1 F2]. unfold span, SIZEOF_FX_STATE in Hd.
  split; (erewrite load_le_changed; [eassumption|exact Hc|intros b Hb; apply Hd;
    unfold fx_mxcsr, fx_fcw in Hb; lia]).
Qed.

Lemma lnot10_range regs : 0 <= regs < two64 -> 0 <= regs &! ~! 10 < two64.
Proof.
  intros Hr. assert (E : Z.land regs (~! 10) = Z.land (Z.land regs (~! 10)) (Z.ones 64)).
  { rewrite <- Z.land_assoc, (Z.land_comm (~! 10)), Z.land_assoc.
    rewrite (Z.land_ones regs) by lia. rewrite Z.mod_small; [done|exact Hr]. }
  rewrite E, Z.land_ones by lia. apply Z.mod_pos_bound. lia.
Qed.

Lemma runs_sto_changed {X} a v (s : st X) Q :
  mapped (smem s) a (a + 8) ->
  (forall m', changed (smem s) m' (span a 8) -> load64 m' a = Some (u64 v) -> Q tt (with_mem m' s)) ->
  runs (sto a v) s Q.
Proof.
  intros Hm HQ. apply runs_sto; [done|]. intros m' Hs. apply HQ; [by eapply store64_changed|].
  by eapply load64_store64_eq.
Qed.

(** The words of a frame after a chain of stores, the last one first. *)
Ltac load_back :=
  repeat first
    [ eassumption
    | match goal with
      | Hc : changed ?m ?m' _ |- load64 ?m' _ = _ =>
          rewrite (load64_changed m m' _ _ Hc) by (unfold span; intros; lia)
      end ].

(** The stores of [arch_context_init] into a frame whose first words are zero. *)
Lemma runs_frame_words {X A} regs entry (c : M (st X) A) s Q :
  0 <= regs -> regs + 192 < two64 -> 0 <= entry < two64 -> mapped (smem s) regs (regs + 192) ->
  holds (smem s) regs (replicate 48 0) ->
  (forall m', new_frame m' regs entry -> changed (smem s) m' (span regs SIZEOF_PT_REGS) ->
     runs c (with_mem m' s) Q) ->
  runs (sto (regs +! pr_rflags) 512 ;; sto (regs +! pr_rip) entry ;;
        sto (regs +! pr_rsp) (regs &! ~! 10) ;; sto (regs +! pr_cs) 8 ;; sto (regs +! pr_ss) 16 ;;
        sto (regs +! pr_ds) 16 ;; sto (regs +! pr_es) 16 ;; c) s Q.
Proof.
  intros H0 H192 He Hms Hz HQ. pose proof (lnot10_range regs ltac:(lia)) as Hrsp.
  assert (Ha : forall o, 0 <= o <= 184 -> regs +! o = regs + o) by (intros o Ho; by norm_words).
  rewrite !Ha by (unfold pr_rflags, pr_rip, pr_rsp, pr_cs, pr_ss, pr_ds, pr_es; lia).
  assert (Hmap : forall m o, (forall lo hi, mapped (smem s) lo hi -> mapped m lo hi) -> 0 <= o <= 184 ->
    mapped m (regs + o) (regs + o + 8)).
  { intros m o Hc Ho. apply Hc. eapply mapped_sub; [exact Hms|lia|lia]. }
  assert (Hall : forall m m' o, 0 <= o <= 184 -> changed (smem s) m (span regs SIZEOF_PT_REGS) ->
    changed m m' (span (regs + o) 8) -> changed (smem s) m' (span regs SIZEOF_PT_REGS)).
  { intros m m' o Ho C C'. eapply changed_trans; [exact C|]. eapply changed_weaken; [exact C'|].
    unfold span, SIZEOF_PT_REGS. intros b. lia. }
  assert (C0 : changed (smem s) (smem s) (span regs SIZEOF_PT_REGS)) by done.
  unfold pr_rflags, pr_rip, pr_rsp, pr_cs, pr_ss, pr_ds, pr_es.
  do 7 (apply runs_bind; apply runs_sto_changed;
    [apply Hmap; [eapply ch_mapped; eassumption|lia]|];
    let m := fresh "m" in let C := fresh "C" in let L := fresh "L" in intros m C L; simpl in C, L;
    lazymatch goal with
    | Hc : changed (smem s) ?m1 (span regs SIZEOF_PT_REGS), C : changed ?m1 m _ |- _ =>
        assert (changed (smem s) m (span regs SIZEOF_PT_REGS)) by (eapply Hall; [|exact Hc|exact C]; lia); clear Hc
    end).
  rewrite u64_small in L0, L1 by lia. apply (HQ m5); [|assumption].
  split; unfold pr_rflags, pr_rip, pr_rsp, pr_cs, pr_ss, pr_ds, pr_es; try solve [load_back].
  repeat match goal with
    | Hc : changed ?m ?m' _ |- holds ?m' _ _ =>
        apply (holds_changed m m' _ _ _ Hc); [rewrite length_replicate; unfold span; intros; lia|]
    end.
  exact Hz.
Qed.

Section Create.
Context {H : Type} `{KernelHeap H} `{Garbage} `{Image}.
Implicit Types (s : st (kernel H)).
Abbreviation off := physical_memory_offset.

(** The frame allocator's part of the state. *)
Definition frames_of s : st bitmap := St (smem s) (k_frames (smgr s)).
Definition bm_lo s : Z := bm_data (k_frames (smgr s)).

(** The registers of the local APIC, where they are memory. *)
Definition lapic_window (a : apic) (b : Z) : Prop := x2apic_mode a = false /\ span (lapic_address a) PAGE_SIZE b.

(** A stack at [a] whose register frame, just below, is memory of its own. *)
Record good_stack s (n a : Z) : Prop := {
  gs_range : SIZEOF_PT_REGS <= a < two64;
  gs_mapped : mapped (smem s) (a - SIZEOF_PT_REGS) a;
  gs_bitmap : apart (a - SIZEOF_PT_REGS) SIZEOF_PT_REGS (bm_lo s) n;
  gs_heap : apart (a - SIZEOF_PT_REGS) SIZEOF_PT_REGS heap_lo (heap_hi - heap_lo);
  gs_window : forall b, lapic_window (k_apic (smgr s)) b -> ~ span (a - SIZEOF_PT_REGS) SIZEOF_PT_REGS b
}.

(** The allocator can give stacks: every frame it may hand out (and frame 0, its answer when it has
    none) has a good stack, and the heap is apart from the bitmap. *)
Record stacks_ok s (n : Z) : Prop := {
  so_frames : frames_ok (frames_of s) n;
  so_room : forall i, searched (frames_of s) i -> frame_free (frames_of s) i -> i + 16 <= 8 * n;
  so_off : 0 <= off;
  so_stack : forall i, i = 0 \/ (searched (frames_of s) i /\ frame_free (frames_of s) i) ->
    good_stack s n (off + i * PAGE_SIZE);
  so_heap : apart (bm_lo s) n heap_lo (heap_hi - heap_lo);
  so_mapped : mapped (smem s) heap_lo heap_hi;
  so_window : forall b, lapic_window (k_apic (smgr s)) b ->
    ~ span (bm_lo s) n b /\ ~ span heap_lo (heap_hi - heap_lo) b
}.

(** A memory that keeps the bitmap and maps at least as much. *)
Record keeps (m m' : mem) (lo n : Z) : Prop := {
  ks_same : forall b, lo <= b < lo + n -> m' !! b = m !! b;
  ks_mapped : forall lo hi, mapped m lo hi -> mapped m' lo hi
}.

Lemma good_stack_mono s s' n a :
  (forall lo hi, mapped (smem s) lo hi -> mapped (smem s') lo hi) -> k_frames (smgr s') = k_frames (smgr s) ->
  k_apic (smgr s') = k_apic (smgr s) -> good_stack s n a -> good_stack s' n a.
Proof.
  intros Hm Hk Ha [G1 G2 G3 G4 G5]. split; [done|by apply Hm| |done|by rewrite Ha].
  unfold bm_lo in *. by rewrite Hk.
Qed.

Lemma stacks_ok_keeps s s' n :
  keeps (smem s) (smem s') (bm_lo s) n -> k_frames (smgr s') = k_frames (smgr s) ->
  k_apic (smgr s') = k_apic (smgr s) -> stacks_ok s n -> stacks_ok s' n.
Proof.
  intros [Hs Hm] Hk Ha [[[B1 B2 B3 B4] F2 F3] R O S A M W].
  assert (Hfr : forall i, searched (frames_of s') i -> searched (frames_of s) i).
  { unfold searched, frames_of. simpl. by rewrite Hk. }
  assert (Hfree : forall i, 0 <= i < 8 * n -> frame_free (frames_of s') i -> frame_free (frames_of s) i).
  { intros i Hi. unfold frame_free, frames_of, bit_at, load8. simpl. rewrite Hk.
    rewrite (Hs (bm_data (k_frames (smgr s)) + i / 8)); [done|]. unfold bm_lo.
    Z.div_mod_to_equations. lia. }
  assert (Hok : frames_ok (frames_of s') n).
  { unfold frames_of in *. rewrite Hk. simpl in *. split; [split; simpl; try done; by apply Hm|done|done]. }
  assert (Hlt : forall i, searched (frames_of s') i -> 0 <= i < 8 * n).
  { intros i Hi. destruct (searched_lt _ _ _ Hok Hi). lia. }
  split; [exact Hok| |exact O| | |by apply Hm|unfold bm_lo; by rewrite Hk, Ha].
  - intros i Hi Hf. apply R; [by apply Hfr|]. apply Hfree; [by apply Hlt|done].
  - intros i Hi. apply (good_stack_mono s); [done|done|done|]. apply S.
    destruct Hi as [->|[Hi Hf]]; [by left|]. right. split; [by apply Hfr|]. apply Hfree; [by apply Hlt|done].
  - unfold bm_lo in *. by rewrite Hk.
Qed.

(** Where the allocator may put a stack. *)
Definition stack_place s (a : Z) : Prop :=
  exists i, (i = 0 \/ (searched (frames_of s) i /\ frame_free (frames_of s) i)) /\ a = off + i * PAGE_SIZE.

Lemma runs_alloc_stack s n Q :
  stacks_ok s n ->
  (forall a m', stack_place s a -> good_stack s n a -> stacks_ok (with_mem m' s) n ->
     changed (smem s) m' (span (bm_lo s) n) -> Q a (with_mem m' s)) ->
  runs alloc_stack s Q.
Proof.
  intros Hok HQ. pose proof Hok as [F R O S A M W]. unfold alloc_stack. apply runs_bind, runs_on_frames.
  fold (frames_of s). apply (runs_alloc_frames16 _ n); [done|done| |].
  - intros i m' Hi Hf Hb. pose proof (S i (or_intror (conj Hi Hf))) as Hg.
    pose proof Hb as [_ _ Be Bm]. pose proof (gs_range _ _ _ Hg). apply runs_ret.
    assert (E : phys_to_virt off (i * PAGE_SIZE) = off + i * PAGE_SIZE).
    { unfold phys_to_virt, add64. rewrite u64_small; [lia|]. unfold SIZEOF_PT_REGS in *. lia. }
    rewrite E. replace (St (smem (with_mem m' (frames_of s)))
      (set_k_frames (smgr (with_mem m' (frames_of s))) (smgr s))) with (with_mem m' s)
      by (unfold with_mem; simpl; by destruct (smgr s)).
    apply HQ; [exists i; auto|done| |by split].
    assert (Hok' : frames_ok (frames_of (with_mem m' s)) n).
    { destruct F as [F1 F2 F3]. split; [by eapply bm_ok_set|done|done]. }
    assert (Hfree : forall j, searched (frames_of s) j -> frame_free (frames_of (with_mem m' s)) j ->
      frame_free (frames_of s) j).
    { intros j Hj. destruct (searched_lt _ _ _ F Hj) as [_ Hlt]. unfold frame_free. simpl.
      unfold searched in Hj. destruct (decide (i <= j < i + 16)).
      - rewrite (bs_in _ _ _ _ _ _ Hb) by lia. done.
      - rewrite (bs_out _ _ _ _ _ _ Hb) by lia. done. }
    split; [exact Hok'| |exact O| |exact A|by apply Bm|exact W].
    + intros j Hj Hjf. apply R; [done|by apply Hfree].
    + intros j Hj. apply (good_stack_mono s); [done|done|done|]. apply S.
      destruct Hj as [->|[Hj Hjf]]; [by left|]. right. split; [done|by apply Hfree].
  - pose proof (S 0 (or_introl eq_refl)) as Hg. pose proof (gs_range _ _ _ Hg). apply runs_ret.
    assert (E : phys_to_virt off 0 = off + 0 * PAGE_SIZE).
    { unfold phys_to_virt, add64. rewrite u64_small; [lia|]. unfold SIZEOF_PT_REGS in *. lia. }
    rewrite E. replace (St (smem (frames_of s)) (set_k_frames (smgr (frames_of s)) (smgr s))) with (with_mem (smem s) s)
      by (unfold with_mem; simpl; by destruct (smgr s)).
    apply HQ; [exists 0; auto|done| |done]. replace (with_mem (smem s) s) with s by by destruct s. done.
Qed.

Lemma runs_aligned_bytes size n l s Q :
  heap_is s l -> plenty (S n) (k_heap (smgr s)) -> 0 <= size <= PAGE_SIZE ->
  (forall a k h', new_block size a k l -> heap_rep h' (<[a := k]> l) -> plenty n h' ->
     Q a (with_heap h' s)) ->
  runs (aligned_bytes 16 size) s Q.
Proof.
  intros Hl Hp Hs HQ. unfold runs, aligned_bytes.
  destruct (kaligned_spec _ _ size Hl) as (a & h' & E & Hg); [unfold PAGE_SIZE, two32 in *; lia|].
  destruct (Hp size Hs) as [_ Hp2]. destruct (Hp2 _ _ E) as [Hn Hp'].
  destruct (grants_new _ _ _ _ Hg Hn) as (k & Hb & Hr). rewrite E. by eapply HQ.
Qed.
Lemma runs_sto32 a v s Q :
  mapped (smem s) a (a + 4) ->
  (forall m', changed (smem s) m' (span a 4) -> load_le 4 m' a = Some (v mod two32) -> Q tt (with_mem m' s)) ->
  runs (sto32 a v) s Q.
Proof.
  intros Hm HQ. destruct (store_le_Some 4 _ _ v Hm) as [m' Hs].
  apply runs_bind, runs_gets, runs_bind. eapply runs_of_opt; [exact Hs|]. apply runs_modify, HQ.
  - by apply (store_le_changed 4 _ _ v).
  - by eapply (load_store_le 4).
Qed.
Lemma runs_sto16 a v s Q :
  mapped (smem s) a (a + 2) ->
  (forall m', changed (smem s) m' (span a 2) -> load_le 2 m' a = Some (v mod 65536) -> Q tt (with_mem m' s)) ->
  runs (sto16 a v) s Q.
Proof.
  intros Hm HQ. destruct (store_le_Some 2 _ _ v Hm) as [m' Hs].
  apply runs_bind, runs_gets, runs_bind. eapply runs_of_opt; [exact Hs|]. apply runs_modify, HQ.
  - by apply (store_le_changed 2 _ _ v).
  - by eapply (load_store_le 2).
Qed.

Lemma runs_arch_context_init entry stack n l s Q :
  heap_is s l -> plenty (2 + n) (k_heap (smgr s)) -> 0 <= entry < two64 ->
  SIZEOF_PT_REGS <= stack < two64 ->
  mapped (smem s) (stack - SIZEOF_PT_REGS) stack -> mapped (smem s) heap_lo heap_hi ->
  apart (stack - SIZEOF_PT_REGS) SIZEOF_PT_REGS heap_lo (heap_hi - heap_lo) ->
  (forall ctx fpu k1 k2 h' m',
     new_block SIZEOF_ARCH_CONTEXT ctx k1 l -> new_block SIZEOF_FX_STATE fpu k2 (<[ctx := k1]> l) ->
     heap_rep h' (<[fpu := k2]> (<[ctx := k1]> l)) -> plenty n h' ->
     new_frame m' (stack - SIZEOF_PT_REGS) entry -> new_fpu m' fpu ->
     changed (smem s) m' (fun b => span (stack - SIZEOF_PT_REGS) SIZEOF_PT_REGS b \/ span fpu SIZEOF_FX_STATE b) ->
     Q ctx (put_at context_s ctx (ArchContext (stack - SIZEOF_PT_REGS) fpu 16 16 0 0)
       (with_heap h' (with_mem m' s)))) ->
  runs (arch_context_init entry stack) s Q.
Proof.
  intros Hl Hp He Hst Hms Hmh Hap HQ. unfold arch_context_init.
  apply runs_bind. eapply runs_malloc_obj; [exact Hl|exact Hp|vm_compute; split; congruence|].
  intros ctx k1 h1 Hb1 Hr1 Hp1.
  assert (Er : stack -! SIZEOF_PT_REGS = stack - SIZEOF_PT_REGS).
  { unfold SIZEOF_PT_REGS in *. by norm_words. }
  rewrite Er. set (regs := stack - SIZEOF_PT_REGS) in *.
  assert (Hregs : 0 <= regs /\ regs + 192 < two64) by (unfold regs, SIZEOF_PT_REGS in *; lia).
  replace stack with (regs + 192) in Hms by (unfold regs, SIZEOF_PT_REGS; lia).
  ksteps. apply runs_memset; [lia|done|unfold SIZEOF_ARCH_CONTEXT; lia| |]; objs.
  { eapply mapped_sub; [exact Hms|lia|unfold SIZEOF_ARCH_CONTEXT; lia]. }
  intros m0 Hw. pose proof (written_changed _ _ _ _ Hw) as C0. rewrite length_replicate in C0.
  destruct Hw as (Hz & _ & Hm0). change (Z.of_nat (Z.to_nat SIZEOF_ARCH_CONTEXT)) with 48 in C0.
  apply runs_frame_words; [lia|lia|done|by apply Hm0|exact Hz|]. intros m1 F1 C1. simpl in C1.
  ksteps. eapply runs_aligned_bytes; [exact Hr1|exact Hp1|vm_compute; split; congruence|].
  intros fpu k2 h2 Hb2 Hr2 Hp2. ksteps.
  assert (Hblk : 0 <= fpu /\ fpu + 512 < two64 /\ heap_lo <= fpu /\ fpu + 512 <= heap_hi).
  { destruct Hb2 as [Hs2 Hpl _ _]. unfold SIZEOF_FX_STATE in Hs2. lia. }
  destruct Hblk as (? & ? & ? & ?). unfold fx_mxcsr, fx_fcw.
  replace (fpu +! 24) with (fpu + 24) by (by norm_words).
  replace (fpu +! 0) with fpu by (norm_words; lia).
  assert (Hf1 : mapped m1 fpu (fpu + 512)).
  { apply C1, Hm0. eapply mapped_sub; [exact Hmh|lia|lia]. }
  apply runs_sto32; objs; [eapply mapped_sub; [exact Hf1|lia|lia]|]. intros m2 C2 L2. apply runs_bind.
  apply runs_sto16; objs; [eapply mapped_sub; [by apply C2|lia|lia]|]. intros m3 C3 L3. apply runs_ret.
  specialize (HQ ctx fpu k1 k2 h2 m3 Hb1 Hb2 Hr2 Hp2). tidy.
  assert (Hd : forall b, span regs SIZEOF_PT_REGS b -> ~ span fpu SIZEOF_FX_STATE b).
  { intros b. unfold apart, span, SIZEOF_PT_REGS, SIZEOF_FX_STATE in *. lia. }
  assert (C13 : changed m1 m3 (span fpu SIZEOF_FX_STATE)).
  { eapply changed_trans; (eapply changed_weaken; [eassumption|]); intros b;
      unfold span, SIZEOF_FX_STATE; lia. }
  apply HQ.
  - by eapply new_frame_changed.
  - split; unfold fx_mxcsr, fx_fcw.
    + erewrite load_le_changed; [exact L2|exact C3|]. unfold span. intros b. lia.
    + rewrite Z.add_0_r. exact L3.
  - eapply changed_trans; [|eapply changed_weaken; [exact C13|by right]].
    eapply changed_trans; (eapply changed_weaken; [eassumption|]); intros b Hb; left; [|done].
    unfold span, SIZEOF_PT_REGS in *. lia.
Qed.

(** ** Address-space records and descriptor tables *)

Lemma runs_new_mm n l s Q :
  heap_is s l -> plenty (S n) (k_heap (smgr s)) -> mapped (smem s) heap_lo heap_hi ->
  0 <= mc_cr3 (k_cpu (smgr s)) < two64 ->
  (forall mm k h' m', new_block SIZEOF_MM_CONTEXT mm k l -> heap_rep h' (<[mm := k]> l) -> plenty n h' ->
     load64 m' (page_table_phys_of mm) = Some (mc_cr3 (k_cpu (smgr s))) ->
     load64 m' (ref_count_of mm) = Some 1 -> changed (smem s) m' (span mm SIZEOF_MM_CONTEXT) ->
     Q mm (with_heap h' (with_mem m' s))) ->
  runs new_mm s Q.
Proof.
  intros Hl Hp Hmh Hc HQ. unfold new_mm.
  apply runs_bind. eapply runs_malloc_bytes; [exact Hl|exact Hp|vm_compute; split; congruence|].
  intros mm k h' Hb Hr Hp'. specialize (HQ mm k h').
  assert (Hblk : 0 <= mm /\ mm + 16 < two64 /\ heap_lo <= mm /\ mm + 16 <= heap_hi).
  { destruct Hb as [Hs2 Hpl _ _]. unfold SIZEOF_MM_CONTEXT in Hs2. lia. }
  destruct Hblk as (? & ? & ? & ?). assert (Hm : mapped (smem s) mm (mm + 16)) by (eapply mapped_sub; [exact Hmh|lia|lia]).
  unfold ref_count_of, page_table_phys_of, SIZEOF_MM_CONTEXT in *.
  replace (mm +! 8) with (mm + 8) in * by (by norm_words).
  apply runs_bind, runs_memset; objs; [lia|lia|lia|exact Hm|]. intros m0 Hw.
  pose proof (written_changed _ _ _ _ Hw) as C0. rewrite length_replicate in C0. destruct Hw as (Hz & _ & _).
  apply runs_bind, runs_cpu, runs_bind.
  apply runs_sto_changed; objs; [apply C0; eapply mapped_sub; [exact Hm|lia|lia]|]. intros m1 C1 L1.
  assert (L0 : load64 m1 (mm + 8) = Some 0).
  { rewrite (load64_changed _ _ _ _ C1) by (unfold span; intros; lia).
    apply (load_le_zeros 8). apply (holds_app _ _ (replicate 8 0)) in Hz as [_ Hz]. exact Hz. }
  apply runs_bind. eapply runs_ld; [exact L0|]. apply runs_bind.
  apply runs_sto_changed; objs; [apply C1, C0; eapply mapped_sub; [exact Hm|lia|lia]|]. intros m2 C2 L2.
  apply runs_ret. change (smgr (with_heap h' s)) with (set_k_heap h' (smgr s)) in L1. simpl in L1.
  rewrite u64_small in L1 by lia. tidy. apply HQ; try done.
  - by load_back.
  - change (Z.of_nat (Z.to_nat 16)) with 16 in C0.
    eapply changed_trans; [exact C0|].
    eapply changed_trans; (eapply changed_weaken; [eassumption|]); intros b; unfold span; lia.
Qed.

Lemma put_array_file p v q w s :
  put_at (array_s 0) p v (put_at file_s q w s) = put_at file_s q w (put_at (array_s 0) p v s).
Proof. done. Qed.

Lemma runs_new_file_info n l s Q :
  heap_is s l -> plenty (2 + n) (k_heap (smgr s)) ->
  (forall fi fds k1 k2 h',
     new_block SIZEOF_FILE_INFO fi k1 l -> new_block (8 * DEFAULT_FD_NUM) fds k2 (<[fi := k1]> l) ->
     heap_rep h' (<[fds := k2]> (<[fi := k1]> l)) -> plenty n h' ->
     Q fi (put_at file_s fi (FileInfo fds DEFAULT_FD_NUM 1)
       (put_at (array_s 0) fds (replicate (Z.to_nat DEFAULT_FD_NUM) NULL) (with_heap h' s)))) ->
  runs new_file_info s Q.
Proof.
  intros Hl Hp HQ. unfold new_file_info. apply runs_bind.
  eapply runs_malloc_obj; [exact Hl|exact Hp|vm_compute; split; congruence|]. intros fi k1 h1 Hb1 Hr1 Hp1.
  ksteps. eapply runs_malloc_obj; [exact Hr1|exact Hp1|vm_compute; split; congruence|].
  intros fds k2 h2 Hb2 Hr2 Hp2. rewrite put_array. ksteps. specialize (HQ fi fds k1 k2 h2 Hb1 Hb2 Hr2 Hp2).
  repeat first [progress tidy | rewrite put_array_file]. exact HQ.
Qed.
End Create.
