(* ===== verification/Descriptors.v ===== *)
(** Descriptors: the segment descriptors and task-state segments ([arch/x86_64/gdt.cpp], [gdt.hpp],
    [tss_init] of [apic.cpp]), the interrupt gates ([arch/x86_64/idt.cpp]) and the registers of the
    SYSCALL instruction ([arch/x86_64/syscall.cpp]): definitions.

    The tables are bytes of the shared memory; the registers that point to them are in [boot]. *)

From Stdlib Require Import ZArith Lia.
From stdpp Require Import prelude gmap.
From S2P Require Import Prelude Mem Spinlock Block Klibc Bitmap Frame.
From S2P Require Import PageTable Kernel Apic Thread.

Definition MAX_CPU_NUM : Z := 64.

(** [entry.S]: the entry points that the gates lead to. *)
Inductive isr :=
  | divide_error | debug | nmi | int3 | overflow | bounds | undefined_opcode | dev_not_avaliable
  | double_fault | coprocessor_segment_overrun | invalid_TSS | segment_not_exists
  | stack_segment_fault | general_protection | page_fault | x87_FPU_error | alignment_check
  | machine_check | SIMD_exception | virtualization_exception | lapic_timer.
#[export] Instance isr_eq_dec : EqDecision isr.
Proof. solve_decision. Defined.

(** What the linker chooses: the addresses of the tables, of [tss] and of the entry points. *)
Class Tables := {
  gdt_entries : Z;
  idt_table : Z;
  tss : Z;
  entry_of : isr -> Z;
  asm_syscall_handler : Z
}.

Definition SIZEOF_GDT : Z := 8 * (10 + MAX_CPU_NUM * 2).
Definition SIZEOF_IDT : Z := 16 * 256.
(** Packed: a word of 4 bytes, twelve of 8, two of 2, and the bitmap of the I/O ports. *)
Definition SIZEOF_TSS : Z := 4 + 8 * 12 + 2 * 2 + 65536 / 8.

(** The low 16 bits of a register, which [movw] writes, and the rest. *)
Definition u16 (z : Z) : Z := z mod 65536.
Definition movw (from to : Z) : Z := to - u16 to + u16 from.

(** ** The registers of [_set_gate] *)

(** The two words of the gate, and what is left in RCX. *)
Definition gate_words (attr ist code_addr : Z) : Z * Z * Z :=
  let rax := Z.shiftl 8 16 in
  let rdx := code_addr in
  let rcx := ist in
  let rax := movw rdx rax in
  let rcx := rcx &! 7 in
  let rcx := rcx +! Z.shiftl attr 8 in
  let rcx := u64 (Z.shiftl rcx 32) in
  let rax := rax +! rcx in
  let rcx := Z.lxor rcx rcx in
  let rcx := u32 rdx in
  let rcx := Z.shiftr rcx 16 in
  let rcx := u64 (Z.shiftl rcx 48) in
  let rax := rax +! rcx in
  let rdx := Z.shiftr rdx 32 in
  (rax, rdx, rcx).

Section Descriptors.
Context {H : Type} `{KernelHeap H} `{Garbage} `{Image} `{Tables}.
Abbreviation KM := (M (st (kernel H))).

(** ** gdt.cpp *)

(** [&gdt_entries[n]] *)
Definition gdt_slot (n : Z) : Z := gdt_entries +! n *! 8.

Definition set_tss_descriptor (n addr : Z) : KM unit :=
  let limit := SIZEOF_TSS in
  sto (gdt_slot n)
    (limit &! 65535 |! u64 (Z.shiftl (addr &! 65535) 16) |!
     u64 (Z.shiftl (Z.shiftr addr 16 &! 255) 32) |! u64 (Z.shiftl 137 40) |!
     u64 (Z.shiftl (Z.shiftr limit 16 &! 15) 48) |! u64 (Z.shiftl (Z.shiftr addr 24 &! 255) 56)) ;;
  sto (gdt_slot (u32 (n + 1))) (Z.shiftr addr 32 &! 4294967295 |! 0).

(** [lgdt], and the loads of the segment registers that follow it. *)
Definition load_gdt : KM unit :=
  with_boot (set_bt_gdtr (u16 (u32 SIZEOF_GDT - 1), gdt_entries)) ;;
  with_boot (set_bt_cs 8) ;;
  with_boot (set_bt_ds 16) ;;
  with_cpu (set_mc_fs 16) ;;
  with_cpu (set_mc_gs 16) ;;
  with_boot (set_bt_es 16) ;;
  with_boot (set_bt_ss 16).

Definition gdt_init : KM unit :=
  memset gdt_entries 0 SIZEOF_GDT ;;
  sto (gdt_slot 0) 0 ;;
  sto (gdt_slot 1) 45205321064382464 ;; (* 0x00a09a0000000000 *)
  sto (gdt_slot 2) 54203724226101248 ;; (* 0x00c0920000000000 *)
  sto (gdt_slot 3) 54309277342367744 ;; (* 0x00c0f20000000000 *)
  sto (gdt_slot 4) 45310874180648960 ;; (* 0x00a0fa0000000000 *)
  load_gdt.
Definition gdt_init_ap : KM unit := load_gdt.

(** ** gdt.hpp, and [tss_init] of apic.cpp *)

(** [set_tss64(&tss[id], ...)]: [rsp0] is a field of the machine, the others are in [bt_tss]. *)
Definition set_tss64 (id rsp0 : Z) (others : list Z) : KM unit :=
  l0 <- cpu mc_rsp0 ;; l <- of_boot bt_tss ;;
  if (id <? 0) || (Z.of_nat (length l0) <=? id) || (Z.of_nat (length l) <=? id) then stuck
  else
    with_cpu (set_mc_rsp0 (<[Z.to_nat id := rsp0]> l0)) ;;
    with_boot (set_bt_tss (<[Z.to_nat id := others]> l)).

Definition ltr (n : Z) : KM unit := with_boot (set_bt_tr (u16 (Z.shiftl n 3))).

Definition tss_init : KM unit :=
  frames <- on_frames (alloc_frames (kThreadStackSize / PAGE_SIZE)) ;;
  let sp := phys_to_virt physical_memory_offset frames +! kThreadStackSize in
  id <- get_current_cpu_id ;;
  let offset := 10 + id * 2 in
  id <- get_current_cpu_id ;;
  set_tss64 id sp [sp; sp; sp; sp; sp; sp; sp; sp; sp] ;;
  id <- get_current_cpu_id ;;
  set_tss_descriptor offset (tss +! id *! SIZEOF_TSS) ;;
  ltr offset.

(** ** idt.cpp *)

Definition _set_gate (gate_selector_addr attr ist code_addr : Z) : KM unit :=
  let '(rax, rdx, _) := gate_words attr ist code_addr in
  sto gate_selector_addr rax ;;
  sto (gate_selector_addr +! 8) rdx.

(** [idt_table + n] *)
Definition idt_slot (n : Z) : Z := idt_table +! n *! 16.

Definition set_intr_gate (n ist addr : Z) : KM unit := _set_gate (idt_slot n) 142 ist addr.
Definition set_trap_gate (n ist addr : Z) : KM unit := _set_gate (idt_slot n) 143 ist addr.
Definition set_system_trap_gate (n ist addr : Z) : KM unit := _set_gate (idt_slot n) 239 ist addr.

Definition load_idt : KM unit := with_boot (set_bt_idtr (u16 (u32 SIZEOF_IDT - 1), idt_table)).

Definition idt_init : KM unit :=
  set_trap_gate 0 0 (entry_of divide_error) ;;
  set_trap_gate 1 0 (entry_of debug) ;;
  set_intr_gate 2 0 (entry_of nmi) ;;
  set_system_trap_gate 3 0 (entry_of int3) ;;
  set_system_trap_gate 4 0 (entry_of overflow) ;;
  set_system_trap_gate 5 0 (entry_of bounds) ;;
  set_trap_gate 6 0 (entry_of undefined_opcode) ;;
  set_trap_gate 7 0 (entry_of dev_not_avaliable) ;;
  set_trap_gate 8 0 (entry_of double_fault) ;;
  set_trap_gate 9 0 (entry_of coprocessor_segment_overrun) ;;
  set_trap_gate 10 0 (entry_of invalid_TSS) ;;
  set_trap_gate 11 0 (entry_of segment_not_exists) ;;
  set_trap_gate 12 0 (entry_of stack_segment_fault) ;;
  set_trap_gate 13 0 (entry_of general_protection) ;;
  set_trap_gate 14 0 (entry_of page_fault) ;;
  set_trap_gate 16 0 (entry_of x87_FPU_error) ;;
  set_trap_gate 17 0 (entry_of alignment_check) ;;
  set_trap_gate 18 0 (entry_of machine_check) ;;
  set_trap_gate 19 0 (entry_of SIMD_exception) ;;
  set_trap_gate 20 0 (entry_of virtualization_exception) ;;
  set_intr_gate idx_timer 0 (entry_of lapic_timer) ;;
  load_idt.
Definition idt_init_ap : KM unit := load_idt.

(** ** syscall.cpp *)

Definition MSR_EFER : Z := 3221225600. (* 0xC0000080 *)
Definition MSR_STAR : Z := 3221225601.
Definition MSR_LSTAR : Z := 3221225602.
Definition MSR_SYSCALL_MASK : Z := 3221225604.

Definition syscall_init : KM unit :=
  efer <- rdmsr MSR_EFER ;;
  let efer := efer |! 1 in
  let star := u64 (Z.shiftl ((24 |! 3) - 8) 48) |! u64 (Z.shiftl 8 32) in
  wrmsr MSR_EFER efer ;;
  wrmsr MSR_STAR star ;;
  wrmsr MSR_LSTAR asm_syscall_handler ;;
  wrmsr MSR_SYSCALL_MASK (Z.shiftl 1 9).
End Descriptors.
