(* ===== verification/Firmware.v ===== *)
(** Firmware: the search of the ACPI tables ([arch/x86_64/acpi.cpp]), the HPET
    ([arch/x86_64/hpet.cpp]), and the set-up of the interrupt controllers and of the other processors
    ([arch/x86_64/apic.cpp]): definitions.

    The registers of the HPET and the local APIC that answer with the time are streams: what the
    main counter will answer is in the state, what the timer of the local APIC has counted down to
    when it is read is an argument. *)

From Stdlib Require Import ZArith Lia.
From stdpp Require Import prelude gmap.
From S2P Require Import Prelude Mem Spinlock Block Klibc Bitmap Frame.
From S2P Require Import PageTable Kernel Apic Thread Descriptors.

(** ** acpi.hpp: the layout of the tables *)

Definition SIZEOF_ACPI_HEADER : Z := 36.
Definition header_signature : Z := 0.
Definition header_length : Z := 4.
Definition rsdp_xsdt_address : Z := 24.
Definition xsdt_pointers : Z := SIZEOF_ACPI_HEADER.
Definition madt_local_apic_address : Z := SIZEOF_ACPI_HEADER.
Definition madt_entries : Z := 44.
Definition SIZEOF_MADT : Z := 52.
Definition madt_header_entry_type : Z := 0.
Definition madt_header_length : Z := 1.
Definition madt_io_apic_address : Z := 4.
Definition hpet_base_address : Z := 40.
Definition generic_address_address : Z := 4.
Definition hpet_info_generalCapabilities : Z := 0.
Definition hpet_info_generalConfiguration : Z := 16.

Definition MADT_APIC_IO : Z := 1.
Definition LAPIC_REG_TIMER_INITCNT : Z := 896.  (* 0x380 *)
Definition LAPIC_REG_TIMER : Z := 800.          (* 0x320 *)
Definition LAPIC_REG_SPURIOUS : Z := 240.       (* 0xf0 *)
Definition LAPIC_REG_TIMER_DIV : Z := 992.      (* 0x3e0 *)
Definition LAPIC_TIMER_SPEED : Z := 50.

(** ** What the boot loader answers, and what the linker and the stack hold *)

(** One processor of the boot loader's list: [goto_at] is the address of its [goto_address]. *)
Record mp_info := MpInfo { processor_id : Z; mp_lapic_id : Z; goto_at : Z }.

Class BootInfo := {
  rsdp_address : Z;
  mp_cpus : list mp_info;
  bsp_lapic_id : Z;
  ap_entry_address : Z;
  signa : Z;
  str_HPET : Z;
  str_APIC : Z;
  str_ap_starting : Z
}.

(** [mp_request.flags]: the request asks for nothing, and nobody writes it. *)
Definition mp_flags : Z := 0.
Definition LIMINE_MP_X2APIC : Z := 1.

Section Firmware.
Context {H : Type} `{KernelHeap H} `{Garbage} `{Image} `{Tables} `{BootInfo}.
Abbreviation KM := (M (st (kernel H))).
Abbreviation off := physical_memory_offset.

(** [current_table.map_range(virt, phys, 1, table::present | table::read_write)] *)
Definition map_page (virt phys : Z) : KM unit :=
  cr3 <- cpu mc_cr3 ;;
  on_frames (map_range off (from_current cr3 false) virt phys 1 (pt_present |! pt_read_write)).

Definition io_out8 (port data : Z) : KM unit :=
  with_boot (fun b => set_bt_io (bt_io b ++ [(port, data mod 256)]) b).

(** ** acpi.cpp *)

(** The loop of [find_table] from index [i], with [n] turns left. *)
Fixpoint find_table_from (n : nat) (i t name : Z) : KM Z :=
  match n with
  | O => ret NULL
  | S n' =>
      phys <- ld (t +! i *! 8) ;;
      let ptr := phys_to_virt off phys in
      map_page ptr phys ;;
      memset signa 0 5 ;;
      memcpy signa (ptr +! header_signature) 4 ;;
      c <- memcmp signa name 4 ;;
      if c =? 0 then ret ptr else find_table_from n' (i + 1) t name
  end.

Definition find_table (name : Z) : KM Z :=
  x <- of_boot acpi_x ;;
  length <- ld32 (x +! header_length) ;;
  let entry_count := u32 (length - 32) / 8 in
  find_table_from (Z.to_nat entry_count) 0 (x +! xsdt_pointers) name.

(** ** hpet.cpp *)

(** A read of [mainCounterValue]. *)
Definition read_counter : KM Z :=
  l <- of_boot bt_counter ;;
  match l with
  | [] => stuck
  | v :: rest => with_boot (set_bt_counter rest) ;; ret v
  end.

Definition nano_time : KM Z :=
  addr <- of_boot hpet_addr ;;
  if addr =? NULL then ret 0
  else
    mcv <- read_counter ;;
    period <- of_boot hpet_period ;;
    ret (mcv *! period).

Definition hpet_init (hpet_table : Z) : KM unit :=
  address <- ld (hpet_table +! hpet_base_address +! generic_address_address) ;;
  with_boot (set_hpet_addr (phys_to_virt off address)) ;;
  addr <- of_boot hpet_addr ;;
  map_page addr address ;;
  capabilities <- ld (addr +! hpet_info_generalCapabilities) ;;
  let counterClockPeriod := u32 (Z.shiftr capabilities 32) in
  with_boot (set_hpet_period (counterClockPeriod / 1000000)) ;;
  configuration <- ld (addr +! hpet_info_generalConfiguration) ;;
  sto (addr +! hpet_info_generalConfiguration) (configuration |! 1).

(** ** apic.cpp *)

Definition disable_pic : KM unit := io_out8 33 255 ;; io_out8 161 255.

Definition sse_init : KM unit :=
  cr0 <- of_boot bt_cr0 ;;
  with_boot (set_bt_cr0 (movw (u16 cr0 &! 65523 |! 2) cr0)) ;;
  cr4 <- of_boot bt_cr4 ;;
  with_boot (set_bt_cr4 (movw (u16 cr4 |! Z.shiftl 3 9) cr4)).

(** [for (;;) if (hpet_table::nano_time() - b >= 10000000) break;] for at most [n] turns. *)
Fixpoint wait_10ms (n : nat) (b : Z) : KM unit :=
  match n with
  | O => stuck
  | S n' =>
      t <- nano_time ;;
      if 10000000 <=? t -! b then ret tt else wait_10ms n' b
  end.

(** [current] is what the timer has counted down to when the waiting is over. *)
Definition timer_initial (current : Z) : Z :=
  let lapic_timer := u32 (4294967295 - current) in
  u64 (lapic_timer * 1000) / LAPIC_TIMER_SPEED.

Definition local_apic_init (current : Z) : KM unit :=
  with_apic (set_x2apic_mode (negb (mp_flags &! LIMINE_MP_X2APIC =? 0))) ;;
  x2 <- of_apic x2apic_mode ;;
  whenM x2 (v <- rdmsr 27 ;; wrmsr 27 (v |! Z.shiftl 1 10)) ;;
  lapic_write LAPIC_REG_SPURIOUS (255 |! Z.shiftl 1 8) ;;
  lapic_write LAPIC_REG_TIMER idx_timer ;;
  lapic_write LAPIC_REG_TIMER_DIV 11 ;;
  v <- lapic_read LAPIC_REG_TIMER ;;
  lapic_write LAPIC_REG_TIMER (v &! u32 (Z.lnot 4096)) ;;
  b <- nano_time ;;
  lapic_write LAPIC_REG_TIMER_INITCNT 4294967295 ;;
  answers <- of_boot bt_counter ;;
  wait_10ms (Datatypes.length answers) b ;;
  v <- lapic_read LAPIC_REG_TIMER ;;
  lapic_write LAPIC_REG_TIMER (v |! Z.shiftl 1 17) ;;
  lapic_write LAPIC_REG_TIMER_INITCNT (u32 (timer_initial current)).

(** The processors of the boot loader's list. *)
Definition start_cpu (info : mp_info) : KM unit :=
  ids <- of_apic cpuid_to_lapicid ;;
  (if (processor_id info <? 0) || (Z.of_nat (Datatypes.length ids) <=? processor_id info) then stuck
   else with_apic (set_cpuid_to_lapicid (<[Z.to_nat (processor_id info) := mp_lapic_id info]> ids))) ;;
  if mp_lapic_id info =? bsp_lapic_id then ret tt else sto (goto_at info) ap_entry_address.
Fixpoint start_cpus (l : list mp_info) : KM unit :=
  match l with
  | [] => ret tt
  | info :: l' => start_cpu info ;; start_cpus l'
  end.
Definition smp_init : KM unit :=
  with_apic (set_cpu_count (Z.of_nat (Datatypes.length mp_cpus))) ;;
  start_cpus mp_cpus ;;
  with_boot (set_ap_initialized true).

(** The loop of [init] over the entries of the MADT [madt], from offset [current]. *)
Fixpoint find_io_apic (n : nat) (madt current : Z) : KM unit :=
  match n with
  | O => stuck
  | S n' =>
      length <- ld32 (madt +! header_length) ;;
      if length <=? current +! (SIZEOF_MADT - 1) then ret tt
      else
        let header := madt +! madt_entries +! current in
        entry_type <- ld8 (header +! madt_header_entry_type) ;;
        if entry_type =? MADT_APIC_IO then
          address <- ld32 (header +! madt_io_apic_address) ;;
          with_boot (set_ioapic_address address)
        else
          l <- ld8 (header +! madt_header_length) ;;
          find_io_apic n' madt (current +! l)
  end.

(** Every entry has at least two bytes, so that a table of [length] bytes has fewer than [length]
    entries; an entry of length 0 is a loop without end. *)
Definition apic_init (m current : Z) : KM unit :=
  address <- ld32 (m +! madt_local_apic_address) ;;
  with_apic (set_lapic_address (phys_to_virt off address)) ;;
  lapic <- of_apic lapic_address ;;
  address <- ld32 (m +! madt_local_apic_address) ;;
  map_page lapic address ;;
  length <- ld32 (m +! header_length) ;;
  find_io_apic (S (Z.to_nat length)) m 0 ;;
  sse_init ;;
  disable_pic ;;
  local_apic_init current ;;
  ioapic <- of_boot ioapic_address ;;
  io_apic_init ioapic ;;
  with_boot (set_ioapic_address (phys_to_virt off ioapic)) ;;
  smp_init ;;
  tss_init.

(** What another processor runs before it goes to sleep; the two waits are for the first one. *)
Definition ap_entry (info : mp_info) (current : Z) : KM unit :=
  ready <- of_boot ap_initialized ;;
  (if ready : bool then ret tt else stuck) ;;
  sse_init ;;
  gdt_init_ap ;;
  idt_init_ap ;;
  tss_init ;;
  printk str_ap_starting [processor_id info] ;;
  local_apic_init current ;;
  ready <- static thread_initialized ;;
  (if ready : bool then ret tt else stuck) ;;
  idle <- static idle_threads ;;
  t <- (if processor_id info <? 0 then stuck else of_opt (idle !! Z.to_nat (processor_id info))) ;;
  set_current_thread t.

(** [acpi::init], and [arch::init] of arch.cpp. *)
Definition acpi_init (current : Z) : KM unit :=
  let rsdp_virt_ptr := phys_to_virt off rsdp_address in
  map_page rsdp_virt_ptr rsdp_address ;;
  xsdt_address <- ld (rsdp_virt_ptr +! rsdp_xsdt_address) ;;
  if xsdt_address =? 0 then ret tt
  else
    let xsdt_virt_ptr := phys_to_virt off xsdt_address in
    map_page xsdt_virt_ptr xsdt_address ;;
    with_boot (set_acpi_x xsdt_virt_ptr) ;;
    HPET <- find_table str_HPET ;;
    if HPET =? NULL then ret tt
    else
      hpet_init HPET ;;
      APIC <- find_table str_APIC ;;
      if APIC =? NULL then ret tt else apic_init APIC current.

Definition arch_init (current : Z) : KM unit := gdt_init ;; idt_init ;; acpi_init current.
End Firmware.
