(* ===== verification/DescriptorFacts.v ===== *)
(** DescriptorFacts: what the processor reads in a gate and in a segment descriptor, and that the
    words built by [arch/x86_64/gdt.cpp] and [idt.cpp] say it. *)

From Stdlib Require Import ZArith Lia.
From stdpp Require Import prelude gmap.
From S2P Require Import Prelude Mem Spinlock Block Klibc Bitmap Frame.
From S2P Require Import PageTable Kernel Apic Thread KernelFacts CreateFacts Descriptors.

(** ** The fields of a word *)

(** The [n] bits of [w] from bit [k]. *)
Definition field (w k n : Z) : Z := Z.shiftr w k &! Z.ones n.

Lemma field_eq w k n lo v hi :
  0 <= k -> 0 <= n -> 0 <= lo < 2 ^ k -> 0 <= v < 2 ^ n -> w = lo + 2 ^ k * (v + 2 ^ n * hi) -> field w k n = v.
Proof.
  intros Hk Hn Hlo Hv ->. unfold field. rewrite Z.land_ones, Z.shiftr_div_pow2 by lia.
  rewrite (Z.add_comm lo), (Z.mul_comm (2 ^ k)), Z.div_add_l, (Z.div_small lo), Z.add_0_r by lia.
  rewrite (Z.mul_comm (2 ^ n)), Z_mod_plus_full. by apply Z.mod_small.
Qed.

(** ** Gates *)

(** An interrupt gate of the 64-bit mode, as the processor decodes its two words. *)
Record gate := Gate {
  gt_offset : Z;
  gt_selector : Z;
  gt_ist : Z;
  gt_type : Z;
  gt_dpl : Z;
  gt_present : bool
}.
Definition gate_of (lo hi : Z) : gate :=
  Gate (field lo 0 16 + field lo 48 16 * 2 ^ 16 + field hi 0 32 * 2 ^ 32)
    (field lo 16 16) (field lo 32 3) (field lo 40 4) (field lo 45 2) (field lo 47 1 =? 1).

(** The words that [_set_gate] builds: they are words, and decode to the arguments.  What the
    assembly leaves in RCX, which it does not declare as changed, ends in three zero bits: the next
    expansion, which masks RCX with 7, reads an [ist] of 0 in it. *)
Lemma gate_words_spec attr ist addr :
  0 <= attr < 256 -> 0 <= ist < 256 -> 0 <= addr < two64 ->
  let '(lo, hi, rcx) := gate_words attr ist addr in
  0 <= lo < two64 /\ 0 <= hi < two64 /\
  gate_of lo hi = Gate addr 8 (ist mod 8) (attr mod 16) (attr / 32 mod 4) (attr / 128 =? 1) /\
  rcx &! 7 = 0.
Proof.
  intros Ha Hi Haddr. unfold gate_words. change (Z.shiftl 8 16) with 524288.
  change (ist &! 7) with (Z.land ist (Z.ones 3)). rewrite Z.land_ones by lia. change (2 ^ 3) with 8.
  rewrite !Z.shiftl_mul_pow2, !Z.shiftr_div_pow2 by lia.
  assert (Hsplit : exists a0 a1 a2, addr = a0 + 65536 * (a1 + 65536 * a2) /\
    0 <= a0 < 65536 /\ 0 <= a1 < 65536 /\ 0 <= a2 < 4294967296).
  { exists (addr mod 65536), (addr / 65536 mod 65536), (addr / 65536 / 65536).
    unfold two64 in Haddr. Z.div_mod_to_equations. lia. }
  destruct Hsplit as (a0 & a1 & a2 & Eaddr & H0 & H1 & H2).
  assert (Hattr : exists t s d p, attr = t + 16 * (s + 2 * (d + 4 * p)) /\ 0 <= t < 16 /\ 0 <= s < 2 /\
    0 <= d < 4 /\ 0 <= p < 2).
  { exists (attr mod 16), (attr / 16 mod 2), (attr / 32 mod 4), (attr / 128). Z.div_mod_to_equations. lia. }
  destruct Hattr as (t & sb & d & p & Eattr & Ht & Hsb & Hd & Hp).
  assert (Hist : 0 <= ist mod 8 < 8) by (apply Z.mod_pos_bound; lia).
  assert (Eu16 : u16 addr = a0) by (unfold u16; Z.div_mod_to_equations; lia).
  assert (Eu32 : u32 addr / 2 ^ 16 = a1).
  { unfold u32, two32. change (2 ^ 16) with 65536. Z.div_mod_to_equations. lia. }
  assert (Ehi : addr / 2 ^ 32 = a2) by (change (2 ^ 32) with 4294967296; Z.div_mod_to_equations; lia).
  rewrite Eu32, Ehi. unfold movw. rewrite Eu16. change (u16 524288) with 0. norm_words_unfold.
  change (2 ^ 8) with 256. change (2 ^ 32) with 4294967296. change (2 ^ 48) with 281474976710656.
  norm_words.
  assert (Ed : attr mod 16 = t /\ attr / 32 mod 4 = d /\ attr / 128 = p) by (Z.div_mod_to_equations; lia).
  destruct Ed as (-> & -> & ->). split_ands; [unfold two64; lia..| |].
  - unfold gate_of. f_equal.
    + rewrite (field_eq _ 0 16 0 a0 (8 + 65536 * (ist mod 8 + attr * 256 + 65536 * a1)))
        by (change (2 ^ 16) with 65536; lia).
      rewrite (field_eq _ 48 16 (a0 + 65536 * 8 + 4294967296 * (ist mod 8 + attr * 256)) a1 0)
        by (change (2 ^ 16) with 65536; change (2 ^ 48) with 281474976710656; lia).
      rewrite (field_eq _ 0 32 0 a2 0) by (change (2 ^ 32) with 4294967296; lia).
      change (2 ^ 16) with 65536. lia.
    + apply (field_eq _ 16 16 a0 8 (ist mod 8 + attr * 256 + 65536 * a1)); change (2 ^ 16) with 65536; lia.
    + apply (field_eq _ 32 3 (a0 + 65536 * 8) (ist mod 8) (32 * attr + 8192 * a1));
        change (2 ^ 32) with 4294967296; change (2 ^ 3) with 8; lia.
    + apply (field_eq _ 40 4 (a0 + 65536 * 8 + 4294967296 * (ist mod 8)) t (sb + 2 * (d + 4 * p) + 16 * a1));
        change (2 ^ 40) with 1099511627776; change (2 ^ 4) with 16; lia.
    + apply (field_eq _ 45 2 (a0 + 65536 * 8 + 4294967296 * (ist mod 8) + 1099511627776 * (t + 16 * sb)) d (p + 2 * a1));
        change (2 ^ 45) with 35184372088832; change (2 ^ 2) with 4; lia.
    + f_equal. apply (field_eq _ 47 1 (a0 + 65536 * 8 + 4294967296 * (ist mod 8) + 1099511627776 * (t + 16 * sb) + 35184372088832 * d)
        p a1); change (2 ^ 47) with 140737488355328; change (2 ^ 1) with 2; lia.
  - change 7 with (Z.ones 3). rewrite Z.land_ones by lia. change (2 ^ 3) with 8. Z.div_mod_to_equations. lia.
Qed.

(** ** Segment descriptors *)

(** A segment descriptor.  [sg_user] is the S bit, which system descriptors do not have. *)
Record segment := Segment {
  sg_base : Z;
  sg_limit : Z;
  sg_type : Z;
  sg_user : bool;
  sg_dpl : Z;
  sg_present : bool;
  sg_long : bool
}.
Definition segment_of (w : Z) : segment :=
  Segment (field w 16 24 + field w 56 8 * 2 ^ 24) (field w 0 16 + field w 48 4 * 2 ^ 16) (field w 40 4)
    (field w 44 1 =? 1) (field w 45 2) (field w 47 1 =? 1) (field w 53 1 =? 1).

(** In 64-bit mode a system descriptor has a second word with the upper half of the base. *)
Definition system_of (lo hi : Z) : segment :=
  let s := segment_of lo in
  Segment (sg_base s + field hi 0 32 * 2 ^ 32) (sg_limit s) (sg_type s) (sg_user s) (sg_dpl s) (sg_present s)
    (sg_long s).

(** Code for the 64-bit mode, and data, of a privilege level. *)
Definition code_segment (dpl : Z) : segment := Segment 0 0 10 true dpl true true.
Definition data_segment (dpl : Z) : segment := Segment 0 0 2 true dpl true false.
(** A 64-bit TSS that is not busy. *)
Definition tss_segment (base limit : Z) : segment := Segment base limit 9 false 0 true false.

(** The segment that a selector names in the table at [gdt]: bits 3 to 15 are its index. *)
Definition selector_index (sel : Z) : Z := field sel 3 13.
Definition selected (m : mem) (gdt sel : Z) : option segment :=
  segment_of <$> load64 m (gdt + 8 * selector_index sel).
Definition selected_system (m : mem) (gdt sel : Z) : option segment :=
  lo ← load64 m (gdt + 8 * selector_index sel); hi ← load64 m (gdt + 8 * selector_index sel + 8);
  Some (system_of lo hi).

Lemma lor_add a b k : 0 <= k -> 0 <= a < 2 ^ k -> a |! b * 2 ^ k = a + b * 2 ^ k.
Proof.
  intros Hk Ha. assert (E : Z.land a (b * 2 ^ k) = 0).
  { apply Z.bits_inj'. intros i Hi. rewrite Z.land_spec, Z.bits_0. destruct (Z.ltb_spec i k).
    - rewrite (Z.mul_pow2_bits_low b) by lia. apply andb_false_r.
    - rewrite <- (Z.mod_small a (2 ^ k)), Z.mod_pow2_bits_high by lia. done. }
  by rewrite Z.add_nocarry_lxor, Z.lxor_lor by exact E.
Qed.

(** The two words of a TSS descriptor. *)
Lemma tss_words addr :
  0 <= addr < two64 ->
  exists lo hi, 0 <= lo < two64 /\ 0 <= hi < two64 /\ system_of lo hi = tss_segment addr SIZEOF_TSS /\
  lo = (SIZEOF_TSS &! 65535 |! u64 (Z.shiftl (addr &! 65535) 16) |!
     u64 (Z.shiftl (Z.shiftr addr 16 &! 255) 32) |! u64 (Z.shiftl 137 40) |!
     u64 (Z.shiftl (Z.shiftr SIZEOF_TSS 16 &! 15) 48) |! u64 (Z.shiftl (Z.shiftr addr 24 &! 255) 56)) /\
  hi = (Z.shiftr addr 32 &! 4294967295 |! 0).
Proof.
  intros Haddr.
  assert (Hsplit : exists a0 a1 a2 a3, addr = a0 + 65536 * (a1 + 256 * (a2 + 256 * a3)) /\
    0 <= a0 < 65536 /\ 0 <= a1 < 256 /\ 0 <= a2 < 256 /\ 0 <= a3 < 4294967296).
  { exists (addr mod 65536), (addr / 65536 mod 256), (addr / 65536 / 256 mod 256), (addr / 65536 / 256 / 256).
    unfold two64 in Haddr. Z.div_mod_to_equations. lia. }
  destruct Hsplit as (a0 & a1 & a2 & a3 & E & A0 & A1 & A2 & A3).
  exists (8296 + 65536 * a0 + 4294967296 * a1 + 150633093005312 + 72057594037927936 * a2), a3.
  split; [unfold two64; lia|]. split; [unfold two64; lia|]. split; [|split].
  - unfold system_of, segment_of, tss_segment. cbn [sg_base sg_limit sg_type sg_user sg_dpl sg_present sg_long].
    set (w := 8296 + _ + _ + _ + _).
    rewrite (field_eq w 16 24 8296 (a0 + 65536 * a1) (137 + 65536 * a2))
      by (subst w; change (2 ^ 16) with 65536; change (2 ^ 24) with 16777216; lia).
    rewrite (field_eq w 56 8 (8296 + 65536 * a0 + 4294967296 * a1 + 150633093005312) a2 0)
      by (subst w; change (2 ^ 56) with 72057594037927936; change (2 ^ 8) with 256; lia).
    rewrite (field_eq a3 0 32 0 a3 0) by (change (2 ^ 32) with 4294967296; lia).
    rewrite (field_eq w 0 16 0 8296 (a0 + 65536 * a1 + 65536 * 256 * (137 + 65536 * a2)))
      by (subst w; change (2 ^ 16) with 65536; lia).
    rewrite (field_eq w 48 4 (8296 + 65536 * a0 + 4294967296 * a1 + 150633093005312) 0 (16 * a2))
      by (subst w; change (2 ^ 48) with 281474976710656; change (2 ^ 4) with 16; lia).
    rewrite (field_eq w 40 4 (8296 + 65536 * a0 + 4294967296 * a1) 9 (8 + 4096 * a2))
      by (subst w; change (2 ^ 40) with 1099511627776; change (2 ^ 4) with 16; lia).
    rewrite (field_eq w 44 1 (8296 + 65536 * a0 + 4294967296 * a1 + 9 * 1099511627776) 0 (4 + 2048 * a2))
      by (subst w; change (2 ^ 44) with 17592186044416; change (2 ^ 1) with 2; lia).
    rewrite (field_eq w 45 2 (8296 + 65536 * a0 + 4294967296 * a1 + 9 * 1099511627776) 0 (1 + 512 * a2))
      by (subst w; change (2 ^ 45) with 35184372088832; change (2 ^ 2) with 4; lia).
    rewrite (field_eq w 47 1 (8296 + 65536 * a0 + 4294967296 * a1 + 9 * 1099511627776) 1 (256 * a2))
      by (subst w; change (2 ^ 47) with 140737488355328; change (2 ^ 1) with 2; lia).
    rewrite (field_eq w 53 1 (8296 + 65536 * a0 + 4294967296 * a1 + 150633093005312) 0 (4 * a2))
      by (subst w; change (2 ^ 53) with 9007199254740992; change (2 ^ 1) with 2; lia).
    f_equal. change (2 ^ 24) with 16777216. change (2 ^ 32) with 4294967296. lia.
  - change (SIZEOF_TSS &! 65535) with 8296. change (u64 (Z.shiftl (Z.shiftr SIZEOF_TSS 16 &! 15) 48)) with 0.
    change (u64 (Z.shiftl 137 40)) with (137 * 2 ^ 40). change 65535 with (Z.ones 16).
    change 255 with (Z.ones 8). rewrite !Z.land_ones, !Z.shiftl_mul_pow2, !Z.shiftr_div_pow2 by lia.
    change (2 ^ 8) with 256. change (2 ^ 24) with 16777216.
    replace (addr mod 2 ^ 16) with a0 by (change (2 ^ 16) with 65536; Z.div_mod_to_equations; lia).
    replace (addr / 2 ^ 16 mod 256) with a1 by (change (2 ^ 16) with 65536; Z.div_mod_to_equations; lia).
    replace (addr / 16777216 mod 256) with a2 by (Z.div_mod_to_equations; lia).
    rewrite !u64_small by (unfold two64; lia). rewrite Z.lor_0_r.
    rewrite (lor_add _ a0 16), (lor_add _ a1 32), (lor_add _ 137 40), (lor_add _ a2 56) by lia. lia.
  - rewrite Z.lor_0_r. change 4294967295 with (Z.ones 32). rewrite Z.land_ones, Z.shiftr_div_pow2 by lia.
    change (2 ^ 32) with 4294967296. Z.div_mod_to_equations. lia.
Qed.

(** ** The tables in memory *)

Definition gate_at (m : mem) (a : Z) : option gate :=
  lo ← load64 m a; hi ← load64 m (a + 8); Some (gate_of lo hi).

Lemma gate_at_changed m m' P a :
  changed m m' P -> (forall b, a <= b < a + 16 -> ~ P b) -> gate_at m' a = gate_at m a.
Proof.
  intros Hc Hd. unfold gate_at. rewrite (load64_changed m m' P a) by (done || (intros; apply Hd; lia)).
  by rewrite (load64_changed m m' P (a + 8)) by (done || (intros; apply Hd; lia)).
Qed.

(** A table of words: entry [k] of the [n] at [base] is [w k]; nothing outside it has changed. *)
Record words_at (m0 m : mem) (base n : Z) (w : Z -> Z) : Prop := {
  wa_words : forall k, 0 <= k < n -> load64 m (base + 8 * k) = Some (w k);
  wa_changed : changed m0 m (span base (8 * n))
}.

Lemma words_zero {X} m0 base n (s : st X) Q :
  m0 = smem s -> 0 <= base -> 0 <= n -> base + 8 * n <= two64 -> mapped m0 base (base + 8 * n) ->
  (forall m, words_at m0 m base n (fun _ => 0) -> Q base (with_mem m s)) ->
  runs (memset base 0 (8 * n)) s Q.
Proof.
  intros -> Hb Hn Htop Hm HQ. apply runs_memset; [lia..|exact Hm|]. intros m Hw. apply HQ.
  change (0 mod 256) with 0 in Hw. pose proof (written_changed _ _ _ _ Hw) as Hc.
  rewrite length_replicate, Z2Nat.id in Hc by lia. split; [|exact Hc]. intros k Hk.
  apply load_le_zeros. intros i v [-> Hi]%lookup_replicate. destruct Hw as (Hz & _ & _).
  rewrite <- Z.add_assoc. replace (8 * k + Z.of_nat i) with (Z.of_nat (Z.to_nat (8 * k) + i)) by lia.
  apply Hz, lookup_replicate. split; [done|]. lia.
Qed.

Lemma runs_word {X} m0 base n w k v (s : st X) Q :
  words_at m0 (smem s) base n w -> mapped m0 base (base + 8 * n) -> 0 <= base -> base + 8 * n < two64 ->
  0 <= k < n -> 0 <= v < two64 ->
  (forall m, words_at m0 m base n (fun j => if j =? k then v else w j) -> Q tt (with_mem m s)) ->
  runs (sto (base +! k *! 8) v) s Q.
Proof.
  intros [Hw Hc] Hm Hb Htop Hk Hv HQ. norm_words. apply runs_sto_changed.
  { apply (ch_mapped _ _ _ Hc). eapply mapped_sub; [exact Hm|lia|lia]. }
  intros m C L. rewrite u64_small in L by lia. apply HQ. split.
  - intros j Hj. destruct (Z.eqb_spec j k) as [->|Hne]; [by rewrite (Z.mul_comm 8)|].
    rewrite (load64_changed _ _ _ (base + 8 * j) C); [by apply Hw|]. unfold span. intros b Hb' Hb2. lia.
  - eapply changed_trans; [exact Hc|]. eapply changed_weaken; [exact C|]. unfold span. intros b. lia.
Qed.

(** The vector of each entry point, and the gate that belongs there: exceptions through trap gates,
    the two interrupts through interrupt gates, and only breakpoints, overflow and bounds open to
    the [int] instruction in user mode. *)
Definition vector_of (i : isr) : Z :=
  match i with
  | divide_error => 0 | debug => 1 | nmi => 2 | int3 => 3 | overflow => 4 | bounds => 5
  | undefined_opcode => 6 | dev_not_avaliable => 7 | double_fault => 8
  | coprocessor_segment_overrun => 9 | invalid_TSS => 10 | segment_not_exists => 11
  | stack_segment_fault => 12 | general_protection => 13 | page_fault => 14
  | x87_FPU_error => 16 | alignment_check => 17 | machine_check => 18 | SIMD_exception => 19
  | virtualization_exception => 20 | lapic_timer => 32
  end.
Definition is_interrupt (i : isr) : bool := match i with nmi | lapic_timer => true | _ => false end.
Definition user_may_raise (i : isr) : bool := match i with int3 | overflow | bounds => true | _ => false end.

Lemma vector_of_inj i j : vector_of i = vector_of j -> i = j.
Proof. by destruct i, j. Qed.

Section Gates.
Context {H : Type} `{KernelHeap H} `{Garbage} `{Image} `{Tables}.
Implicit Types (s : st (kernel H)).

Definition gate_for (i : isr) : gate :=
  Gate (entry_of i) 8 0 (if is_interrupt i then 14 else 15) (if user_may_raise i then 3 else 0) true.

Definition slot_of (i : isr) : Z := idt_table + 16 * vector_of i.

(** The gates of [l] are set, and nothing outside them has changed. *)
Record gates_done (m0 m : mem) (l : list isr) : Prop := {
  gd_gates : forall i, i ∈ l -> gate_at m (slot_of i) = Some (gate_for i);
  gd_changed : changed m0 m (fun b => exists i, i ∈ l /\ span (slot_of i) 16 b)
}.

(** What the linker has placed is addresses. *)
Definition idt_placed : Prop :=
  0 <= idt_table /\ idt_table + SIZEOF_IDT < two64 /\ forall i, 0 <= entry_of i < two64.

Lemma vector_range i : 0 <= vector_of i < 256.
Proof. destruct i; simpl; lia. Qed.

Lemma runs_set_gate m0 l i attr s Q :
  idt_placed -> gates_done m0 (smem s) l -> i ∉ l -> mapped m0 idt_table (idt_table + SIZEOF_IDT) ->
  attr = (if is_interrupt i then 142 else if user_may_raise i then 239 else 143) ->
  (forall m, gates_done m0 m (i :: l) -> Q tt (with_mem m s)) ->
  runs (_set_gate (idt_slot (vector_of i)) attr 0 (entry_of i)) s Q.
Proof.
  intros (Hb & Htop & He) [Hg Hc] Hi Hm Hattr HQ. unfold _set_gate, idt_slot, SIZEOF_IDT in *.
  pose proof (vector_range i) as Hv. norm_words.
  assert (Ha : 0 <= attr < 256) by (subst attr; destruct (is_interrupt i), (user_may_raise i); lia).
  pose proof (gate_words_spec attr 0 (entry_of i) Ha ltac:(lia) (He i)) as Hw.
  destruct (gate_words attr 0 (entry_of i)) as [[lo hi] rcx]. destruct Hw as (Hlo & Hhi & Hgate & _).
  apply runs_bind, runs_sto_changed; [apply (ch_mapped _ _ _ Hc); eapply mapped_sub; [exact Hm|lia|lia]|].
  intros m1 C1 L1. apply runs_sto_changed.
  { apply (ch_mapped _ _ _ C1), (ch_mapped _ _ _ Hc). eapply mapped_sub; [exact Hm|lia|lia]. }
  intros m2 C2 L2. simpl in C2. rewrite with_mem_mem. apply HQ.
  assert (Hs : changed (smem s) m2 (span (slot_of i) 16)).
  { eapply changed_trans; eapply changed_weaken; [exact C1| |exact C2|]; unfold span, slot_of; intros b; lia. }
  split.
  - intros j [->|Hj]%elem_of_cons.
    + unfold gate_at, slot_of. rewrite (Z.mul_comm 16).
      rewrite (load64_changed m1 m2 _ (idt_table + vector_of i * 16) C2) by (unfold span; intros; lia).
      rewrite L1, L2. simpl.
      rewrite !u64_small by lia. rewrite Hgate. f_equal. subst attr. by destruct i.
    + rewrite <- (Hg j Hj). eapply gate_at_changed; [exact Hs|]. unfold span, slot_of. intros b Hb' Hb2.
      assert (vector_of i = vector_of j) as ->%vector_of_inj by lia. done.
  - eapply changed_trans; eapply changed_weaken; [exact Hc| |exact Hs|].
    + intros b (j & Hj & Hs'). exists j. split; [by right|done].
    + intros b Hs'. exists i. split; [by left|done].
Qed.
End Gates.
