(* ===== verification/DescriptorThms.v ===== *)
(** DescriptorThms: the interrupt gates and the segments that start-up leaves
    ([arch/x86_64/gdt.cpp], [idt.cpp], [syscall.cpp]). *)

From Stdlib Require Import ZArith Lia.
From stdpp Require Import prelude gmap.
From S2P Require Import Prelude Mem Spinlock Block Klibc Bitmap Frame.
From S2P Require Import PageTable Kernel Apic Thread KernelFacts KernelDemo CreateFacts Descriptors.
From S2P Require Import DescriptorFacts.

Section Gates.
Context {H : Type} `{KernelHeap H} `{Garbage} `{Image} `{Tables}.
Implicit Types (s : st (kernel H)).

Lemma runs_with_boot f s Q :
  Q tt (St (smem s) (set_k_boot (f (k_boot (smgr s))) (smgr s))) -> runs (with_boot f) s Q.
Proof. done. Qed.

Lemma gates_done_nil m : gates_done m m [].
Proof. split; [intros i Hi; by apply not_elem_of_nil in Hi|]. by split. Qed.

(** The entry points in the order in which their gates are set, the last one first. *)
Definition gate_order : list isr :=
  [lapic_timer; virtualization_exception; SIMD_exception; machine_check; alignment_check; x87_FPU_error;
   page_fault; general_protection; stack_segment_fault; segment_not_exists; invalid_TSS;
   coprocessor_segment_overrun; double_fault; dev_not_avaliable; undefined_opcode; bounds; overflow; int3;
   nmi; debug; divide_error].

Ltac gate_step i :=
  apply runs_bind; eapply (runs_set_gate _ _ i);
  [assumption|eassumption|apply (bool_decide_unpack _); vm_compute; exact I|eassumption|reflexivity|];
  let m := fresh "m" in let Hm := fresh "Hm" in intros m Hm; rewrite ?with_mem_mem.

Lemma runs_idt_init s Q :
  idt_placed -> mapped (smem s) idt_table (idt_table + SIZEOF_IDT) ->
  (forall m, gates_done (smem s) m gate_order ->
     Q tt (St m (set_k_boot (set_bt_idtr (SIZEOF_IDT - 1, idt_table) (k_boot (smgr s))) (smgr s)))) ->
  runs idt_init s Q.
Proof.
  intros Hp Hm HQ. pose proof (gates_done_nil (smem s)) as Hd. unfold idt_init.
  unfold set_trap_gate, set_intr_gate, set_system_trap_gate.
  gate_step divide_error. gate_step debug. gate_step nmi. gate_step int3. gate_step overflow.
  gate_step bounds. gate_step undefined_opcode. gate_step dev_not_avaliable. gate_step double_fault.
  gate_step coprocessor_segment_overrun. gate_step invalid_TSS. gate_step segment_not_exists.
  gate_step stack_segment_fault. gate_step general_protection. gate_step page_fault.
  gate_step x87_FPU_error. gate_step alignment_check. gate_step machine_check.
  gate_step SIMD_exception. gate_step virtualization_exception. gate_step lapic_timer.
  by apply runs_with_boot, HQ.
Qed.

Lemma all_gates i : i ∈ gate_order.
Proof. apply (bool_decide_unpack _). by destruct i. Qed.
End Gates.

Section Segments.
Context {H : Type} `{KernelHeap H} `{Garbage} `{Image} `{Tables}.
Implicit Types (s : st (kernel H)).

Definition gdt_placed : Prop := 0 <= gdt_entries /\ gdt_entries + SIZEOF_GDT < two64.

(** The table that [gdt::init] fills. *)
Definition gdt_words (k : Z) : Z :=
  if k =? 4 then 45310874180648960 else if k =? 3 then 54309277342367744
  else if k =? 2 then 54203724226101248 else if k =? 1 then 45205321064382464 else 0.
Definition GDT_LEN : Z := 10 + MAX_CPU_NUM * 2.

(** The processor with the table loaded. *)
Definition with_gdt (b : boot) : boot :=
  set_bt_ss 16 (set_bt_es 16 (set_bt_ds 16 (set_bt_cs 8 (set_bt_gdtr (SIZEOF_GDT - 1, gdt_entries) b)))).

Lemma runs_load_gdt s Q :
  Q tt (St (smem s) (set_k_boot (with_gdt (k_boot (smgr s)))
    (set_k_cpu (set_mc_gs 16 (set_mc_fs 16 (k_cpu (smgr s)))) (smgr s)))) -> runs load_gdt s Q.
Proof. done. Qed.

Lemma runs_gdt_init s Q :
  gdt_placed -> mapped (smem s) gdt_entries (gdt_entries + SIZEOF_GDT) ->
  (forall m, words_at (smem s) m gdt_entries GDT_LEN gdt_words ->
     Q tt (St m (set_k_boot (with_gdt (k_boot (smgr s)))
       (set_k_cpu (set_mc_gs 16 (set_mc_fs 16 (k_cpu (smgr s)))) (smgr s))))) ->
  runs gdt_init s Q.
Proof.
  intros [Hb Htop] Hm HQ. unfold gdt_init, gdt_slot. change SIZEOF_GDT with (8 * GDT_LEN) in *.
  assert (Hlen : GDT_LEN = 138) by done.
  apply runs_bind, (words_zero (smem s)); [done|lia..|exact Hm|]. intros m1 Hz.
  do 5 (apply runs_bind; eapply runs_word; [eassumption|exact Hm|lia|lia|lia|unfold two64; lia|];
    let m := fresh "m" in intros m ?; rewrite ?with_mem_mem).
  apply runs_load_gdt, HQ. split; [|by eapply wa_changed]. intros k Hk.
  erewrite wa_words by eassumption. f_equal. unfold gdt_words. by destruct (k =? 0) eqn:E0; [apply Z.eqb_eq in E0 as ->|].
Qed.
Lemma selected_words m0 m sel :
  words_at m0 m gdt_entries GDT_LEN gdt_words -> 0 <= selector_index sel < GDT_LEN ->
  selected m gdt_entries sel = Some (segment_of (gdt_words (selector_index sel))).
Proof. intros [Hw _] Hs. unfold selected. by rewrite Hw. Qed.

Lemma runs_wrmsr n v s Q :
  Q tt (St (smem s) (set_k_cpu (set_mc_msr (<[n := v]> (mc_msr (k_cpu (smgr s)))) (k_cpu (smgr s))) (smgr s))) ->
  runs (wrmsr n v) s Q.
Proof. done. Qed.
End Segments.

(** The selectors that SYSCALL and SYSRET (to 64-bit code) load, from the value of STAR. *)
Definition syscall_cs (star : Z) : Z := field star 32 16.
Definition syscall_ss (star : Z) : Z := field star 32 16 + 8.
Definition sysret_cs (star : Z) : Z := field star 48 16 + 16 |! 3.
Definition sysret_ss (star : Z) : Z := field star 48 16 + 8 |! 3.
Definition privilege (sel : Z) : Z := field sel 0 2.

(** C9: the interrupt table.  [idt::init] loads IDTR with the table and its limit; the processor then
    reads, at the vector of each of the 21 entry points, a present gate that leads to it through the
    kernel's code segment, with interrupts off for NMI and timer and on for the exceptions, and open
    to user mode for breakpoint, overflow and bounds only.  No other byte of memory changes, so every
    other vector is as it was. *)
Theorem idt_init_correct {H : Type} `{KernelHeap H} `{Garbage} `{Image} `{Tables} (s : st (kernel H)) :
  idt_placed -> mapped (smem s) idt_table (idt_table + SIZEOF_IDT) ->
  exists m, idt_init s =
      Some (tt, St m (set_k_boot (set_bt_idtr (4095, idt_table) (k_boot (smgr s))) (smgr s))) /\
    (forall i, gate_at m (slot_of i) =
       Some (Gate (entry_of i) 8 0 (if is_interrupt i then 14 else 15) (if user_may_raise i then 3 else 0) true)) /\
    changed (smem s) m (fun b => exists i, span (slot_of i) 16 b).
Proof.
  intros Hp Hm.
  enough (Hr : runs idt_init s (fun _ s' => exists m, gates_done (smem s) m gate_order /\
    s' = St m (set_k_boot (set_bt_idtr (SIZEOF_IDT - 1, idt_table) (k_boot (smgr s))) (smgr s)))).
  { apply runs_inv in Hr as ([] & s' & E & m & [Hg Hc] & ->). exists m. split; [exact E|]. split.
    - intros i. apply Hg, all_gates.
    - eapply changed_weaken; [exact Hc|]. intros b (i & _ & Hb). by exists i. }
  apply runs_idt_init; [done|done|]. intros m Hd. by exists m.
Qed.

(** ** A concrete image *)

#[export] Instance demo_tables : Tables := {|
  gdt_entries := 40000; idt_table := 50000; tss := 70000;
  entry_of i := 18446744071562067968 + 16 * vector_of i;
  asm_syscall_handler := 18446744071562100000
|}.
Lemma tables_mem_sig : {m : mem | mapped m 40000 (40000 + SIZEOF_GDT) /\ mapped m 50000 (50000 + SIZEOF_IDT)}.
Proof.
  exists (fill 40000 (Z.to_nat 20000) 0 ∅). split; intros a Ha; rewrite fill_lookup;
    unfold SIZEOF_GDT, SIZEOF_IDT, MAX_CPU_NUM in *; (rewrite decide_True by lia); by eexists.
Qed.
Definition tables_mem : mem := proj1_sig tables_mem_sig.
Definition tables_state : st (kernel Z) :=
  St tables_mem (Kern 500000 (Bitmap 0 0) no_objects demo_statics demo_apic
    (set_mc_msr {[ MSR_EFER := 1280 ]} demo_machine) demo_boot).

Lemma demo_idt_placed : idt_placed.
Proof.
  split; [simpl; lia|]. split; [vm_compute; congruence|]. intros i. pose proof (vector_range i).
  simpl. unfold two64. lia.
Qed.

Lemma idt_init_correct_witness :
  exists m, idt_init tables_state =
      Some (tt, St m (set_k_boot (set_bt_idtr (4095, 50000) demo_boot) (smgr tables_state))) /\
    (forall i, gate_at m (slot_of i) =
       Some (Gate (entry_of i) 8 0 (if is_interrupt i then 14 else 15) (if user_may_raise i then 3 else 0) true)).
Proof.
  destruct (idt_init_correct tables_state demo_idt_placed (proj2 (proj2_sig tables_mem_sig))) as (m & E & Hg & _).
  exists m. split; [exact E|exact Hg].
Defined.

(** C11: the segments.  After [gdt::init] and [syscall::init] the loaded code selector names 64-bit
    code of level 0 and the other segment registers name data of level 0; with the STAR that was
    written, SYSCALL enters the same kernel segments and SYSRET returns to 64-bit code and data of
    level 3 with selectors of level 3; SYSCALL goes to the handler with interrupts masked and is
    enabled.  All other descriptors are absent, and only the table, the named registers and the model-
    specific registers have changed. *)
Theorem segments_correct {H : Type} `{KernelHeap H} `{Garbage} `{Image} `{Tables} (s : st (kernel H)) (efer : Z) :
  gdt_placed -> mapped (smem s) gdt_entries (gdt_entries + SIZEOF_GDT) ->
  mc_msr (k_cpu (smgr s)) !! MSR_EFER = Some efer ->
  exists s' star, (gdt_init ;; syscall_init) s = Some (tt, s') /\
    let b := k_boot (smgr s') in let c := k_cpu (smgr s') in let seg := selected (smem s') gdt_entries in
    bt_gdtr b = (SIZEOF_GDT - 1, gdt_entries) /\
    seg (bt_cs b) = Some (code_segment 0) /\
    Forall (fun sel => seg sel = Some (data_segment 0)) [bt_ds b; bt_es b; bt_ss b; mc_fs c; mc_gs c] /\
    mc_msr c = <[MSR_SYSCALL_MASK := IF_BIT]> (<[MSR_LSTAR := asm_syscall_handler]> (<[MSR_STAR := star]>
      (<[MSR_EFER := efer |! 1]> (mc_msr (k_cpu (smgr s)))))) /\
    seg (syscall_cs star) = Some (code_segment 0) /\ seg (syscall_ss star) = Some (data_segment 0) /\
    seg (sysret_cs star) = Some (code_segment 3) /\ seg (sysret_ss star) = Some (data_segment 3) /\
    privilege (sysret_cs star) = 3 /\ privilege (sysret_ss star) = 3 /\
    (forall sel, selector_index sel = 0 \/ 4 < selector_index sel < GDT_LEN ->
       sg_present <$> seg sel = Some false) /\
    changed (smem s) (smem s') (span gdt_entries SIZEOF_GDT) /\
    smgr s' = set_k_boot b (set_k_cpu c (smgr s)).
Proof.
  intros Hp Hm He.
  enough (Hr : runs (gdt_init ;; syscall_init) s (fun _ s' => words_at (smem s) (smem s') gdt_entries GDT_LEN gdt_words /\
    smgr s' = set_k_boot (with_gdt (k_boot (smgr s))) (set_k_cpu (set_mc_msr
      (<[MSR_SYSCALL_MASK := IF_BIT]> (<[MSR_LSTAR := asm_syscall_handler]> (<[MSR_STAR := 5348058917240832]>
      (<[MSR_EFER := efer |! 1]> (mc_msr (k_cpu (smgr s)))))))
      (set_mc_gs 16 (set_mc_fs 16 (k_cpu (smgr s))))) (smgr s)))).
  { apply runs_inv in Hr as ([] & s' & E & Hw & Hg). exists s', 5348058917240832. split; [exact E|]. rewrite Hg.
    assert (Hsel : forall sel, 0 <= selector_index sel < GDT_LEN ->
      selected (smem s') gdt_entries sel = Some (segment_of (gdt_words (selector_index sel))))
      by (intros; by eapply selected_words).
    cbv zeta. change (bt_cs _) with 8. change (bt_ds _) with 16. change (bt_es _) with 16. change (bt_ss _) with 16.
    change (mc_fs _) with 16. change (mc_gs _) with 16.
    assert (H8 : selected (smem s') gdt_entries 8 = Some (code_segment 0)) by (rewrite Hsel; done).
    assert (H16 : selected (smem s') gdt_entries 16 = Some (data_segment 0)) by (rewrite Hsel; done).
    assert (H27 : selected (smem s') gdt_entries 27 = Some (data_segment 3)) by (rewrite Hsel; done).
    assert (H35 : selected (smem s') gdt_entries 35 = Some (code_segment 3)) by (rewrite Hsel; done).
    split; [done|]. split; [exact H8|]. split; [by repeat constructor|]. split; [done|].
    split; [exact H8|]. split; [exact H16|]. split; [exact H35|]. split; [exact H27|]. split; [done|].
    split; [done|]. split; [|split; [apply Hw|done]].
    intros sel Hs. rewrite Hsel by (unfold GDT_LEN, MAX_CPU_NUM in *; lia). unfold gdt_words.
    by rewrite !(proj2 (Z.eqb_neq (selector_index sel) _)) by lia. }
  apply runs_bind, runs_gdt_init; [exact Hp|exact Hm|]. intros m Hw. unfold syscall_init.
  apply runs_bind. eapply runs_rdmsr; [exact He|]. do 3 (apply runs_bind; apply runs_wrmsr). apply runs_wrmsr.
  split; [exact Hw|reflexivity].
Qed.

Lemma segments_correct_witness :
  exists s' star, (gdt_init ;; syscall_init) tables_state = Some (tt, s') /\
    selected (smem s') 40000 (sysret_cs star) = Some (code_segment 3).
Proof.
  destruct (segments_correct tables_state 1280) as (s' & star & E & Hs).
  - split; [simpl; lia|vm_compute; congruence].
  - exact (proj1 (proj2_sig tables_mem_sig)).
  - reflexivity.
  - exists s', star. split; [exact E|]. apply Hs.
Defined.
