(* ===== verification/FirmwareThms.v ===== *)
(** FirmwareThms: the search of the ACPI tables ([arch/x86_64/acpi.cpp]). *)

From Stdlib Require Import ZArith Lia.
From stdpp Require Import prelude gmap.
From S2P Require Import Prelude Mem Spinlock Block Klibc Bitmap Frame.
From S2P Require Import PageTable PageTableFacts PageTableTree PageTableThms Kernel Apic Thread.
From S2P Require Import FrameThms FrameSource KernelFacts KernelDemo SocketFacts ConnectFacts CreateFacts.
From S2P Require Import Descriptors Firmware.

(** A table that the XSDT lists: its physical address and its signature. *)
Abbreviation acpi_table := (Z * list Z)%type.

(** ** Writes that the page tables do not mind *)

Section Quiet.
Context (I : nat -> st bitmap -> gset Z -> Prop) `{!FrameSource I}.

Lemma pt_state_quiet n s root tabs A m' P :
  pt_state I n s root tabs A -> changed (smem s) m' P -> (forall b, P b -> quiet I tabs b) ->
  pt_state I n (with_mem m' s) root tabs A.
Proof.
  intros [Hi Ht Hu] [Hs Hm] HP. split; [|eapply tables_ok_ext; [exact Ht|]|exact Hu].
  - apply fs_else; [exact Hi| |exact Hm]. intros a Ha. apply Hs. intros Hq%HP. by apply Hq.
  - intros p f i Hf Hi'. unfold entry_at. eapply load64_changed; [by split|].
    intros b Hb Hq%HP. destruct Hq as (_ & _ & Hq). apply (Hq p f Hf). unfold in_frame. lia.
Qed.
Lemma pte_quiet s root tabs m' P v n A :
  pt_state I n s root tabs A -> changed (smem s) m' P -> (forall b, P b -> quiet I tabs b) ->
  pte m' tabs v = pte (smem s) tabs v.
Proof.
  intros _ [Hs Hm] HP. apply pte_ext. intros p f i Hf Hi'. unfold entry_at. eapply load64_changed; [by split|].
  intros b Hb Hq%HP. destruct Hq as (_ & _ & Hq). apply (Hq p f Hf). unfold in_frame. lia.
Qed.
End Quiet.

Section Acpi.
Context {H : Type} `{KernelHeap H} `{Garbage} `{Image} `{Tables} `{BootInfo}.
Context (I : nat -> st bitmap -> gset Z -> Prop) `{!FrameSource I}.
Implicit Types (s : st (kernel H)).

(** The page tables that CR3 names, and frames for [n] more. *)
Record paging s (n : nat) (root : Z) (tabs : gmap (list Z) Z) (A : gset Z) : Prop := {
  pg_state : pt_state I n (St (smem s) (k_frames (smgr s))) root tabs A;
  pg_cr3 : mc_cr3 (k_cpu (smgr s)) = root;
  pg_offset : physical_memory_offset = HHDM
}.

(** Only the frame allocator's part of the kernel has changed. *)
Definition frames_only s s' : Prop := smgr s' = set_k_frames (k_frames (smgr s')) (smgr s).

Lemma frames_only_refl s : frames_only s s.
Proof. unfold frames_only. by destruct (smgr s). Qed.
Lemma frames_only_trans s1 s2 s3 : frames_only s1 s2 -> frames_only s2 s3 -> frames_only s1 s3.
Proof. unfold frames_only. intros E1 E2. rewrite E2, E1. done. Qed.

Lemma runs_map_page s n root tabs A virt phys Q :
  paging s (3 + n) root tabs A -> 0 < phys -> 0 <= virt -> virt + PAGE_SIZE <= two64 -> phys + PAGE_SIZE <= two64 ->
  (forall s' tabs' A' k, (n <= k)%nat -> paging s' k root tabs' A' -> frames_only s s' -> tabs ⊆ tabs' ->
     kept I tabs tabs' (smem s) (smem s') ->
     pte (smem s') tabs' virt = leaf phys (pt_present |! pt_read_write) -> Q tt s') ->
  runs (map_page virt phys) s Q.
Proof.
  intros [Hpt Hcr Hoff] Hp Hv Hvt Hpt' HQ. unfold map_page. apply runs_bind, runs_cpu, runs_on_frames.
  rewrite Hoff, Hcr. unfold from_current, PAGE_SIZE in *. change 1 with (Z.of_nat 1).
  eapply (runs_map_range I n _ root tabs A); [exact Hpt|lia|lia|unfold PAGE_SIZE; lia|unfold PAGE_SIZE; lia|done|].
  intros s1 tabs1 A1 (k & Hk & Hpt1) Ht [Hin _] Kp. simpl in Kp.
  eapply (HQ _ tabs1 A1 k); [exact Hk| |done|exact Ht|exact Kp|].
  - split; [by destruct s1|done|done].
  - simpl. rewrite (Hin 0 virt); [by rewrite Z.mul_0_l, Z.add_0_r|lia|].
    by rewrite Z.mul_0_l, Z.add_0_r.
Qed.

(** The comparison of a signature: its four bytes are copied to [signa] first. *)
Lemma runs_signature (k : Z -> M (st (kernel H)) Z) s ptr name sig nm Q :
  0 <= signa -> signa + 5 < two64 -> mapped (smem s) signa (signa + 5) ->
  holds (smem s) ptr sig -> holds (smem s) name nm -> length sig = 4%nat -> length nm = 4%nat ->
  0 <= ptr -> ptr + 4 <= two64 -> 0 <= name -> name + 4 <= two64 ->
  (forall b, span signa 5 b -> ~ span ptr 4 b /\ ~ span name 4 b) ->
  (forall m', changed (smem s) m' (span signa 5) -> runs (k (lex_cmp sig nm)) (with_mem m' s) Q) ->
  runs (memset signa 0 5 ;; memcpy signa (ptr +! header_signature) 4 ;; c <- memcmp signa name 4 ;; k c) s Q.
Proof.
  intros Hs Hst Hm Hp Hn Hls Hln P1 P2 N1 N2 Hap HQ. unfold header_signature. replace (ptr +! 0) with ptr by (unfold add64; rewrite Z.add_0_r, u64_small; lia).
  assert (Hap' : forall b, span signa 5 b -> ~ (ptr <= b < ptr + 4) /\ ~ (name <= b < name + 4)) by exact Hap.
  unfold span in Hap'.
  assert (Hap4 : forall d, 0 <= d < 5 -> ~ (ptr <= signa + d < ptr + 4) /\ ~ (name <= signa + d < name + 4))
    by (intros d Hd; apply Hap'; lia).
  pose proof (Hap4 0) as Ha0. pose proof (Hap4 3) as Ha3. pose proof (Hap4 4) as Ha4.
  apply runs_bind, runs_memset; [lia|lia|lia|exact Hm|]. intros m1 Hw1%written_changed.
  rewrite length_replicate in Hw1. change (Z.of_nat (Z.to_nat 5)) with 5 in Hw1.
  assert (Hp1 : holds m1 ptr sig) by (eapply holds_changed; [exact Hw1| |exact Hp]; unfold span; rewrite Hls; lia).
  assert (Hn1 : holds m1 name nm) by (eapply holds_changed; [exact Hw1| |exact Hn]; unfold span; rewrite Hln; lia).
  apply runs_bind, (runs_memcpy _ _ _ sig).
  - split; simpl; try (rewrite ?Hls; lia); [exact Hp1|]. rewrite Hls. eapply mapped_sub; [by eapply (ch_mapped _ _ _ Hw1)|lia..].
  - by rewrite Hls.
  - lia.
  - intros m2 Hw2. simpl. pose proof (written_changed _ _ _ _ Hw2) as C2. rewrite Hls in C2.
    apply runs_bind. apply (runs_memcmp_from 4 0 _ _ _ sig nm); try (rewrite ?Z.add_0_r); try done; try lia.
    + apply Hw2.
    + eapply holds_changed; [exact C2| |exact Hn1]. unfold span. rewrite Hln. simpl. lia.
    + apply HQ. eapply changed_trans; [exact Hw1|]. eapply changed_weaken; [exact C2|]. unfold span. lia.
Qed.

(** ** The tables *)

(** The bytes that the search reads: the XSDT at [x] with the tables [l], their signatures, and the
    signature looked for. *)
Definition acpi_byte (x name : Z) (l : list acpi_table) (b : Z) : Prop :=
  span x (36 + 8 * len l) b \/ span name 4 b \/ exists p, p ∈ l /\ span (HHDM + p.1) 4 b.

Record acpi_ok (m : mem) (x name : Z) (nm : list Z) (l : list acpi_table) : Prop := {
  ac_length : load_le 4 m (x + 4) = Some (36 + 8 * len l);
  ac_base : 0 <= x;
  ac_top : x + 36 + 8 * len l < two64;
  ac_count : len l < 2 ^ 28;
  ac_entry : forall i p, l !! i = Some p -> load64 m (x + 36 + 8 * Z.of_nat i) = Some p.1;
  ac_table : forall p, p ∈ l -> 0 < p.1 /\ p.1 + PAGE_SIZE <= 2 ^ 47 /\ length p.2 = 4%nat /\ holds m (HHDM + p.1) p.2;
  ac_name : holds m name nm /\ length nm = 4%nat /\ 0 <= name /\ name + 4 <= two64;
  ac_signa : 0 <= signa /\ signa + 5 < two64 /\ mapped m signa (signa + 5)
}.

Lemma acpi_ok_same m m' x name nm l :
  (forall b, acpi_byte x name l b -> m' !! b = m !! b) -> mapped m' signa (signa + 5) ->
  acpi_ok m x name nm l -> acpi_ok m' x name nm l.
Proof.
  intros Hs Hm [A1 A2 A3 A4 A5 A6 (A7 & A8 & A9) (B1 & B2 & _)]. split; try done.
  - erewrite load_le_ext; [exact A1|]. intros b Hb. apply Hs. left. unfold span. lia.
  - intros i p Hi. unfold load64. erewrite load_le_ext; [by apply A5|]. intros b Hb. apply Hs. left. unfold span.
    apply lookup_lt_Some in Hi. lia.
  - intros p Hp. destruct (A6 p Hp) as (T1 & T2 & T3 & T4). split_ands; try done.
    eapply holds_frame; [|exact T4]. intros b Hb. apply Hs. right; right. exists p. split; [done|]. unfold span. lia.
  - split; [|by split]. eapply holds_frame; [|exact A7]. intros b Hb. apply Hs. right; left. unfold span. lia.
Qed.

(** The bytes of the search are neither the allocator's nor the page tables', and [signa] is apart
    from what is read. *)
Record acpi_apart (tabs : gmap (list Z) Z) (x name : Z) (l : list acpi_table) : Prop := {
  aa_read : forall b, acpi_byte x name l b -> quiet I tabs b;
  aa_signa : forall b, span signa 5 b -> quiet I tabs b /\ ~ acpi_byte x name l b
}.
Lemma acpi_apart_kept tabs tabs' m m' x name l :
  kept I tabs tabs' m m' -> acpi_apart tabs x name l -> acpi_apart tabs' x name l.
Proof.
  intros Hk [Hr Hs]. split; [intros b Hb; by apply Hk, Hr|]. intros b Hb. destruct (Hs b Hb) as [Hq Hn]. split; [by apply Hk|done].
Qed.

(** What the search answers: the address of the first table with the signature [nm]. *)
Fixpoint acpi_find (nm : list Z) (l : list acpi_table) : Z :=
  match l with
  | [] => NULL
  | p :: l' => if decide (p.2 = nm) then HHDM + p.1 else acpi_find nm l'
  end.

(** What it leaves, when it has started in [s]. *)
Record searched_from s s' (tabs tabs' : gmap (list Z) Z) : Prop := {
  sf_kernel : frames_only s s';
  sf_tables : tabs ⊆ tabs';
  sf_memory : forall b, quiet I tabs b -> ~ span signa 5 b -> smem s' !! b = smem s !! b
}.
Lemma searched_trans s1 s2 s3 t1 t2 t3 :
  (forall b, quiet I t1 b -> quiet I t2 b) ->
  searched_from s1 s2 t1 t2 -> searched_from s2 s3 t2 t3 -> searched_from s1 s3 t1 t3.
Proof.
  intros Hq [K1 T1 M1] [K2 T2 M2]. split; [by eapply frames_only_trans|by etrans|].
  intros b Hb Hn. rewrite M2, M1 by auto. done.
Qed.

Lemma runs_find_table x name nm l suf pre s n root tabs A Q :
  l = pre ++ suf -> paging s (3 * length suf + n) root tabs A -> acpi_ok (smem s) x name nm l ->
  acpi_apart tabs x name l ->
  (forall s' tabs' A' k, paging s' k root tabs' A' -> (n <= k)%nat -> searched_from s s' tabs tabs' ->
     (acpi_find nm suf <> NULL -> exists phys, acpi_find nm suf = HHDM + phys /\
        pte (smem s') tabs' (acpi_find nm suf) = leaf phys (pt_present |! pt_read_write)) ->
     Q (acpi_find nm suf) s') ->
  runs (find_table_from (length suf) (len pre) (x + 36) name) s Q.
Proof.
  revert pre s n tabs A. induction suf as [|p suf IH]; intros pre s n tabs A Hl Hpg Hok Hap HQ.
  - apply runs_ret. apply (HQ s tabs A n); [exact Hpg|done|split; [apply frames_only_refl|done|done]|done].
  - pose proof Hok as [_ A2 A3 A4 A5 A6 (A7 & A8 & A9 & A10) (B1 & B2 & B3)].
    assert (Hp : l !! length pre = Some p) by (rewrite Hl; by rewrite list_lookup_middle).
    assert (Hin : p ∈ l) by by eapply list_elem_of_lookup_2.
    destruct (A6 p Hin) as (T1 & T2 & T3 & T4). specialize (A5 _ _ Hp).
    assert (Hlen : len l = len pre + 1 + len suf) by (rewrite Hl, length_app; simpl; lia).
    change (2 ^ 28) with 268435456 in A4. change (2 ^ 47) with 140737488355328 in T2. unfold PAGE_SIZE in T2.
    cbn [length find_table_from]. replace (x + 36 +! len pre *! 8) with (x + 36 + 8 * len pre).
    2: { unfold add64, mul64. rewrite (u64_small (len pre * 8)) by (unfold two64; lia). rewrite u64_small; lia. }
    eapply runs_bind, runs_ld; [exact A5|]. cbv zeta.
    assert (Hv : phys_to_virt physical_memory_offset p.1 = HHDM + p.1).
    { rewrite (pg_offset _ _ _ _ _ Hpg). unfold phys_to_virt, add64. rewrite u64_small; [lia|].
      unfold HHDM, two64. lia. }
    rewrite Hv. apply runs_bind. replace (3 * length (p :: suf) + n)%nat with (3 + (3 * length suf + n))%nat in Hpg by (simpl; lia).
    eapply runs_map_page; [exact Hpg|lia|unfold HHDM; lia|unfold HHDM, two64, PAGE_SIZE; lia|unfold two64, PAGE_SIZE; lia|].
    intros s1 tabs1 A1 k1 Hk1 Hpg1 Hf1 Ht1 Kp Hleaf.
    assert (Hsame : forall b, quiet I tabs b -> smem s1 !! b = smem s !! b) by (intros b Hb; by apply Kp).
    assert (Hok1 : acpi_ok (smem s1) x name nm l).
    { eapply acpi_ok_same; [|intros b Hb|exact Hok].
      - intros b Hb. apply Hsame, (aa_read _ _ _ _ Hap b Hb).
      - rewrite Hsame; [by apply B3|]. apply (aa_signa _ _ _ _ Hap b Hb). }
    pose proof (acpi_apart_kept _ _ _ _ _ _ _ Kp Hap) as Hap1.
    pose proof Hok1 as [_ _ _ _ _ A61 (A71 & _) (_ & _ & B31)]. destruct (A61 p Hin) as (_ & _ & _ & T41).
    eapply (runs_signature _ _ _ _ p.2 nm); try done; try (unfold HHDM, two64; lia).
    { intros b Hb. destruct (aa_signa _ _ _ _ Hap b Hb) as [_ Hn]. split.
      - intros Hc. apply Hn. right; right. by exists p.
      - intros Hc. apply Hn. by right; left. }
    intros m2 C2. pose proof (lex_cmp_eq p.2 nm ltac:(lia)) as Hcmp.
    assert (Hq2 : forall b, span signa 5 b -> quiet I tabs1 b) by (intros b Hb; apply (aa_signa _ _ _ _ Hap1 b Hb)).
    assert (Hpg2 : paging (with_mem m2 s1) k1 root tabs1 A1).
    { destruct Hpg1 as [P1 P2 P3]. split; [|done|done]. by eapply (pt_state_quiet I _ _ _ _ _ _ _ P1 C2). }
    assert (Hs2 : searched_from s (with_mem m2 s1) tabs tabs1).
    { split; [exact Hf1|exact Ht1|]. intros b Hb Hn. simpl. rewrite (ch_same _ _ _ C2 b Hn). by apply Hsame. }
    cbn [acpi_find] in HQ. case_decide as Hd.
    + rewrite (proj2 Hcmp Hd). simpl (0 =? 0). cbn iota. apply runs_ret. apply (HQ _ tabs1 A1 k1); [exact Hpg2|lia|exact Hs2|].
      intros _. exists p.1. split; [done|]. rewrite <- Hleaf. simpl.
      eapply (pte_quiet I _ _ _ _ _ _ _ _ (pg_state _ _ _ _ _ Hpg1) C2). exact Hq2.
    + rewrite (proj2 (Z.eqb_neq _ 0)) by (by intros ?%Hcmp).
      replace (len pre + 1) with (len (pre ++ [p])) by (rewrite length_app; simpl; lia).
      eapply (IH (pre ++ [p]) _ (n + (k1 - (3 * length suf + n)))%nat tabs1 A1).
      * by rewrite <- app_assoc.
      * replace (3 * length suf + (n + (k1 - (3 * length suf + n))))%nat with k1 by lia. exact Hpg2.
      * eapply acpi_ok_same; [|by apply (ch_mapped _ _ _ C2)|exact Hok1]. intros b Hb. simpl. apply (ch_same _ _ _ C2).
        intros Hc. by destruct (aa_signa _ _ _ _ Hap b Hc) as [_ Hn].
      * exact Hap1.
      * intros s3 tabs3 A3' k3 Hpg3 Hk3 Hs3 Hres. apply (HQ s3 tabs3 A3' k3); [exact Hpg3|lia| |exact Hres].
        eapply searched_trans; [|exact Hs2|exact Hs3]. intros b Hb. by apply Kp.
Qed.
End Acpi.

Lemma runs_ld32 {H : Type} `{KernelHeap H} a v (s : st (kernel H)) Q :
  load_le 4 (smem s) a = Some v -> Q v s -> runs (ld32 a) s Q.
Proof. intros E HQ. apply runs_bind, runs_gets. by eapply runs_of_opt. Qed.

(** C34: the search of the ACPI tables.  When the XSDT lists the tables [l] and there are frames for
    the mappings, [find_table] returns: the address of the first table with the signature asked for,
    its page mapped for reading and writing, or NULL when no table has it.  The page tables are well
    formed again, and nothing else has changed: of the kernel's state only the frame allocator's, of
    the memory that is not the allocator's or a page table's only the copy of the signature. *)
Theorem find_table_correct {H : Type} `{KernelHeap H} `{Garbage} `{Image} `{Tables} `{BootInfo}
    (I : nat -> st bitmap -> gset Z -> Prop) (F : FrameSource I) (s : st (kernel H)) (n : nat) (root : Z)
    (tabs : gmap (list Z) Z) (A : gset Z) (x name : Z) (nm : list Z) (l : list acpi_table) :
  paging I s (3 * length l + n) root tabs A -> acpi_x (k_boot (smgr s)) = x ->
  acpi_ok (smem s) x name nm l -> acpi_apart I tabs x name l ->
  exists s' tabs' A' k, find_table name s = Some (acpi_find nm l, s') /\
    paging I s' k root tabs' A' /\ (n <= k)%nat /\ searched_from I s s' tabs tabs' /\
    (acpi_find nm l <> NULL -> exists phys, acpi_find nm l = HHDM + phys /\
       pte (smem s') tabs' (acpi_find nm l) = leaf phys (pt_present |! pt_read_write)).
Proof.
  intros Hpg Hx Hok Hap. pose proof Hok as [A1 A2 A3 A4 _ _ _ _]. change (2 ^ 28) with 268435456 in A4.
  enough (Hr : runs (find_table name) s (fun r s' => r = acpi_find nm l /\ exists tabs' A' k,
    paging I s' k root tabs' A' /\ (n <= k)%nat /\ searched_from I s s' tabs tabs' /\
    (acpi_find nm l <> NULL -> exists phys, acpi_find nm l = HHDM + phys /\
       pte (smem s') tabs' (acpi_find nm l) = leaf phys (pt_present |! pt_read_write)))).
  { apply runs_inv in Hr as (r & s' & E & -> & tabs' & A' & k & Hr). by exists s', tabs', A', k. }
  unfold find_table. apply runs_bind. unfold of_boot. apply runs_gets. rewrite Hx. apply runs_bind.
  replace (x +! header_length) with (x + 4) by (unfold add64, header_length; rewrite u64_small; lia).
  eapply runs_ld32; [exact A1|]. cbv zeta.
  replace (u32 (36 + 8 * len l - 32) / 8) with (len l).
  2: { unfold u32. rewrite Z.mod_small by (unfold two32; lia). Z.div_mod_to_equations; lia. }
  rewrite Nat2Z.id. change 0 with (len (@nil acpi_table)).
  replace (x +! xsdt_pointers) with (x + 36) by (unfold add64, xsdt_pointers, SIZEOF_ACPI_HEADER; rewrite u64_small; lia).
  eapply runs_find_table; [done|exact Hpg|exact Hok|exact Hap|].
  intros s' tabs' A' k R1 R2 R3 R4. split; [done|]. by exists tabs', A', k.
Qed.

(** ** A concrete firmware: an XSDT with the tables FACP and APIC *)

#[local] Instance firmware_image : Image := {|
  physical_memory_offset := HHDM; driver_sockets := 16; debug_buf := 2000; idle_entry := 4096;
  init_entry := 4112; str_no_cpu := 1000; str_info := 1100; str_debug := 1120; str_warning := 1140;
  str_error := 1160
|}.
#[local] Instance firmware_tables : Tables := {|
  gdt_entries := 40000; idt_table := 50000; tss := 70000; entry_of _ := 0; asm_syscall_handler := 0
|}.
Definition acpi_at : Z := HHDM + 100 * 4096.
#[local] Instance firmware_info : BootInfo := {|
  rsdp_address := 0; mp_cpus := []; bsp_lapic_id := 0; ap_entry_address := 0;
  signa := acpi_at + 200; str_HPET := acpi_at + 300; str_APIC := acpi_at + 310; str_ap_starting := 0
|}.
Definition sig_FACP : list Z := [70; 65; 67; 80].
Definition sig_APIC : list Z := [65; 80; 73; 67].
Definition firmware_list : list acpi_table := [(100 * 4096 + 400, sig_FACP); (100 * 4096 + 500, sig_APIC)].
(** The two addresses, 409600 + 400 and 409600 + 500, as little-endian words. *)
Definition xsdt_bytes : list Z :=
  replicate 4 0 ++ [52; 0; 0; 0] ++ replicate 28 0 ++ [144; 65; 6; 0; 0; 0; 0; 0; 244; 65; 6; 0; 0; 0; 0; 0].
Definition acpi_bytes : list Z :=
  xsdt_bytes ++ replicate 148 0 ++ replicate 110 0 ++ sig_APIC ++ replicate 86 0 ++ sig_FACP ++ replicate 96 0 ++ sig_APIC.


(** Parts of bytes in memory, and the words they make. *)
Lemma holds_slice m a l k n : holds m a l -> holds m (a + Z.of_nat k) (take n (drop k l)).
Proof.
  intros Hh i v Hi. apply lookup_take_Some in Hi as [Hi _]. rewrite lookup_drop in Hi.
  replace (a + Z.of_nat k + Z.of_nat i) with (a + Z.of_nat (k + i)) by lia. by apply Hh.
Qed.
Lemma holds_load_le m a l : holds m a l -> load_le (length l) m a = Some (foldr (fun v acc => v + 256 * acc) 0 l).
Proof.
  revert a. induction l as [|v l IH]; intros a Hh; [done|]. apply holds_cons in Hh as [Hv Hh].
  cbn [length load_le foldr]. by rewrite Hv, (IH _ Hh).
Qed.
Lemma slice_at m a l k n b sub :
  holds m a l -> b = a + Z.of_nat k -> take n (drop k l) = sub -> holds m b sub.
Proof. intros Hh -> <-. by apply holds_slice. Qed.
Lemma slice_word m a l k b sub v :
  holds m a l -> b = a + Z.of_nat k -> take (length sub) (drop k l) = sub ->
  foldr (fun v acc => v + 256 * acc) 0 sub = v -> load_le (length sub) m b = Some v.
Proof. intros Hh Hb Hs <-. apply holds_load_le. by eapply slice_at. Qed.

Lemma acpi_bytes_ok (m : mem) :
  holds m acpi_at acpi_bytes -> acpi_ok m acpi_at str_APIC sig_APIC firmware_list.
Proof.
  intros Hh.
  assert (Hs : forall k n b sub, b = acpi_at + Z.of_nat k -> take n (drop k acpi_bytes) = sub -> holds m b sub)
    by (intros k n b sub; by apply slice_at).
  assert (Hw : forall k b sub v, b = acpi_at + Z.of_nat k -> take (length sub) (drop k acpi_bytes) = sub ->
    foldr (fun v acc => v + 256 * acc) 0 sub = v -> load_le (length sub) m b = Some v)
    by (intros k b sub v; by apply slice_word).
  split.
  - apply (Hw 4%nat _ [52; 0; 0; 0]); vm_compute; reflexivity.
  - vm_compute. congruence.
  - vm_compute. reflexivity.
  - vm_compute. reflexivity.
  - intros i p Hi. assert (Hc : (i = 0%nat /\ p = (100 * 4096 + 400, sig_FACP)) \/ (i = 1%nat /\ p = (100 * 4096 + 500, sig_APIC))).
    { destruct i as [|[|i]]; simpl in Hi; [injection Hi as <-; by left|injection Hi as <-; by right|done]. }
    destruct Hc as [[-> ->]|[-> ->]].
    + apply (Hw 36%nat _ [144; 65; 6; 0; 0; 0; 0; 0]); vm_compute; reflexivity.
    + apply (Hw 44%nat _ [244; 65; 6; 0; 0; 0; 0; 0]); vm_compute; reflexivity.
  - intros p Hp. apply elem_of_cons in Hp as [->|Hp]; [|apply list_elem_of_singleton in Hp as ->];
      (split; [vm_compute; reflexivity|]); (split; [vm_compute; congruence|]); (split; [reflexivity|]).
    + apply (Hs 400%nat 4%nat); vm_compute; reflexivity.
    + apply (Hs 500%nat 4%nat); vm_compute; reflexivity.
  - split; [apply (Hs 310%nat 4%nat); vm_compute; reflexivity|]. vm_compute. split_ands; congruence.
  - split; [vm_compute; congruence|]. split; [vm_compute; reflexivity|].
    apply holds_mapped in Hh. eapply mapped_sub; [exact Hh|vm_compute; congruence..].
Qed.

Abbreviation demo_tabs := ({[[] := pt_root]} : gmap (list Z) Z).

Lemma acpi_quiet b : acpi_at <= b < acpi_at + 504 -> quiet pt_source demo_tabs b.
Proof.
  intros Hb. unfold acpi_at in Hb. split; [|split].
  - unfold fs_own, frame_allocator, bitmap_byte. change (bitmap_bytes pt_size) with 9. lia.
  - intros g (i & Hi & ->). apply pt_usable in Hi. unfold in_frame, PAGE_SIZE. lia.
  - intros p g Hp. apply lookup_singleton_Some in Hp as [_ <-]. unfold in_frame, pt_root. lia.
Qed.
Lemma acpi_demo_apart : acpi_apart pt_source demo_tabs acpi_at str_APIC firmware_list.
Proof.
  assert (Hr : forall b, acpi_byte acpi_at str_APIC firmware_list b ->
    acpi_at <= b < acpi_at + 52 \/ acpi_at + 310 <= b < acpi_at + 504).
  { intros b [Hb|[Hb|(p & Hp & Hb)]]; unfold span in Hb; simpl in Hb; [lia|lia|].
    apply elem_of_cons in Hp as [->|Hp]; [|apply list_elem_of_singleton in Hp as ->]; simpl in Hb; unfold acpi_at; lia. }
  split.
  - intros b Hb%Hr. apply acpi_quiet. lia.
  - intros b Hb. unfold span in Hb. simpl in Hb. split; [apply acpi_quiet; lia|]. intros Hc%Hr. lia.
Qed.

Lemma acpi_bytes_range : Forall (fun v => 0 <= v < 256) acpi_bytes.
Proof. apply (bool_decide_unpack _). vm_compute. exact Logic.I. Qed.

Lemma firmware_demo : exists s : st (kernel Z),
  paging pt_source s (3 * length firmware_list + 0) pt_root demo_tabs {[pt_root]} /\
  acpi_x (k_boot (smgr s)) = acpi_at /\ acpi_ok (smem s) acpi_at str_APIC sig_APIC firmware_list.
Proof.
  destruct pt_demo as [s0 Hs].
  exists (St (put_bytes acpi_at acpi_bytes (smem s0)) (Kern 500000 (smgr s0) no_objects demo_statics demo_apic
    (set_mc_cr3 pt_root demo_machine) (set_acpi_x acpi_at demo_boot))).
  assert (Hw : holds (put_bytes acpi_at acpi_bytes (smem s0)) acpi_at acpi_bytes).
  { intros i v Hi. pose proof (lookup_lt_Some _ _ _ Hi). unfold load8.
    rewrite put_bytes_lookup, decide_True by lia.
    replace (Z.to_nat (acpi_at + Z.of_nat i - acpi_at)) with i by lia. rewrite Hi. simpl.
    rewrite Z.mod_small; [done|]. exact (Forall_lookup_1 _ _ _ _ acpi_bytes_range Hi). }
  split; [|split; [done|by apply acpi_bytes_ok]]. split; [|done|done]. cbn [smem smgr k_frames].
  assert (Hc : changed (smem s0) (put_bytes acpi_at acpi_bytes (smem s0)) (span acpi_at 504)).
  { split.
    - intros b Hb. rewrite put_bytes_lookup, decide_False; [done|exact Hb].
    - intros lo hi Hlh a Ha. rewrite put_bytes_lookup. case_decide as Hd; [|by apply Hlh].
      apply lookup_lt_is_Some_2. lia. }
  exact (pt_state_quiet pt_source 6 s0 pt_root demo_tabs {[pt_root]} _ _ Hs Hc acpi_quiet).
Qed.

Lemma find_table_correct_witness :
  exists (s : st (kernel Z)) s', find_table str_APIC s = Some (acpi_at + 500, s').
Proof.
  destruct firmware_demo as (s & Hpg & Hx & Hok).
  destruct (find_table_correct pt_source (frame_allocator _ _ _ _ _ _) s 0 pt_root demo_tabs {[pt_root]} acpi_at
    str_APIC sig_APIC firmware_list Hpg Hx Hok acpi_demo_apart) as (s' & tabs' & A' & k & E & _).
  exists s, s'. exact E.
Defined.
