(* ===== verification/Exceptions.v ===== *)
(** Exceptions: the exception handlers and what they print ([arch/x86_64/idt.cpp]), and the set-up
    of the serial port ([arch/x86_64/debug.cpp]): definitions.

    A handler is given the address of the register frame that [entry.S] has pushed and the error
    code; it halts the processor or returns to the code that raised the exception. *)

From Stdlib Require Import ZArith Lia.
From stdpp Require Import prelude gmap strings.
From S2P Require Import Prelude Mem Spinlock Block Klibc Printf Bitmap Frame.
From S2P Require Import PageTable Kernel Apic Thread Descriptors Firmware.

Definition pr_r15 : Z := 0.
Definition pr_r14 : Z := 8.
Definition pr_r13 : Z := 16.
Definition pr_r12 : Z := 24.
Definition pr_r9 : Z := 48.
Definition pr_rbx : Z := 64.
Definition pr_rbp : Z := 104.

(** What becomes of the processor: [while (1) hlt], or [return]. *)
Inductive outcome := returned | halted.

(** A line of registers, as [dump_regs] prints them. *)
Inductive reg_line := line_rip | line_ax_bx | line_cx_dx | line_di_si | line_sp_bp | line_8_9 | line_10_11 | line_12_13 | line_14_15.

(** Where the strings lie, and the buffer of [dump_regs] on the stack. *)
Class Messages := {
  dump_buf : Z;
  str_line : Z;
  str_regs : reg_line -> Z;
  str_handler : isr -> Z
}.

Section Exceptions.
Context {H : Type} `{KernelHeap H} `{Garbage} `{Image} `{Messages}.
Abbreviation KM := (M (st (kernel H))).

(** One of the calls of [printk] in [dump_regs]: the registers at these offsets of the frame. *)
Definition print_regs (regs : Z) (l : reg_line) (r1 r2 : Z) : KM Z :=
  v1 <- ld (regs +! r1) ;; v2 <- ld (regs +! r2) ;; printk (str_regs l) [v1; v2].

Definition dump_regs (regs error_str : Z) (args : list Z) : KM unit :=
  vsprintf str_fuel dump_buf error_str args ;;
  printk str_line [dump_buf] ;;
  (rip <- ld (regs +! pr_rip) ;; printk (str_regs line_rip) [rip]) ;;
  print_regs regs line_ax_bx pr_rax pr_rbx ;;
  print_regs regs line_cx_dx pr_rcx pr_rdx ;;
  print_regs regs line_di_si pr_rdi pr_rsi ;;
  print_regs regs line_sp_bp pr_rsp pr_rbp ;;
  print_regs regs line_8_9 pr_r8 pr_r9 ;;
  print_regs regs line_10_11 pr_r10 pr_r11 ;;
  print_regs regs line_12_13 pr_r12 pr_r13 ;;
  print_regs regs line_14_15 pr_r14 pr_r15 ;;
  ret tt.

Definition do_divide_error (regs error_code : Z) : KM outcome :=
  dump_regs regs (str_handler divide_error) [] ;; ret halted.
Definition do_debug (regs error_code : Z) : KM outcome :=
  dump_regs regs (str_handler debug) [] ;; ret halted.
Definition do_nmi (regs error_code : Z) : KM outcome :=
  dump_regs regs (str_handler nmi) [] ;; ret halted.
Definition do_int3 (regs error_code : Z) : KM outcome :=
  dump_regs regs (str_handler int3) [] ;; ret returned.
Definition do_overflow (regs error_code : Z) : KM outcome :=
  dump_regs regs (str_handler overflow) [] ;; ret halted.
Definition do_bounds (regs error_code : Z) : KM outcome :=
  dump_regs regs (str_handler bounds) [] ;; ret halted.
Definition do_undefined_opcode (regs error_code : Z) : KM outcome :=
  dump_regs regs (str_handler undefined_opcode) [] ;; ret halted.
Definition do_dev_not_avaliable (regs error_code : Z) : KM outcome :=
  dump_regs regs (str_handler dev_not_avaliable) [] ;; ret halted.
Definition do_double_fault (regs error_code : Z) : KM outcome :=
  dump_regs regs (str_handler double_fault) [] ;; ret halted.
Definition do_coprocessor_segment_overrun (regs error_code : Z) : KM outcome :=
  dump_regs regs (str_handler coprocessor_segment_overrun) [] ;; ret halted.
Definition do_invalid_TSS (regs error_code : Z) : KM outcome :=
  dump_regs regs (str_handler invalid_TSS) [] ;; ret halted.
Definition do_segment_not_exists (regs error_code : Z) : KM outcome :=
  dump_regs regs (str_handler segment_not_exists) [] ;; ret halted.
Definition do_stack_segment_fault (regs error_code : Z) : KM outcome :=
  dump_regs regs (str_handler stack_segment_fault) [] ;; ret halted.
Definition do_general_protection (regs error_code : Z) : KM outcome :=
  dump_regs regs (str_handler general_protection) [] ;; ret halted.
(** [cr2] is what CR2 holds when the handler reads it. *)
Definition do_page_fault (cr2 regs error_code : Z) : KM outcome :=
  dump_regs regs (str_handler page_fault) [cr2] ;; ret halted.
Definition do_x87_FPU_error (regs error_code : Z) : KM outcome :=
  dump_regs regs (str_handler x87_FPU_error) [] ;; ret halted.
Definition do_alignment_check (regs error_code : Z) : KM outcome :=
  dump_regs regs (str_handler alignment_check) [] ;; ret halted.
Definition do_machine_check (regs error_code : Z) : KM outcome :=
  dump_regs regs (str_handler machine_check) [] ;; ret halted.
Definition do_SIMD_exception (regs error_code : Z) : KM outcome :=
  dump_regs regs (str_handler SIMD_exception) [] ;; ret halted.
Definition do_virtualization_exception (regs error_code : Z) : KM outcome :=
  dump_regs regs (str_handler virtualization_exception) [] ;; ret halted.

(** The handler behind each entry point, as [entry.S] names it; the timer's handler is
    [do_lapic_timer], which does not print. *)
Definition handler (i : isr) (cr2 regs error_code : Z) : KM outcome :=
  match i with
  | divide_error => do_divide_error regs error_code
  | debug => do_debug regs error_code
  | nmi => do_nmi regs error_code
  | int3 => do_int3 regs error_code
  | overflow => do_overflow regs error_code
  | bounds => do_bounds regs error_code
  | undefined_opcode => do_undefined_opcode regs error_code
  | dev_not_avaliable => do_dev_not_avaliable regs error_code
  | double_fault => do_double_fault regs error_code
  | coprocessor_segment_overrun => do_coprocessor_segment_overrun regs error_code
  | invalid_TSS => do_invalid_TSS regs error_code
  | segment_not_exists => do_segment_not_exists regs error_code
  | stack_segment_fault => do_stack_segment_fault regs error_code
  | general_protection => do_general_protection regs error_code
  | page_fault => do_page_fault cr2 regs error_code
  | x87_FPU_error => do_x87_FPU_error regs error_code
  | alignment_check => do_alignment_check regs error_code
  | machine_check => do_machine_check regs error_code
  | SIMD_exception => do_SIMD_exception regs error_code
  | virtualization_exception => do_virtualization_exception regs error_code
  | lapic_timer => do_lapic_timer regs ;; ret returned
  end.

(** ** debug.cpp *)

Definition SERIAL_PORT : Z := 1016. (* 0x3F8 *)

(** [answer] is the byte that comes back from the port in loop-back mode. *)
Definition debug_init (answer : Z) : KM unit :=
  io_out8 (SERIAL_PORT + 1) 0 ;;
  io_out8 (SERIAL_PORT + 3) 128 ;;
  io_out8 (SERIAL_PORT + 0) 3 ;;
  io_out8 (SERIAL_PORT + 1) 0 ;;
  io_out8 (SERIAL_PORT + 3) 3 ;;
  io_out8 (SERIAL_PORT + 2) 199 ;;
  io_out8 (SERIAL_PORT + 4) 11 ;;
  io_out8 (SERIAL_PORT + 4) 30 ;;
  io_out8 (SERIAL_PORT + 0) 174 ;;
  if negb (answer =? 174) then ret tt else io_out8 (SERIAL_PORT + 4) 15.
End Exceptions.

(** ** The strings *)

(** The characters of a string literal. *)
Definition chars (s : string) : list Z := (fun c => Z.of_nat (Ascii.nat_of_ascii c)) <$> String.list_ascii_of_string s.

(** The names that the handlers print ([do_divide_error] with its spelling). *)
Definition handler_name (i : isr) : string :=
  (match i with
  | divide_error => "do_divder_error(0)"
  | debug => "do_debug(1)"
  | nmi => "do_nmi(2)"
  | int3 => "do_int3(3)"
  | overflow => "do_overflow(4)"
  | bounds => "do_bounds(5)"
  | undefined_opcode => "do_undefined_opcode(6)"
  | dev_not_avaliable => "do_dev_not_avaliable(7)"
  | double_fault => "do_double_fault(8)"
  | coprocessor_segment_overrun => "do_coprocessor_segment_overrun(9)"
  | invalid_TSS => "do_invalid_TSS(10)"
  | segment_not_exists => "do_segment_not_exists(11)"
  | stack_segment_fault => "do_stack_segment_fault(12)"
  | general_protection => "do_general_protection(13)"
  | page_fault => "do_page_fault(14)"
  | x87_FPU_error => "do_x87_FPU_error(16)"
  | alignment_check => "do_alignment_check(17)"
  | machine_check => "do_machine_check(18)"
  | SIMD_exception => "do_SIMD_exception(19)"
  | virtualization_exception => "do_virtualization_exception(20)"
  | lapic_timer => EmptyString
  end)%string.
