(* ===== verification/Kmain.v ===== *)
(** Kmain: the order of the initialisers, and the kernel's threads of [main.cpp]: definitions. *)

From Stdlib Require Import ZArith Lia.
From stdpp Require Import prelude gmap.
From S2P Require Import Prelude Mem Spinlock Block Klibc Bitmap Frame.
From S2P Require Import PageTable Kernel Apic Thread Descriptors Firmware Exceptions.

(** What else the boot loader, the compiler and the firmware supply: whether the base revision is
    supported, the constructors of static objects, the memory map with the number that marks usable
    memory, the byte that the serial port answers when it is tested, and what the timer of the local
    APIC has counted down to when it is calibrated. *)
Class Start (H : Type) := {
  base_revision_supported : bool;
  init_array : list (M (st (kernel H)) unit);
  memory_map : list region;
  memory_usable : Z;
  serial_answer : Z;
  timer_answer : Z;
  str_init_running : Z
}.

Section Kmain.
Context {H : Type} `{KernelHeap H} `{Garbage} `{Image} `{Tables} `{BootInfo} `{Messages} `{Start H}.
Abbreviation KM := (M (st (kernel H))).

Fixpoint run_init_array (l : list (KM unit)) : KM unit :=
  match l with [] => ret tt | f :: l' => f ;; run_init_array l' end.

(** [schedule::init] *)
Definition schedule_init : KM unit := ret tt.

(** [kmain] up to its last [hcf()], where the processor waits for the timer; [heap_init] is [init_heap]
    on the state of the heap.  [hhdm::init] stores the offset of the direct map, a constant of
    [Image]. *)
Definition kmain (heap_init : H -> option H) : KM unit :=
  if negb base_revision_supported then ret tt
  else
    run_init_array init_array ;;
    on_frames (frame_init physical_memory_offset memory_usable memory_map) ;;
    debug_init serial_answer ;;
    arch_init timer_answer ;;
    (h <- gets (fun s => k_heap (smgr s)) ;; h' <- of_opt (heap_init h) ;;
     modify (fun s => St (smem s) (set_k_heap h' (smgr s)))) ;;
    syscall_init ;;
    init ;;
    schedule_init.

(** The thread that starts at [init_entry], up to its endless wait. *)
Definition run_init_entry : KM unit := printk str_init_running [] ;; ret tt.
End Kmain.
