(* ===== verification/ExceptionFacts.v ===== *)
(** ExceptionFacts: the texts that the exception handlers print ([arch/x86_64/idt.cpp]), as lists of
    characters, and the formats they come from. *)

From Stdlib Require Import ZArith Lia.
From stdpp Require Import prelude gmap strings.
From S2P Require Import Prelude Mem Spinlock Block Klibc Printf PrintfFacts NumberRule.
From S2P Require Import PrintfParse PrintfThms Thread Descriptors Exceptions.

(** ** Words in hexadecimal *)

(** The last [n] digits of [v]. *)
Fixpoint hex_digits (n : nat) (v : Z) : list Z :=
  match n with O => [] | S n' => hex_digits n' (v / 16) ++ [digit_char true (v mod 16)] end.
Definition hex_text (v : Z) : list Z := [48; 120] ++ hex_digits 16 v.

Lemma hex_digits_length n v : length (hex_digits n v) = n.
Proof. revert v. induction n as [|n IH]; intros v; [done|]. simpl. rewrite length_app, IH. simpl. lia. Qed.
Lemma hex_digits_positive n v : Forall (fun c => 0 < c) (hex_digits n v).
Proof.
  revert v. induction n as [|n IH]; intros v; [constructor|]. apply Forall_app. split; [apply IH|].
  constructor; [|done]. pose proof (Z.mod_pos_bound v 16 ltac:(lia)). unfold digit_char. case_match; lia.
Qed.
Lemma hex_digits_zero n : hex_digits n 0 = rep (Z.of_nat n) 48.
Proof.
  induction n as [|n IH]; [done|]. cbn [hex_digits]. change (0 / 16) with 0. rewrite IH. unfold rep.
  rewrite !Nat2Z.id. change [digit_char true (0 mod 16)] with (replicate 1 48). rewrite <- replicate_add.
  f_equal. lia.
Qed.

(** A number below 16^[n] has a numeral, and that, with zeros before it, is its last [n] digits. *)
Lemma numeral_hex (n : nat) v :
  0 <= v < 16 ^ Z.of_nat (S n) -> exists ds, numeral 16 v ds /\ (length ds <= S n)%nat /\
    rep (Z.of_nat (S n - length ds)) 48 ++ map (digit_char true) ds = hex_digits (S n) v.
Proof.
  revert v. induction n as [|n IH]; intros v Hv.
  - exists [v]. simpl in Hv. change (Z.pow_pos 16 1) with 16 in Hv. split; [|split; [done|]].
    + destruct (decide (v = 0)) as [->|]; [by apply numeral_zero|apply numeral_one; lia].
    + simpl. by rewrite Z.mod_small by lia.
  - destruct (decide (v < 16)) as [Hs|Hs].
    + exists [v]. split; [|split; [simpl; lia|]].
      * destruct (decide (v = 0)) as [->|]; [by apply numeral_zero|apply numeral_one; lia].
      * change (hex_digits (S (S n)) v) with (hex_digits (S n) (v / 16) ++ [digit_char true (v mod 16)]).
        rewrite Z.div_small, Z.mod_small by lia. by rewrite hex_digits_zero.
    + destruct (IH (v / 16)) as (ds & Hds & Hl & E).
      { rewrite (Nat2Z.inj_succ (S n)), Z.pow_succ_r in Hv by lia. split; [apply Z.div_pos; lia|].
        apply Z.div_lt_upper_bound; lia. }
      exists (ds ++ [v mod 16]). rewrite length_app. simpl length. split; [|split; [lia|]].
      * rewrite (Z.div_mod v 16) at 1 by lia. rewrite (Z.mul_comm 16). apply numeral_snoc; [lia|done| |].
        { assert (1 <= v / 16) by (apply Z.div_le_lower_bound; lia). lia. }
        { apply Z.mod_pos_bound. lia. }
      * change (hex_digits (S (S n)) v) with (hex_digits (S n) (v / 16) ++ [digit_char true (v mod 16)]).
        rewrite <- E, map_app, app_assoc. by replace (S (S n) - (length ds + 1))%nat with (S n - length ds)%nat by lia.
Qed.

(** [%#018lx]. *)
Definition hex_dir : dir := Dir [35; 48] [1; 8] None (Some 108) conv_x.
Lemma hex_dir_ok : dir_ok hex_dir.
Proof.
  split; simpl.
  - repeat constructor; eexists; reflexivity.
  - split; [repeat constructor; lia|vm_compute; congruence].
  - by intros x l [= <- _].
  - done.
  - intros q [= <-]. lia.
  - unfold conv_ok. rewrite !elem_of_cons. tauto.
Qed.
Lemma hex_conv sa v args : 0 <= v < two64 -> conv_text sa hex_dir (v :: args) (hex_text v) args.
Proof.
  intros Hv. destruct (numeral_hex 15 v) as (ds & Hds & Hl & E).
  { change (16 ^ Z.of_nat 16) with two64. exact Hv. }
  exists v, ds. split; [done|]. cbn [hex_dir d_flags d_width d_prec d_qual d_conv conv_x].
  assert (Em : magnitude (s64 (int_arg (qual_of (Some 108)) (flags_of [35; 48] |! SMALL) v))
    (flags_of [35; 48] |! SMALL) = v).
  { unfold magnitude. change (has (flags_of [35; 48] |! SMALL) SIGN) with false. cbn iota.
    change (int_arg (qual_of (Some 108)) (flags_of [35; 48] |! SMALL) v) with (u64 v).
    by rewrite u64_s64, !(u64_small v) by done. }
  split; [by rewrite Em|].
  unfold hex_text. rewrite <- E. unfold number_text, field_text.
  change (has (flags_of [35; 48] |! SMALL) LEFT) with false.
  change (has (flags_of [35; 48] |! SMALL) ZEROPAD) with true.
  change (sign_text _ (flags_of [35; 48] |! SMALL)) with (@nil Z).
  change (special_text 16 (flags_of [35; 48] |! SMALL)) with [48; 120].
  change (has (flags_of [35; 48] |! SMALL) SMALL) with true. change (width_of [1; 8]) with 18.
  change (prec_of None) with (-1). cbn iota. rewrite (rep_nil (-1 - _)) by lia. simpl app.
  rewrite length_map. do 4 f_equal. lia.
Qed.

(** ** Formats *)

Definition lits (l : list Z) : list piece := Lit <$> l.
Definition hex_piece : piece := Conv hex_dir.

Lemma text_lits sa l ps args out : text_of sa ps args out -> text_of sa (lits l ++ ps) args (l ++ out).
Proof. intros Ht. induction l as [|c l IH]; [done|]. by apply text_lit. Qed.
Lemma text_hex sa v ps args out :
  0 <= v < two64 -> text_of sa ps args out -> text_of sa (hex_piece :: ps) (v :: args) (hex_text v ++ out).
Proof. intros Hv. apply text_conv. by apply hex_conv. Qed.

(** The names before the two registers of a line. *)
Definition reg_names (l : reg_line) : string * string :=
  (match l with
  | line_rip => (EmptyString, "RIP = ")
  | line_ax_bx => ("RAX = ", ", RBX = ")
  | line_cx_dx => ("RCX = ", ", RDX = ")
  | line_di_si => ("RDI = ", ", RSI = ")
  | line_sp_bp => ("RSP = ", ", RBP = ")
  | line_8_9 => ("R08 = ", ", R09 = ")
  | line_10_11 => ("R10 = ", ", R11 = ")
  | line_12_13 => ("R12 = ", ", R13 = ")
  | line_14_15 => ("R14 = ", ", R15 = ")
  end)%string.

(** The line of one register, and that of two. *)
Definition line1_pieces (n : list Z) : list piece := lits n ++ [hex_piece; Lit 10].
Definition line1_text (n : list Z) (v : Z) : list Z := n ++ hex_text v ++ [10].
Definition line2_pieces (n1 n2 : list Z) : list piece := lits n1 ++ hex_piece :: line1_pieces n2.
Definition line2_text (n1 n2 : list Z) (v1 v2 : Z) : list Z := n1 ++ hex_text v1 ++ line1_text n2 v2.

Definition line_pieces (l : reg_line) : list piece :=
  let '(n1, n2) := reg_names l in
  match l with line_rip => line1_pieces (chars n2) | _ => line2_pieces (chars n1) (chars n2) end.
Definition line_text (l : reg_line) (v1 v2 : Z) : list Z :=
  let '(n1, n2) := reg_names l in line2_text (chars n1) (chars n2) v1 v2.
Definition rip_text (v : Z) : list Z := line1_text (chars (snd (reg_names line_rip))) v.

(** They are the formats of the source. *)
Definition line_format (l : reg_line) : list Z :=
  chars (match l with
  | line_rip => "RIP = %#018lx"
  | line_ax_bx => "RAX = %#018lx, RBX = %#018lx"
  | line_cx_dx => "RCX = %#018lx, RDX = %#018lx"
  | line_di_si => "RDI = %#018lx, RSI = %#018lx"
  | line_sp_bp => "RSP = %#018lx, RBP = %#018lx"
  | line_8_9 => "R08 = %#018lx, R09 = %#018lx"
  | line_10_11 => "R10 = %#018lx, R11 = %#018lx"
  | line_12_13 => "R12 = %#018lx, R13 = %#018lx"
  | line_14_15 => "R14 = %#018lx, R15 = %#018lx"
  end)%string ++ [10].
Lemma line_pieces_format l : format_text (line_pieces l) = line_format l.
Proof. by destruct l. Qed.

Definition fault_address : string := ", fault address = ".
Definition fault_pieces (i : isr) : list piece :=
  lits (chars (handler_name i)) ++
  match i with page_fault => lits (chars fault_address) ++ [hex_piece] | _ => [] end.
Definition fault_text (i : isr) (cr2 : Z) : list Z :=
  chars (handler_name i) ++ match i with page_fault => chars fault_address ++ hex_text cr2 | _ => [] end.
Definition fault_args (i : isr) (cr2 : Z) : list Z := match i with page_fault => [cr2] | _ => [] end.

Definition fault_format (i : isr) : list Z :=
  chars (match i with
  | page_fault => "do_page_fault(14), fault address = %#018lx"
  | _ => handler_name i
  end)%string.
Lemma fault_pieces_format i : format_text (fault_pieces i) = fault_format i.
Proof. by destruct i. Qed.

Lemma line1_text_of sa n v : 0 <= v < two64 -> text_of sa (line1_pieces n) [v] (line1_text n v).
Proof. intros Hv. apply text_lits, text_hex; [done|]. apply text_lit, text_nil. Qed.
Lemma line2_text_of sa n1 n2 v1 v2 :
  0 <= v1 < two64 -> 0 <= v2 < two64 -> text_of sa (line2_pieces n1 n2) [v1; v2] (line2_text n1 n2 v1 v2).
Proof. intros H1 H2. apply text_lits, text_hex; [done|]. by apply line1_text_of. Qed.
Lemma fault_text_of sa i cr2 :
  0 <= cr2 < two64 -> text_of sa (fault_pieces i) (fault_args i cr2) (fault_text i cr2).
Proof.
  intros Hv. apply text_lits. destruct i; try apply text_nil. rewrite <- (app_nil_r (hex_text cr2)).
  apply text_lits, text_hex; [done|apply text_nil].
Qed.

Lemma lits_ok l : Forall (fun c => 0 < c < 256 /\ c <> 37) l -> Forall piece_ok (lits l).
Proof. unfold lits. rewrite Forall_fmap. done. Qed.
Lemma line1_ok n : Forall (fun c => 0 < c < 256 /\ c <> 37) n -> Forall piece_ok (line1_pieces n).
Proof.
  intros Hn. apply Forall_app. split; [by apply lits_ok|].
  constructor; [apply hex_dir_ok|]. constructor; [simpl; lia|constructor].
Qed.
(** Deciding that characters are literal. *)
Definition literal_char (c : Z) : bool := (0 <? c) && (c <? 256) && negb (c =? 37).
Lemma literal_chars l : forallb literal_char l = true -> Forall (fun c => 0 < c < 256 /\ c <> 37) l.
Proof.
  intros Hl. rewrite forallb_forall in Hl. apply Forall_forall. intros x Hx.
  apply list_elem_of_In, Hl in Hx. unfold literal_char in Hx. lia.
Qed.
Lemma line_ok l : Forall piece_ok (line_pieces l).
Proof.
  assert (H2 : forall n1 n2, forallb literal_char n1 = true -> forallb literal_char n2 = true ->
    Forall piece_ok (line2_pieces n1 n2)).
  { intros n1 n2 H1 H2. apply Forall_app. split; [by apply lits_ok, literal_chars|].
    constructor; [apply hex_dir_ok|by apply line1_ok, literal_chars]. }
  destruct l; first [by apply line1_ok, literal_chars|by apply H2].
Qed.
Lemma fault_ok i : Forall piece_ok (fault_pieces i).
Proof.
  apply Forall_app. split; [by destruct i; apply lits_ok, literal_chars|].
  destruct i; try apply Forall_nil_2. apply Forall_app. split; [by apply lits_ok, literal_chars|].
  constructor; [apply hex_dir_ok|constructor].
Qed.

Lemma positive_chars l : forallb literal_char l = true -> Forall (fun c => 0 < c) l.
Proof. intros Hl%literal_chars. eapply Forall_impl; [exact Hl|]. simpl. lia. Qed.
Lemma fault_text_positive i cr2 : Forall (fun c => 0 < c) (fault_text i cr2).
Proof.
  unfold fault_text. rewrite Forall_app. split; [by destruct i; apply positive_chars|].
  assert (Hp : Forall (fun c => 0 < c) (chars fault_address ++ hex_text cr2)).
  { unfold hex_text. rewrite !Forall_app. split; [by apply positive_chars|].
    split; [by apply positive_chars|apply hex_digits_positive]. }
  destruct i; first [exact Hp|apply Forall_nil_2].
Qed.
Lemma fault_text_length i cr2 : (length (fault_text i cr2) <= 60)%nat.
Proof. unfold fault_text. rewrite length_app. destruct i; rewrite ?length_app; simpl; lia. Qed.
Lemma line_format_length l : (length (line_format l) <= 60)%nat.
Proof. apply (bool_decide_unpack _). by destruct l. Qed.
Lemma fault_format_length i : (length (fault_format i) <= 60)%nat.
Proof. apply (bool_decide_unpack _). by destruct i. Qed.
Lemma line1_text_length n v : length (line1_text n v) = (length n + 19)%nat.
Proof. unfold line1_text, hex_text. rewrite !length_app, hex_digits_length. simpl. lia. Qed.
Lemma line2_text_length n1 n2 v1 v2 : length (line2_text n1 n2 v1 v2) = (length n1 + length n2 + 37)%nat.
Proof. unfold line2_text, hex_text. rewrite !length_app, hex_digits_length, line1_text_length. simpl. lia. Qed.
