(* ===== verification/ExceptionThms.v ===== *)
(** ExceptionThms: the exception handlers ([arch/x86_64/idt.cpp]) print the register frame. *)

From Stdlib Require Import ZArith Lia.
From stdpp Require Import prelude gmap strings.
From S2P Require Import Prelude Mem Spinlock Block Klibc Bitmap Frame.
From S2P Require Import Printf PrintfFacts PrintfParse PrintfThms.
From S2P Require Import PageTable Kernel Apic Thread KernelFacts SocketFacts ConsoleFacts CreateFacts.
From S2P Require Import KernelDemo Descriptors DescriptorFacts Exceptions ExceptionFacts.

Section Report.
Context {H : Type} `{KernelHeap H} `{Garbage} `{Image} `{Messages}.
Implicit Types (s : st (kernel H)).

Lemma printed_printed o1 o2 m1 m2 s : printed o2 m2 (printed o1 m1 s) = printed (o1 ++ o2) m2 s.
Proof.
  unfold printed, on_machine, with_mem. simpl. rewrite crlf_app, <- sent_app. reflexivity.
Qed.

(** The two buffers that a handler prints through. *)
Definition buffers (b : Z) : Prop := span debug_buf 4096 b \/ span dump_buf 128 b.

(** The string [l] is at [a], away from both buffers. *)
Record literal (m : mem) (a : Z) (l : list Z) : Prop := {
  li_console : str_apart m debug_buf 4096 a l;
  li_dump : str_apart m dump_buf 128 a l
}.
Lemma literal_changed m m' a l : changed m m' buffers -> literal m a l -> literal m' a l.
Proof.
  intros Hc [[Hh Hp A1 A2 A3] [_ _ B1 _ _]].
  assert (Hh' : holds m' a (l ++ [0])).
  { eapply holds_changed; [exact Hc| |exact Hh]. rewrite length_app. simpl. unfold buffers, span. lia. }
  by split; split.
Qed.

(** The frame at [regs] holds the registers [frame], by offset, and lies away from both buffers. *)
Record frame_at (m : mem) (regs : Z) (frame : Z -> Z) : Prop := {
  fa_words : forall r, 0 <= r < SIZEOF_PT_REGS -> r mod 8 = 0 -> load64 m (regs + r) = Some (frame r);
  fa_console : regs + SIZEOF_PT_REGS <= debug_buf \/ debug_buf + 4096 <= regs;
  fa_dump : regs + SIZEOF_PT_REGS <= dump_buf \/ dump_buf + 128 <= regs;
  fa_base : 0 <= regs;
  fa_top : regs + SIZEOF_PT_REGS < two64
}.
Lemma frame_at_changed m m' regs frame : changed m m' buffers -> frame_at m regs frame -> frame_at m' regs frame.
Proof.
  intros Hc [Hw A1 A2 A3 A4]. split; try done. intros r Hr Hr8. unfold SIZEOF_PT_REGS in *.
  rewrite (load64_changed _ _ _ _ Hc); [by apply Hw|]. unfold buffers, span. Z.div_mod_to_equations. lia.
Qed.

(** The memory a handler for [i] can print from. *)
Record report_mem (m : mem) (i : isr) (regs : Z) (frame : Z -> Z) : Prop := {
  rm_buf : 0 <= debug_buf /\ debug_buf + 4096 < two64;
  rm_mapped : mapped m debug_buf (debug_buf + 4096);
  rm_dump : 0 <= dump_buf /\ dump_buf + 128 < two64;
  rm_dump_mapped : mapped m dump_buf (dump_buf + 128);
  rm_apart : debug_buf + 4096 <= dump_buf \/ dump_buf + 128 <= debug_buf;
  rm_line : literal m str_line [37; 115; 10];
  rm_regs : forall l, literal m (str_regs l) (line_format l);
  rm_handler : literal m (str_handler i) (fault_format i);
  rm_frame : frame_at m regs frame
}.
Lemma report_mem_changed m m' i regs frame :
  changed m m' buffers -> report_mem m i regs frame -> report_mem m' i regs frame.
Proof.
  intros Hc [A1 A2 A3 A4 A5 A6 A7 A8 A9]. pose proof (ch_mapped _ _ _ Hc) as Hm.
  split; try done; eauto using literal_changed, frame_at_changed.
Qed.

Definition unlocked s : Prop := lock (mc_debug_lock (k_cpu (smgr s))) = 0.

Lemma written_buffers m m' l : Z.of_nat (length l) <= 4096 -> written m m' debug_buf l -> changed m m' buffers.
Proof.
  intros Hl Hw%written_changed. eapply changed_weaken; [exact Hw|]. unfold buffers, span. lia.
Qed.

(** A line of registers. *)
Lemma runs_print_line s i regs frame l vs out Q :
  unlocked s -> report_mem (smem s) i regs frame ->
  text_of (printable (smem s) str_fuel debug_buf 4096) (line_pieces l) vs out -> (length out <= 100)%nat ->
  (forall m', changed (smem s) m' buffers -> Q (Z.of_nat (length out)) (printed out m' s)) ->
  runs (printk (str_regs l) vs) s Q.
Proof.
  intros Hl Hm Ht Hlen HQ. destruct Hm as [[A1 A2] A3 _ _ _ _ A7 _ _].
  pose proof (line_format_length l) as Hfl.
  eapply (runs_printk _ _ (line_pieces l)).
  - split; [exact Hl|by split|exact A3|apply line_ok| | |exact Ht|lia].
    + rewrite line_pieces_format. apply A7.
    + rewrite line_pieces_format. unfold str_fuel. lia.
  - intros m' Hw. apply HQ. eapply written_buffers; [|exact Hw]. rewrite length_app. simpl. lia.
Qed.

Lemma frame_word s regs frame r :
  frame_at (smem s) regs frame -> 0 <= r < SIZEOF_PT_REGS -> r mod 8 = 0 ->
  load64 (smem s) (regs +! r) = Some (frame r) /\ 0 <= frame r < two64.
Proof.
  intros [Hw _ _ Hb Ht] Hr H8. unfold SIZEOF_PT_REGS in *. norm_words. specialize (Hw r Hr H8).
  split; [exact Hw|]. by eapply load64_range.
Qed.

Lemma runs_print_regs s i regs frame l r1 r2 Q :
  l <> line_rip -> unlocked s -> report_mem (smem s) i regs frame ->
  0 <= r1 < SIZEOF_PT_REGS -> r1 mod 8 = 0 -> 0 <= r2 < SIZEOF_PT_REGS -> r2 mod 8 = 0 ->
  (forall v m', changed (smem s) m' buffers -> Q v (printed (line_text l (frame r1) (frame r2)) m' s)) ->
  runs (print_regs regs l r1 r2) s Q.
Proof.
  intros Hne Hl Hm R1 R1' R2 R2' HQ. pose proof (rm_frame _ _ _ _ Hm) as Hf.
  destruct (frame_word s regs frame r1 Hf R1 R1') as [W1 V1].
  destruct (frame_word s regs frame r2 Hf R2 R2') as [W2 V2].
  eapply runs_bind, runs_ld; [exact W1|]. eapply runs_bind, runs_ld; [exact W2|].
  eapply runs_print_line; [exact Hl|exact Hm| | |by intros m'; apply HQ].
  - destruct l; try done; by apply line2_text_of.
  - unfold line_text. destruct (reg_names l) as [n1 n2] eqn:En. rewrite line2_text_length.
    destruct l; injection En as <- <-; simpl; lia.
Qed.

Lemma runs_print_rip s i regs frame Q :
  unlocked s -> report_mem (smem s) i regs frame ->
  (forall v m', changed (smem s) m' buffers -> Q v (printed (rip_text (frame pr_rip)) m' s)) ->
  runs (rip <- ld (regs +! pr_rip) ;; printk (str_regs line_rip) [rip]) s Q.
Proof.
  intros Hl Hm HQ. destruct (frame_word s regs frame pr_rip (rm_frame _ _ _ _ Hm)) as [W V]; [done..|].
  eapply runs_bind, runs_ld; [exact W|].
  eapply runs_print_line; [exact Hl|exact Hm|by apply line1_text_of|rewrite line1_text_length; simpl; lia|].
  by intros m'; apply HQ.
Qed.

(** The message, and its line. *)
Definition line_fmt : list piece := [Conv (Dir [] [] None None CvStr); Lit 10].
Lemma line_fmt_ok : Forall piece_ok line_fmt.
Proof.
  constructor; [|constructor; [simpl; lia|constructor]].
  split; simpl; [constructor|split; [constructor|vm_compute; congruence]|done..].
Qed.
Lemma line_fmt_text sa a l : sa a l -> text_of sa line_fmt [a] (l ++ [10]).
Proof.
  intros Hl. apply (text_conv _ _ _ _ []); [|apply text_lit, text_nil].
  exists a, l. split; [done|]. split; [done|]. unfold plain_text. simpl. by rewrite rep_nil by lia.
Qed.

Lemma runs_message s i cr2 regs frame (k : M (st (kernel H)) unit) Q :
  0 <= cr2 < two64 -> report_mem (smem s) i regs frame ->
  (forall m', changed (smem s) m' buffers -> str_apart m' debug_buf 4096 dump_buf (fault_text i cr2) ->
     runs k (with_mem m' s) Q) ->
  runs (vsprintf str_fuel dump_buf (str_handler i) (fault_args i cr2) ;; k) s Q.
Proof.
  intros Hv [_ _ [A3 A3'] A4 A5 _ _ [_ A8] _] HQ. pose proof (fault_text_length i cr2) as Hl.
  pose proof (fault_format_length i) as Hfl. apply runs_bind.
  eapply (runs_vsprintf _ _ _ 128 _ (fault_pieces i)); [exact A3|exact A3'|exact A4|lia|apply fault_ok| | |
    by apply fault_text_of|lia|].
  - rewrite fault_pieces_format. exact A8.
  - rewrite fault_pieces_format. unfold str_fuel. lia.
  - intros s1 Hw Hg. replace s1 with (with_mem (smem s1) s) by (destruct s1, s; simpl in *; by subst).
    apply HQ.
    + eapply changed_weaken; [exact (written_changed _ _ _ _ Hw)|]. intros b Hb. right.
      rewrite length_app in Hb. unfold span in *. simpl in Hb. lia.
    + destruct Hw as [Hh _]. split; [exact Hh|apply fault_text_positive|lia|exact A3|lia].
Qed.

Lemma runs_print_message s i cr2 regs frame Q :
  unlocked s -> report_mem (smem s) i regs frame ->
  str_apart (smem s) debug_buf 4096 dump_buf (fault_text i cr2) ->
  (forall v m', changed (smem s) m' buffers -> Q v (printed (fault_text i cr2 ++ [10]) m' s)) ->
  runs (printk str_line [dump_buf]) s Q.
Proof.
  intros Hl [[A1 A2] A3 _ _ _ A6 _ _ _] Hs HQ. pose proof (fault_text_length i cr2) as Hlen.
  eapply (runs_printk _ _ line_fmt).
  - split; [exact Hl|by split|exact A3|apply line_fmt_ok|apply A6|unfold str_fuel; simpl; lia| |].
    + apply line_fmt_text. split; [exact Hs|]. unfold str_fuel. lia.
    + rewrite length_app. simpl. lia.
  - intros m' Hw. apply HQ. eapply written_buffers; [|exact Hw]. rewrite !length_app. simpl. lia.
Qed.

(** What a handler prints: its message, and the registers of the frame. *)
Definition report (i : isr) (cr2 : Z) (frame : Z -> Z) : list Z :=
  fault_text i cr2 ++ [10] ++ rip_text (frame pr_rip) ++
  line_text line_ax_bx (frame pr_rax) (frame pr_rbx) ++ line_text line_cx_dx (frame pr_rcx) (frame pr_rdx) ++
  line_text line_di_si (frame pr_rdi) (frame pr_rsi) ++ line_text line_sp_bp (frame pr_rsp) (frame pr_rbp) ++
  line_text line_8_9 (frame pr_r8) (frame pr_r9) ++ line_text line_10_11 (frame pr_r10) (frame pr_r11) ++
  line_text line_12_13 (frame pr_r12) (frame pr_r13) ++ line_text line_14_15 (frame pr_r14) (frame pr_r15).

Ltac print_line lem :=
  apply runs_bind; eapply lem;
  [..|let v := fresh "v" in let m := fresh "m" in let C := fresh "C" in
      intros v m C; rewrite printed_printed; eapply changed_trans in C; [|eassumption]];
  [first [exact eq_refl|congruence|by eapply report_mem_changed; eassumption|unfold SIZEOF_PT_REGS; vm_compute; by split]..|].

Lemma runs_dump_regs s i cr2 regs frame Q :
  0 <= cr2 < two64 -> unlocked s -> report_mem (smem s) i regs frame ->
  (forall m', changed (smem s) m' buffers -> Q tt (printed (report i cr2 frame) m' s)) ->
  runs (dump_regs regs (str_handler i) (fault_args i cr2)) s Q.
Proof.
  intros Hv Hl Hm HQ. unfold dump_regs. eapply runs_message; [exact Hv|exact Hm|]. intros m1 C1 Hs.
  apply runs_bind. eapply runs_print_message; [exact Hl|by eapply report_mem_changed|exact Hs|].
  intros v2 m2 C2. eapply changed_trans in C2; [|exact C1].
  change (printed ?o m2 (with_mem m1 s)) with (printed o m2 s). clear m1 C1 Hs.
  print_line runs_print_rip. do 8 print_line runs_print_regs.
  apply runs_ret. rewrite <- !app_assoc. by apply HQ.
Qed.

(** Whether the handler of [i] goes back to the code that raised the exception. *)
Definition ending (i : isr) : outcome := if decide (i = int3) then returned else halted.

Lemma runs_report s i cr2 regs error_code frame Q :
  i <> lapic_timer -> 0 <= cr2 < two64 -> unlocked s -> report_mem (smem s) i regs frame ->
  (forall m', changed (smem s) m' buffers -> Q (ending i) (printed (report i cr2 frame) m' s)) ->
  runs (handler i cr2 regs error_code) s Q.
Proof.
  intros Hi Hv Hl Hm HQ.
  assert (Hr : forall o, o = ending i ->
    runs (dump_regs regs (str_handler i) (fault_args i cr2) ;; ret o) s Q).
  { intros o ->. apply runs_bind. eapply runs_dump_regs; [exact Hv|exact Hl|exact Hm|].
    intros m' Hc. by apply runs_ret, HQ. }
  destruct i; first [by apply Hr|done].
Qed.
End Report.

(** C18: the exception handlers.  Every handler of an exception returns from its printing, and has
    then sent to the serial port exactly its message (for a page fault with the address in CR2) and
    the sixteen registers of the frame by name, in hexadecimal with all digits, each line feed with
    its carriage return; the console lock and the interrupt flags are given back and no memory but
    the two buffers has changed.  After that the breakpoint handler returns; the others halt. *)
Theorem exception_report {H : Type} `{KernelHeap H} `{Garbage} `{Image} `{Messages}
    (s : st (kernel H)) (i : isr) (cr2 regs error_code : Z) (frame : Z -> Z) :
  i <> lapic_timer -> 0 <= cr2 < two64 -> unlocked s -> report_mem (smem s) i regs frame ->
  exists s', handler i cr2 regs error_code s = Some (if decide (i = int3) then returned else halted, s') /\
    mc_out (k_cpu (smgr s')) = mc_out (k_cpu (smgr s)) ++ crlf (report i cr2 frame) /\
    mc_debug_lock (k_cpu (smgr s')) = Spin 0 (mc_rflags (k_cpu (smgr s))) /\
    mc_rflags (k_cpu (smgr s')) = mc_rflags (k_cpu (smgr s)) /\
    changed (smem s) (smem s') buffers /\
    s' = printed (report i cr2 frame) (smem s') s.
Proof.
  intros Hi Hv Hl Hm.
  enough (Hr : runs (handler i cr2 regs error_code) s (fun o s' => o = ending i /\
    changed (smem s) (smem s') buffers /\ s' = printed (report i cr2 frame) (smem s') s)).
  { apply runs_inv in Hr as (o & s' & E & -> & Hc & Es). exists s'. split; [exact E|].
    rewrite Es. split_ands; [done..|]. rewrite Es in Hc. by split. }
  eapply runs_report; [exact Hi|exact Hv|exact Hl|exact Hm|]. intros m' Hc. by split_ands.
Qed.

(** ** A concrete image *)

Definition line_index (l : reg_line) : Z :=
  match l with
  | line_rip => 0 | line_ax_bx => 1 | line_cx_dx => 2 | line_di_si => 3 | line_sp_bp => 4
  | line_8_9 => 5 | line_10_11 => 6 | line_12_13 => 7 | line_14_15 => 8
  end.
#[export] Instance demo_messages : Messages := {|
  dump_buf := 8000; str_line := 10000;
  str_regs l := 10100 + 64 * line_index l;
  str_handler i := 11000 + 64 * vector_of i
|}.

Definition report_memory : mem :=
  let m := fill 15000 192 1 (fill 8000 128 0 (fill 2000 4096 0 ∅)) in
  let m := put_bytes str_line [37; 115; 10; 0] m in
  let m := foldr (fun l m => put_bytes (str_regs l) (line_format l ++ [0]) m) m
    [line_rip; line_ax_bx; line_cx_dx; line_di_si; line_sp_bp; line_8_9; line_10_11; line_12_13; line_14_15] in
  put_bytes (str_handler page_fault) (fault_format page_fault ++ [0]) m.
Definition report_state : st (kernel Z) :=
  St report_memory (Kern 500000 (Bitmap 0 0) no_objects demo_statics demo_apic demo_machine demo_boot).

Lemma literal_check m a l :
  forallb (fun '(i, v) => bool_decide (load8 m i = Some v)) (zip (seqZ a (Z.of_nat (length (l ++ [0])))) (l ++ [0]))
    && forallb (fun c => 0 <? c) l && (10000 <=? a) && (a + Z.of_nat (length l) <? 14000) = true ->
  literal m a l.
Proof.
  rewrite !andb_true_iff, Z.leb_le, Z.ltb_lt. intros [[[Hh Hp] Ha] Ht].
  assert (Hp' : Forall (fun c => 0 < c) l).
  { apply Forall_forall. rewrite forallb_forall in Hp. intros x Hx%list_elem_of_In%Hp. lia. }
  split; split; try exact Hp'; try (by apply holds_check); simpl; unfold two64; lia.
Qed.

Lemma demo_report_mem : report_mem report_memory page_fault 15000 (fun _ => 72340172838076673).
Proof.
  split.
  - simpl. unfold two64. lia.
  - apply (mapped_check _ 2000 4096). vm_compute. reflexivity.
  - simpl. unfold two64. lia.
  - apply (mapped_check _ 8000 128). vm_compute. reflexivity.
  - simpl. lia.
  - apply literal_check. vm_compute. reflexivity.
  - intros []; apply literal_check; vm_compute; reflexivity.
  - apply literal_check. vm_compute. reflexivity.
  - split; [|simpl; unfold SIZEOF_PT_REGS, two64; lia..].
    assert (Hw : forallb (fun r => bool_decide (r mod 8 <> 0 \/ load64 report_memory (15000 + r) = Some 72340172838076673))
      (seqZ 0 192) = true) by (vm_compute; reflexivity).
    rewrite forallb_forall in Hw. intros r Hr H8. specialize (Hw r). rewrite bool_decide_eq_true in Hw.
    destruct Hw as [?|Hw]; [|done|exact Hw]. apply list_elem_of_In, elem_of_seqZ. exact Hr.
Qed.

Lemma exception_report_witness :
  exists s', handler page_fault 3735928559 15000 2 report_state = Some (halted, s') /\
    mc_out (k_cpu (smgr s')) = mc_out demo_machine ++ crlf (report page_fault 3735928559 (fun _ => 72340172838076673)).
Proof.
  destruct (exception_report report_state page_fault 3735928559 15000 2 (fun _ => 72340172838076673))
    as (s' & E & Ho & _).
  - discriminate.
  - unfold two64. lia.
  - reflexivity.
  - exact demo_report_mem.
  - exists s'. split; [exact E|exact Ho].
Defined.
