(* ===== verification/CreateRules.v ===== *)
(** CreateRules: what [thread::create] ([thread/thread.cpp]) makes: a slot of the thread tables, a
    register frame, an address space and a descriptor table, with everything else as it was. *)

From Stdlib Require Import ZArith Lia.
From stdpp Require Import prelude gmap.
From S2P Require Import Prelude Mem Spinlock Block Klibc Bitmap Frame.
From S2P Require Import PageTable Kernel Apic Thread Syscall KernelFacts SearchThms CreateFacts.
From S2P Require Import SocketFacts ConnectFacts.

(** Where a new thread's pointer goes: the idle thread of a processor, or an entry of [threads]. *)
Inductive place := idle_place (i : nat) | table_place (i : nat).
Definition place_id (pl : place) : Z := match pl with idle_place _ => 0 | table_place i => Z.of_nat i end.
Definition put_place (pl : place) (t : Z) (v : statics) : statics :=
  match pl with
  | idle_place i => set_idle_threads (<[i := t]> (idle_threads v)) v
  | table_place i => set_threads (<[i := t]> (threads v)) v
  end.

(** [i] is the first entry of [l], from [lo] on, that holds NULL. *)
Definition first_null (l : list Z) (lo i : nat) : Prop :=
  (lo <= i)%nat /\ l !! i = Some NULL /\ forall k, (lo <= k < i)%nat -> exists p, l !! k = Some p /\ p <> NULL.

(** The place [get_free_thread] takes with [cpus] processors. *)
Definition free_place (cpus : Z) (v : statics) (pl : place) : Prop :=
  match pl with
  | idle_place i => Z.of_nat i < cpus /\ first_null (idle_threads v) 0 i
  | table_place i =>
      (forall k, Z.of_nat k < cpus -> exists p, idle_threads v !! k = Some p /\ p <> NULL) /\
      Z.of_nat i < kMaxThreadCount /\ first_null (threads v) 1 i
  end.

Section Slots.
Context {H : Type} `{KernelHeap H} `{Garbage} `{Image}.
Implicit Types (s : st (kernel H)).

Definition on_static (f : statics -> statics) s : st (kernel H) :=
  St (smem s) (set_k_static (f (k_static (smgr s))) (smgr s)).

Lemma runs_take_slot n i j get put mkid m l s Q :
  heap_is s l -> plenty (S m) (k_heap (smgr s)) ->
  first_null (get (k_static (smgr s))) i j -> (j < i + n)%nat ->
  (forall t k h', new_block SIZEOF_THREAD t k l -> heap_rep h' (<[t := k]> l) -> plenty m h' ->
     Q (Some t) (put_at thread_s t (set_th_id (mkid (Z.of_nat j)) (any_thread t))
       (on_static (fun v => put (<[j := t]> (get v)) v) (with_heap h' s)))) ->
  runs (take_slot n (Z.of_nat i) get put mkid) s Q.
Proof.
  intros Hl Hp. revert i. induction n as [|n IH]; intros i [Hij [Hj Hb]] Hn HQ; [lia|]. cbn [take_slot].
  apply runs_bind, runs_static, runs_bind. rewrite Nat2Z.id. destruct (decide (i = j)) as [->|Hne].
  - eapply runs_of_opt; [exact Hj|]. apply runs_bind.
    eapply runs_malloc_obj; [exact Hl|exact Hp|vm_compute; split; congruence|]. intros t k h' Hbk Hr Hp'.
    apply runs_bind, runs_with_static. specialize (HQ t k h' Hbk Hr Hp').
    apply runs_bind. apply (runs_upd _ _ (any_thread t) _ (put_at thread_s t (any_thread t)
      (on_static (fun v => put (<[j := t]> (get v)) v) (with_heap h' s)))); [apply obj_put_eq, _|].
    apply runs_ret. by rewrite put_put.
  - destruct (Hb i) as (p & Ep & Hp0); [lia|]. eapply runs_of_opt; [exact Ep|].
    apply Z.eqb_neq in Hp0 as ->. replace (Z.of_nat i + 1) with (Z.of_nat (S i)) by lia.
    apply IH; [|lia|done]. split; [lia|]. split; [done|]. intros k Hk. apply Hb. lia.
Qed.

Lemma runs_no_slot n i get put mkid s Q :
  (forall k, (i <= k < i + n)%nat -> exists p, get (k_static (smgr s)) !! k = Some p /\ p <> NULL) ->
  Q None s -> runs (take_slot n (Z.of_nat i) get put mkid) s Q.
Proof.
  revert i. induction n as [|n IH]; intros i Hb HQ; cbn [take_slot]; [by apply runs_ret|].
  apply runs_bind, runs_static, runs_bind. rewrite Nat2Z.id.
  destruct (Hb i) as (p & Ep & Hp0); [lia|]. eapply runs_of_opt; [exact Ep|].
  apply Z.eqb_neq in Hp0 as ->. replace (Z.of_nat i + 1) with (Z.of_nat (S i)) by lia.
  apply IH; [|done]. intros k Hk. apply Hb. lia.
Qed.

Lemma runs_get_free_thread pl m l s Q :
  heap_is s l -> plenty (S m) (k_heap (smgr s)) -> 0 <= cpu_count (k_apic (smgr s)) ->
  free_place (cpu_count (k_apic (smgr s))) (k_static (smgr s)) pl ->
  (forall t k h', new_block SIZEOF_THREAD t k l -> heap_rep h' (<[t := k]> l) -> plenty m h' ->
     Q t (put_at thread_s t (set_th_id (place_id pl) (any_thread t))
       (on_static (put_place pl t) (with_heap h' s)))) ->
  runs get_free_thread s Q.
Proof.
  intros Hl Hp Hc Hpl HQ. unfold get_free_thread. apply runs_bind, runs_of_apic, runs_bind.
  change 0 with (Z.of_nat 0) at 1. destruct pl as [i|i].
  - destruct Hpl as [Hi Hf]. eapply runs_take_slot; [exact Hl|exact Hp|exact Hf|lia|].
    intros t k h' Hb Hr Hp'. apply runs_ret. by eapply HQ.
  - destruct Hpl as (Hbusy & Hi & Hf). apply runs_no_slot; [intros k Hk; apply Hbusy; lia|].
    apply runs_bind. change 1 with (Z.of_nat 1) at 2. eapply runs_take_slot; [exact Hl|exact Hp|exact Hf| |].
    + unfold kMaxThreadCount in *. lia.
    + intros t k h' Hb Hr Hp'. apply runs_ret. by eapply HQ.
Qed.
End Slots.

Section Create.
Context {H : Type} `{KernelHeap H} `{Garbage} `{Image}.
Implicit Types (s : st (kernel H)).

(** The state inside [new_thread_lock]. *)
Definition flags_of s : Z := mc_rflags (k_cpu (smgr s)).
Definition entered s : st (kernel H) :=
  let k := put_new_lock (Spin 1 (flags_of s)) (smgr s) in
  St (smem s) (set_k_cpu (set_mc_rflags (cli (flags_of s)) (k_cpu k)) k).

(** The objects of one heap are as they were, those of the live blocks [l] and outside the heap. *)
Record same_objects s s' (l : gmap Z Z) : Prop := {
  so_threads : forall p, placed l p -> obj_at thread_s s' p = obj_at thread_s s p;
  so_files : forall p, placed l p -> obj_at file_s s' p = obj_at file_s s p;
  so_fds : forall p, placed l p -> obj_at fd_s s' p = obj_at fd_s s p;
  so_handles : forall p, placed l p -> obj_at handle_s s' p = obj_at handle_s s p;
  so_socks : forall p, placed l p -> obj_at sock_s s' p = obj_at sock_s s p;
  so_pairs : forall p, placed l p -> obj_at pair_s s' p = obj_at pair_s s p;
  so_contexts : forall p, placed l p -> obj_at context_s s' p = obj_at context_s s p;
  so_arrays : forall p, placed l p -> obj_at (array_s 0) s' p = obj_at (array_s 0) s p
}.

(** The objects of a new thread, all in fresh blocks. *)
Record parts := Parts { pa_ctx : Z; pa_fpu : Z; pa_mm : Z; pa_file : Z; pa_fds : Z; pa_regs : Z; pa_stack : Z }.

Definition part_blocks (x : parts) : list (Z * Z) :=
  [(pa_ctx x, SIZEOF_ARCH_CONTEXT); (pa_fpu x, SIZEOF_FX_STATE); (pa_mm x, SIZEOF_MM_CONTEXT);
   (pa_file x, SIZEOF_FILE_INFO); (pa_fds x, 8 * DEFAULT_FD_NUM)].
(** A live block of at least so many bytes, inside the heap. *)
Definition in_heap (l : gmap Z Z) (p : Z * Z) : Prop :=
  exists k, p.2 <= k /\ l !! p.1 = Some k /\
    (0 < p.1 /\ heap_lo <= p.1 /\ p.1 + k <= heap_hi /\ p.1 + k < two64).
(** So many bytes apart from the live blocks. *)
Definition off_heap (l : gmap Z Z) (p : Z * Z) : Prop := forall a k, l !! a = Some k -> apart p.1 p.2 a k.
(** The contents of the live blocks of the heap are the same. *)
Definition kept (m m' : mem) (l : gmap Z Z) : Prop :=
  forall a k b, l !! a = Some k -> heap_lo <= a -> a + k <= heap_hi -> span a k b -> m' !! b = m !! b.

Record created s s' (l : gmap Z Z) (n : Z) (m : nat) (pl : place) (t entry tflags : Z) (x : parts) : Prop := {
  cr_thread : obj_at thread_s s' t = Some (Thread (place_id pl) false (s32 (cpu_idx (k_static (smgr s)))) 0
    (pa_ctx x) (pa_stack x) (pa_mm x) (pa_file x) tflags 0 false false kRunNone);
  cr_context : obj_at context_s s' (pa_ctx x) = Some (ArchContext (pa_regs x) (pa_fpu x) 16 16 0 0);
  cr_frame : new_frame (smem s') (pa_regs x) entry;
  cr_fpu : new_fpu (smem s') (pa_fpu x);
  cr_cr3 : load64 (smem s') (page_table_phys_of (pa_mm x)) = Some (mc_cr3 (k_cpu (smgr s)));
  cr_users : load64 (smem s') (ref_count_of (pa_mm x)) = Some 1;
  cr_file : obj_at file_s s' (pa_file x) = Some (FileInfo (pa_fds x) DEFAULT_FD_NUM 1);
  cr_fds : obj_at (array_s 0) s' (pa_fds x) = Some (replicate (Z.to_nat DEFAULT_FD_NUM) NULL);
  cr_static : k_static (smgr s') = put_place pl t
    (set_cpu_idx ((cpu_idx (k_static (smgr s)) + 1) mod cpu_count (k_apic (smgr s)))
      (set_new_thread_lock (Spin 0 (flags_of s)) (k_static (smgr s))));
  cr_rest : k_frames (smgr s') = k_frames (smgr s) /\ k_apic (smgr s') = k_apic (smgr s) /\
    k_cpu (smgr s') = k_cpu (smgr s);
  cr_fresh : NoDup [t; pa_ctx x; pa_fpu x; pa_mm x; pa_file x; pa_fds x] /\
    Forall (fun a => l !! a = None /\ 0 < a /\ heap_lo <= a < heap_hi) [t; pa_ctx x; pa_fpu x; pa_mm x; pa_file x; pa_fds x];
  cr_live : exists l', heap_is s' l' /\ l ⊆ l' /\ Forall (in_heap l') ((t, SIZEOF_THREAD) :: part_blocks x);
  cr_blocks : kept (smem s) (smem s') l;
  cr_plenty : plenty m (k_heap (smgr s'));
  cr_others : same_objects s s' l;
  cr_mem : changed (smem s) (smem s') (fun b => span (bm_lo s) n b \/ span (pa_regs x) SIZEOF_PT_REGS b \/
    span (pa_fpu x) SIZEOF_FX_STATE b \/ span (pa_mm x) SIZEOF_MM_CONTEXT b);
  cr_apart : Forall (off_heap l) ((t, SIZEOF_THREAD) :: part_blocks x);
  cr_where : stack_place s (pa_regs x + SIZEOF_PT_REGS);
  cr_stacks : stacks_ok s' n /\ good_stack s' n (pa_regs x + SIZEOF_PT_REGS) /\ good_stack s' n (pa_stack x)
}.

Lemma stacks_ok_same s s' n :
  smem s' = smem s -> k_frames (smgr s') = k_frames (smgr s) -> k_apic (smgr s') = k_apic (smgr s) ->
  stacks_ok s n -> stacks_ok s' n.
Proof. intros Em Ef. apply stacks_ok_keeps; [by rewrite Em|done]. Qed.

(** Writes apart from the bitmap. *)
Lemma stacks_ok_changed s s' n P :
  changed (smem s) (smem s') P -> (forall b, span (bm_lo s) n b -> ~ P b) ->
  k_frames (smgr s') = k_frames (smgr s) -> k_apic (smgr s') = k_apic (smgr s) -> stacks_ok s n -> stacks_ok s' n.
Proof. intros [Hs Hm] Hd Ef. apply stacks_ok_keeps; [|done]. split; [|done]. intros b Hb. by apply Hs, Hd. Qed.

Lemma thread_put_context p v q w s :
  put_at thread_s p v (put_at context_s q w s) = put_at context_s q w (put_at thread_s p v s).
Proof. done. Qed.
Lemma thread_put_file p v q w s :
  put_at thread_s p v (put_at file_s q w s) = put_at file_s q w (put_at thread_s p v s).
Proof. done. Qed.
Lemma thread_put_array p v q w s :
  put_at thread_s p v (put_at (array_s 0) q w s) = put_at (array_s 0) q w (put_at thread_s p v s).
Proof. done. Qed.
Ltac gather :=
  repeat first [progress tidy | rewrite thread_put_context | rewrite thread_put_file | rewrite thread_put_array].

Lemma block_span n a k l b : new_block n a k l -> span a n b -> span heap_lo (heap_hi - heap_lo) b.
Proof. intros [Hs Hp _ _]. unfold span. lia. Qed.

Lemma block_apart n a k l c j b : new_block n a k l -> l !! c = Some j -> span c j b -> span a n b -> False.
Proof. intros [Hs Hp _ Ha] Hc. specialize (Ha c j Hc). unfold apart, span in *. lia. Qed.
Lemma in_heap_new n a k l : new_block n a k l -> in_heap (<[a := k]> l) (a, n).
Proof. intros [Hs Hp _ _]. exists k. simpl. rewrite lookup_insert_eq. split; [done|]. by split. Qed.
Lemma in_heap_insert n a k l p : new_block n a k l -> in_heap l p -> in_heap (<[a := k]> l) p.
Proof.
  intros Hb (j & Hj & Hp & Hr). exists j. split; [done|]. split; [|done].
  rewrite lookup_insert_ne; [done|]. intros ->. by rewrite (nb_fresh _ _ _ _ Hb) in Hp.
Qed.

(** Blocks granted one after the other. *)
Fixpoint granted (as_ : list (Z * Z)) (l : gmap Z Z) : Prop :=
  match as_ with
  | [] => True
  | (a, n) :: r => 0 < n /\ exists k, new_block n a k l /\ granted r (<[a := k]> l)
  end.
Lemma granted_fresh r l :
  granted r l -> NoDup r.*1 /\ Forall (fun a => l !! a = None /\ 0 < a /\ heap_lo <= a < heap_hi) r.*1.
Proof.
  revert l. induction r as [|[a n] r IH]; intros l; [intros _; split; constructor|]. intros (Hn0 & k & Hb & Hr).
  apply IH in Hr as [Hnd Hf]. destruct Hb as [Hk Hp Hn _]. simpl. split; constructor; try done.
  - intros Ha. rewrite Forall_forall in Hf. destruct (Hf a Ha) as [Hn' _]. by rewrite lookup_insert_eq in Hn'.
  - split; [done|lia].
  - eapply Forall_impl; [exact Hf|]. intros x [[? _]%lookup_insert_None ?]. by split.
Qed.

Lemma new_block_off n a k l : new_block n a k l -> off_heap l (a, n).
Proof. intros [Hk _ _ Ha] b j Hb. specialize (Ha b j Hb). unfold apart in *. simpl. lia. Qed.
Lemma granted_off r l : granted r l -> Forall (off_heap l) r.
Proof.
  revert l. induction r as [|[a n] r IH]; intros l; [by constructor|]. intros (Hn0 & k & Hb & Hr).
  constructor; [by eapply new_block_off|]. eapply Forall_impl; [by apply IH|]. intros p Hp b j Hbj.
  apply Hp. rewrite lookup_insert_ne; [done|]. intros ->. by rewrite (nb_fresh _ _ _ _ Hb) in Hbj.
Qed.

(** The memory and the heap of a new thread whose parts are [x]. *)
Record furnished s (m' : mem) (h' : H) (l : gmap Z Z) (n : Z) (m : nat) (entry : Z) (x : parts) : Prop := {
  fu_frame : new_frame m' (pa_regs x) entry;
  fu_fpu : new_fpu m' (pa_fpu x);
  fu_cr3 : load64 m' (page_table_phys_of (pa_mm x)) = Some (mc_cr3 (k_cpu (smgr s)));
  fu_users : load64 m' (ref_count_of (pa_mm x)) = Some 1;
  fu_fresh : NoDup [pa_ctx x; pa_fpu x; pa_mm x; pa_file x; pa_fds x] /\
    Forall (fun a => l !! a = None /\ 0 < a /\ heap_lo <= a < heap_hi) [pa_ctx x; pa_fpu x; pa_mm x; pa_file x; pa_fds x];
  fu_live : exists l', heap_rep h' l' /\ l ⊆ l' /\ Forall (in_heap l') (part_blocks x);
  fu_blocks : kept (smem s) m' l;
  fu_plenty : plenty m h';
  fu_mem : changed (smem s) m' (fun b => span (bm_lo s) n b \/ span (pa_regs x) SIZEOF_PT_REGS b \/
    span (pa_fpu x) SIZEOF_FX_STATE b \/ span (pa_mm x) SIZEOF_MM_CONTEXT b);
  fu_apart : Forall (off_heap l) (part_blocks x);
  fu_where : stack_place s (pa_regs x + SIZEOF_PT_REGS);
  fu_stacks : stacks_ok (with_mem m' s) n /\ good_stack (with_mem m' s) n (pa_regs x + SIZEOF_PT_REGS) /\
    good_stack (with_mem m' s) n (pa_stack x)
}.

Definition furnish_thread (x : parts) (tflags : Z) (v : thread) : thread :=
  Thread (th_id v) (th_call_in_signal v) (th_cpu_id v) (th_jiffies v) (pa_ctx x) (pa_stack x) (pa_mm x) (pa_file x)
    tflags 0 false false kRunNone.

(** The state in which they are. *)
Definition furnish (x : parts) (tflags t : Z) (v : thread) (m' : mem) (h' : H) s : st (kernel H) :=
  put_at context_s (pa_ctx x) (ArchContext (pa_regs x) (pa_fpu x) 16 16 0 0)
    (put_at file_s (pa_file x) (FileInfo (pa_fds x) DEFAULT_FD_NUM 1)
    (put_at (array_s 0) (pa_fds x) (replicate (Z.to_nat DEFAULT_FD_NUM) NULL)
    (put_at thread_s t (furnish_thread x tflags v) (with_heap h' (with_mem m' s))))).

Ltac grown := repeat (etrans; [|apply insert_subseteq; eapply nb_fresh; eassumption]); done.

Lemma runs_furnish entry tflags t v s n m l (c : M (st (kernel H)) Z) Q :
  heap_is s l -> plenty (5 + m) (k_heap (smgr s)) -> stacks_ok s n ->
  0 <= entry < two64 -> 0 <= mc_cr3 (k_cpu (smgr s)) < two64 ->
  (forall x m' h', furnished s m' h' l n m entry x ->
     runs c (furnish x tflags t v m' h' s) Q) ->
  runs (stack <- alloc_stack ;; ctx <- arch_context_init entry stack ;;
    upd thread_s t (set_th_arch_context ctx) ;;
    syscall_stack <- alloc_stack ;; upd thread_s t (set_th_syscall_stack syscall_stack) ;;
    mm <- new_mm ;; upd thread_s t (set_th_mm mm) ;;
    upd thread_s t (set_th_tflags tflags) ;; upd thread_s t (set_th_status 0) ;;
    fi <- new_file_info ;; upd thread_s t (set_th_file_info fi) ;;
    upd thread_s t (set_th_child_vfork_done false) ;; upd thread_s t (set_th_is_vfork false) ;;
    upd thread_s t (set_th_state kRunNone) ;; c) (put_at thread_s t v s) Q.
Proof.
  intros Hl Hp Hst He Hcr3 HQ. apply runs_bind.
  apply (runs_alloc_stack _ n); [by apply (stacks_ok_same s)|]. intros a1 m1 Hw1 Hg1 Hst1 C1.
  apply (stacks_ok_same _ (with_mem m1 s)) in Hst1; [|done..].
  apply (good_stack_mono _ s) in Hg1; [|done..]. change (changed (smem s) m1 (span (bm_lo s) n)) in C1.
  gather. apply runs_bind. pose proof Hg1 as [Gr Gm Gb Gh _].
  eapply runs_arch_context_init; [exact Hl|exact Hp|exact He|exact Gr| | |exact Gh|].
  { objs. by apply C1. }
  { objs. apply C1. apply Hst. }
  intros ctx fpu k1 k2 h2 m2 Hb1 Hb2 Hr2 Hp2 Hfr2 Hfpu2 C2. objs. simpl in C2.
  set (regs := a1 - SIZEOF_PT_REGS) in *. ksteps. gather.
  assert (Hlow : forall a, span heap_lo (heap_hi - heap_lo) a -> ~ span (bm_lo s) n a).
  { intros a Ha Hb. pose proof (so_heap _ _ Hst) as Ho. unfold apart, span in *. lia. }
  assert (Hst2 : stacks_ok (with_mem m2 s) n).
  { eapply (stacks_ok_changed (with_mem m1 s)); [exact C2| |done|done|exact Hst1].
    change (bm_lo (with_mem m1 s)) with (bm_lo s). intros b Hb [Hb'|Hb'].
    - unfold apart, span in *. lia.
    - eapply Hlow; [|exact Hb]. eapply block_span; [exact Hb2|exact Hb']. }
  apply (runs_alloc_stack _ n); [by apply (stacks_ok_same (with_mem m2 s))|]. intros a2 m3 _ Hg3 Hst3 C3.
  apply (stacks_ok_same _ (with_mem m3 s)) in Hst3; [|done..].
  apply (good_stack_mono _ (with_mem m2 s)) in Hg3; [|done..]. change (changed m2 m3 (span (bm_lo s) n)) in C3.
  gather. ksteps. gather.
  eapply runs_new_mm; [exact Hr2|exact Hp2|objs; apply Hst3|exact Hcr3|].
  intros mm k3 h3 m4 Hb3 Hr3 Hp3 L4 L4' C4. objs. simpl in C4, L4. ksteps. gather.
  eapply runs_new_file_info; [exact Hr3|exact Hp3|].
  intros fi fds k4 k5 h5 Hb4 Hb5 Hr5 Hp5. gather. ksteps. gather.
  apply (HQ (Parts ctx fpu mm fi fds regs a2) m4 h5).
  assert (C24 : changed m2 m4 (fun b => span (bm_lo s) n b \/ span mm SIZEOF_MM_CONTEXT b)).
  { eapply changed_trans; (eapply changed_weaken; [eassumption|]); intros b Hb; [by left|by right]. }
  assert (Hmm : forall b, span mm SIZEOF_MM_CONTEXT b -> span heap_lo (heap_hi - heap_lo) b).
  { intros b. apply (block_span _ _ _ _ _ Hb3). }
  assert (Hmf : forall b, span fpu SIZEOF_FX_STATE b -> ~ span mm SIZEOF_MM_CONTEXT b).
  { intros b. pose proof (nb_apart _ _ _ _ Hb3 fpu k2 (lookup_insert_eq _ _ _)) as Ho.
    destruct Hb2, Hb3. unfold apart, span in *. lia. }
  assert (Hg : granted (part_blocks (Parts ctx fpu mm fi fds regs a2)) l).
  { split; [done|]. exists k1. split; [done|]. split; [done|]. exists k2. split; [done|].
    split; [done|]. exists k3. split; [done|]. split; [done|]. exists k4. split; [done|].
    split; [done|]. by exists k5. }
  split; simpl.
  - eapply new_frame_changed; [exact C24| |exact Hfr2]. intros b Hb [Hb'|Hb'%Hmm]; unfold apart, span in *; lia.
  - eapply new_fpu_changed; [exact C24| |exact Hfpu2]. intros b Hb [Hb'|Hb'].
    + eapply Hlow; [|exact Hb']. eapply block_span; [exact Hb2|exact Hb].
    + by eapply Hmf.
  - exact L4.
  - exact L4'.
  - apply (granted_fresh _ _ Hg).
  - eexists. split; [exact Hr5|]. split; [grown|].
    pose proof (in_heap_new _ _ _ _ Hb1). pose proof (in_heap_new _ _ _ _ Hb2). pose proof (in_heap_new _ _ _ _ Hb3).
    repeat constructor; repeat first [by eapply in_heap_new | eapply in_heap_insert; [eassumption|]].
  - intros a k b Ha Hlo Hhi Hb. destruct C1 as [S1 _], C2 as [S2 _], C24 as [S24 _].
    assert (Hbh : span heap_lo (heap_hi - heap_lo) b) by (unfold span in *; lia).
    rewrite S24, S2, S1; [done|by apply Hlow| |].
    + intros [Hb'|Hb']; [unfold apart, span in *; lia|]. eapply (block_apart _ _ _ _ a k); [exact Hb2| |exact Hb|exact Hb'].
      eapply lookup_weaken; [exact Ha|grown].
    + intros [Hb'|Hb']; [by eapply Hlow|]. eapply (block_apart _ _ _ _ a k); [exact Hb3| |exact Hb|exact Hb'].
      eapply lookup_weaken; [exact Ha|grown].
  - exact Hp5.
  - eapply changed_trans; [eapply changed_weaken; [exact C1|by left]|].
    eapply changed_trans; (eapply changed_weaken; [eassumption|]); intros b; simpl; tauto.
  - by apply granted_off.
  - by replace (regs + SIZEOF_PT_REGS) with a1 by (unfold regs; lia).
  - split_ands.
    + eapply (stacks_ok_changed (with_mem m3 s)); [exact C4| |done|done|exact Hst3].
      intros b Hb Hb'%Hmm. by eapply Hlow.
    + replace (regs + SIZEOF_PT_REGS) with a1 by (unfold regs; lia).
      eapply (good_stack_mono s); [|done|done|exact Hg1]. intros lo hi Hm. by apply C24, C2, C1.
    + eapply (good_stack_mono (with_mem m2 s)); [|done|done|exact Hg3]. intros lo hi Hm. by apply C24.
Qed.

Lemma with_idx_at c cpus s Q :
  cpu_count (k_apic (smgr s)) = cpus -> cpu_idx (k_static (smgr s)) = c -> 0 < cpus < two32 -> 0 <= c < cpus ->
  Q c (with_idx ((c + 1) mod cpus) s) -> runs alloc_cpu_id s Q.
Proof. intros <- <- Hc Hi HQ. by apply runs_alloc_cpu_id. Qed.

Definition new_thread (pl : place) s (t : Z) : thread :=
  set_th_jiffies 0 (set_th_cpu_id (s32 (cpu_idx (k_static (smgr s))))
    (set_th_call_in_signal false (set_th_id (place_id pl) (any_thread t)))).

(** What [furnish] makes of a state with the thread's place taken is a new thread. *)
Lemma created_furnish s u w l n m pl t k entry tflags x m' h' :
  new_block SIZEOF_THREAD t k l -> furnished u m' h' (<[t := k]> l) n m entry x ->
  smem u = smem s -> k_frames (smgr u) = k_frames (smgr s) -> k_apic (smgr u) = k_apic (smgr s) -> mc_cr3 (k_cpu (smgr u)) = mc_cr3 (k_cpu (smgr s)) ->
  w = on_static (fun v => put_place pl t (set_cpu_idx ((cpu_idx (k_static (smgr s)) + 1) mod cpu_count (k_apic (smgr s)))
    (set_new_thread_lock (Spin 0 (flags_of s)) v))) s ->
  created s (furnish x tflags t (new_thread pl s t) m' h' w) l n m pl t entry tflags x.
Proof.
  intros Hb [F1 F2 F3 F4 [F5 F6] F7 Fk Fp F8 Fo Fw (F9 & F10 & F11)] Em Ef Ea Ec ->.
  assert (Hall : NoDup [t; pa_ctx x; pa_fpu x; pa_mm x; pa_file x; pa_fds x] /\
    Forall (fun a => l !! a = None /\ 0 < a /\ heap_lo <= a < heap_hi) [t; pa_ctx x; pa_fpu x; pa_mm x; pa_file x; pa_fds x]).
  { split; constructor; [|exact F5| |].
    - intros Ha. rewrite Forall_forall in F6. destruct (F6 _ Ha) as [Hn _]. by rewrite lookup_insert_eq in Hn.
    - destruct Hb as [Hk Hp Hn _]. unfold SIZEOF_THREAD in Hk. split; [exact Hn|lia].
    - eapply Forall_impl; [exact F6|]. intros a [[? _]%lookup_insert_None ?]. by split. }
  assert (Hne : forall p a, placed l p -> a ∈ [t; pa_ctx x; pa_fpu x; pa_mm x; pa_file x; pa_fds x] -> a <> p).
  { intros p a Hpl Ha. destruct Hall as [_ Hall]. rewrite Forall_forall in Hall. destruct (Hall a Ha) as [Hn Hr].
    intros ->. destruct Hpl as [[y Hy]|Hpl]; [congruence|lia]. }
  assert (Eb : bm_lo u = bm_lo s) by (unfold bm_lo; by rewrite Ef).
  unfold furnish. split; objs; try done.
  - by rewrite <- Ec.
  - destruct F7 as (l' & Hr & Hsub & Hin). exists l'. split; [exact Hr|].
    assert (Hs : l ⊆ <[t := k]> l) by (apply insert_subseteq, Hb). split; [by etrans|].
    constructor; [|exact Hin]. destruct (in_heap_new _ _ _ _ Hb) as (j & Hj & Hl & Hr'). exists j.
    split_ands; try done; try apply Hr'. eapply lookup_weaken; [exact Hl|exact Hsub].
  - intros a j b Ha Hlo Hhi Hbs. rewrite <- Em. eapply Fk; [|exact Hlo|exact Hhi|exact Hbs].
    rewrite lookup_insert_ne; [exact Ha|]. intros ->. by rewrite (nb_fresh _ _ _ _ Hb) in Ha.
  - split; intros p Hp; objs; try done; rewrite obj_put_ne; try done; apply Hne; try done;
      rewrite !elem_of_cons; tauto.
  - by rewrite <- Em, <- Eb.
  - constructor; [by eapply new_block_off|]. eapply Forall_impl; [exact Fo|]. intros p Hp a j Ha.
    apply Hp. rewrite lookup_insert_ne; [done|]. intros ->. by rewrite (nb_fresh _ _ _ _ Hb) in Ha.
  - unfold stack_place, frames_of in *. rewrite Em, Ef in Fw. exact Fw.
  - split_ands; [eapply (stacks_ok_same (with_mem m' u))|eapply (good_stack_mono (with_mem m' u))..]; done.
Qed.

Lemma runs_thread_create entry tflags s n m l pl Q :
  lock (new_thread_lock (k_static (smgr s))) = 0 ->
  0 < cpu_count (k_apic (smgr s)) < two32 -> 0 <= cpu_idx (k_static (smgr s)) < cpu_count (k_apic (smgr s)) ->
  free_place (cpu_count (k_apic (smgr s))) (k_static (smgr s)) pl ->
  heap_is s l -> plenty (6 + m) (k_heap (smgr s)) -> stacks_ok s n ->
  0 <= entry < two64 -> 0 <= mc_cr3 (k_cpu (smgr s)) < two64 ->
  (forall t x s', created s s' l n m pl t entry tflags x -> Q t s') ->
  runs (create entry tflags) s Q.
Proof.
  intros Hlk Hcpus Hidx Hpl Hl Hp Hst He Hcr3 HQ. unfold create.
  apply runs_bind, runs_lock_with; [exact Hlk|]. intros f l' f' _ [-> ->] ->. fold (flags_of s).
  change (St _ _) with (entered s).
  apply runs_bind. apply (runs_get_free_thread pl (5 + m) l); [exact Hl|exact Hp|simpl; lia|by destruct pl|].
  intros t kt h1 Hbt Hr1 Hp1. ksteps.
  apply (with_idx_at (cpu_idx (k_static (smgr s))) (cpu_count (k_apic (smgr s)))); [by destruct pl|by destruct pl|done|done|].
  set (c' := (_ + 1) mod _). set (u := with_idx c' (on_static (put_place pl t) (with_heap h1 (entered s)))).
  match goal with |- runs _ (with_idx c' (put_at _ _ ?v (put_at _ _ ?w _))) _ =>
    change (with_idx c' (put_at thread_s t v (put_at thread_s t w (on_static (put_place pl t) (with_heap h1 (entered s))))))
      with (put_at thread_s t v (put_at thread_s t w u)) end.
  do 4 kstep. tidy.
  eapply (runs_furnish entry tflags t _ u n m); [exact Hr1|exact Hp1|by apply (stacks_ok_same s)|done|exact Hcr3|].
  intros x m' h' Hf.
  set (w := on_static (fun v => put_place pl t (set_cpu_idx c' (set_new_thread_lock (Spin 0 (flags_of s)) v))) s).
  apply runs_bind, runs_bind, runs_gets.
  match goal with |- context [spin_unlock ?k] => replace (spin_unlock k) with (Spin 0 (flags_of s), flags_of s) by (by destruct pl) end.
  apply runs_bind, runs_with_k, runs_with_cpu, runs_ret.
  match goal with |- Q t ?S => replace S with (furnish x tflags t (new_thread pl s t) m' h' w)
    by (destruct s as [? [? ? ? ? ? [] ?]]; by destruct pl) end.
  apply (HQ t x). eapply created_furnish; [exact Hbt|exact Hf|done..].
Qed.
End Create.
