(* ===== verification/CreateThms.v ===== *)
(** CreateThms: the properties of thread creation, on a concrete kernel too. *)

From Stdlib Require Import ZArith Lia.
From stdpp Require Import prelude gmap.
From S2P Require Import Prelude Mem Spinlock Block Klibc Bitmap Frame.
From S2P Require Import PageTable Kernel Apic Thread Syscall KernelFacts SearchThms KernelDemo.
From S2P Require Import SocketFacts ConnectFacts ConnectDemo CreateFacts CreateRules.

(** C36: [create] with a free place in the tables, room in the heap and frames for stacks returns a
    thread in that place: its fields, an execution context whose register frame starts at [entry]
    with interrupts on, a clean FPU image, an address space on the current page table with one user,
    and a table of free descriptors.  All are in fresh blocks; every other object, the contents of
    every live block, the processor and the interrupt flags are as before, and the lock is free. *)
Theorem create_correct {H : Type} `{KernelHeap H} `{Garbage} `{Image}
    (s : st (kernel H)) (entry tflags n : Z) (m : nat) (l : gmap Z Z) (pl : place) :
  lock (new_thread_lock (k_static (smgr s))) = 0 ->
  0 < cpu_count (k_apic (smgr s)) < two32 -> 0 <= cpu_idx (k_static (smgr s)) < cpu_count (k_apic (smgr s)) ->
  free_place (cpu_count (k_apic (smgr s))) (k_static (smgr s)) pl ->
  heap_is s l -> plenty (6 + m) (k_heap (smgr s)) -> stacks_ok s n ->
  0 <= entry < two64 -> 0 <= mc_cr3 (k_cpu (smgr s)) < two64 ->
  exists t x s', create entry tflags s = Some (t, s') /\ created s s' l n m pl t entry tflags x.
Proof.
  intros Hlk Hc Hi Hpl Hl Hp Hst He Hcr3.
  enough (Hr : runs (create entry tflags) s (fun t s' => exists x, created s s' l n m pl t entry tflags x)).
  { apply runs_inv in Hr as (t & s' & E & x & Hx). by exists t, x, s'. }
  eapply runs_thread_create; try eassumption. intros t x s' Hx. by exists x.
Qed.

(** ** A kernel about to create its first thread *)

(** Sixteen frames to search of a bitmap for 128, all free; the memory below and in the stacks; the
    identifier 7 in the window of the local APIC. *)
Lemma boot_mem_sig :
  {m : mem | mapped m 2000 2016 /\ mapped m bump_lo bump_hi /\ mapped m 4294963200 4295032832 /\
    load_le 4 m 16416 = Some 117440512}.
Proof.
  exists (<[16419 := 7]> (fill 16384 35 0 (fill 2000 16 255 (fill bump_lo (Z.to_nat (bump_hi - bump_lo)) 0 (fill 4294963200 (Z.to_nat 69632) 0 ∅))))).
  split; [|split; [|split; [|rewrite (load_le_ext 4 (<[16419 := 7]> (fill 16384 35 0 ∅)));
    [vm_compute; reflexivity|]]]]; [intros a Ha..|intros b Hb; rewrite !lookup_insert; case_decide; [done|];
      rewrite (fill_lookup 16384), decide_True by lia; by rewrite fill_lookup, decide_True by lia];
    (rewrite lookup_insert_ne by (unfold bump_lo in *; lia)); rewrite !fill_lookup; unfold bump_lo, bump_hi in *;
    (rewrite decide_False by lia).
  - rewrite decide_True by lia. by eexists.
  - rewrite decide_False, decide_True by lia. by eexists.
  - rewrite decide_False, decide_False, decide_True by lia. by eexists.
Qed.
Definition boot_mem : mem := proj1_sig boot_mem_sig.
Definition boot_statics : statics :=
  Statics (replicate 4096 NULL) [NULL; NULL] 0 SPIN_INIT SPIN_INIT false SPIN_INIT.
Definition boot_apic : apic := Apic false 16384 2 [7; 9] ∅.
Definition boot_state : st (kernel Z) :=
  St boot_mem (Kern bump_lo (Bitmap 2000 16) no_objects boot_statics boot_apic demo_machine demo_boot).

Lemma boot_stacks : stacks_ok boot_state 16.
Proof.
  destruct (proj2_sig boot_mem_sig) as (M1 & M2 & M3 & _). fold boot_mem in M1, M2, M3.
  assert (Hstack : forall i, 0 <= i < 16 -> good_stack boot_state 16 (physical_memory_offset + i * PAGE_SIZE)).
  { intros i Hi. unfold physical_memory_offset, demo_image, PAGE_SIZE.
    split; [| | | |intros b [_ Hb]; unfold span, PAGE_SIZE, SIZEOF_PT_REGS in *; simpl in *; lia]; unfold SIZEOF_PT_REGS, bm_lo, apart, two64; simpl; unfold bump_lo, bump_hi; try lia.
    eapply mapped_sub; [exact M3|lia|lia]. }
  split.
  - split; simpl; [split; simpl; try done|done|done].
  - intros i Hi _. unfold searched in Hi. simpl in Hi. change (16 / 8 * 8) with 16 in Hi. lia.
  - done.
  - intros i [->|[Hi _]]; [by apply Hstack|]. apply Hstack. exact Hi.
  - unfold apart, bm_lo. simpl. unfold bump_lo. lia.
  - exact M2.
  - intros b [_ Hb]. unfold span, bm_lo, PAGE_SIZE in *. simpl in *. unfold bump_lo, bump_hi. lia.
Qed.

Lemma boot_place : free_place 2 boot_statics (idle_place 0).
Proof. split; [done|]. split; [lia|]. split; [done|]. intros k Hk. lia. Qed.

Lemma create_correct_witness :
  exists t x s', create 4096 kFlagNone boot_state = Some (t, s') /\
    created boot_state s' ∅ 16 0 (idle_place 0) t 4096 kFlagNone x.
Proof.
  apply (create_correct boot_state 4096 kFlagNone 16 0 ∅ (idle_place 0)).
  - reflexivity.
  - simpl. unfold two32. lia.
  - simpl. lia.
  - apply boot_place.
  - apply (bump_rep_empty bump_lo). unfold bump_lo, bump_hi. lia.
  - apply (bump_plenty 6); vm_compute; congruence.
  - apply boot_stacks.
  - unfold two64. lia.
  - simpl. unfold two64. lia.
Defined.
