(* ===== verification/BootThms.v ===== *)
(** BootThms: the threads that [thread::init] ([thread/thread.cpp]) sets up, and which processor
    the code believes to run on ([arch::get_current_cpu_id]). *)

From Stdlib Require Import ZArith Lia.
From stdpp Require Import prelude gmap.
From S2P Require Import Prelude Mem Spinlock Block Klibc Bitmap Frame.
From S2P Require Import PageTable Kernel Apic Thread Syscall KernelFacts SearchThms KernelDemo.
From S2P Require Import SocketFacts ConnectFacts ConnectDemo CreateFacts CreateRules CreateThms.

Section Boot.
Context {H : Type} `{KernelHeap H} `{Garbage} `{Image}.
Implicit Types (s : st (kernel H)).

(** ** The current processor *)

(** A register of the local APIC, and the identifier in register 0x20. *)
Definition lapic_reg (a : apic) (c : machine) (m : mem) (reg : Z) : option Z :=
  if x2apic_mode a then u32 <$> mc_msr c !! (2048 + Z.shiftr reg 4) else load_le 4 m (lapic_address a +! reg).
Definition lapic_number (a : apic) (v : Z) : Z := u32 (if x2apic_mode a then v else Z.shiftr v 24).

(** The processor with this machine and this memory has the number [id], the first index of its
    identifier. *)
Definition on_cpu (a : apic) (c : machine) (m : mem) (id : Z) : Prop :=
  0 <= id < cpu_count a /\
  exists v, lapic_reg a c m LAPIC_REG_ID = Some v /\ cpuid_to_lapicid a !! Z.to_nat id = Some (lapic_number a v) /\
    forall j w, (j < Z.to_nat id)%nat -> cpuid_to_lapicid a !! j = Some w -> w <> lapic_number a v.

(** The window is a page of the address space. *)
Definition window_ok (a : apic) : Prop :=
  x2apic_mode a = false -> 0 <= lapic_address a /\ lapic_address a + PAGE_SIZE < two64.

(** Writes outside that register do not move the code to another processor. *)
Lemma on_cpu_same a c c' m m' id :
  window_ok a -> mc_msr c' !! 2050 = mc_msr c !! 2050 ->
  (forall b, x2apic_mode a = false -> span (lapic_address a + LAPIC_REG_ID) 4 b -> m' !! b = m !! b) ->
  on_cpu a c m id -> on_cpu a c' m' id.
Proof.
  intros Hw Hc Hm (Hid & v & Hv & Hl). split; [done|]. exists v. split; [|done]. rewrite <- Hv.
  unfold lapic_reg. change (2048 + Z.shiftr LAPIC_REG_ID 4) with 2050. rewrite Hc.
  destruct (x2apic_mode a) eqn:E; [done|]. destruct (Hw E) as [Hb Htop]. unfold LAPIC_REG_ID, PAGE_SIZE in *. norm_words.
  apply load_le_ext. intros b Hbb. apply Hm; [done|]. unfold span. lia.
Qed.

Lemma runs_cpuid_from n i v id s Q :
  0 <= i <= id -> id < i + Z.of_nat n -> cpuid_to_lapicid (k_apic (smgr s)) !! Z.to_nat id = Some v ->
  (forall j w, (j < Z.to_nat id)%nat -> cpuid_to_lapicid (k_apic (smgr s)) !! j = Some w -> w <> v) ->
  Q id s -> runs (cpuid_from n i v) s Q.
Proof.
  revert i. induction n as [|n IH]; intros i Hi Hn Hv Hmin HQ; [lia|]. cbn [cpuid_from].
  apply runs_bind, runs_of_apic, runs_bind. destruct (decide (i = id)) as [->|Hne].
  - eapply runs_of_opt; [exact Hv|]. rewrite Z.eqb_refl. by apply runs_ret.
  - destruct (lookup_lt_is_Some_2 (cpuid_to_lapicid (k_apic (smgr s))) (Z.to_nat i)) as [w Hw].
    { apply lookup_lt_Some in Hv. lia. }
    eapply runs_of_opt; [exact Hw|]. pose proof (Hmin (Z.to_nat i) w ltac:(lia) Hw) as Hwv.
    apply Z.eqb_neq in Hwv as ->. apply IH; try done; lia.
Qed.

Lemma u32_u32 z : u32 (u32 z) = u32 z.
Proof. unfold u32. apply Z.mod_mod. done. Qed.

Lemma runs_lapic_read reg v s Q :
  lapic_reg (k_apic (smgr s)) (k_cpu (smgr s)) (smem s) reg = Some v -> Q v s -> runs (lapic_read reg) s Q.
Proof.
  unfold lapic_reg. intros Hv HQ. unfold lapic_read. apply runs_bind, runs_of_apic.
  destruct (x2apic_mode (k_apic (smgr s))).
  - apply fmap_Some in Hv as (w & Hw & ->). apply runs_bind. eapply runs_rdmsr; [exact Hw|]. by apply runs_ret.
  - apply runs_bind, runs_of_apic, runs_bind, runs_gets. by eapply runs_of_opt.
Qed.

Lemma runs_current_cpu id s Q :
  on_cpu (k_apic (smgr s)) (k_cpu (smgr s)) (smem s) id -> Q id s -> runs get_current_cpu_id s Q.
Proof.
  intros (Hid & v & Hv & Hl & Hmin) HQ. unfold get_current_cpu_id, lapic_id.
  apply runs_bind, runs_bind. eapply runs_lapic_read; [exact Hv|]. apply runs_bind, runs_of_apic, runs_ret.
  unfold get_cpuid_by_lapic_id. apply runs_bind, runs_of_apic.
  eapply (runs_cpuid_from _ _ _ id); [lia|lia|exact Hl|exact Hmin|exact HQ].
Qed.

(** ** Threads that stay as they were made *)

(** A thread nobody has run yet. *)
Record thread_made s (cr3 t id cpu tflags : Z) (x : parts) : Prop := {
  tm_thread : obj_at thread_s s t = Some (Thread id false cpu 0 (pa_ctx x) (pa_stack x) (pa_mm x) (pa_file x)
    tflags 0 false false kRunNone);
  tm_context : obj_at context_s s (pa_ctx x) = Some (ArchContext (pa_regs x) (pa_fpu x) 16 16 0 0);
  tm_fpu : new_fpu (smem s) (pa_fpu x);
  tm_cr3 : load64 (smem s) (page_table_phys_of (pa_mm x)) = Some cr3;
  tm_users : load64 (smem s) (ref_count_of (pa_mm x)) = Some 1;
  tm_file : obj_at file_s s (pa_file x) = Some (FileInfo (pa_fds x) DEFAULT_FD_NUM 1);
  tm_fds : obj_at (array_s 0) s (pa_fds x) = Some (replicate (Z.to_nat DEFAULT_FD_NUM) NULL)
}.

Lemma created_made s s' l n m pl t entry tflags x :
  created s s' l n m pl t entry tflags x ->
  thread_made s' (mc_cr3 (k_cpu (smgr s))) t (place_id pl) (s32 (cpu_idx (k_static (smgr s)))) tflags x.
Proof. intros C. split; apply C. Qed.

Lemma in_heap_placed l p : in_heap l p -> placed l p.1.
Proof. intros (k & _ & Hk & _). left. by exists k. Qed.
Lemma kept_bytes m m' l p b : kept m m' l -> in_heap l p -> span p.1 p.2 b -> m' !! b = m !! b.
Proof.
  intros Hk (k & Hle & Hl & Hr) Hb. eapply Hk; [exact Hl|lia|lia|]. unfold span in *. lia.
Qed.

Lemma made_keeps s s' l n m pl t' entry tflags' x' cr3 t id cpu tflags x :
  created s s' l n m pl t' entry tflags' x' -> Forall (in_heap l) ((t, SIZEOF_THREAD) :: part_blocks x) ->
  thread_made s cr3 t id cpu tflags x -> thread_made s' cr3 t id cpu tflags x.
Proof.
  intros C Hin [T1 T2 T3 T4 T5 T6 T7]. destruct (cr_others _ _ _ _ _ _ _ _ _ _ C) as [O1 O2 O3 O4 O5 O6 O7 O8].
  pose proof (cr_blocks _ _ _ _ _ _ _ _ _ _ C) as Hk.
  unfold part_blocks in Hin. rewrite !Forall_cons in Hin. destruct Hin as (I1 & I2 & I3 & I4 & I5 & I6 & _).
  assert (Hmm : 0 <= pa_mm x < two64 - 8).
  { destruct I4 as (k & Hk1 & _ & Hr). simpl in *. unfold SIZEOF_MM_CONTEXT in *. lia. }
  assert (Href : ref_count_of (pa_mm x) = pa_mm x + 8) by (unfold ref_count_of; by norm_words).
  assert (Hw : forall o, o = 0 \/ o = 8 -> load64 (smem s') (pa_mm x + o) = load64 (smem s) (pa_mm x + o)).
  { intros o Ho. apply load_le_ext. intros b Hb. eapply kept_bytes; [exact Hk|exact I4|].
    unfold span, SIZEOF_MM_CONTEXT. simpl. lia. }
  split.
  - rewrite O1; [exact T1|]. by apply in_heap_placed in I1.
  - rewrite O7; [exact T2|]. by apply in_heap_placed in I2.
  - destruct T3 as [U1 U2]. split.
    + rewrite <- U1. apply load_le_ext. intros b Hb. eapply kept_bytes; [exact Hk|exact I3|].
      unfold span, SIZEOF_FX_STATE, fx_mxcsr in *. simpl. lia.
    + rewrite <- U2. apply load_le_ext. intros b Hb. eapply kept_bytes; [exact Hk|exact I3|].
      unfold span, SIZEOF_FX_STATE, fx_fcw in *. simpl. lia.
  - unfold page_table_phys_of in *. replace (pa_mm x) with (pa_mm x + 0) by lia. rewrite Hw by lia.
    by rewrite Z.add_0_r.
  - rewrite Href in *. by rewrite Hw by lia.
  - rewrite O2; [exact T6|]. by apply in_heap_placed in I5.
  - rewrite O8; [exact T7|]. by apply in_heap_placed in I6.
Qed.

(** ** [init] *)

(** The state [init] starts from, with [cpus] processors, room for [6 * (cpus + 1) + m] requests and
    a bitmap of [n] bytes. *)
Record bootable s (l : gmap Z Z) (n : Z) (m : nat) (id : Z) : Prop := {
  bt_lock : lock (new_thread_lock (k_static (smgr s))) = 0;
  bt_cpus : 0 < cpu_count (k_apic (smgr s)) < 2147483648;
  bt_idx : cpu_idx (k_static (smgr s)) = 0;
  bt_idle : forall j, Z.of_nat j < cpu_count (k_apic (smgr s)) -> idle_threads (k_static (smgr s)) !! j = Some NULL;
  bt_heap : heap_is s l;
  bt_plenty : plenty (6 * S (Z.to_nat (cpu_count (k_apic (smgr s)))) + m) (k_heap (smgr s));
  bt_stacks : stacks_ok s n;
  bt_entries : 0 <= idle_entry < two64 /\ 0 <= init_entry < two64;
  bt_cr3 : 0 <= mc_cr3 (k_cpu (smgr s)) < two64;
  bt_cpu : on_cpu (k_apic (smgr s)) (k_cpu (smgr s)) (smem s) id;
  bt_window : window_ok (k_apic (smgr s))
}.

(** Creating a thread does not write to the registers of the local APIC. *)
Lemma created_window s s' l n m pl t entry tflags x b :
  created s s' l n m pl t entry tflags x -> stacks_ok s n -> lapic_window (k_apic (smgr s)) b ->
  smem s' !! b = smem s !! b.
Proof.
  intros C So Hb. apply (ch_same _ _ _ (cr_mem _ _ _ _ _ _ _ _ _ _ C)).
  destruct (so_window _ _ So b Hb) as [W1 W2]. destruct (cr_stacks _ _ _ _ _ _ _ _ _ _ C) as (_ & Gs & _).
  destruct (cr_rest _ _ _ _ _ _ _ _ _ _ C) as (_ & Ea & _).
  destruct (cr_live _ _ _ _ _ _ _ _ _ _ C) as (l' & _ & _ & Hin). unfold part_blocks in Hin.
  rewrite !Forall_cons in Hin. destruct Hin as (_ & _ & (k1 & I1 & _ & R1) & (k2 & I2 & _ & R2) & _).
  intros [Hp|[Hp|[Hp|Hp]]].
  - done.
  - apply (gs_window _ _ _ Gs b); [by rewrite Ea|]. by replace (pa_regs x + SIZEOF_PT_REGS - SIZEOF_PT_REGS) with (pa_regs x) by lia.
  - apply W2. unfold span in *. simpl in *. lia.
  - apply W2. unfold span in *. simpl in *. lia.
Qed.

(** [ts]: the idle threads made so far. *)
Definition idle_made s (cr3 : Z) (l : gmap Z Z) (ts : list (Z * parts)) : Prop :=
  forall j t x, ts !! j = Some (t, x) ->
    Forall (in_heap l) ((t, SIZEOF_THREAD) :: part_blocks x) /\ thread_made s cr3 t 0 (Z.of_nat j) kFlagNone x.

Record booting s0 s (n : Z) (m : nat) (ts : list (Z * parts)) (l : gmap Z Z) : Prop := {
  bg_lock : lock (new_thread_lock (k_static (smgr s))) = 0;
  bg_idx : cpu_idx (k_static (smgr s)) = Z.of_nat (length ts) mod cpu_count (k_apic (smgr s0));
  bg_threads : threads (k_static (smgr s)) = replicate (Z.to_nat kMaxThreadCount) NULL;
  bg_idle : idle_threads (k_static (smgr s)) = ts.*1 ++ drop (length ts) (idle_threads (k_static (smgr s0)));
  bg_made : idle_made s (mc_cr3 (k_cpu (smgr s0))) l ts;
  bg_heap : heap_is s l;
  bg_plenty : plenty (6 * S (Z.to_nat (cpu_count (k_apic (smgr s0))) - length ts) + m) (k_heap (smgr s));
  bg_stacks : stacks_ok s n;
  bg_same : k_apic (smgr s) = k_apic (smgr s0) /\ k_cpu (smgr s) = k_cpu (smgr s0);
  bg_window : forall b, lapic_window (k_apic (smgr s0)) b -> smem s !! b = smem s0 !! b
}.

Lemma plenty_le a b (h : H) : plenty a h -> (b <= a)%nat -> plenty b h.
Proof.
  revert a h. induction b as [|b IH]; intros [|a] h Hp Hle; try done; [lia|]. intros size Hs.
  destruct (Hp size Hs) as [P1 P2]. split; intros x h' E; [destruct (P1 _ _ E)|destruct (P2 _ _ E)];
    (split; [done|]; eapply IH; [eassumption|lia]).
Qed.

Lemma idle_not_null s cr3 l ts j t : idle_made s cr3 l ts -> ts.*1 !! j = Some t -> t <> NULL.
Proof.
  intros Hm Hj. apply list_lookup_fmap_Some in Hj as ([t' x] & -> & Hj). destruct (Hm _ _ _ Hj) as [Hin _].
  apply Forall_cons in Hin as [(k & _ & _ & Hr) _]. simpl in *. unfold NULL. lia.
Qed.

Lemma idle_made_keeps s s' l n m pl t entry tf x cr3 ts :
  created s s' l n m pl t entry tf x -> idle_made s cr3 l ts ->
  forall l', l ⊆ l' -> idle_made s' cr3 l' ts.
Proof.
  intros C Hm l' Hsub j u y Hj. destruct (Hm _ _ _ Hj) as [Hin Hth]. split; [|by eapply made_keeps].
  eapply Forall_impl; [exact Hin|]. intros p (k & ? & Hk & ?). exists k. split; [done|]. split; [|done].
  by eapply lookup_weaken.
Qed.

Lemma runs_idle_step s0 s n m l0 id ts l Q :
  bootable s0 l0 n m id -> booting s0 s n m ts l -> Z.of_nat (length ts) < cpu_count (k_apic (smgr s0)) ->
  (forall t x l' s', booting s0 s' n m (ts ++ [(t, x)]) l' -> Q t s') ->
  runs (create idle_entry kFlagNone) s Q.
Proof.
  intros [B1 B2 B3 B4 B5 B6 B7 B8 B9 B10 B11] [G1 G2 G3 G4 G5 G6 G7 G8 [G9 G10] G11] Hlt HQ.
  rewrite (Z.mod_small (Z.of_nat (length ts))) in G2 by lia.
  assert (Hidle : forall j, Z.of_nat j < Z.of_nat (length ts) -> exists p, idle_threads (k_static (smgr s)) !! j = Some p /\ p <> NULL).
  { intros j Hj. destruct (lookup_lt_is_Some_2 ts.*1 j) as [p Hp]; [rewrite length_fmap; lia|].
    exists p. rewrite G4, lookup_app_l by (rewrite length_fmap; lia). split; [done|]. by eapply idle_not_null. }
  apply (runs_thread_create _ _ _ n (6 * (Z.to_nat (cpu_count (k_apic (smgr s0))) - length ts) + m) l (idle_place (length ts)));
    rewrite ?G9, ?G10; try done; try (unfold two32; lia).
  - split; [done|]. split; [lia|]. split; [|intros k Hk; apply Hidle; lia].
    rewrite G4, lookup_app_r by (rewrite length_fmap; lia).
    rewrite length_fmap, Nat.sub_diag, lookup_drop, Nat.add_0_r. by apply B4.
  - eapply plenty_le; [exact G7|lia].
  - intros t x s' C. destruct (cr_live _ _ _ _ _ _ _ _ _ _ C) as (l' & Hl' & Hsub & Hin). apply (HQ t x l').
    pose proof (cr_static _ _ _ _ _ _ _ _ _ _ C) as Est. destruct (cr_rest _ _ _ _ _ _ _ _ _ _ C) as (_ & Ea & Ec).
    assert (Ei : (length ts < length (idle_threads (k_static (smgr s0))))%nat).
    { apply (lookup_lt_Some _ _ NULL), B4. done. }
    split; rewrite ?length_app, ?Est; cbn [put_place length]; try done.
    + cbn. rewrite G2, G9. f_equal. lia.
    + cbn. rewrite G4, fmap_app, insert_app_r_alt by (rewrite length_fmap; lia).
      rewrite length_fmap, Nat.sub_diag, <- app_assoc. f_equal.
      rewrite (drop_S _ NULL (length ts)) by (by apply B4). simpl. by rewrite Nat.add_1_r.
    + intros j u y Hj. apply lookup_app_Some in Hj as [Hj|[Hle Hj]].
      * eapply (idle_made_keeps s); [exact C|exact G5|exact Hsub|exact Hj].
      * apply list_lookup_singleton_Some in Hj as [Ej E]. injection E as <- <-. split; [exact Hin|].
        replace j with (length ts) by lia. apply created_made in C. rewrite G10, G2 in C.
        rewrite s32_nonneg in C by lia. exact C.
    + eapply plenty_le; [apply C|lia].
    + apply C.
    + by rewrite Ea, Ec, G9, G10.
    + intros b Hb. rewrite (created_window _ _ _ _ _ _ _ _ _ _ b C G8) by by rewrite G9. by apply G11.
Qed.

(** What [init] leaves behind: the idle threads [ts], and thread [t] for [init_entry]; all their
    parts are live blocks of the heap, which has room for [m] more requests, as the bitmap of [n]
    bytes has for stacks. *)
Record booted s0 s (n : Z) (m : nat) (ts : list (Z * parts)) (t : Z) (x : parts) (id : Z) : Prop := {
  bd_idle : idle_threads (k_static (smgr s)) = ts.*1 ++ drop (length ts) (idle_threads (k_static (smgr s0)));
  bd_count : Z.of_nat (length ts) = cpu_count (k_apic (smgr s0));
  bd_made : forall j u y, ts !! j = Some (u, y) ->
    thread_made s (mc_cr3 (k_cpu (smgr s0))) u 0 (Z.of_nat j) kFlagNone y;
  bd_threads : threads (k_static (smgr s)) = <[1%nat := t]> (replicate (Z.to_nat kMaxThreadCount) NULL);
  bd_init : thread_made s (mc_cr3 (k_cpu (smgr s0))) t 1 0 kFlagServer x;
  bd_entry : new_frame (smem s) (pa_regs x) init_entry;
  bd_current : exists u y, ts !! Z.to_nat id = Some (u, y) /\
    mc_msr (k_cpu (smgr s)) !! IA32_KERNEL_GS_BASE = Some u;
  bd_ready : thread_initialized (k_static (smgr s)) = true;
  bd_heap : exists l, heap_is s l /\ idle_made s (mc_cr3 (k_cpu (smgr s0))) l ts /\
    Forall (in_heap l) ((t, SIZEOF_THREAD) :: part_blocks x);
  bd_room : plenty m (k_heap (smgr s)) /\ stacks_ok s n /\ lock (new_thread_lock (k_static (smgr s))) = 0;
  bd_same : k_apic (smgr s) = k_apic (smgr s0) /\ mc_cr3 (k_cpu (smgr s)) = mc_cr3 (k_cpu (smgr s0));
  bd_next : cpu_idx (k_static (smgr s)) = 1 mod cpu_count (k_apic (smgr s0))
}.

Lemma made_same s s' cr3 t id cpu tflags x :
  smem s' = smem s -> k_obj (smgr s') = k_obj (smgr s) ->
  thread_made s cr3 t id cpu tflags x -> thread_made s' cr3 t id cpu tflags x.
Proof. intros Em Eo [T1 T2 T3 T4 T5 T6 T7]. unfold obj_at in *. split; unfold obj_at; by rewrite ?Em, ?Eo. Qed.

Lemma runs_init s l n m id Q :
  bootable s l n m id -> (forall s' ts t x, booted s s' n m ts t x id -> Q tt s') -> runs init s Q.
Proof.
  intros B HQ. pose proof B as [B1 B2 B3 B4 B5 B6 B7 B8 B9 B10 B11]. unfold init.
  apply runs_bind, runs_with_static, runs_bind, runs_of_apic, runs_bind.
  change (St _ _) with (on_static (set_threads (replicate (Z.to_nat kMaxThreadCount) NULL)) s).
  set (s1 := on_static _ s).
  apply (runs_forM (fun i s' => exists ts l', booting s s' n m ts l' /\ Z.of_nat (length ts) = i));
    [simpl; lia| | |].
  - exists [], l. split; [|done]. split; try done.
    + by rewrite Nat.sub_0_r.
    + by apply (stacks_ok_same s).
  - intros i s' Hi (ts & l' & G & El). apply runs_bind. eapply runs_idle_step; [exact B|exact G|simpl in Hi; lia|].
    intros t x l'' s'' G'. apply runs_ret. exists (ts ++ [(t, x)]), l''. split; [done|]. rewrite length_app. simpl. lia.
  - intros s2 (ts & l2 & G & El). change (cpu_count (k_apic (smgr s1))) with (cpu_count (k_apic (smgr s))) in El.
    apply runs_bind, runs_with_static, runs_bind. change (St _ _) with (on_static (set_cpu_idx 0) s2).
    destruct G as [G1 G2 G3 G4 G5 G6 G7 G8 [G9 G10] G11].
    apply (runs_thread_create _ _ _ n m l2 (table_place 1)); cbn [on_static smgr smem]; simpl k_apic; simpl k_cpu;
      rewrite ?G9, ?G10; try done; try (unfold two32; simpl; lia).
    + split; [|split].
      * intros k Hk. destruct (lookup_lt_is_Some_2 ts.*1 k) as [p Hp]; [rewrite length_fmap; lia|].
        exists p. split; [|by eapply idle_not_null]. cbn. rewrite G4. rewrite lookup_app_l; [done|]. rewrite length_fmap. lia.
      * done.
      * split; [lia|]. cbn -[replicate]. rewrite G3. split; [|intros k Hk; lia].
        apply lookup_replicate. split; [done|]. unfold kMaxThreadCount. lia.
    + eapply plenty_le; [exact G7|lia].
    + by apply (stacks_ok_same s2).
    + intros t x s' C. destruct (cr_rest _ _ _ _ _ _ _ _ _ _ C) as (_ & Ea & Ec).
      pose proof (cr_static _ _ _ _ _ _ _ _ _ _ C) as Est. cbn [on_static smgr smem] in Ea, Ec.
      destruct (lookup_lt_is_Some_2 ts (Z.to_nat id)) as [[u y] Hu]; [destruct B10; lia|].
      apply runs_bind, (runs_current_cpu id).
      { rewrite Ea, Ec. simpl. rewrite G9, G10. eapply on_cpu_same; [exact B11|done| |exact B10]. intros b Hx Hbs.
        assert (Hb : lapic_window (k_apic (smgr s)) b) by (split; [done|]; unfold span, LAPIC_REG_ID, PAGE_SIZE in *; lia).
        rewrite (created_window _ _ _ _ _ _ _ _ _ _ b C) by (first [by apply (stacks_ok_same s2)|by simpl; rewrite G9]).
        by apply G11. }
      apply runs_bind, runs_static, runs_bind. eapply (runs_of_opt _ u).
      { rewrite Est. cbn -[replicate]. rewrite G4, lookup_app_l by (rewrite length_fmap; destruct B10; lia).
        by rewrite list_lookup_fmap, Hu. }
      apply runs_bind, runs_with_cpu, runs_with_static. apply (HQ _ ts t x).
      pose proof (created_made _ _ _ _ _ _ _ _ _ _ C) as Hm. cbn in Hm. rewrite G10 in Hm.
      destruct (cr_live _ _ _ _ _ _ _ _ _ _ C) as (l3 & Hl3 & Hsub & Hti).
      assert (Hk : idle_made s' (mc_cr3 (k_cpu (smgr s))) l3 ts).
      { eapply (idle_made_keeps (on_static (set_cpu_idx 0) s2)); [exact C| |exact Hsub].
        intros j v z Hj. destruct (G5 _ _ _ Hj) as [Hin Hv]. split; [done|]. by eapply (made_same s2). }
      split; cbn -[replicate]; rewrite ?Est; cbn -[replicate]; try done.
      * intros j v z Hj. destruct (Hk j v z Hj) as [_ Hv]. by eapply (made_same s').
      * by rewrite G3.
      * by eapply (made_same s').
      * apply C.
      * exists u, y. split; [done|]. apply lookup_insert_eq.
      * exists l3. split; [exact Hl3|]. split; [|exact Hti].
        intros j v z Hj. destruct (Hk j v z Hj) as [Hv1 Hv2]. split; [done|]. by eapply (made_same s').
      * split; [apply C|]. split; [|done]. eapply (stacks_ok_same s'); [done..|apply C].
      * rewrite Ea. split; [exact G9|]. change (mc_cr3 (k_cpu (smgr s')) = mc_cr3 (k_cpu (smgr s))). by rewrite Ec, <- G10.
      * by rewrite G9.
Qed.
End Boot.

(** C37: [init] from the state of the boot processor returns; every processor then has an idle
    thread of its own, in order and never run, entry 1 of the thread table is a new thread of
    processor 0 whose register frame starts at [init_entry], the current thread is the idle thread of
    the processor that runs the code, and the scheduler is marked ready. *)
Theorem init_correct {H : Type} `{KernelHeap H} `{Garbage} `{Image}
    (s : st (kernel H)) (l : gmap Z Z) (n : Z) (m : nat) (id : Z) :
  bootable s l n m id ->
  exists s' ts t x, init s = Some (tt, s') /\ booted s s' n m ts t x id.
Proof.
  intros B. enough (Hr : runs init s (fun _ s' => exists ts t x, booted s s' n m ts t x id)).
  { apply runs_inv in Hr as ([] & s' & E & ts & t & x & Hb). by exists s', ts, t, x. }
  eapply runs_init; [exact B|]. intros s' ts t x Hb. by exists ts, t, x.
Qed.

Lemma boot_bootable m : (m <= 200)%nat -> bootable boot_state ∅ 16 m 0.
Proof.
  intros Hm. split.
  - done.
  - simpl. lia.
  - done.
  - intros [|[|j]] Hj; [done|done|simpl in Hj; lia].
  - apply (bump_rep_empty bump_lo). unfold bump_lo, bump_hi. lia.
  - change (plenty (18 + m) bump_lo). apply bump_plenty; unfold bump_lo, bump_hi, PAGE_SIZE; lia.
  - apply boot_stacks.
  - unfold two64. simpl. lia.
  - simpl. unfold two64. lia.
  - split; [simpl; lia|]. exists 117440512.
    split; [exact (proj2 (proj2 (proj2 (proj2_sig boot_mem_sig))))|]. split; [done|]. intros j w Hj. simpl in Hj. lia.
  - intros _. simpl. unfold PAGE_SIZE, two64. lia.
Qed.

Lemma init_correct_witness :
  exists s' ts t x, init boot_state = Some (tt, s') /\ booted boot_state s' 16 0 ts t x 0.
Proof. apply (init_correct boot_state ∅ 16 0 0). apply boot_bootable. lia. Defined.
