(* ===== verification/SwitchFacts.v ===== *)
(** SwitchFacts: rules for the switch between threads ([arch/x86_64/context.cpp],
    [thread/schedule.cpp]): the FPU image, the saved context and the machine after the switch. *)

From Stdlib Require Import ZArith Lia.
From stdpp Require Import prelude gmap.
From S2P Require Import Prelude Mem Spinlock Block Klibc Bitmap Frame.
From S2P Require Import PageTable Kernel Apic Thread Syscall KernelFacts SearchThms KernelDemo.
From S2P Require Import SocketFacts ConnectFacts ConnectDemo CreateFacts CreateRules CreateThms BootThms.

Section Switch.
Context {H : Type} `{KernelHeap H} `{Garbage} `{Image}.
Implicit Types (s : st (kernel H)).

(** ** The FPU image *)

(** What [fxsave] stores: 512 bytes. *)
Definition fpu_image (l : list Z) : Prop := Z.of_nat (length l) = SIZEOF_FX_STATE /\ Forall (fun v => 0 <= v < 256) l.

Lemma runs_fxsave p s Q :
  fpu_image (mc_fpu (k_cpu (smgr s))) -> 0 <= p -> p + SIZEOF_FX_STATE < two64 ->
  mapped (smem s) p (p + SIZEOF_FX_STATE) ->
  (forall m', written (smem s) m' p (mc_fpu (k_cpu (smgr s))) -> Q tt (with_mem m' s)) ->
  runs (fxsave p) s Q.
Proof.
  intros [Hlen Hb] Hp Htop Hm HQ. unfold fxsave. apply runs_bind, runs_cpu.
  set (l := mc_fpu (k_cpu (smgr s))) in *. rewrite <- Hlen in *.
  apply (runs_forM (fun i s' => copied s s' p l 0 i)); [lia|apply copied_start| |].
  - intros i s' Hi C. destruct (lookup_lt_is_Some_2 l (Z.to_nat i)) as [v Hv]; [lia|].
    pose proof (Forall_lookup_1 _ _ _ _ Hb Hv) as Hvb. simpl in Hvb.
    rewrite (nth_lookup_Some _ _ 0 _ Hv). replace (p +! i) with (p + i) by (by norm_words).
    apply runs_sto8.
    + eapply copied_mapped; [exact C|exact Hm|lia|lia|lia].
    + eapply (copied_step _ _ _ _ _ _ _ _ (Z.to_nat i)); [exact C|exact Hv|exact Hvb| |left; lia|lia].
      by rewrite Z2Nat.id by lia.
  - intros s' C. pose proof (copied_end _ _ _ _ Hb Hm C) as Hw.
    destruct C as [Eg _ _]. specialize (HQ (smem s') Hw).
    replace (with_mem (smem s') s) with s' in HQ by (destruct s, s'; simpl in *; by subst). exact HQ.
Qed.

Lemma runs_read_bytes l p s Q :
  holds (smem s) p l -> 0 <= p -> p + Z.of_nat (length l) < two64 -> Q l s -> runs (read_bytes (length l) p) s Q.
Proof.
  revert p Q. induction l as [|x l IH]; intros p Q Hh Hp Htop HQ; cbn [read_bytes length] in *; [by apply runs_ret|].
  apply holds_cons in Hh as [Hx Hh]. apply runs_bind. eapply runs_ld8; [exact Hx|].
  apply runs_bind. replace (p +! 1) with (p + 1) by (by norm_words). apply IH; [exact Hh|lia|lia|]. by apply runs_ret.
Qed.

Definition on_machine (f : machine -> machine) s : st (kernel H) :=
  St (smem s) (set_k_cpu (f (k_cpu (smgr s))) (smgr s)).

Lemma runs_fxrstor l p s Q :
  holds (smem s) p l -> Z.of_nat (length l) = SIZEOF_FX_STATE -> 0 <= p -> p + SIZEOF_FX_STATE < two64 ->
  Q tt (on_machine (set_mc_fpu l) s) -> runs (fxrstor p) s Q.
Proof.
  intros Hh Hl Hp Htop HQ. unfold fxrstor. apply runs_bind. rewrite <- Hl, Nat2Z.id.
  apply runs_read_bytes; [done|done|lia|]. by apply runs_with_cpu.
Qed.

(** ** The whole switch *)

(** Thread [a], with object [ta] and context [va], runs on processor [id] and can be switched away. *)
Record can_leave s (id a : Z) (ta : thread) (va : arch_context) : Prop := {
  cl_thread : obj_at thread_s s a = Some ta;
  cl_context : obj_at context_s s (th_arch_context ta) = Some va;
  cl_some : th_arch_context ta <> NULL;
  cl_area : 0 <= ac_fpu va /\ ac_fpu va + SIZEOF_FX_STATE < two64;
  cl_mapped : mapped (smem s) (ac_fpu va) (ac_fpu va + SIZEOF_FX_STATE);
  cl_fpu : fpu_image (mc_fpu (k_cpu (smgr s)));
  cl_cpu : on_cpu (k_apic (smgr s)) (k_cpu (smgr s)) (smem s) id;
  cl_window : window_ok (k_apic (smgr s)) /\
    forall b, lapic_window (k_apic (smgr s)) b -> ~ span (ac_fpu va) SIZEOF_FX_STATE b;
  cl_tss : id < len (mc_rsp0 (k_cpu (smgr s)))
}.

(** Thread [b] can be resumed: [image] is its FPU state, [phys] its page table. *)
Record can_enter s (b : Z) (tb : thread) (vb : arch_context) (image : list Z) (phys : Z) : Prop := {
  ce_thread : obj_at thread_s s b = Some tb;
  ce_context : obj_at context_s s (th_arch_context tb) = Some vb;
  ce_phys : load64 (smem s) (page_table_phys_of (th_mm tb)) = Some phys;
  ce_image : holds (smem s) (ac_fpu vb) image;
  ce_size : fpu_image image;
  ce_area : 0 <= ac_fpu vb /\ ac_fpu vb + SIZEOF_FX_STATE < two64;
  ce_window : forall b, lapic_window (k_apic (smgr s)) b ->
    ~ span (ac_fpu vb) SIZEOF_FX_STATE b /\ ~ span (page_table_phys_of (th_mm tb)) 8 b
}.

(** They are two threads. *)
Definition two_threads (a b : Z) (ta tb : thread) (va vb : arch_context) : Prop :=
  a <> b /\ th_arch_context ta <> th_arch_context tb /\
  apart (ac_fpu va) SIZEOF_FX_STATE (ac_fpu vb) SIZEOF_FX_STATE.

(** The machine after the switch: [b]'s address space, FPU, segments and register frame. *)
Definition switched_cpu (c : machine) (id phys : Z) (vb : arch_context) (image : list Z) : machine :=
  Machine phys (mc_rflags c) (ac_fs vb) (ac_gs vb) image
    (<[MSR_GS_BASE := ac_gsbase vb]> (<[MSR_FS_BASE := ac_fsbase vb]> (mc_msr c)))
    (<[Z.to_nat id := ac_context vb +! SIZEOF_PT_REGS]> (mc_rsp0 c)) (Some (ac_context vb))
    (mc_out c) (mc_lsr c) (mc_debug_lock c).

(** The state after it, with [a]'s FPU image stored in the memory [m']. *)
Definition switched s (id a b : Z) (ta tb : thread) (va vb : arch_context) (image : list Z) (phys regs fs gs : Z)
    (m' : mem) : st (kernel H) :=
  put_at context_s (th_arch_context ta) (ArchContext regs (ac_fpu va) (ac_fs va) (ac_gs va) fs gs)
    (put_at thread_s b (set_th_state kRunActive tb) (put_at thread_s a (set_th_state kRunNone ta)
      (on_machine (fun c => switched_cpu c id phys vb image) (with_mem m' s)))).

Lemma machine_put {T} (S : store T) f p v s : on_machine f (put_at S p v s) = put_at S p v (on_machine f s).
Proof. done. Qed.
Lemma machine_mem f m s : with_mem m (on_machine f s) = on_machine f (with_mem m s).
Proof. done. Qed.
Lemma thread_put_context' p v q w s :
  put_at thread_s q w (put_at context_s p v s) = put_at context_s p v (put_at thread_s q w s).
Proof. done. Qed.
Ltac gather_cpu :=
  repeat first [progress tidy | rewrite machine_put | rewrite machine_mem | rewrite thread_put_context'].

Lemma runs_switch_to s regs id a b ta tb va vb image phys fs gs Q :
  can_leave s id a ta va -> can_enter s b tb vb image phys -> two_threads a b ta tb va vb -> regs <> NULL ->
  mc_msr (k_cpu (smgr s)) !! MSR_FS_BASE = Some fs -> mc_msr (k_cpu (smgr s)) !! MSR_GS_BASE = Some gs ->
  (forall m', written (smem s) m' (ac_fpu va) (mc_fpu (k_cpu (smgr s))) ->
     Q tt (switched s id a b ta tb va vb image phys regs fs gs m')) ->
  runs (switch_to regs a b) s Q.
Proof.
  intros [S1 S4 N3 [A1 A2] S8 S9 S10 [W1 W2] S11] [S2 S5 S6 S7 S7' [A3 A4] _] (N1 & N2 & A5) Hr Hfs Hgs HQ.
  unfold switch_to. ksteps. eapply runs_ld; [exact S6|]. kstep. apply runs_with_cpu.
  change (St _ _) with (on_machine (set_mc_cr3 phys) s). ksteps.
  unfold thread_switch_to. cbn [th_arch_context set_th_state].
  apply Z.eqb_neq in Hr as ->. apply Z.eqb_neq in N3 as ->. cbn [negb andb whenM]. ksteps.
  apply runs_fxsave; objs; [exact S9|exact A1|exact A2|exact S8|]. intros m' Hw. gather_cpu.
  change (written (smem s) m' (ac_fpu va) (mc_fpu (k_cpu (smgr s)))) in Hw.
  ksteps. apply (runs_fxrstor image); objs; [|apply S7'|exact A3|exact A4|].
  { destruct Hw as (_ & Ho & _). eapply holds_frame; [|exact S7]. intros c Hc. apply Ho.
    destruct S9 as [-> _], S7' as [Hi _]. unfold apart in A5. lia. }
  gather_cpu. kstep. eapply runs_rdmsr; [exact Hfs|]. ksteps. gather_cpu. eapply runs_rdmsr; [exact Hgs|]. ksteps.
  gather_cpu. apply (runs_current_cpu id).
  { eapply on_cpu_same; [exact W1|done| |exact S10]. intros c Hx Hc. destruct Hw as (_ & Ho & _). apply Ho.
    destruct S9 as [-> _]. apply W2. split; [done|].
    change (span (lapic_address (k_apic (smgr s)) + LAPIC_REG_ID) 4 c) in Hc. unfold span, LAPIC_REG_ID, PAGE_SIZE in *. lia. } kstep. apply runs_cpu. kstep.
  match goal with |- context [?x <=? id] => replace (x <=? id) with false by (symmetry; apply Z.leb_gt, S11) end.
  apply runs_with_cpu. kstep. apply runs_with_cpu. kstep. apply runs_with_cpu. kstep. apply runs_with_cpu.
  kstep. apply runs_with_cpu. apply runs_with_cpu. by apply HQ.
Qed.
End Switch.
