(* ===== verification/SwitchThms.v ===== *)
(** SwitchThms: the properties of the switch between threads and of the timer interrupt. *)

From Stdlib Require Import ZArith Lia.
From stdpp Require Import prelude gmap.
From S2P Require Import Prelude Mem Spinlock Block Klibc Bitmap Frame.
From S2P Require Import PageTable Kernel Apic Thread Syscall KernelFacts SearchThms KernelDemo.
From S2P Require Import SocketFacts ConnectFacts ConnectDemo CreateFacts CreateRules CreateThms BootThms SwitchFacts.

Section Switching.
Context {H : Type} `{KernelHeap H} `{Garbage} `{Image}.
Implicit Types (s : st (kernel H)).

(** What others leave alone while thread [a] is switched out: its objects, its FPU image and the
    root of its address space. *)
Record undisturbed s1 s2 (a : Z) (ta : thread) (va : arch_context) (phys : Z) : Prop := {
  un_thread : obj_at thread_s s2 a = obj_at thread_s s1 a;
  un_context : obj_at context_s s2 (th_arch_context ta) = obj_at context_s s1 (th_arch_context ta);
  un_fpu : forall b, span (ac_fpu va) SIZEOF_FX_STATE b -> smem s2 !! b = smem s1 !! b;
  un_phys : load64 (smem s2) (page_table_phys_of (th_mm ta)) = Some phys;
  un_window : forall b, lapic_window (k_apic (smgr s2)) b ->
    ~ span (ac_fpu va) SIZEOF_FX_STATE b /\ ~ span (page_table_phys_of (th_mm ta)) 8 b
}.

(** Thread [a] runs again, at [regs], as it was in [s]. *)
Record resumed s s3 (id a : Z) (va : arch_context) (regs phys fs gs : Z) : Prop := {
  rs_frame : mc_resume (k_cpu (smgr s3)) = Some regs;
  rs_fpu : mc_fpu (k_cpu (smgr s3)) = mc_fpu (k_cpu (smgr s));
  rs_fsbase : mc_msr (k_cpu (smgr s3)) !! MSR_FS_BASE = Some fs;
  rs_gsbase : mc_msr (k_cpu (smgr s3)) !! MSR_GS_BASE = Some gs;
  rs_selectors : mc_fs (k_cpu (smgr s3)) = ac_fs va /\ mc_gs (k_cpu (smgr s3)) = ac_gs va;
  rs_space : mc_cr3 (k_cpu (smgr s3)) = phys;
  rs_stack : mc_rsp0 (k_cpu (smgr s3)) !! Z.to_nat id = Some (regs +! SIZEOF_PT_REGS);
  rs_state : exists t, obj_at thread_s s3 a = Some t /\ th_state t = kRunActive
}.

(** The context object and the image that a switch away from [a] leaves. *)
Lemma switched_can_enter s s2 id a b ta tb va vb image phys regs fs gs m' phys_a :
  can_leave s id a ta va -> two_threads a b ta tb va vb ->
  written (smem s) m' (ac_fpu va) (mc_fpu (k_cpu (smgr s))) ->
  undisturbed (switched s id a b ta tb va vb image phys regs fs gs m') s2 a ta va phys_a ->
  can_enter s2 a (set_th_state kRunNone ta) (ArchContext regs (ac_fpu va) (ac_fs va) (ac_gs va) fs gs)
    (mc_fpu (k_cpu (smgr s))) phys_a.
Proof.
  intros [L1 L2 L3 L4 L5 L6 L7 L8 L9] (N1 & N2 & _) (Hh & _ & _) [U1 U2 U3 U4 U5]. unfold switched in *.
  split; cbn [th_arch_context th_mm set_th_state ac_fpu]; try done.
  - rewrite U1. objs. reflexivity.
  - rewrite U2. objs. reflexivity.
  - eapply holds_frame; [|exact Hh]. intros c Hc. apply U3. destruct L6 as [E _]. unfold span. lia.
Qed.
End Switching.

(** C38: a thread that is switched out and in again goes on as it was.  [switch_to] from [a] to [b]
    returns with [b]'s address space, FPU, segments and register frame on the processor.  Whatever
    happens then, if it leaves [a]'s context, FPU image and page-table root alone, a switch from [b]
    back to [a] resumes [a]'s register frame with the FPU state and the FS and GS bases of the moment
    it was switched out, and its kernel stack. *)
Theorem switch_round_trip {H : Type} `{KernelHeap H} `{Garbage} `{Image}
    (s : st (kernel H)) (id a b : Z) (ta tb : thread) (va vb : arch_context) (image : list Z) (phys regs fs gs : Z) :
  can_leave s id a ta va -> can_enter s b tb vb image phys -> two_threads a b ta tb va vb -> regs <> NULL ->
  mc_msr (k_cpu (smgr s)) !! MSR_FS_BASE = Some fs -> mc_msr (k_cpu (smgr s)) !! MSR_GS_BASE = Some gs ->
  exists m', written (smem s) m' (ac_fpu va) (mc_fpu (k_cpu (smgr s))) /\
    let s1 := switched s id a b ta tb va vb image phys regs fs gs m' in
    switch_to regs a b s = Some (tt, s1) /\ k_cpu (smgr s1) = switched_cpu (k_cpu (smgr s)) id phys vb image /\
    forall s2 id2 tb2 vb2 regs2 phys_a fs2 gs2,
      undisturbed s1 s2 a ta va phys_a -> can_leave s2 id2 b tb2 vb2 -> two_threads b a tb2 ta vb2 va ->
      regs2 <> NULL ->
      mc_msr (k_cpu (smgr s2)) !! MSR_FS_BASE = Some fs2 -> mc_msr (k_cpu (smgr s2)) !! MSR_GS_BASE = Some gs2 ->
      exists s3, switch_to regs2 b a s2 = Some (tt, s3) /\ resumed s s3 id2 a va regs phys_a fs gs.
Proof.
  intros Hl He Ht Hr Hfs Hgs.
  enough (Hrun : runs (switch_to regs a b) s (fun _ s1 => exists m',
    written (smem s) m' (ac_fpu va) (mc_fpu (k_cpu (smgr s))) /\
    s1 = switched s id a b ta tb va vb image phys regs fs gs m')).
  { apply runs_inv in Hrun as ([] & s1 & E & m' & Hw & ->). exists m'. split; [exact Hw|]. split; [exact E|]. split; [done|].
    intros s2 id2 tb2 vb2 regs2 phys_a fs2 gs2 Hu Hl2 Ht2 Hr2 Hfs2 Hgs2.
    pose proof (switched_can_enter _ _ _ _ _ _ _ _ _ _ _ _ _ _ _ _ Hl Ht Hw Hu) as He2.
    assert (Hrun : runs (switch_to regs2 b a) s2 (fun _ s3 => resumed s s3 id2 a va regs phys_a fs gs)).
    { eapply runs_switch_to; [exact Hl2|exact He2|exact Ht2|exact Hr2|exact Hfs2|exact Hgs2|].
      intros m2 Hw2. pose proof (cl_tss _ _ _ _ _ Hl2). pose proof (cl_cpu _ _ _ _ _ Hl2) as (Hid & _).
      split; try done.
      - change (<[MSR_GS_BASE := gs]> (<[MSR_FS_BASE := fs]> (mc_msr (k_cpu (smgr s2)))) !! MSR_FS_BASE = Some fs).
        rewrite lookup_insert_ne by done. apply lookup_insert_eq.
      - change (<[MSR_GS_BASE := gs]> (<[MSR_FS_BASE := fs]> (mc_msr (k_cpu (smgr s2)))) !! MSR_GS_BASE = Some gs).
        apply lookup_insert_eq.
      - change (<[Z.to_nat id2 := regs +! SIZEOF_PT_REGS]> (mc_rsp0 (k_cpu (smgr s2))) !! Z.to_nat id2 =
          Some (regs +! SIZEOF_PT_REGS)).
        apply list_lookup_insert_eq. lia.
      - destruct Ht2 as (Hne & _). unfold switched. objs. by eexists. }
    apply runs_inv in Hrun as ([] & s3 & E3 & Hres). by exists s3. }
  eapply runs_switch_to; try eassumption. intros m' Hw. by exists m'.
Qed.

(** Threads 300, running, and 400, switched out, on one processor. *)
Definition swap_mem : mem :=
  put_bytes 1600 [0; 16; 0; 0; 0; 0; 0; 0] (put_bytes 1616 [0; 32; 0; 0; 0; 0; 0; 0]
    (fill 8192 512 0 (fill 9216 512 5 ∅))).
Lemma swap_mem_facts :
  load64 swap_mem 1600 = Some 4096 /\ load64 swap_mem 1616 = Some 8192 /\
  mapped swap_mem 8192 8704 /\ mapped swap_mem 9216 9728 /\ holds swap_mem 9216 (replicate 512 5).
Proof.
  split; [vm_compute; reflexivity|]. split; [vm_compute; reflexivity|].
  assert (Hl : forall b, 8192 <= b < 8704 \/ 9216 <= b < 9728 -> swap_mem !! b = Some (if b <? 9000 then 0 else 5)).
  { intros b Hb. unfold swap_mem. rewrite !put_bytes_lookup, decide_False by (simpl; lia).
    rewrite decide_False by (simpl; lia). rewrite !fill_lookup.
    destruct (Z.ltb_spec b 9000); [rewrite decide_True by lia|rewrite decide_False, decide_True by lia]; done. }
  split; [|split].
  - intros b Hb. rewrite Hl by lia. by eexists.
  - intros b Hb. rewrite Hl by lia. by eexists.
  - intros i v [-> Hi]%lookup_replicate. unfold load8. rewrite Hl by lia.
    replace (9216 + Z.of_nat i <? 9000) with false by lia. done.
Qed.
Definition swap_thread (ctx mm : Z) (st : run_state) : thread :=
  Thread 1 false 0 0 ctx NULL mm NULL 0 0 false false st.
Definition swap_out : thread := swap_thread 310 1600 kRunActive.
Definition swap_in : thread := swap_thread 410 1616 kRunNone.
Definition ctx_out : arch_context := ArchContext NULL 8192 16 16 0 0.
Definition ctx_in : arch_context := ArchContext 7000 9216 16 16 77 88.
Definition swap_objects : objects :=
  Objects {[ 300 := swap_out; 400 := swap_in ]} ∅ ∅ ∅ ∅ ∅ {[ 310 := ctx_out; 410 := ctx_in ]} ∅.
Definition swap_machine : machine :=
  Machine 4096 514 16 16 (replicate 512 9) {[ 2050 := 7; MSR_FS_BASE := 33; MSR_GS_BASE := 44; IA32_KERNEL_GS_BASE := 300 ]}
    [0] None [] [] SPIN_INIT.
Definition swap_statics : statics :=
  Statics (NULL :: 300 :: 400 :: replicate 4093 NULL) [500] 0 SPIN_INIT SPIN_INIT true SPIN_INIT.
Definition swap_state : st (kernel Z) :=
  St swap_mem (Kern bump_lo (Bitmap 0 0) swap_objects swap_statics demo_apic swap_machine demo_boot).

Lemma fpu_image_replicate v : 0 <= v < 256 -> fpu_image (replicate 512 v).
Proof. intros Hv. split; [by rewrite length_replicate|]. by apply Forall_replicate. Qed.

Lemma swap_on_cpu c m : mc_msr c !! 2050 = Some 7 -> on_cpu demo_apic c m 0.
Proof.
  intros Hc. split; [done|]. exists 7. split; [|split; [done|]].
  { change (u32 <$> mc_msr c !! 2050 = Some 7). by rewrite Hc. }
  intros j w Hj. simpl in Hj. lia.
Qed.
Lemma demo_window b : ~ lapic_window demo_apic b.
Proof. by intros [? _]. Qed.

Lemma swap_can_leave : can_leave swap_state 0 300 swap_out ctx_out.
Proof.
  split; try done; [apply swap_mem_facts|by apply fpu_image_replicate|by apply swap_on_cpu|].
  split; [done|]. by intros b ?%demo_window.
Qed.
Lemma swap_can_enter : can_enter swap_state 400 swap_in ctx_in (replicate 512 5) 8192.
Proof. split; try done; [apply swap_mem_facts|by apply fpu_image_replicate|by intros b ?%demo_window]. Qed.
Lemma swap_two : two_threads 300 400 swap_out swap_in ctx_out ctx_in.
Proof. split; [done|]. split; [done|]. left. by vm_compute. Qed.

Lemma switch_round_trip_witness :
  exists s1 s3, switch_to 5000 300 400 swap_state = Some (tt, s1) /\ switch_to 6000 400 300 s1 = Some (tt, s3) /\
    resumed swap_state s3 0 300 ctx_out 5000 4096 33 44.
Proof.
  destruct (switch_round_trip swap_state 0 300 400 swap_out swap_in ctx_out ctx_in (replicate 512 5) 8192 5000 33 44
    swap_can_leave swap_can_enter swap_two) as (m' & (Hh & Ho & Hm) & E & Ec & Hback); [done|done|done|].
  destruct (Hback (switched swap_state 0 300 400 swap_out swap_in ctx_out ctx_in (replicate 512 5) 8192 5000 33 44 m')
    0 (set_th_state kRunActive swap_in) ctx_in 6000 4096 77 88) as (s3 & E3 & Hres).
  - split; [reflexivity|reflexivity|reflexivity| |intros b Hb; destruct (demo_window b Hb)]. rewrite <- (proj1 swap_mem_facts). apply load_le_ext.
    intros b Hb. apply Ho. change (mc_fpu (k_cpu (smgr swap_state))) with (replicate 512 9).
    rewrite length_replicate. change (1600 <= b < 1608) in Hb. change (ac_fpu ctx_out) with 8192. lia.
  - split; [reflexivity|reflexivity|discriminate|split; [discriminate|reflexivity]| | |by apply swap_on_cpu| |reflexivity].
    + apply Hm. apply swap_mem_facts.
    + change (fpu_image (replicate 512 5)). apply fpu_image_replicate. lia.
    + split; [discriminate|]. intros b Hb. destruct (demo_window b Hb).
  - split; [done|]. split; [done|]. right. by vm_compute.
  - done.
  - done.
  - done.
  - eexists _, s3. split; [exact E|]. split; [exact E3|exact Hres].
Defined.

Section Tick.
Context {H : Type} `{KernelHeap H} `{Garbage} `{Image}.
Implicit Types (s : st (kernel H)).

(** The thread the scheduler gives processor [id]. *)
Definition picked s (id next : Z) : Prop :=
  exists task, chosen (thread_map s) kRunNone id (in_use (drop 1 (threads (k_static (smgr s))))) task /\
    next = if task =? NULL then nth (Z.to_nat id) (idle_threads (k_static (smgr s))) NULL else task.

(** The state in which the switch happens: the interrupt acknowledged (a write of 0 to register 0xb0),
    the search done. *)
Definition acknowledged s : st (kernel H) :=
  if x2apic_mode (k_apic (smgr s)) then on_machine (fun c => set_mc_msr (<[2059 := 0]> (mc_msr c)) c) s
  else with_mem (default (smem s) (store_le 4 (smem s) (lapic_address (k_apic (smgr s)) +! 176) 0)) s.
Definition ticked s : st (kernel H) := after_search (acknowledged s).

Record tickable s (id cur : Z) : Prop := {
  tk_cpu : on_cpu (k_apic (smgr s)) (k_cpu (smgr s)) (smem s) id;
  tk_window : window_ok (k_apic (smgr s)) /\ (x2apic_mode (k_apic (smgr s)) = false ->
    mapped (smem s) (lapic_address (k_apic (smgr s))) (lapic_address (k_apic (smgr s)) + PAGE_SIZE));
  tk_current : mc_msr (k_cpu (smgr s)) !! IA32_KERNEL_GS_BASE = Some cur;
  tk_lock : lock (search_lock (k_static (smgr s))) = 0;
  tk_table : len (threads (k_static (smgr s))) = kMaxThreadCount;
  tk_live : threads_live s (drop 1 (threads (k_static (smgr s))));
  tk_idle : id < len (idle_threads (k_static (smgr s)))
}.

Lemma ticked_msr s r : r <> 2059 -> mc_msr (k_cpu (smgr (ticked s))) !! r = mc_msr (k_cpu (smgr s)) !! r.
Proof.
  intros Hr. unfold ticked, acknowledged. destruct (x2apic_mode _); [|done].
  apply (lookup_insert_ne (mc_msr (k_cpu (smgr s)))). congruence.
Qed.

Lemma ticked_parts s :
  smem (ticked s) = smem (acknowledged s) /\ k_obj (smgr (ticked s)) = k_obj (smgr (acknowledged s)) /\
  k_apic (smgr (ticked s)) = k_apic (smgr (acknowledged s)) /\ k_cpu (smgr (ticked s)) = k_cpu (smgr (acknowledged s)).
Proof. done. Qed.

Lemma ticked_fpu s : mc_fpu (k_cpu (smgr (ticked s))) = mc_fpu (k_cpu (smgr s)).
Proof. unfold ticked, acknowledged. by destruct (x2apic_mode _). Qed.

(** The acknowledgement leaves everything but one register alone. *)
Record only_acked s s' : Prop := {
  ak_rest : k_obj (smgr s') = k_obj (smgr s) /\ k_apic (smgr s') = k_apic (smgr s) /\
    k_static (smgr s') = k_static (smgr s);
  ak_cpu : mc_fpu (k_cpu (smgr s')) = mc_fpu (k_cpu (smgr s)) /\ mc_rsp0 (k_cpu (smgr s')) = mc_rsp0 (k_cpu (smgr s)) /\
    mc_rflags (k_cpu (smgr s')) = mc_rflags (k_cpu (smgr s));
  ak_msr : forall r, r <> 2059 -> mc_msr (k_cpu (smgr s')) !! r = mc_msr (k_cpu (smgr s)) !! r;
  ak_mem : changed (smem s) (smem s')
    (fun b => x2apic_mode (k_apic (smgr s)) = false /\ span (lapic_address (k_apic (smgr s)) + 176) 4 b)
}.

Lemma acknowledged_only s : window_ok (k_apic (smgr s)) -> only_acked s (acknowledged s).
Proof.
  intros Hw. unfold acknowledged. destruct (x2apic_mode (k_apic (smgr s))) eqn:E.
  - split; [done|done| |by split]. intros r Hr. apply (lookup_insert_ne (mc_msr (k_cpu (smgr s)))). congruence.
  - split; [done|done|done|]. destruct (Hw E) as [Hb Htop]. unfold PAGE_SIZE in *. norm_words.
    change (smem (with_mem ?m s)) with m.
    destruct (store_le 4 (smem s) (lapic_address (k_apic (smgr s)) + 176) 0) as [m'|] eqn:Es; [|by split].
    change (default _ _) with m'.
    eapply changed_weaken; [exact (store_le_changed 4 _ _ 0 _ Es)|]. intros b Hb'. by split.
Qed.

Lemma acked_on_cpu s s' id :
  window_ok (k_apic (smgr s)) -> only_acked s s' -> on_cpu (k_apic (smgr s)) (k_cpu (smgr s)) (smem s) id ->
  on_cpu (k_apic (smgr s')) (k_cpu (smgr s')) (smem s') id.
Proof.
  intros Hw [(_ & -> & _) _ Hm [Hc _]] Hon. eapply on_cpu_same; [exact Hw|by apply Hm| |exact Hon].
  intros b Hx Hb. apply Hc. intros [_ Hb']. unfold span, LAPIC_REG_ID in *. lia.
Qed.

(** What is outside the window is as before. *)
Lemma acked_bytes s s' a n b :
  window_ok (k_apic (smgr s)) -> only_acked s s' -> (forall b, lapic_window (k_apic (smgr s)) b -> ~ span a n b) ->
  span a n b -> smem s' !! b = smem s !! b.
Proof.
  intros Hw [_ _ _ [Hc _]] Hd Hb. apply Hc. intros [Hx Hs]. apply (Hd b); [|done]. split; [done|].
  unfold span, PAGE_SIZE in *. lia.
Qed.
Lemma switched_msr s id a b ta tb va vb image phys regs fs gs m' r :
  r <> MSR_FS_BASE -> r <> MSR_GS_BASE ->
  mc_msr (k_cpu (smgr (switched s id a b ta tb va vb image phys regs fs gs m'))) !! r = mc_msr (k_cpu (smgr s)) !! r.
Proof.
  intros Hf Hg. change (<[MSR_GS_BASE := ac_gsbase vb]> (<[MSR_FS_BASE := ac_fsbase vb]> (mc_msr (k_cpu (smgr s)))) !! r =
    mc_msr (k_cpu (smgr s)) !! r). by rewrite !lookup_insert_ne.
Qed.

Lemma ticked_leave s id a ta va : can_leave s id a ta va -> can_leave (ticked s) id a ta va.
Proof.
  intros [L1 L2 L3 L4 L5 L6 L7 [W1 W2] L8]. pose proof (acknowledged_only s W1) as K.
  pose proof K as [(K1 & K2 & K3) (K4 & K5 & K6) K7 [K8 K9]]. unfold obj_at in *.
  destruct (ticked_parts s) as (P1 & P2 & P3 & P4). split; unfold obj_at; rewrite ?P1, ?P2, ?P3, ?P4, ?K1, ?K2, ?K4, ?K5; try done.
  - by apply K9.
  - pose proof (acked_on_cpu _ _ _ W1 K L7) as Hon. rewrite K2 in Hon. exact Hon.
Qed.
Lemma ticked_enter s b tb vb image phys :
  window_ok (k_apic (smgr s)) -> can_enter s b tb vb image phys -> can_enter (ticked s) b tb vb image phys.
Proof.
  intros W1 [E1 E2 E3 E4 E5 E6 E7]. pose proof (acknowledged_only s W1) as K.
  pose proof K as [(K1 & K2 & K3) (K4 & K5 & K6) K7 [K8 K9]]. unfold obj_at in *.
  destruct (ticked_parts s) as (P1 & P2 & P3 & P4). split; unfold obj_at; rewrite ?P1, ?P2, ?P3, ?K1, ?K2; try done.
  - rewrite <- E3. apply load_le_ext. intros c Hc. eapply (acked_bytes s _ _ 8); [exact W1|exact K| |exact Hc].
    intros d Hd. by apply E7.
  - eapply holds_frame; [|exact E4]. intros c Hc. eapply (acked_bytes s _ (ac_fpu vb) SIZEOF_FX_STATE); [exact W1|exact K| |].
    + intros d Hd. by apply E7.
    + destruct E5 as [<- _]. exact Hc.
Qed.

Lemma runs_acknowledge s Q :
  window_ok (k_apic (smgr s)) ->
  (x2apic_mode (k_apic (smgr s)) = false ->
    mapped (smem s) (lapic_address (k_apic (smgr s))) (lapic_address (k_apic (smgr s)) + PAGE_SIZE)) ->
  Q tt (acknowledged s) -> runs end_of_interrupt s Q.
Proof.
  intros Hw Hm HQ. unfold end_of_interrupt, lapic_write. unfold acknowledged in HQ. apply runs_bind, runs_of_apic.
  destruct (x2apic_mode (k_apic (smgr s))) eqn:E; [by apply runs_with_cpu|].
  destruct (Hw E) as [Hb Htop]. unfold PAGE_SIZE in *. apply runs_bind, runs_of_apic.
  destruct (store_le_Some 4 (smem s) (lapic_address (k_apic (smgr s)) +! 176) 0) as [m' Es].
  { norm_words. eapply mapped_sub; [by apply Hm|lia|lia]. }
  rewrite Es in HQ. apply runs_bind, runs_gets, runs_bind. eapply runs_of_opt; [exact Es|]. by apply runs_modify.
Qed.

Lemma runs_tick s id cur regs (Q : unit -> st (kernel H) -> Prop) :
  tickable s id cur ->
  (forall next, picked s id next ->
     (cur = next -> Q tt (ticked s)) /\
     (cur <> next -> runs (switch_to regs cur next) (ticked s) Q)) ->
  runs (do_lapic_timer regs) s Q.
Proof.
  intros [T1 [W1 W2] T2 T3 T4 T5 T6] HQ. unfold do_lapic_timer.
  apply runs_bind, runs_acknowledge; [exact W1|exact W2|]. pose proof (acknowledged_only s W1) as K.
  pose proof K as [(K1 & K2 & K3) _ _ _]. pose proof T1 as (Hid & _).
  apply runs_bind, (runs_current_cpu id); [by eapply acked_on_cpu|].
  apply runs_bind. apply runs_search; rewrite ?K3; [done|done| |lia|].
  { unfold threads_live, thread_map in *. by rewrite K1. }
  intros task Hc. unfold thread_map in Hc. rewrite K1 in Hc.
  rewrite bool_decide_eq_true_2, andb_true_r by done. change (after_search (acknowledged s)) with (ticked s).
  set (next := if task =? NULL then _ else _).
  destruct (HQ next) as [Q1 Q2]; [by exists task|].
  apply runs_bind, (runs_rdmsr _ cur); [by rewrite ticked_msr|].
  destruct (Z.eqb_spec cur next) as [E|E]; cbn [negb whenM]; [apply runs_ret; by apply Q1|by apply Q2].
Qed.
End Tick.

(** C39: the timer interrupt.  It acknowledges the interrupt and asks the scheduler for a thread of
    this processor.  If that is the current thread it changes nothing else; otherwise it switches to
    it, leaving the interrupted frame in the current thread's context and the new thread's frame on
    the processor.  Either way the register that names the current thread keeps naming the old one. *)
Theorem timer_tick_correct {H : Type} `{KernelHeap H} `{Garbage} `{Image}
    (s : st (kernel H)) (id cur regs : Z) (ta : thread) (va : arch_context) :
  tickable s id cur -> can_leave s id cur ta va -> regs <> NULL ->
  is_Some (mc_msr (k_cpu (smgr s)) !! MSR_FS_BASE) -> is_Some (mc_msr (k_cpu (smgr s)) !! MSR_GS_BASE) ->
  (forall next, picked s id next -> next <> cur -> exists tb vb image phys,
     can_enter s next tb vb image phys /\ two_threads cur next ta tb va vb) ->
  exists next s', do_lapic_timer regs s = Some (tt, s') /\ picked s id next /\
    mc_msr (k_cpu (smgr s')) !! IA32_KERNEL_GS_BASE = Some cur /\
    (next = cur -> s' = ticked s) /\
    (next <> cur -> exists tb vb image phys fs gs m', can_enter s next tb vb image phys /\
       written (smem (ticked s)) m' (ac_fpu va) (mc_fpu (k_cpu (smgr s))) /\
       mc_msr (k_cpu (smgr s)) !! MSR_FS_BASE = Some fs /\ mc_msr (k_cpu (smgr s)) !! MSR_GS_BASE = Some gs /\
       s' = switched (ticked s) id cur next ta tb va vb image phys regs fs gs m').
Proof.
  intros Ht Hl Hr [fs Hfs] [gs Hgs] Hen. enough (Hrun : runs (do_lapic_timer regs) s (fun _ s' => exists next, picked s id next /\
    mc_msr (k_cpu (smgr s')) !! IA32_KERNEL_GS_BASE = Some cur /\ (next = cur -> s' = ticked s) /\
    (next <> cur -> exists tb vb image phys fs gs m', can_enter s next tb vb image phys /\
       written (smem (ticked s)) m' (ac_fpu va) (mc_fpu (k_cpu (smgr s))) /\
       mc_msr (k_cpu (smgr s)) !! MSR_FS_BASE = Some fs /\ mc_msr (k_cpu (smgr s)) !! MSR_GS_BASE = Some gs /\
       s' = switched (ticked s) id cur next ta tb va vb image phys regs fs gs m'))).
  { apply runs_inv in Hrun as ([] & s' & E & next & Hnext). by exists next, s'. }
  pose proof (tk_current _ _ _ Ht) as Hcur.
  apply (runs_tick s id cur); [exact Ht|]. intros next Hp. split; intros Hne.
  - exists next. split; [exact Hp|]. split; [by rewrite ticked_msr|]. by subst.
  - destruct (Hen next Hp) as (tb & vb & image & phys & He & Htwo); [done|].
    eapply (runs_switch_to _ _ id cur next ta tb va vb image phys fs gs);
      [by apply ticked_leave|apply ticked_enter; [apply Hl|exact He]|exact Htwo|exact Hr|by rewrite ticked_msr..|].
    intros m' Hw. rewrite ticked_fpu in Hw. exists next. split; [exact Hp|]. split; [|split; [done|]].
    + by rewrite switched_msr, ticked_msr.
    + intros _. exists tb, vb, image, phys, fs, gs, m'. by split_ands.
Qed.

Lemma swap_in_use : in_use (drop 1 (threads (k_static (smgr swap_state)))) = [300; 400].
Proof. vm_compute. reflexivity. Qed.
Lemma swap_tickable : tickable swap_state 0 300.
Proof.
  split; [by apply swap_on_cpu|by split|reflexivity|reflexivity|vm_compute; reflexivity| |reflexivity].
  unfold threads_live. rewrite swap_in_use. repeat constructor; by eexists.
Qed.
Lemma swap_picked next : picked swap_state 0 next -> next = 400.
Proof.
  intros (task & Hc & ->). rewrite swap_in_use in Hc.
  assert (He : eligible (thread_map swap_state) kRunNone 0 400 swap_in) by (by split_ands).
  destruct Hc as [(Hn & i & th & Hi & (Ht & Hs & _) & _)|[_ Hno]]; [|by destruct (Hno 1%nat 400 swap_in)].
  destruct i as [|[|i]]; simpl in Hi; [injection Hi as <-|by injection Hi as <-|by rewrite lookup_nil in Hi].
  vm_compute in Ht. injection Ht as <-. discriminate.
Qed.

Lemma timer_tick_correct_witness :
  exists s', do_lapic_timer 5000 swap_state = Some (tt, s') /\ mc_resume (k_cpu (smgr s')) = Some 7000 /\
    mc_msr (k_cpu (smgr s')) !! IA32_KERNEL_GS_BASE = Some 300.
Proof.
  destruct (timer_tick_correct swap_state 0 300 5000 swap_out ctx_out swap_tickable swap_can_leave)
    as (next & s' & E & Hp & Hcur & _ & Hsw); [discriminate|by eexists|by eexists| |].
  - intros next Hp _. apply swap_picked in Hp as ->. exists swap_in, ctx_in, (replicate 512 5), 8192.
    split; [apply swap_can_enter|apply swap_two].
  - apply swap_picked in Hp as ->. destruct Hsw as (tb & vb & image & phys & fs & gs & m' & He & _ & _ & _ & Es); [discriminate|].
    exists s'. split; [exact E|]. split; [|exact Hcur]. rewrite Es.
    destruct He as [He1 He2 _ _ _ _]. vm_compute in He1. injection He1 as <-. vm_compute in He2. injection He2 as <-.
    reflexivity.
Defined.
