(* ===== verification/TableThms.v ===== *)
(** TableThms: the thread tables as a typed structure: every used place holds a thread all of whose
    pointers lead to live objects of their kind. *)

From Stdlib Require Import ZArith Lia.
From stdpp Require Import prelude gmap.
From S2P Require Import Prelude Mem Spinlock Block Klibc Bitmap Frame.
From S2P Require Import PageTable Kernel Apic Thread Syscall KernelFacts SearchThms KernelDemo.
From S2P Require Import SocketFacts ConnectFacts ConnectDemo CreateFacts CreateRules CreateThms BootThms.
From S2P Require Import SwitchFacts SwitchThms.

Section Table.
Context {H : Type} `{KernelHeap H} `{Garbage} `{Image}.
Implicit Types (s : st (kernel H)).

(** ** Well-formed threads *)

(** The fields of a thread and of a context that no operation but their creation writes. *)
Definition same_thread (v w : thread) : Prop :=
  th_id w = th_id v /\ th_cpu_id w = th_cpu_id v /\ th_arch_context w = th_arch_context v /\
  th_mm w = th_mm v /\ th_file_info w = th_file_info v.

(** [t] is thread number [id]: it runs on one of the processors, and its context, FPU image, address
    space, descriptor record and descriptor table are live blocks of the heap that hold what they
    are for. *)
Definition thread_wf s (l : gmap Z Z) (id t : Z) : Prop :=
  exists v c f fds,
    obj_at thread_s s t = Some v /\ th_id v = id /\ 0 <= th_cpu_id v < cpu_count (k_apic (smgr s)) /\
    obj_at context_s s (th_arch_context v) = Some c /\
    obj_at file_s s (th_file_info v) = Some f /\
    obj_at (array_s 0) s (fi_fds f) = Some fds /\ Z.of_nat (length fds) = fi_max_fd_count f /\
    Forall (in_heap l) [(t, SIZEOF_THREAD); (th_arch_context v, SIZEOF_ARCH_CONTEXT);
      (ac_fpu c, SIZEOF_FX_STATE); (th_mm v, SIZEOF_MM_CONTEXT); (th_file_info v, SIZEOF_FILE_INFO);
      (fi_fds f, 8 * fi_max_fd_count f)].

Lemma thread_wf_nonnull s l id t : thread_wf s l id t -> t <> NULL.
Proof.
  intros (v & c & f & fds & _ & _ & _ & _ & _ & _ & _ & Hin).
  apply Forall_cons in Hin as [(k & _ & _ & Hr) _]. simpl in Hr. unfold NULL. lia.
Qed.

(** A change of state that keeps the objects of the live blocks, but for what a switch of threads
    writes in them. *)
Record keeps_objects s s' (l : gmap Z Z) : Prop := {
  ko_threads : forall p v, placed l p -> obj_at thread_s s p = Some v ->
    exists w, obj_at thread_s s' p = Some w /\ same_thread v w;
  ko_contexts : forall p c, placed l p -> obj_at context_s s p = Some c ->
    exists d, obj_at context_s s' p = Some d /\ ac_fpu d = ac_fpu c;
  ko_files : forall p, placed l p -> obj_at file_s s' p = obj_at file_s s p;
  ko_arrays : forall p, placed l p -> obj_at (array_s 0) s' p = obj_at (array_s 0) s p;
  ko_apic : k_apic (smgr s') = k_apic (smgr s)
}.

Lemma thread_wf_keeps s s' l l' id t :
  keeps_objects s s' l -> l ⊆ l' -> thread_wf s l id t -> thread_wf s' l' id t.
Proof.
  intros [K1 K2 K3 K4 K5] Hsub (v & c & f & fds & T1 & T2 & T3 & T4 & T5 & T6 & T7 & Hin).
  pose proof Hin as Hp. rewrite !Forall_cons in Hp. destruct Hp as (I1 & I2 & I3 & I4 & I5 & I6 & _).
  apply in_heap_placed in I1, I2, I5, I6. simpl in I1, I2, I5, I6.
  destruct (K1 _ _ I1 T1) as (w & W & E1 & E2 & E3 & E4 & E5). destruct (K2 _ _ I2 T4) as (d & D & Ed).
  exists w, d, f, fds. rewrite E1, E2, E3, E4, E5, Ed, K3, K4, K5 by done. split_ands; try done; try lia.
  eapply Forall_impl; [exact Hin|]. intros p (k & ? & Hk & ?). exists k. split_ands; try done; try lia.
  by eapply lookup_weaken.
Qed.

Lemma same_objects_keeps s s' l :
  same_objects s s' l -> k_apic (smgr s') = k_apic (smgr s) -> keeps_objects s s' l.
Proof.
  intros [O1 O2 O3 O4 O5 O6 O7 O8] Ea. split; try done; intros p v Hp Hv.
  - exists v. rewrite O1 by done. done.
  - exists v. by rewrite O7.
Qed.

(** A thread nobody has run is well-formed, and so is a new one. *)
Lemma made_wf s l cr3 t id cpu tflags x :
  thread_made s cr3 t id cpu tflags x -> 0 <= cpu < cpu_count (k_apic (smgr s)) ->
  Forall (in_heap l) ((t, SIZEOF_THREAD) :: part_blocks x) -> thread_wf s l id t.
Proof.
  intros M Hc Hin. eexists _, _, _, _. split; [apply M|]. split; [done|]. split; [exact Hc|].
  split; [apply M|]. split; [apply M|]. split; [apply M|]. by split.
Qed.

Lemma created_wf s s' l l' n m pl t entry tflags x :
  created s s' l n m pl t entry tflags x -> 0 <= cpu_idx (k_static (smgr s)) < cpu_count (k_apic (smgr s)) ->
  cpu_count (k_apic (smgr s)) < 2147483648 -> Forall (in_heap l') ((t, SIZEOF_THREAD) :: part_blocks x) ->
  thread_wf s' l' (place_id pl) t.
Proof.
  intros C Hi Hc. eapply made_wf; [by eapply created_made|].
  destruct (cr_rest _ _ _ _ _ _ _ _ _ _ C) as (_ & -> & _). rewrite s32_nonneg by lia. done.
Qed.

(** ** Well-formed tables *)

(** The places 1 to [k - 1] of [threads] are in use and numbered, the others are free, and every
    processor has an idle thread. *)
Record table_wf s (l : gmap Z Z) (k : nat) : Prop := {
  tw_len : Z.of_nat (length (threads (k_static (smgr s)))) = kMaxThreadCount;
  tw_range : 1 <= Z.of_nat k <= kMaxThreadCount;
  tw_used : forall i, (1 <= i < k)%nat -> exists t, threads (k_static (smgr s)) !! i = Some t /\ thread_wf s l (Z.of_nat i) t;
  tw_free : forall i, (k <= i)%nat -> Z.of_nat i < kMaxThreadCount -> threads (k_static (smgr s)) !! i = Some NULL;
  tw_idle : forall j, Z.of_nat j < cpu_count (k_apic (smgr s)) -> exists t,
    idle_threads (k_static (smgr s)) !! j = Some t /\ thread_wf s l 0 t
}.

(** What the creation of [r] more threads needs. *)
Record creatable s (l : gmap Z Z) (n : Z) (r : nat) : Prop := {
  ca_lock : lock (new_thread_lock (k_static (smgr s))) = 0;
  ca_cpus : 0 < cpu_count (k_apic (smgr s)) < 2147483648;
  ca_idx : 0 <= cpu_idx (k_static (smgr s)) < cpu_count (k_apic (smgr s));
  ca_heap : heap_is s l;
  ca_plenty : plenty (6 * r) (k_heap (smgr s));
  ca_stacks : stacks_ok s n;
  ca_cr3 : 0 <= mc_cr3 (k_cpu (smgr s)) < two64
}.

Lemma table_place_free s l k :
  table_wf s l k -> Z.of_nat k < kMaxThreadCount ->
  free_place (cpu_count (k_apic (smgr s))) (k_static (smgr s)) (table_place k).
Proof.
  intros [T1 T2 T3 T4 T5] Hk. split; [|split; [done|]].
  - intros j Hj. destruct (T5 j Hj) as (t & Ht & Hw). exists t. split; [done|]. by eapply thread_wf_nonnull.
  - split; [lia|]. split; [by apply T4|]. intros i Hi. destruct (T3 i Hi) as (t & Ht & Hw).
    exists t. split; [done|]. by eapply thread_wf_nonnull.
Qed.

Lemma table_wf_created s s' l l' n m k t entry tflags x :
  table_wf s l k -> Z.of_nat k < kMaxThreadCount ->
  created s s' l n m (table_place k) t entry tflags x -> l ⊆ l' ->
  thread_wf s' l' (Z.of_nat k) t -> table_wf s' l' (S k).
Proof.
  intros [T1 T2 T3 T4 T5] Hk C Hsub Hw. destruct (cr_rest _ _ _ _ _ _ _ _ _ _ C) as (_ & Ea & _).
  pose proof (cr_static _ _ _ _ _ _ _ _ _ _ C) as Est.
  assert (Et : threads (k_static (smgr s')) = <[k := t]> (threads (k_static (smgr s)))) by by rewrite Est.
  assert (Ei : idle_threads (k_static (smgr s')) = idle_threads (k_static (smgr s))) by by rewrite Est.
  assert (Hkeep : forall id u, thread_wf s l id u -> thread_wf s' l' id u).
  { intros id u. apply thread_wf_keeps; [|exact Hsub]. apply same_objects_keeps; [apply C|exact Ea]. }
  split; rewrite ?Et, ?Ei, ?Ea.
  - by rewrite length_insert.
  - lia.
  - intros i Hi. destruct (decide (i = k)) as [->|Hne].
    + exists t. split; [|exact Hw]. apply list_lookup_insert_eq. lia.
    + destruct (T3 i ltac:(lia)) as (u & Hu & Hwu). exists u. rewrite list_lookup_insert_ne by done. auto.
  - intros i Hi Hm. rewrite list_lookup_insert_ne by lia. apply T4; [lia|done].
  - intros j Hj. destruct (T5 j Hj) as (u & Hu & Hwu). eauto.
Qed.

(** No thread is in two places. *)
Lemma table_wf_distinct s l k i j t :
  table_wf s l k -> (1 <= i)%nat -> (1 <= j)%nat -> t <> NULL ->
  threads (k_static (smgr s)) !! i = Some t -> threads (k_static (smgr s)) !! j = Some t -> i = j.
Proof.
  intros [T1 T2 T3 T4 T5] Hi Hj Hn Ei Ej.
  assert (Hid : forall i, (1 <= i)%nat -> threads (k_static (smgr s)) !! i = Some t ->
    exists v, obj_at thread_s s t = Some v /\ th_id v = Z.of_nat i).
  { intros i' Hi' E. pose proof (lookup_lt_Some _ _ _ E). destruct (decide (i' < k)%nat).
    - destruct (T3 i' ltac:(lia)) as (u & Hu & v & _ & _ & _ & Hv & Hid & _). exists v. split; [congruence|done].
    - rewrite T4 in E by lia. congruence. }
  destruct (Hid i Hi Ei) as (v & Hv & Hvi). destruct (Hid j Hj Ej) as (w & Hw & Hwj).
  rewrite Hv in Hw. injection Hw as <-. lia.
Qed.

Lemma in_use_app l1 l2 : Forall (fun p => p <> NULL) l1 -> head l2 = Some NULL \/ l2 = [] -> in_use (l1 ++ l2) = l1.
Proof.
  intros Hl Hh. induction Hl as [|p l1 Hp Hl IH]; simpl.
  - destruct Hh as [Hh| ->]; [|done]. destruct l2 as [|q l2]; [done|]. simpl in *. by simplify_eq.
  - apply Z.eqb_neq in Hp as ->. by rewrite IH.
Qed.

(** The scheduler's search sees all the threads there are. *)
Lemma table_wf_live s l k : table_wf s l k -> threads_live s (drop 1 (threads (k_static (smgr s)))).
Proof.
  intros [T1 T2 T3 T4 T5]. unfold threads_live. set (tab := threads (k_static (smgr s))) in *.
  rewrite <- (take_drop (k - 1) (drop 1 tab)), in_use_app.
  - apply Forall_lookup. intros i t Hi. apply lookup_take_Some in Hi as [Hi Hlt]. rewrite lookup_drop in Hi.
    destruct (T3 (1 + i)%nat ltac:(lia)) as (u & Hu & v & _ & _ & _ & Hv & _).
    exists v. unfold obj_at in Hv. by simplify_eq.
  - apply Forall_lookup. intros i t Hi. apply lookup_take_Some in Hi as [Hi Hlt]. rewrite lookup_drop in Hi.
    destruct (T3 (1 + i)%nat ltac:(lia)) as (u & Hu & Hw). simplify_eq. by eapply thread_wf_nonnull.
  - rewrite drop_drop, head_lookup, lookup_drop.
    destruct (decide (Z.of_nat k < kMaxThreadCount)).
    + left. apply T4; lia.
    + right. apply nil_length_inv. rewrite length_drop. lia.
Qed.

(** ** Creation of any number of threads *)

(** One [create] after the other, for the given entry points and flags. *)
Fixpoint create_all (reqs : list (Z * Z)) : M (st (kernel H)) (list Z) :=
  match reqs with
  | [] => ret []
  | (entry, tflags) :: reqs' =>
      t <- create entry tflags ;; ts <- create_all reqs' ;; ret (t :: ts)
  end.

Lemma creatable_next s s' l n m k t entry tflags x :
  creatable s l n (S m) -> created s s' l n (6 * m) (table_place k) t entry tflags x ->
  exists l', l ⊆ l' /\ creatable s' l' n m /\ Forall (in_heap l') ((t, SIZEOF_THREAD) :: part_blocks x).
Proof.
  intros [C1 C2 C3 C4 C5 C6 C7] C. destruct (cr_rest _ _ _ _ _ _ _ _ _ _ C) as (_ & Ea & Ec).
  pose proof (cr_static _ _ _ _ _ _ _ _ _ _ C) as Est.
  destruct (cr_live _ _ _ _ _ _ _ _ _ _ C) as (l' & Hl' & Hsub & Hin). exists l'. split; [done|]. split; [|done].
  split; rewrite ?Ea, ?Ec, ?Est; try done; try apply C. cbn. apply Z.mod_pos_bound. lia.
Qed.

(** Replacing the free places from [k] on one after the other. *)
Lemma insert_splice (tab : list Z) k t ts :
  (k < length tab)%nat ->
  take (S k) (<[k := t]> tab) ++ ts ++ drop (S k + length ts) (<[k := t]> tab) =
  take k tab ++ (t :: ts) ++ drop (k + S (length ts)) tab.
Proof.
  intros Hk. rewrite (take_S_r _ _ t) by (by apply list_lookup_insert_eq).
  rewrite take_insert_ge, drop_insert_lt by lia. rewrite <- app_assoc. simpl.
  by replace (k + S (length ts))%nat with (S (k + length ts)) by lia.
Qed.

Lemma runs_create_all n reqs s l k Q :
  table_wf s l k -> creatable s l n (length reqs) -> Z.of_nat (k + length reqs) <= kMaxThreadCount ->
  Forall (fun e => 0 <= e.1 < two64) reqs ->
  (forall ts s' l', length ts = length reqs -> l ⊆ l' -> table_wf s' l' (k + length reqs) -> creatable s' l' n 0 ->
     threads (k_static (smgr s')) = take k (threads (k_static (smgr s))) ++ ts ++
       drop (k + length reqs) (threads (k_static (smgr s))) -> Q ts s') ->
  runs (create_all reqs) s Q.
Proof.
  revert s l k Q. induction reqs as [|[entry tflags] reqs IH]; intros s l k Q Hw Hc Hk He HQ; simpl in *.
  { apply runs_ret. apply (HQ [] s l); rewrite ?Nat.add_0_r; try done. simpl. by rewrite take_drop. }
  apply Forall_cons in He as [He Hes]. pose proof Hc as [C1 C2 C3 C4 C5 C6 C7]. simpl in He.
  apply runs_bind, (runs_thread_create _ _ _ n (6 * length reqs) l (table_place k)); try done.
  - unfold two32. lia.
  - apply (table_place_free _ l); [done|lia].
  - eapply plenty_le; [exact C5|lia].
  - intros t x s1 C. destruct (creatable_next _ _ _ _ _ _ _ _ _ _ Hc C) as (l1 & Hs1 & Hc1 & Hin).
    pose proof (created_wf _ _ _ l1 _ _ _ _ _ _ _ C C3 ltac:(lia) Hin) as Ht.
    pose proof (table_wf_created _ _ _ l1 _ _ _ _ _ _ _ Hw ltac:(lia) C Hs1 Ht) as Hw1.
    apply runs_bind, (IH s1 l1 (S k)); [done|done|lia|done|].
    intros ts s2 l2 Hlen Hs2 Hw2 Hc2 Etab. apply runs_ret, (HQ _ s2 l2).
    + simpl. lia.
    + by etrans.
    + by replace (k + S (length reqs))%nat with (S k + length reqs)%nat by lia.
    + exact Hc2.
    + rewrite Etab, (cr_static _ _ _ _ _ _ _ _ _ _ C). cbn [put_place threads set_threads set_cpu_idx set_new_thread_lock].
      rewrite <- Hlen. apply insert_splice. pose proof (tw_len _ _ _ Hw). lia.
Qed.

(** After [init] the tables are well-formed and there is room for more threads. *)
Lemma booted_wf s s' l n m ts t x id :
  bootable s l n m id -> booted s s' n m ts t x id ->
  exists l', table_wf s' l' 2 /\ creatable s' l' n (m / 6).
Proof.
  intros [B1 B2 B3 B4 B5 B6 B7 B8 B9 B10 B11] [D1 D2 D3 D4 D5 D6 D7 D8 (l' & Hl & Him & Hin) (Hp & Hst & Hlk) (Ea & Ec) D12].
  exists l'. split.
  - split; rewrite ?D4, ?D1, ?Ea.
    + by rewrite length_insert, length_replicate.
    + done.
    + intros i Hi. assert (i = 1%nat) as -> by lia. exists t. split.
      { apply list_lookup_insert_eq. rewrite length_replicate. unfold kMaxThreadCount. lia. }
      eapply made_wf; [exact D5|rewrite Ea; lia|exact Hin].
    + intros i Hi Hm. rewrite list_lookup_insert_ne by lia. apply lookup_replicate. split; [done|lia].
    + intros j Hj. destruct (lookup_lt_is_Some_2 ts j) as [[u y] Hu]; [lia|]. exists u. split.
      * apply lookup_app_l_Some. by rewrite list_lookup_fmap, Hu.
      * destruct (Him _ _ _ Hu) as [Hiny Hm]. eapply made_wf; [exact Hm|rewrite Ea; lia|exact Hiny].
  - split; rewrite ?Ea, ?Ec; try done.
    + rewrite D12. apply Z.mod_pos_bound. lia.
    + eapply plenty_le; [exact Hp|]. pose proof (Nat.Div0.mul_div_le m 6). lia.
Qed.

(** ** The timer interrupt *)

Lemma table_wf_same s s' l k :
  keeps_objects s s' l -> k_static (smgr s') = k_static (smgr s) \/
    (threads (k_static (smgr s')) = threads (k_static (smgr s)) /\
     idle_threads (k_static (smgr s')) = idle_threads (k_static (smgr s))) ->
  table_wf s l k -> table_wf s' l k.
Proof.
  intros K E [T1 T2 T3 T4 T5].
  assert (Et : threads (k_static (smgr s')) = threads (k_static (smgr s)) /\
    idle_threads (k_static (smgr s')) = idle_threads (k_static (smgr s))) by (destruct E as [->|E]; auto).
  destruct Et as [Et Ei].
  assert (Hk : forall id u, thread_wf s l id u -> thread_wf s' l id u).
  { intros id u. by apply thread_wf_keeps. }
  split; rewrite ?Et, ?Ei, ?(ko_apic _ _ _ K); try done.
  - intros i Hi. destruct (T3 i Hi) as (t & Ht & Hw). eauto.
  - intros j Hj. destruct (T5 j Hj) as (t & Ht & Hw). eauto.
Qed.

Lemma ticked_keeps s l : window_ok (k_apic (smgr s)) -> keeps_objects s (ticked s) l.
Proof.
  intros Hw. pose proof (acknowledged_only s Hw) as [(K1 & K2 & _) _ _ _].
  destruct (ticked_parts s) as (_ & P2 & P3 & _).
  split; unfold obj_at; rewrite ?P2, ?P3, ?K1, ?K2; try done; intros p v _ Hv; by exists v.
Qed.

(** A switch changes the states of two threads and what one context says of the processor. *)
Lemma switched_keeps s l id a b ta tb va vb image phys regs fs gs m' :
  obj_at thread_s s a = Some ta -> obj_at thread_s s b = Some tb ->
  obj_at context_s s (th_arch_context ta) = Some va ->
  keeps_objects s (switched s id a b ta tb va vb image phys regs fs gs m') l.
Proof.
  intros Ha Hb Hv. unfold switched. split; try done.
  - intros p v _ Hp. destruct (decide (p = b)) as [->|Hpb]; [|destruct (decide (p = a)) as [->|Hpa]].
    + eexists. objs. split; [reflexivity|]. by simplify_eq.
    + eexists. objs. rewrite ?obj_put_ne by done. objs. split; [reflexivity|]. by simplify_eq.
    + exists v. objs. rewrite ?obj_put_ne by done. by split.
  - intros p c _ Hp. destruct (decide (p = th_arch_context ta)) as [->|Hne].
    + eexists. objs. split; [reflexivity|]. simpl. by simplify_eq.
    + exists c. rewrite ?obj_put_ne by done. by split.
Qed.
End Table.

(** A full table.  [get_free_thread] then answers NULL, and [create] writes through it: it faults
    when there is no thread at address 0. *)
Lemma create_full_faults {H : Type} `{KernelHeap H} `{Garbage} `{Image} (s : st (kernel H)) l k entry tflags :
  table_wf s l k -> Z.of_nat k = kMaxThreadCount -> lock (new_thread_lock (k_static (smgr s))) = 0 ->
  0 <= cpu_count (k_apic (smgr s)) -> obj_at thread_s s NULL = None -> create entry tflags s = None.
Proof.
  intros Hw Hk Hlk Hc Hn.
  assert (H1' : runs (lock_with get_new_lock put_new_lock) s (fun _ s1 => s1 = entered s)).
  { apply runs_lock_with; [exact Hlk|]. by intros f l' f' _ [-> ->] ->. }
  assert (H2' : runs get_free_thread (entered s) (fun t s1 => t = NULL /\ s1 = entered s)).
  { unfold get_free_thread. apply runs_bind, runs_of_apic, runs_bind. change 0 with (Z.of_nat 0) at 1.
    apply runs_no_slot.
    { intros j Hj. destruct (tw_idle _ _ _ Hw j) as (t & Ht & Hwt); [simpl in Hj; lia|].
      exists t. split; [done|]. by eapply thread_wf_nonnull. }
    apply runs_bind. change 1 with (Z.of_nat 1) at 2. apply runs_no_slot; [|by apply runs_ret].
    intros j Hj. destruct (tw_used _ _ _ Hw j) as (t & Ht & Hwt); [unfold kMaxThreadCount in *; lia|].
    exists t. split; [done|]. by eapply thread_wf_nonnull. }
  apply runs_inv in H1' as ([] & s1 & E1 & ->). apply runs_inv in H2' as (t & s2 & E2 & -> & ->).
  unfold create. unfold bind at 1. rewrite E1. unfold bind at 1. rewrite E2.
  assert (E3 : upd thread_s NULL (set_th_call_in_signal false) (entered s) = None).
  { change (obj_at thread_s (entered s) NULL = None) in Hn. unfold obj_at in Hn.
    unfold upd, rd, bind, gets, of_opt. by rewrite Hn. }
  unfold bind at 1. by rewrite E3.
Qed.

(** C31: the thread tables are well-typed.  [init] leaves tables whose first free place is 2: every
    place before it, and every processor's idle entry, holds a thread of that number on an existing
    processor whose context, FPU image, address space and descriptors are live blocks of their kind,
    and every other place holds NULL.  From any such tables the creation of as many threads as there
    are places returns, puts them into the next places in order and keeps the tables well-typed; so
    does the timer interrupt, whether it switches threads or not. *)
Theorem thread_tables_typed {H : Type} `{KernelHeap H} `{Garbage} `{Image} (s : st (kernel H)) (l : gmap Z Z) :
  (forall n m id, bootable s l n m id ->
     exists s' l', init s = Some (tt, s') /\ table_wf s' l' 2 /\ creatable s' l' n (m / 6)) /\
  (forall k, table_wf s l k ->
     (forall n reqs, creatable s l n (length reqs) -> Z.of_nat (k + length reqs) <= kMaxThreadCount ->
        Forall (fun e => 0 <= e.1 < two64) reqs ->
        exists ts s' l', create_all reqs s = Some (ts, s') /\ length ts = length reqs /\
          table_wf s' l' (k + length reqs) /\ l ⊆ l' /\
          threads (k_static (smgr s')) = take k (threads (k_static (smgr s))) ++ ts ++
            drop (k + length reqs) (threads (k_static (smgr s)))) /\
     (forall id cur regs ta va, tickable s id cur -> can_leave s id cur ta va -> regs <> NULL ->
        is_Some (mc_msr (k_cpu (smgr s)) !! MSR_FS_BASE) -> is_Some (mc_msr (k_cpu (smgr s)) !! MSR_GS_BASE) ->
        (forall next, picked s id next -> next <> cur -> exists tb vb image phys,
           can_enter s next tb vb image phys /\ two_threads cur next ta tb va vb) ->
        exists s', do_lapic_timer regs s = Some (tt, s') /\ table_wf s' l k)).
Proof.
  split; [|intros k Hw; split].
  - intros n m id B. assert (Hr : runs init s (fun _ s' => exists l', table_wf s' l' 2 /\ creatable s' l' n (m / 6))).
    { eapply runs_init; [exact B|]. intros s' ts t x D. by eapply booted_wf. }
    apply runs_inv in Hr as ([] & s' & E & l' & ? & ?). by exists s', l'.
  - intros n reqs Hc Hk He. assert (Hr : runs (create_all reqs) s (fun ts s' => exists l', length ts = length reqs /\
      table_wf s' l' (k + length reqs) /\ l ⊆ l' /\ threads (k_static (smgr s')) =
        take k (threads (k_static (smgr s))) ++ ts ++ drop (k + length reqs) (threads (k_static (smgr s))))).
    { eapply (runs_create_all n); [done..|]. intros ts s' l' ? ? ? _ ?. by exists l'. }
    apply runs_inv in Hr as (ts & s' & E & l' & ? & ? & ? & ?). by exists ts, s', l'.
  - intros id cur regs ta va Ht Hl Hr [fs Hfs] [gs Hgs] Hen.
    pose proof (cl_window _ _ _ _ _ Hl) as [Hwin _].
    assert (Hw' : table_wf (ticked s) l k).
    { apply (table_wf_same s); [by apply ticked_keeps| |exact Hw]. right.
      pose proof (acknowledged_only s Hwin) as [(_ & _ & E) _ _ _]. unfold ticked, after_search. simpl. by rewrite E. }
    assert (Hrun : runs (do_lapic_timer regs) s (fun _ s' => table_wf s' l k)).
    { apply (runs_tick s id cur); [exact Ht|]. intros next Hp. split; [done|]. intros Hne.
      destruct (Hen next Hp) as (tb & vb & image & phys & He & Htwo); [done|].
      apply (runs_switch_to _ _ id cur next ta tb va vb image phys fs gs);
        [by apply ticked_leave|by apply ticked_enter|exact Htwo|exact Hr|by rewrite ticked_msr..|].
      intros m' _. apply (table_wf_same (ticked s)); [|by left|exact Hw'].
      pose proof (ticked_leave _ _ _ _ _ Hl) as []. pose proof (ticked_enter _ _ _ _ _ _ Hwin He) as [].
      by apply switched_keeps. }
    apply runs_inv in Hrun as ([] & s' & E & ?). by exists s'.
Qed.

(** After [init] on the two processors of [boot_state], two more threads take places 2 and 3. *)
Lemma thread_tables_typed_witness :
  exists s1 ts s2 l2, init boot_state = Some (tt, s1) /\
    create_all [(4096, kFlagNone); (8192, kFlagServer)] s1 = Some (ts, s2) /\ table_wf s2 l2 4.
Proof.
  destruct (thread_tables_typed boot_state ∅) as [Hi _].
  destruct (Hi 16 12%nat 0 (boot_bootable 12 ltac:(lia))) as (s1 & l1 & E1 & Hw1 & Hc1).
  destruct (thread_tables_typed s1 l1) as [_ Hk]. destruct (Hk 2%nat Hw1) as [Hc _].
  destruct (Hc 16 [(4096, kFlagNone); (8192, kFlagServer)]) as (ts & s2 & l2 & E2 & _ & Hw2 & _).
  - exact Hc1.
  - unfold kMaxThreadCount. simpl. lia.
  - repeat constructor; simpl; unfold two64; lia.
  - exists s1, ts, s2, l2. split; [exact E1|]. split; [exact E2|exact Hw2].
Defined.
