(* ===== verification/CloneThms.v ===== *)
(** CloneThms: the clone system call ([k_clone_impl] of [hel/syscall.cpp]) for a thread that shares
    its address space and its descriptors with its parent. *)

From Stdlib Require Import ZArith Lia.
From stdpp Require Import prelude gmap.
From S2P Require Import Prelude Mem Spinlock Block Klibc Bitmap Frame.
From S2P Require Import PageTable Kernel Apic Thread Syscall KernelFacts SearchThms KernelDemo.
From S2P Require Import SocketFacts ConnectFacts ConnectDemo CreateFacts CreateRules CreateThms BootThms.

Section Clone.
Context {H : Type} `{KernelHeap H} `{Garbage} `{Image}.
Implicit Types (s : st (kernel H)).

(** ** The parts *)

Lemma runs_context_copy to from ct cf fr image s Q :
  obj_at context_s s to = Some ct -> obj_at context_s s from = Some cf ->
  copy_args s (ac_context ct) (ac_context cf) fr -> Z.of_nat (length fr) = SIZEOF_PT_REGS ->
  apart (ac_context ct) SIZEOF_PT_REGS (ac_context cf) SIZEOF_PT_REGS ->
  copy_args s (ac_fpu ct) (ac_fpu cf) image -> Z.of_nat (length image) = SIZEOF_FX_STATE ->
  apart (ac_fpu ct) SIZEOF_FX_STATE (ac_fpu cf) SIZEOF_FX_STATE ->
  apart (ac_context ct) SIZEOF_PT_REGS (ac_fpu cf) SIZEOF_FX_STATE ->
  (forall m1 m2, written (smem s) m1 (ac_context ct) fr -> written m1 m2 (ac_fpu ct) image ->
     Q tt (put_at context_s to (ArchContext (ac_context ct) (ac_fpu ct) (ac_fs cf) (ac_gs cf) (ac_fsbase cf)
       (ac_gsbase cf)) (with_mem m2 s))) ->
  runs (context_copy to from) s Q.
Proof.
  intros Ht Hf A1 L1 P1 A2 L2 P2 P3 HQ. unfold context_copy. ksteps.
  eapply runs_memcpy; [exact A1|by rewrite L1|unfold apart in P1; lia|]. intros m1 W1. kstep.
  pose proof W1 as (_ & O1 & M1). eapply (runs_memcpy _ _ _ image).
  { destruct A2 as [B1 B2 B3 B4 B5 B6]. split; objs; try done; [|by apply M1].
    eapply holds_frame; [|exact B1]. intros b Hb. apply O1. unfold apart in P3. lia. }
  { by rewrite L2. } { unfold apart in P2. lia. }
  intros m2 W2. ksteps. tidy. by apply (HQ m1).
Qed.

Lemma runs_clone_shared mm flags users s Q :
  has_flag flags 256 = true -> load64 (smem s) (ref_count_of mm) = Some users ->
  mapped (smem s) (ref_count_of mm) (ref_count_of mm + 8) ->
  (forall m', changed (smem s) m' (span (ref_count_of mm) 8) ->
     load64 m' (ref_count_of mm) = Some (u64 (users + 1)) -> Q mm (with_mem m' s)) ->
  runs (clone_mm mm flags) s Q.
Proof.
  intros Hf Hu Hm HQ. unfold clone_mm. rewrite Hf. apply runs_on_frames. unfold clone_page_table. rewrite Hf.
  eapply runs_bind, runs_ld; [exact Hu|]. apply runs_bind, runs_sto_changed; [exact Hm|]. intros m' C L.
  apply runs_ret. simpl in *. specialize (HQ m' C). unfold add64, u64 in *. rewrite Z.mod_mod in L by done.
  replace (St m' (set_k_frames (k_frames (smgr s)) (smgr s))) with (with_mem m' s); [by apply HQ|].
  unfold with_mem. f_equal. by destruct (smgr s).
Qed.

(** The stack pointer of the frame at [r], set unless it is 0. *)
Record sp_set (m m' : mem) (r newsp : Z) : Prop := {
  ss_else : changed m m' (span (r + pr_rsp) 8);
  ss_none : newsp = 0 -> m' = m;
  ss_some : newsp <> 0 -> load64 m' (r + pr_rsp) = Some newsp
}.

Lemma runs_set_sp ctx v newsp s Q :
  obj_at context_s s ctx = Some v -> 0 <= newsp < two64 -> 0 <= ac_context v -> ac_context v + SIZEOF_PT_REGS < two64 ->
  mapped (smem s) (ac_context v) (ac_context v + SIZEOF_PT_REGS) ->
  (forall m', sp_set (smem s) m' (ac_context v) newsp -> Q tt (with_mem m' s)) ->
  runs (whenM (negb (newsp =? 0)) (c <- rd context_s ctx ;; sto (ac_context c +! pr_rsp) newsp)) s Q.
Proof.
  intros Hv Hsp Hr Hr' Hm HQ. unfold SIZEOF_PT_REGS in *. destruct (Z.eqb_spec newsp 0) as [E|E]; cbn [negb whenM].
  - apply runs_ret. specialize (HQ (smem s)). destruct s. by apply HQ.
  - ksteps. replace (ac_context v +! pr_rsp) with (ac_context v + pr_rsp) by (unfold pr_rsp; by norm_words).
    apply runs_sto_changed; [unfold pr_rsp; eapply mapped_sub; [exact Hm|lia|lia]|].
    intros m' C L. rewrite u64_small in L by lia. by apply HQ.
Qed.

Lemma copy_args_same s s' dst src bytes : smem s' = smem s -> copy_args s dst src bytes -> copy_args s' dst src bytes.
Proof. intros E [A1 A2 A3 A4 A5 A6]. split; by rewrite ?E. Qed.

(** ** Before and after *)

(** The current thread [parent], with the object [tp], context [vp] and descriptors [fp], whose
    register frame at [regs] holds [fr] and whose FPU image is [image], can make a thread in the place
    [pl].  Its frame is apart from the heap, the bitmap and every place for a new stack. *)
Record cloneable s (l : gmap Z Z) (n : Z) (m : nat) (pl : place) (parent regs : Z) (tp : thread)
    (vp : arch_context) (fp : thread_file_info) (users : Z) (fr image : list Z) : Prop := {
  cb_current : mc_msr (k_cpu (smgr s)) !! IA32_KERNEL_GS_BASE = Some parent;
  cb_thread : obj_at thread_s s parent = Some tp;
  cb_context : obj_at context_s s (th_arch_context tp) = Some vp;
  cb_file : obj_at file_s s (th_file_info tp) = Some fp;
  cb_users : load64 (smem s) (ref_count_of (th_mm tp)) = Some users;
  cb_parts : Forall (in_heap l) [(parent, SIZEOF_THREAD); (th_arch_context tp, SIZEOF_ARCH_CONTEXT);
    (ac_fpu vp, SIZEOF_FX_STATE); (th_mm tp, SIZEOF_MM_CONTEXT); (th_file_info tp, SIZEOF_FILE_INFO)];
  cb_frame : holds (smem s) regs fr /\ Z.of_nat (length fr) = SIZEOF_PT_REGS;
  cb_image : holds (smem s) (ac_fpu vp) image /\ Z.of_nat (length image) = SIZEOF_FX_STATE;
  cb_regs : 0 <= regs /\ regs + SIZEOF_PT_REGS < two64;
  cb_bitmap : apart regs SIZEOF_PT_REGS (bm_lo s) n;
  cb_heap : apart regs SIZEOF_PT_REGS heap_lo (heap_hi - heap_lo);
  cb_stacks : forall a, stack_place s a -> apart (a - SIZEOF_PT_REGS) SIZEOF_PT_REGS regs SIZEOF_PT_REGS;
  cb_lock : lock (new_thread_lock (k_static (smgr s))) = 0;
  cb_cpus : 0 < cpu_count (k_apic (smgr s)) < two32 /\ 0 <= cpu_idx (k_static (smgr s)) < cpu_count (k_apic (smgr s));
  cb_place : free_place (cpu_count (k_apic (smgr s))) (k_static (smgr s)) pl;
  cb_room : heap_is s l /\ plenty (6 + m) (k_heap (smgr s)) /\ stacks_ok s n;
  cb_cr3 : 0 <= mc_cr3 (k_cpu (smgr s)) < two64
}.

(** The thread [c] has been created at [t] with the parts [x]: the state in which the parent's things
    are copied. *)
Record clone_site s (t parent regs : Z) (c tp : thread) (x : parts) (vp : arch_context)
    (fp : thread_file_info) (users : Z) (fr image : list Z) : Prop := {
  cs_child : obj_at thread_s s t = Some c /\ th_arch_context c = pa_ctx x;
  cs_context : obj_at context_s s (pa_ctx x) = Some (ArchContext (pa_regs x) (pa_fpu x) 16 16 0 0);
  cs_parent : obj_at thread_s s parent = Some tp /\ obj_at context_s s (th_arch_context tp) = Some vp /\
    obj_at file_s s (th_file_info tp) = Some fp;
  cs_new : t <> parent /\ pa_ctx x <> th_arch_context tp;
  cs_frame : copy_args s (pa_regs x) regs fr /\ Z.of_nat (length fr) = SIZEOF_PT_REGS /\
    apart (pa_regs x) SIZEOF_PT_REGS regs SIZEOF_PT_REGS /\ pa_regs x + SIZEOF_PT_REGS < two64;
  cs_image : copy_args s (pa_fpu x) (ac_fpu vp) image /\ Z.of_nat (length image) = SIZEOF_FX_STATE /\
    apart (pa_fpu x) SIZEOF_FX_STATE (ac_fpu vp) SIZEOF_FX_STATE /\
    apart (pa_regs x) SIZEOF_PT_REGS (ac_fpu vp) SIZEOF_FX_STATE /\
    apart regs SIZEOF_PT_REGS (pa_fpu x) SIZEOF_FX_STATE /\
    apart (pa_regs x) SIZEOF_PT_REGS (pa_fpu x) SIZEOF_FX_STATE;
  cs_users : load64 (smem s) (ref_count_of (th_mm tp)) = Some users /\
    mapped (smem s) (ref_count_of (th_mm tp)) (ref_count_of (th_mm tp) + 8);
  cs_apart : apart (pa_regs x) SIZEOF_PT_REGS (ref_count_of (th_mm tp)) 8 /\
    apart regs SIZEOF_PT_REGS (ref_count_of (th_mm tp)) 8 /\
    apart (pa_fpu x) SIZEOF_FX_STATE (ref_count_of (th_mm tp)) 8
}.

Lemma in_heap_off l p q : Forall (off_heap l) q -> in_heap l p -> forall y, y ∈ q -> apart y.1 y.2 p.1 p.2.
Proof.
  intros Ho (k & Hk & Hl & _) y Hy. rewrite Forall_forall in Ho. specialize (Ho y Hy _ _ Hl).
  unfold apart in *. lia.
Qed.

Lemma created_site s s1 l n m pl parent regs tp vp fp users fr image t x :
  cloneable s l n m pl parent regs tp vp fp users fr image -> created s s1 l n m pl t NULL (th_tflags tp) x ->
  exists c, clone_site s1 t parent regs c tp x vp fp users fr image.
Proof.
  intros B C. pose proof C as [C1 C2 C3 C4 C5 C6 C7 C8 C9 C10 [_ C11] C12 C13 C14 C15 C16 C17 C18 (C19 & C20 & _)].
  pose proof B as [B1 B2 B3 B4 B5 B6 [B7 B7'] [B8 B8'] [B9 B9'] B10 B11 B12 B13 B14 B15 (B16 & B17 & B18) B19].
  destruct C12 as (l' & _ & _ & Hin).
  pose proof (fun p Hp => in_heap_off _ p _ C17 Hp) as Hoff.
  pose proof B6 as Hb. rewrite !Forall_cons in Hb. destruct Hb as (P1 & P2 & P3 & P4 & P5 & _).
  pose proof (Hoff _ P3 (pa_fpu x, SIZEOF_FX_STATE) ltac:(unfold part_blocks; rewrite !elem_of_cons; tauto)) as F1.
  pose proof (Hoff _ P4 (pa_fpu x, SIZEOF_FX_STATE) ltac:(unfold part_blocks; rewrite !elem_of_cons; tauto)) as F2.
  clear Hoff.
  assert (Fh : heap_lo <= pa_fpu x /\ pa_fpu x + SIZEOF_FX_STATE <= heap_hi /\ 0 < pa_fpu x /\ pa_fpu x + SIZEOF_FX_STATE < two64).
  { unfold part_blocks in Hin. rewrite !Forall_cons in Hin. destruct Hin as (_ & _ & (k & Hk & _ & Hr) & _). simpl in *. lia. }
  assert (Mh : heap_lo <= th_mm tp /\ th_mm tp + 16 <= heap_hi /\ ref_count_of (th_mm tp) = th_mm tp + 8).
  { destruct P4 as (k & Hk & _ & Hr). unfold SIZEOF_MM_CONTEXT, ref_count_of in *. simpl in *. norm_words. lia. }
  assert (Vh : heap_lo <= ac_fpu vp /\ ac_fpu vp + SIZEOF_FX_STATE <= heap_hi /\ 0 < ac_fpu vp /\ ac_fpu vp + SIZEOF_FX_STATE < two64).
  { destruct P3 as (k & Hk & _ & Hr). simpl in *. lia. }
  destruct Mh as (M1 & M2 & M3). simpl in F1, F2. unfold SIZEOF_MM_CONTEXT in F2.
  destruct C20 as [G1 G2 G3 G4 _]. replace (pa_regs x + SIZEOF_PT_REGS - SIZEOF_PT_REGS) with (pa_regs x) in * by lia.
  pose proof (B12 _ C18) as R1. replace (pa_regs x + SIZEOF_PT_REGS - SIZEOF_PT_REGS) with (pa_regs x) in R1 by lia.
  destruct C15 as [O1 O2 O3 O4 O5 O6 O7 O8]. pose proof (so_mapped _ _ C19) as Hmh.
  apply in_heap_placed in P1 as Q1, P2 as Q2, P5 as Q5. simpl in Q1, Q2, Q5.
  assert (Hfr : holds (smem s1) regs fr).
  { eapply holds_changed; [exact C16| |exact B7]. intros b Hbb. rewrite B7' in Hbb.
    assert (Hmm : heap_lo <= pa_mm x /\ pa_mm x + SIZEOF_MM_CONTEXT <= heap_hi).
    { unfold part_blocks in Hin. rewrite !Forall_cons in Hin. destruct Hin as (_ & _ & _ & (k & Hk & _ & Hr) & _). simpl in *. lia. }
    unfold span, apart in *. lia. }
  exists (Thread (place_id pl) false (s32 (cpu_idx (k_static (smgr s)))) 0
    (pa_ctx x) (pa_stack x) (pa_mm x) (pa_file x) (th_tflags tp) 0 false false kRunNone).
  split; rewrite ?O1, ?O7, ?O2 by done; try done.
  - rewrite !Forall_cons in C11. destruct C11 as ([N1 _] & [N2 _] & _).
    destruct P1 as (k1 & _ & E1 & _), P2 as (k2 & _ & E2 & _). simpl in *. split; intros E; rewrite E in *; congruence.
  - split; [|split; [done|split; [exact R1|lia]]]. split; rewrite ?B7'; try done; try lia. 
  - split; [|split; [done|split; [exact F1|]]].
    + split; rewrite ?B8'; try done; try lia; [|eapply mapped_sub; [exact Hmh|lia|lia]].
      eapply holds_frame; [|exact B8]. intros b Hbb. rewrite B8' in Hbb.
      eapply kept_bytes; [exact C13|exact P3|]. exact Hbb.
    + unfold apart in *. lia.
  - rewrite M3 in *. split; [|].
    { rewrite <- B5. apply load_le_ext. intros b Hbb. eapply kept_bytes; [exact C13|exact P4|].
      unfold span, SIZEOF_MM_CONTEXT. simpl. lia. } eapply mapped_sub; [exact Hmh|lia|lia].
  - rewrite M3. unfold apart in *. lia.
Qed.

(** What the call makes of the new thread [c] at [t]: a copy of its parent's registers (but for the
    stack pointer, when one was given), FPU state and segments, on the parent's address space and
    descriptors, which have one user more. *)
Record cloned s s' (t parent regs flags newsp tls : Z) (c tp : thread) (x : parts) (vp : arch_context)
    (fp : thread_file_info) (users : Z) (fr image : list Z) : Prop := {
  cd_child : obj_at thread_s s' t = Some (Thread (th_id c) (th_call_in_signal tp) (th_cpu_id c) (th_jiffies tp)
    (pa_ctx x) (th_syscall_stack c) (th_mm tp) (th_file_info tp) (th_tflags c) (th_status c) false false (th_state c));
  cd_context : obj_at context_s s' (pa_ctx x) = Some (ArchContext (pa_regs x) (pa_fpu x) (ac_fs vp) (ac_gs vp)
    (if has_flag flags CLONE_SETTLS then tls else ac_fsbase vp) (ac_gsbase vp));
  cd_frame : forall (i : nat) v, fr !! i = Some v -> newsp = 0 \/ ~ (pr_rsp <= Z.of_nat i < pr_rsp + 8) ->
    load8 (smem s') (pa_regs x + Z.of_nat i) = Some v;
  cd_sp : newsp <> 0 -> load64 (smem s') (pa_regs x + pr_rsp) = Some newsp;
  cd_rax : load64 (smem s') (pa_regs x + pr_rax) = load64 (smem s) (regs + pr_rax);
  cd_image : holds (smem s') (pa_fpu x) image;
  cd_parent : obj_at thread_s s' parent = Some tp /\
    obj_at context_s s' (th_arch_context tp) = Some (set_ac_context regs vp) /\ holds (smem s') regs fr;
  cd_users : load64 (smem s') (ref_count_of (th_mm tp)) = Some (u64 (users + 1)) /\
    obj_at file_s s' (th_file_info tp) = Some (set_fi_ref_count (s32 (fi_ref_count fp + 1)) fp);
  cd_rest : k_static (smgr s') = k_static (smgr s) /\ k_cpu (smgr s') = k_cpu (smgr s) /\
    k_frames (smgr s') = k_frames (smgr s) /\ k_heap (smgr s') = k_heap (smgr s);
  cd_mem : changed (smem s) (smem s') (fun b => span (pa_regs x) SIZEOF_PT_REGS b \/
    span (pa_fpu x) SIZEOF_FX_STATE b \/ span (ref_count_of (th_mm tp)) 8 b)
}.

Definition shares_all (flags : Z) : Prop :=
  has_flag flags 256 = true /\ has_flag flags CLONE_FILES = true /\ has_flag flags CLONE_VFORK = false /\
  has_flag flags CLONE_PARENT_SETTID = false /\ has_flag flags CLONE_CHILD_SETTID = false.

Context (yield : M (st (kernel H)) unit) (fuel : nat).

Lemma load_le_shift n m m' a a' :
  (forall o, 0 <= o < Z.of_nat n -> load8 m' (a' + o) = load8 m (a + o)) -> load_le n m' a' = load_le n m a.
Proof.
  revert a a'. induction n as [|n IH]; intros a a' Hs; [done|]. simpl.
  pose proof (Hs 0 ltac:(lia)) as E. rewrite !Z.add_0_r in E. rewrite E.
  rewrite (IH (a + 1) (a' + 1)); [done|]. intros o Ho. rewrite <- !Z.add_assoc. apply Hs. lia.
Qed.

(** The memory of the call: the frame, the image, the count of users and the stack pointer. *)
Lemma clone_mem s m1 m2 m3 m4 t parent regs newsp c tp x vp fp users fr image :
  clone_site s t parent regs c tp x vp fp users fr image ->
  written (smem s) m1 (pa_regs x) fr -> written m1 m2 (pa_fpu x) image ->
  changed m2 m3 (span (ref_count_of (th_mm tp)) 8) -> sp_set m3 m4 (pa_regs x) newsp ->
  load64 m3 (ref_count_of (th_mm tp)) = Some (u64 (users + 1)) ->
  (forall (i : nat) v, fr !! i = Some v -> newsp = 0 \/ ~ (pr_rsp <= Z.of_nat i < pr_rsp + 8) ->
     load8 m4 (pa_regs x + Z.of_nat i) = Some v) /\
  load64 m4 (pa_regs x + pr_rax) = load64 (smem s) (regs + pr_rax) /\
  holds m4 (pa_fpu x) image /\ holds m4 regs fr /\
  load64 m4 (ref_count_of (th_mm tp)) = Some (u64 (users + 1)) /\
  changed (smem s) m4 (fun b => span (pa_regs x) SIZEOF_PT_REGS b \/
    span (pa_fpu x) SIZEOF_FX_STATE b \/ span (ref_count_of (th_mm tp)) 8 b).
Proof.
  intros [_ _ _ _ (A1 & L1 & P1 & T1) (A2 & L2 & P2 & P3 & P4 & P5) _ (D1 & D2 & D3)] W1 W2 K3 [K4 E4 _] L3.
  pose proof (written_changed _ _ _ _ W1) as K1. pose proof (written_changed _ _ _ _ W2) as K2.
  rewrite L1 in K1. rewrite L2 in K2. destruct W1 as (F1 & _), W2 as (F2 & _).
  assert (Hsp : forall b, span (pa_regs x + pr_rsp) 8 b -> span (pa_regs x) SIZEOF_PT_REGS b).
  { unfold span, pr_rsp, SIZEOF_PT_REGS. lia. }
  assert (Hcopy : forall (i : nat) v, fr !! i = Some v -> newsp = 0 \/ ~ (pr_rsp <= Z.of_nat i < pr_rsp + 8) ->
    load8 m4 (pa_regs x + Z.of_nat i) = Some v).
  { intros i v Hi Hn. pose proof (lookup_lt_Some _ _ _ Hi). unfold load8.
    assert (E : m4 !! (pa_regs x + Z.of_nat i) = m3 !! (pa_regs x + Z.of_nat i)).
    { destruct Hn as [->|Hn]; [by rewrite E4|]. apply (ch_same _ _ _ K4). unfold span. lia. }
    rewrite E, (ch_same _ _ _ K3), (ch_same _ _ _ K2) by (unfold span, apart in *; lia). by apply F1. }
  split_ands.
  - exact Hcopy.
  - apply (load_le_shift 8). intros o Ho. destruct (lookup_lt_is_Some_2 fr (Z.to_nat (pr_rax + o))) as [v Hv].
    { unfold pr_rax, SIZEOF_PT_REGS in *. lia. }
    pose proof (Hcopy _ _ Hv) as E1. pose proof (ca_src _ _ _ _ A1 _ _ Hv) as E2. unfold pr_rax, pr_rsp in *.
    rewrite Z2Nat.id in E1, E2 by lia. replace (pa_regs x + 128 + o) with (pa_regs x + (128 + o)) by lia.
    replace (regs + 128 + o) with (regs + (128 + o)) by lia. rewrite E1, E2; [done|right; lia].
  - eapply holds_changed; [exact K4| |]; [rewrite L2; intros b Hb ?%Hsp; unfold span, apart in *; lia|].
    eapply holds_changed; [exact K3| |exact F2]. rewrite L2. unfold span, apart in *. lia.
  - eapply holds_changed; [exact K4| |]; [rewrite L1; intros b Hb ?%Hsp; unfold span, apart in *; lia|].
    eapply holds_changed; [exact K3| |]; [rewrite L1; unfold span, apart in *; lia|].
    eapply holds_changed; [exact K2| |]; [rewrite L1; unfold span, apart in *; lia|].
    eapply holds_changed; [exact K1| |apply A1]. rewrite L1; unfold span, apart in *; lia.
  - erewrite load64_changed; [exact L3|exact K4|]. intros b Hb ?%Hsp. unfold span, apart in *. lia.
  - eapply changed_trans; [eapply changed_weaken; [exact K1|tauto]|].
    eapply changed_trans; [eapply changed_weaken; [exact K2|tauto]|].
    eapply changed_trans; [eapply changed_weaken; [exact K3|tauto]|].
    eapply changed_weaken; [exact K4|]. intros b ?%Hsp. tauto.
Qed.

Lemma runs_clone_impl s l n m pl parent regs flags newsp ptid ctid tls tp vp fp users fr image Q :
  cloneable s l n m pl parent regs tp vp fp users fr image -> shares_all flags -> 0 <= newsp < two64 ->
  (forall s1 t c x s', created s s1 l n m pl t NULL (th_tflags tp) x -> obj_at thread_s s1 t = Some c ->
     cloned s1 s' t parent regs flags newsp tls c tp x vp fp users fr image -> Q (th_id c) s') ->
  runs (k_clone_impl yield fuel regs flags newsp ptid ctid tls) s Q.
Proof.
  intros B (F1 & F2 & F3 & F4 & F5) Hsp HQ. pose proof B as [B1 B2 _ _ _ _ _ _ _ _ _ _ B13 [B14 B14'] B15 (B16 & B17 & B18) B19].
  unfold k_clone_impl. rewrite F2, F3, F4, F5. cbn [whenM].
  apply runs_bind. eapply runs_rdmsr; [exact B1|]. ksteps.
  apply (runs_thread_create _ _ _ n m l pl); try done. intros t x s1 C.
  destruct (created_site _ _ _ _ _ _ _ _ _ _ _ _ _ _ _ _ B C) as (c & S).
  specialize (HQ s1 t c x). pose proof S as [[S1 S1'] S2 (S3 & S4 & S5) [N1 N2] (A1 & L1 & P1 & T1) (A2 & L2 & P2 & P3 & P4 & P5) [U1 U2] (D1 & D2 & D3)].
  ksteps. cbn [th_arch_context set_th_call_in_signal]. rewrite S1'. ksteps.
  eapply (runs_context_copy _ _ (ArchContext (pa_regs x) (pa_fpu x) 16 16 0 0) (set_ac_context regs vp) fr image); [known|known|..].
  all: try done; try by apply (copy_args_same s1).
  intros m1 m2 W1 W2. objs. cbn [ac_context ac_fpu set_ac_context] in W1, W2. rewrite !smem_put in W1. tidy. ksteps.
  pose proof (written_changed _ _ _ _ W1) as K1. pose proof (written_changed _ _ _ _ W2) as K2.
  rewrite L1 in K1. rewrite L2 in K2.
  eapply runs_clone_shared; [exact F1| |..]; objs.
  { erewrite load64_changed; [|exact K2|unfold span, apart in *; lia].
    erewrite load64_changed; [exact U1|exact K1|unfold span, apart in *; lia]. }
  { by apply K2, K1. }
  intros m3 K3 L3. objs. change (changed m2 m3 (span (ref_count_of (th_mm tp)) 8)) in K3. tidy. ksteps.
  eapply runs_set_sp; [known|exact Hsp|apply A1|exact T1|objs; apply K3, K2, K1; rewrite <- L1; apply A1|].
  intros m4 K4. objs. cbn [ac_context] in K4. tidy. ksteps.
  destruct (clone_mem _ _ _ _ _ _ _ _ _ _ _ _ _ _ _ _ _ S W1 W2 K3 K4 L3) as (Z1 & Z6 & Z2 & Z3 & Z4 & Z5).
  destruct (has_flag flags CLONE_SETTLS) eqn:Ft; cbn [whenM]; ksteps.
  all: apply HQ; [exact C|exact S1|]; split; rewrite ?Ft; objs; try done;
    try (rewrite <- S1'; reflexivity); try apply (ss_some _ _ _ _ K4); by split_ands.
Qed.
End Clone.

(** C15: clone.  When a thread asks for one that shares its address space and its descriptors,
    [k_clone_impl] returns the number of a new thread in the first free place: its register frame is
    a copy of the parent's (its stack pointer apart, when one was given; its answer register too, so
    that it resumes with the number of the call and not with an answer of its own), as are its FPU
    image, its segments and, unless one was given, its FS base; it has its parent's address space and
    descriptors, whose counts of users go up by one, and the parent's frame is as it was.  Everything
    else is as [create] left it. *)
Theorem clone_correct {H : Type} `{KernelHeap H} `{Garbage} `{Image} (yield : M (st (kernel H)) unit) (fuel : nat)
    (s : st (kernel H)) (l : gmap Z Z) (n : Z) (m : nat) (pl : place) (parent regs flags newsp ptid ctid tls : Z)
    (tp : thread) (vp : arch_context) (fp : thread_file_info) (users : Z) (fr image : list Z) :
  cloneable s l n m pl parent regs tp vp fp users fr image -> shares_all flags -> 0 <= newsp < two64 ->
  exists t x c s1 s', k_clone_impl yield fuel regs flags newsp ptid ctid tls s = Some (place_id pl, s') /\
    created s s1 l n m pl t NULL (th_tflags tp) x /\ obj_at thread_s s1 t = Some c /\
    cloned s1 s' t parent regs flags newsp tls c tp x vp fp users fr image.
Proof.
  intros B F Hsp.
  enough (Hr : runs (k_clone_impl yield fuel regs flags newsp ptid ctid tls) s (fun r s' => exists t x c s1,
    r = place_id pl /\ created s s1 l n m pl t NULL (th_tflags tp) x /\ obj_at thread_s s1 t = Some c /\
    cloned s1 s' t parent regs flags newsp tls c tp x vp fp users fr image)).
  { apply runs_inv in Hr as (r & s' & E & t & x & c & s1 & -> & ? & ? & ?). by exists t, x, c, s1, s'. }
  eapply runs_clone_impl; [exact B|exact F|exact Hsp|]. intros s1 t c x s' C Hc K. exists t, x, c, s1.
  split; [|by split_ands]. rewrite (cr_thread _ _ _ _ _ _ _ _ _ _ C) in Hc. by injection Hc as <-.
Qed.

(** ** A thread that clones itself *)

(** The thread at 65536 with its parts behind it in the heap, running in a frame inside the memory of
    the stacks; the idle threads exist. *)
Definition clone_live : gmap Z Z := {[ 65536 := 80; 65632 := 48; 65696 := 512; 66224 := 16; 66256 := 16 ]}.
Definition clone_thread : thread := Thread 1 false 0 5 65632 NULL 66224 66256 0 0 false false kRunActive.
Definition clone_context : arch_context := ArchContext NULL 65696 16 16 33 44.
Definition clone_objects : objects :=
  Objects {[ 65536 := clone_thread ]} {[ 66256 := FileInfo NULL 0 1 ]} ∅ ∅ ∅ ∅ {[ 65632 := clone_context ]} ∅.
Definition clone_statics : statics :=
  Statics (replicate 4096 NULL) [65536; 65536] 0 SPIN_INIT SPIN_INIT true SPIN_INIT.
Definition clone_state : st (kernel Z) :=
  St boot_mem (Kern 66304 (Bitmap 2000 16) clone_objects clone_statics boot_apic
    (set_mc_msr {[ IA32_KERNEL_GS_BASE := 65536 ]} demo_machine) demo_boot).
Definition clone_regs : Z := physical_memory_offset + 1000.

Lemma mapped_holds m a (n : nat) : mapped m a (a + Z.of_nat n) -> exists bytes, length bytes = n /\ holds m a bytes.
Proof.
  revert a. induction n as [|n IH]; intros a Hm; [by exists []|].
  destruct (Hm a) as [v Hv]; [lia|]. destruct (IH (a + 1)) as (bs & Hl & Hb).
  { eapply mapped_sub; [exact Hm|lia|lia]. }
  exists (v mod 256 :: bs). split; [simpl; lia|]. apply holds_cons. split; [|done]. unfold load8. by rewrite Hv.
Qed.

Lemma clone_cloneable : exists users fr image,
  cloneable clone_state clone_live 16 0 (table_place 1) 65536 clone_regs clone_thread clone_context
    (FileInfo NULL 0 1) users fr image.
Proof.
  destruct (proj2_sig boot_mem_sig) as (M1 & M2 & M3 & _). fold boot_mem in M1, M2, M3.
  destruct (mapped_holds boot_mem clone_regs 192) as (fr & Lf & Hf).
  { eapply mapped_sub; [exact M3|vm_compute; congruence..]. }
  destruct (mapped_holds boot_mem 65696 512) as (image & Li & Hi).
  { eapply mapped_sub; [exact M2|vm_compute; congruence..]. }
  destruct (load64_Some boot_mem 66232) as [users Hu].
  { eapply mapped_sub; [exact M2|vm_compute; congruence..]. }
  exists users, fr, image. pose proof boot_stacks as Hst.
  split; try done; try (by rewrite ?Lf, ?Li).
  - repeat constructor; eexists; (split; [|split; [reflexivity|]]); vm_compute; repeat split; congruence.
  - right. vm_compute. congruence.
  - right. vm_compute. congruence.
  - intros a (i & Hs & ->). assert (Hr : 0 <= i) by (destruct Hs as [->|[[? _] _]]; lia).
    unfold apart, clone_regs, SIZEOF_PT_REGS, PAGE_SIZE. lia.
  - split; [|split; [done|]].
    + intros [|[|k]] Hk; [by exists 65536..|simpl in Hk; lia].
    + split; [lia|]. split; [done|]. intros k Hk. lia.
  - split; [|split].
    + split; [unfold bump_lo, bump_hi; simpl; lia|]. intros b j Hb. unfold clone_live in Hb.
      unfold bump_lo. simpl.
      repeat (apply lookup_insert_Some in Hb as [[<- <-]|[_ Hb]]; [lia|]).
      apply lookup_singleton_Some in Hb as [<- <-]. lia.
    + apply (bump_plenty 6); vm_compute; congruence.
    + by apply (stacks_ok_same boot_state).
Qed.

Lemma clone_correct_witness :
  exists s', k_clone_impl (ret tt) 0 clone_regs 1280 7777 0 0 0 clone_state = Some (1, s').
Proof.
  destruct clone_cloneable as (users & fr & image & B).
  destruct (clone_correct (ret tt) 0 clone_state clone_live 16 0 (table_place 1) 65536 clone_regs 1280 7777 0 0 0
    clone_thread clone_context (FileInfo NULL 0 1) users fr image B) as (t & x & c & s1 & s' & E & _).
  - by split_ands.
  - unfold two64. lia.
  - exists s'. exact E.
Defined.
