(* ===== verification/HeapSource.v ===== *)
(** HeapSource: the real kernel heap ([mm/heap/heap.cpp] over [mm/heap/pool.cpp]) keeps the promise
    [KernelHeap] that threads and sockets rely on, and has room for a thousand small blocks.

    The heap's state here includes a memory of its own, in which its tags and free lists live: a
    client never touches those, and [PoolThms.pool_isolation] says that the heap never touches the
    contents of a live block. *)

From Stdlib Require Import ZArith Lia.
From stdpp Require Import prelude gmap.
From S2P Require Import Prelude Mem Spinlock Block Klibc Freelist Pool.
From S2P Require Import HeapInv HeapOps ListOps PoolOps PoolMatch PoolFacts PoolInit PoolSpec.
From S2P Require Import PoolView PoolRealloc PoolRefine Heap HeapThms Kernel KernelFacts.

Definition heap_top : Z := KERNEL_HEAP_START + KERNEL_HEAP_SIZE.

(** The live blocks and their sizes. *)
Definition heap_holds (h : st heap) (l : gmap Z Z) : Prop :=
  exists m0 v, heap_ready m0 KERNEL_HEAP_START KERNEL_HEAP_SIZE h v /\ l = fst <$> v.

Section Real.
Context (m0 : mem).
Abbreviation refines := (refines any_op m0 KERNEL_HEAP_START KERNEL_HEAP_SIZE).
Abbreviation ready := (heap_ready m0 KERNEL_HEAP_START KERNEL_HEAP_SIZE).

Lemma block_range s v p n d :
  refines s v -> v !! p = Some (n, d) ->
  0 < p /\ KERNEL_HEAP_START <= p /\ p + n <= heap_top /\ p + n < two64.
Proof.
  intros [Ep Es _ (bs & Hi & -> & _)] Hv. pose proof (pi_ok _ _ _ Hi) as [Ha _]. rewrite Ep, Es in Ha.
  apply (view_lookup _ _ _ _ _ _ _ _ Ha) in Hv as (l & b & r & -> & Hb & <- & <- & <-).
  destruct (area_blk _ _ _ _ _ b Ha) as [_ ? ? ? ? ? ? ? _]; [apply blk_in_cases; tauto|].
  unfold heap_top. lia.
Qed.

(** A fresh block is one of the answers the interface allows. *)
Lemma block_grants s' v req a n :
  ready s' (<[a := (n, [])]> v) -> v !! a = None -> req <= n ->
  grants heap_holds KERNEL_HEAP_START heap_top req a s' (fst <$> v).
Proof.
  intros Hr Hf Hn. pose proof (hr_pool _ _ _ _ _ Hr) as Hp. right. exists n.
  assert (Ha : <[a := (n, [])]> v !! a = Some (n, [] : list Z)) by apply lookup_insert_eq.
  split; [lia|]. split; [by eapply block_range|]. split; [by rewrite lookup_fmap, Hf|]. split.
  - intros b j Hb. rewrite lookup_fmap_Some in Hb. destruct Hb as ([j' d] & <- & Hb).
    assert (Hne : a <> b) by congruence.
    eapply (refines_disjoint _ _ _ _ _ _ a n [] b j' d); [exact Hp|exact Ha| |exact Hne].
    by rewrite lookup_insert_ne.
  - exists m0, (<[a := (n, [])]> v). split; [exact Hr|]. by rewrite fmap_insert.
Qed.

(** Every block is aligned to 16 already. *)
Lemma offset_16 base size out m bs b : area_ok base size out m bs -> b ∈ bs -> offset_b 16 b = 0.
Proof.
  intros Ha Hb. destruct (area_blk _ _ _ _ _ b Ha Hb) as [_ ? ? ? ? Hal _ _ _]. unfold offset_b.
  destruct (round_up_ok (bptr b) 16) as (? & Hr); [lia|]. Z.div_mod_to_equations. lia.
Qed.

Lemma runs_aligned16 s bs req Q :
  pool_inv m0 s bs -> mp_ptr (smgr s) = KERNEL_HEAP_START -> mp_size (smgr s) = KERNEL_HEAP_SIZE ->
  mp_cb_reqmem (smgr s) = None -> 0 <= req < two32 ->
  (no_fit (fits_b (min_size req)) bs -> Q NULL s) ->
  (forall p s', served m0 s bs (min_size req) p s' -> Q p s') ->
  runs (mpool_aligned_alloc req 16) s Q.
Proof.
  intros Hi Ep Es Hcb Hreq HQ1 HQ2. pose proof (pi_ok _ _ _ Hi) as [Ha _].
  apply (runs_aligned_alloc m0 s bs req 4); [exact Hi|exact Hcb| | | |].
  - split; rewrite ?Ep, ?Es; [done| |done|done].
    change (two64 / 2) with 9223372036854775808. unfold two32 in Hreq. lia.
  - change (2 ^ 4) with 16. intros b Hb _. by rewrite (offset_16 _ _ _ _ _ _ Ha Hb).
  - change (2 ^ 4) with 16. intros Hno. apply HQ1. intros b Hb Hf. specialize (Hno b Hb Hf). unfold fits_aligned_b in Hno.
    rewrite (offset_16 _ _ _ _ _ _ Ha Hb), Z.sub_0_r in Hno. exact Hno.
  - intros p s' _ Hs _. by apply HQ2.
Qed.

Lemma pool_aligned16 s v req :
  refines s v -> 0 <= req < two32 ->
  runs (mpool_aligned_alloc req 16) s (fun a s' => exists v', refines s' v' /\
    ((a = NULL /\ v' = v) \/ (exists n, v !! a = None /\ req <= n /\ v' = <[a := (n, [])]> v))).
Proof.
  intros [Hp Hs Hr (bs & Hi & -> & _)] Hreq. eapply runs_aligned16; [exact Hi|done..| |].
  - intros _. exists (view bs). split; [|by left]. split; try done. exists bs. split_ands; try done.
    intros Hm. by destruct any_op_cuts.
  - intros p s' Hsv. destruct (served_view _ _ _ _ _ _ Hsv) as (bs' & sz & [O1 O2 O3] & Hi' & _ & Hle & Hv & Hf & _ & _).
    exists (view bs'). split.
    + split; [congruence..|]. exists bs'. split_ands; try done. intros Hm. by destruct any_op_cuts.
    + right. exists sz. destruct (min_size_ok req) as (? & _); [unfold two32, two64 in *; lia|]. split_ands; [done|lia|done].
Qed.
End Real.

(** ** The interface *)

Definition heap_free (p : Z) (h : st heap) : option (st heap) :=
  match free p h with Some (_, h') => Some h' | None => None end.

Lemma heap_malloc_spec h l n :
  heap_holds h l -> 0 <= n < two32 ->
  exists a h', malloc n h = Some (a, h') /\ grants heap_holds KERNEL_HEAP_START heap_top n a h' l.
Proof.
  intros (m0 & v & Hr & ->) Hn. pose proof (hr_pool _ _ _ _ _ Hr) as Hp.
  assert (Hc : legal_call (pool_of h) v (CMalloc n)) by (unfold legal_call, request, two32, two64 in *; lia).
  destruct (plain_call_ok m0 _ _ h v (CMalloc n) Hr Hc I) as [Hrun|[[] _]].
  apply runs_inv in Hrun as (a & h' & E & v' & Hs & Hr' & _). exists a, h'. split; [exact E|].
  destruct Hs as [[-> ->]|(k & Hf & _ & Hk & ->)]; [left; split; [done|by exists m0, v]|].
  eapply block_grants; [exact Hr'|exact Hf|lia].
Qed.

Lemma heap_aligned_spec h l n :
  heap_holds h l -> 0 <= n < two32 ->
  exists a h', aligned_alloc 16 n h = Some (a, h') /\ grants heap_holds KERNEL_HEAP_START heap_top n a h' l.
Proof.
  intros (m0 & v & Hr & ->) Hn. pose proof (hr_pool _ _ _ _ _ Hr) as Hp.
  pose proof (locked_call m0 _ _ (mpool_aligned_alloc n 16) h v (fun a v' => (a = NULL /\ v' = v) \/
    (exists k, v !! a = None /\ n <= k /\ v' = <[a := (k, [])]> v)) Hr) as Hrun.
  apply runs_inv in Hrun as (a & h' & E & v' & Hs & Hr' & _).
  - exists a, h'. split; [exact E|].
    destruct Hs as [[-> ->]|(k & Hf & Hk & ->)]; [left; split; [done|by exists m0, v]|].
    eapply block_grants; [exact Hr'|exact Hf|lia].
  - eapply runs_mono; [by apply (pool_aligned16 m0)|]. intros a s' (v' & H1 & H2). by exists v'.
Qed.

Lemma heap_free_spec h l a :
  heap_holds h l -> a = NULL \/ is_Some (l !! a) ->
  exists h', heap_free a h = Some h' /\ heap_holds h' (delete a l).
Proof.
  intros (m0 & v & Hr & ->) Ha.
  assert (Hc : legal_call (pool_of h) v (CFree a)) by (destruct Ha as [->|[k (x & _ & Hx)%lookup_fmap_Some]]; [by left|right; by exists x]).
  destruct (plain_call_ok m0 _ _ h v (CFree a) Hr Hc I) as [Hrun|[[] _]]. simpl run_call in Hrun.
  apply runs_bind_inv in Hrun. apply runs_inv in Hrun as ([] & h' & E & Hrun).
  apply runs_inv in Hrun as (x & h2 & [= <- <-] & v' & Hs & Hr' & _). simpl in Hs. subst v'.
  unfold heap_free. rewrite E. exists h'. split; [done|]. exists m0, (delete a v). split; [exact Hr'|].
  by rewrite fmap_delete.
Qed.

#[export] Instance real_heap : KernelHeap (st heap) := {|
  kmalloc := malloc;
  kfree := heap_free;
  kaligned_alloc := aligned_alloc;
  heap_rep := heap_holds;
  heap_lo := KERNEL_HEAP_START;
  heap_hi := heap_top;
  kmalloc_spec := heap_malloc_spec;
  kaligned_spec := heap_aligned_spec;
  kfree_spec := heap_free_spec
|}.

(** ** Room *)

(** In a heap with [k] live blocks and no free block of [F] bytes, the rest is small: free blocks
    are never neighbours, so there is at most one more of them than of live ones. *)
Lemma no_room_small F p bs e :
  16 <= F -> chain p bs e -> coalesced bs -> quiet bs -> no_fit (fits_b F) bs ->
  e - p <= live_bytes bs + 16 * Z.of_nat (length (live bs)) +
    (Z.of_nat (length (live bs)) + b2z (head_free bs)) * (F + 16).
Proof.
  intros HF. revert p. induction bs as [|b bs IH]; intros p Hc Hco Hq Hno; [simpl in *; unfold b2z; simpl; lia|].
  destruct Hc as [_ Hc]. apply coalesced_cons in Hco as [Hh Hco]. apply quiet_cons in Hq as [Hb Hq].
  specialize (IH _ Hc Hco Hq (fun c Hin => Hno c (list_elem_of_further _ _ _ Hin))).
  rewrite live_bytes_cons, live_cons. simpl head_free. rewrite Hb in Hh |- *. destruct (blisted b) eqn:El.
  - simpl in Hh. rewrite Hh in IH. specialize (Hno b (list_elem_of_here _ _) Hb). unfold fits_b in Hno. simpl in *. lia.
  - simpl length. rewrite Nat2Z.inj_succ. unfold b2z in *. destruct (head_free bs); lia.
Qed.

(** A pool with at most [k] live blocks, each of a page and a little more at most. *)
Definition block_max : Z := PAGE_SIZE + 96.
Record roomy (m0 : mem) (k : nat) (s : st mpool) (bs : list blk) : Prop := {
  ro_inv : pool_inv m0 s bs;
  ro_tidy : tidy s bs;
  ro_ptr : mp_ptr (smgr s) = KERNEL_HEAP_START;
  ro_size : mp_size (smgr s) = KERNEL_HEAP_SIZE;
  ro_reqmem : mp_cb_reqmem (smgr s) = None;
  ro_count : (length (live bs) <= k)%nat;
  ro_small : Forall (fun x => x.1.2 <= block_max) (live bs)
}.

Lemma live_bytes_max bs : Forall (fun x => x.1.2 <= block_max) (live bs) ->
  live_bytes bs <= block_max * Z.of_nat (length (live bs)).
Proof.
  rewrite live_bytes_live. induction 1 as [|x l Hx Hl IH]; simpl in *; lia.
Qed.

Lemma roomy_fits m0 k s bs req :
  roomy m0 k s bs -> (k < 1000)%nat -> 0 <= req <= PAGE_SIZE -> ~ no_fit (fits_b (min_size req)) bs.
Proof.
  intros [[[Ha _] Hq] [Hco _] Ep Es _ Hn Hsm] Hk Hreq Hno. rewrite Ep, Es in Ha.
  destruct (min_size_ok req) as (Hm & Hm2 & _); [unfold PAGE_SIZE, two64 in *; lia|].
  pose proof (ao_chain _ _ _ _ _ Ha) as Hc.
  pose proof (no_room_small (min_size req) _ _ _ ltac:(lia) Hc Hco Hq Hno) as Hb.
  pose proof (live_bytes_max _ Hsm). unfold block_max, PAGE_SIZE, KERNEL_HEAP_SIZE in *.
  assert (b2z (head_free bs) <= 1) by (unfold b2z; by case_match). nia.
Qed.

Lemma roomy_served m0 k s bs req p s' :
  roomy m0 k s bs -> 0 <= req <= PAGE_SIZE -> served m0 s bs (min_size req) p s' ->
  p <> NULL /\ exists bs', roomy m0 (S k) s' bs'.
Proof.
  intros [Hi Ht Ep Es Er Hn Hsm] Hreq ([O1 O2 O3] & bs' & sz & l1 & l2 & Hi' & Ht' & Hl & Hl' & Hsz & _ & Hp).
  destruct (min_size_ok req) as (Hm & _); [unfold PAGE_SIZE, two64 in *; lia|].
  split; [done|]. exists bs'. rewrite Hl in Hn, Hsm. split; try done; try congruence.
  - by apply Ht'.
  - rewrite Hl'. rewrite !length_app in *. simpl. lia.
  - rewrite Hl'. apply Forall_app in Hsm as [H1 H2]. apply Forall_app. split; [done|]. constructor; [|done].
    simpl. unfold block_max. lia.
Qed.

Definition roomy_heap (m0 : mem) (k : nat) (h : st heap) : Prop :=
  unlocked h /\ exists bs, roomy m0 k (pool_of h) bs.

Lemma roomy_call m0 k h req (c : PM Z) :
  roomy_heap m0 k h -> (k < 1000)%nat -> 0 <= req <= PAGE_SIZE ->
  (forall bs Q, roomy m0 k (pool_of h) bs ->
     (no_fit (fits_b (min_size req)) bs -> Q NULL (pool_of h)) ->
     (forall p s', served m0 (pool_of h) bs (min_size req) p s' -> Q p s') -> runs c (pool_of h) Q) ->
  forall a h', locked c h = Some (a, h') -> a <> NULL /\ roomy_heap m0 (S k) h'.
Proof.
  intros [Hu [bs Hro]] Hk Hreq Hc a h' E.
  assert (Hr : runs (locked c) h (fun a h' => a <> NULL /\ roomy_heap m0 (S k) h')).
  { apply runs_locked; [done|]. eapply Hc; [exact Hro| |].
    - intros Hno. by destruct (roomy_fits _ _ _ _ _ Hro Hk Hreq).
    - intros p s' Hs h2 [Hm Hl _]. destruct (roomy_served _ _ _ _ _ _ _ Hro Hreq Hs) as [Hp [bs' Hb]].
      split; [done|]. split; [done|]. exists bs'. by rewrite Hm. }
  unfold runs in Hr. by rewrite E in Hr.
Qed.

Lemma roomy_plenty m0 n k h : roomy_heap m0 k h -> (k + n <= 1000)%nat -> plenty n h.
Proof.
  revert k h. induction n as [|n IH]; intros k h Hr Hk; [done|]. intros size Hs.
  assert (Hs2 : 0 <= size < two32) by (unfold PAGE_SIZE, two32 in *; lia).
  split; intros a h' E.
  - destruct (roomy_call m0 k h size (mpool_alloc size) Hr ltac:(lia) Hs) with (a := a) (h' := h') as [Ha Hr'];
      [|exact E|split; [done|]; apply (IH (S k)); [done|lia]].
    intros bs Q Hro Q1 Q2. pose proof Hro as [Hi _ Ep Es Er _ _].
    eapply (runs_alloc m0); [exact Hi|exact Er|unfold two32, two64 in *; lia|exact Q1|].
    intros p s' _ Hsv. by apply Q2.
  - destruct (roomy_call m0 k h size (mpool_aligned_alloc size 16) Hr ltac:(lia) Hs) with (a := a) (h' := h') as [Ha Hr'];
      [|exact E|split; [done|]; apply (IH (S k)); [done|lia]].
    intros bs Q Hro Q1 Q2. pose proof Hro as [Hi _ Ep Es Er _ _].
    by eapply runs_aligned16.
Qed.

(** C40: the heap that [init_heap] leaves behind serves the layers above: whatever address space it was
    mapped in, the next thousand requests of at most a page, in any order and of any sizes, with
    [malloc] or aligned to 16, are granted. *)
Theorem heap_plenty (A : AddressSpace) (s : st heap) (m' : mem) :
  map_range KERNEL_HEAP_START 0 2048 3 (smem s) = Some m' -> unlocked s ->
  exists h, init_heap s = Some (tt, h) /\ heap_holds h ∅ /\ plenty 1000 h.
Proof.
  intros E Hu. pose proof (runs_init_heap s m' E Hu) as Hr.
  apply runs_inv in Hr as ([] & h & E' & Hready & _ & Hi & Ht). exists h. split; [exact E'|]. split.
  - exists m', ∅. split; [exact Hready|]. by rewrite fmap_empty.
  - destruct Hready as [Hu' [Ep Es Er _]]. apply (roomy_plenty m' 1000 0); [|lia]. split; [done|].
    eexists. split; [exact Hi|exact Ht|exact Ep|exact Es|exact Er|apply le_n|constructor].
Qed.

Lemma heap_plenty_witness : exists h, init_heap heap_boot = Some (tt, h) /\ heap_holds h ∅ /\ plenty 1000 h.
Proof. exact (heap_plenty fill_space heap_boot demo_heap_mem demo_heap_map eq_refl). Defined.
