(* ===== verification/SyscallThms.v ===== *)
(** SyscallThms: the system-call dispatcher ([arch/x86_64/syscall.cpp]). *)

From Stdlib Require Import ZArith Lia.
From stdpp Require Import prelude gmap.
From S2P Require Import Prelude Mem Spinlock Block Klibc Bitmap Frame.
From S2P Require Import PageTable Kernel Apic Thread Syscall KernelFacts SearchThms KernelDemo.
From S2P Require Import SocketFacts CreateFacts.

(** The calls the dispatcher has a case for. *)
Definition known_calls : list Z :=
  [k_debug; k_physmap; k_physunmap; k_driver_cskt; k_driver_connect; k_driver_listen; k_driver_accept;
   k_driver_send; k_driver_recv; k_getpid; k_clone; k_exit].

(** The words of the register frame that the dispatcher writes on entry, and [rax]. *)
Definition entry_words : list Z := [pr_rip; pr_rflags; pr_cs; pr_ss; pr_ds; pr_es; pr_rsp].
Definition in_words (regs : Z) (l : list Z) (b : Z) : Prop := exists o, o ∈ l /\ span (regs + o) 8 b.

(** The frame takes the caller back to user mode: [rcx] and [r11] are what SYSCALL saved. *)
Record user_entry (m : mem) (regs user_regs rcx r11 : Z) : Prop := {
  ue_rip : load64 m (regs + pr_rip) = Some rcx;
  ue_rflags : load64 m (regs + pr_rflags) = Some r11;
  ue_cs : load64 m (regs + pr_cs) = Some 35;
  ue_ss : load64 m (regs + pr_ss) = Some 27;
  ue_ds : load64 m (regs + pr_ds) = Some 27;
  ue_es : load64 m (regs + pr_es) = Some 27;
  ue_rsp : load64 m (regs + pr_rsp) = Some (user_regs + SIZEOF_PT_REGS)
}.

(** The arguments of a call. *)
Record args := Args { a_rax : Z; a_rdi : Z; a_rsi : Z; a_rdx : Z; a_rcx : Z; a_r10 : Z; a_r8 : Z; a_r11 : Z }.
Record called (m : mem) (regs : Z) (a : args) : Prop := {
  cd_range : 0 <= regs /\ regs + SIZEOF_PT_REGS < two64;
  cd_mapped : mapped m regs (regs + SIZEOF_PT_REGS);
  cd_rax : load64 m (regs + pr_rax) = Some (a_rax a);
  cd_rdi : load64 m (regs + pr_rdi) = Some (a_rdi a);
  cd_rsi : load64 m (regs + pr_rsi) = Some (a_rsi a);
  cd_rdx : load64 m (regs + pr_rdx) = Some (a_rdx a);
  cd_rcx : load64 m (regs + pr_rcx) = Some (a_rcx a);
  cd_r10 : load64 m (regs + pr_r10) = Some (a_r10 a);
  cd_r8 : load64 m (regs + pr_r8) = Some (a_r8 a);
  cd_r11 : load64 m (regs + pr_r11) = Some (a_r11 a)
}.

Section Dispatch.
Context {H : Type} `{KernelHeap H} `{Garbage} `{Image}.
Implicit Types (s : st (kernel H)).
Context (yield : M (st (kernel H)) unit) (fuel : nat).

(** The handler up to its [switch], followed by [k] on the registers it dispatches on. *)
Definition entry {A} (regs user_regs : Z) (k : Z -> Z -> Z -> Z -> Z -> Z -> Z -> M (st (kernel H)) A) :
    M (st (kernel H)) A :=
  rcx <- ld (regs +! pr_rcx) ;; sto (regs +! pr_rip) rcx ;;
  r11 <- ld (regs +! pr_r11) ;; sto (regs +! pr_rflags) r11 ;;
  sto (regs +! pr_cs) 35 ;; sto (regs +! pr_ss) 27 ;; sto (regs +! pr_ds) 27 ;; sto (regs +! pr_es) 27 ;;
  sto (regs +! pr_rsp) (user_regs +! SIZEOF_PT_REGS) ;;
  rax <- ld (regs +! pr_rax) ;; rdi <- ld (regs +! pr_rdi) ;; rsi <- ld (regs +! pr_rsi) ;;
  rdx <- ld (regs +! pr_rdx) ;; rcx <- ld (regs +! pr_rcx) ;; r10 <- ld (regs +! pr_r10) ;;
  r8 <- ld (regs +! pr_r8) ;; k rax rdi rsi rdx rcx r10 r8.

(** The switch itself. *)
Definition after_entry (regs rax rdi rsi rdx rcx r10 r8 : Z) : M (st (kernel H)) unit :=
  if rax =? k_exit then k_exit_impl rdi
  else r <- syscall_result yield fuel regs rax rdi rsi rdx rcx r10 r8 ;; sto (regs +! pr_rax) r.

Lemma handler_entry regs user_regs :
  syscall_handler yield fuel regs user_regs = entry regs user_regs (after_entry regs).
Proof. done. Qed.

(** The state and the registers with which [k] is entered do not depend on [k]. *)
Lemma entry_eq {A} regs user_regs k (k' : Z -> Z -> Z -> Z -> Z -> Z -> Z -> M (st (kernel H)) A) s s' rax rdi rsi rdx rcx r10 r8 :
  entry regs user_regs (fun rax rdi rsi rdx rcx r10 r8 => ret (k rax rdi rsi rdx rcx r10 r8)) s =
    Some ((rax, rdi, rsi, rdx, rcx, r10, r8), s') ->
  (forall rax rdi rsi rdx rcx r10 r8, k rax rdi rsi rdx rcx r10 r8 = (rax, rdi, rsi, rdx, rcx, r10, r8)) ->
  entry regs user_regs k' s = k' rax rdi rsi rdx rcx r10 r8 s'.
Proof.
  intros E Hk. unfold entry, bind in *. repeat (case_match; simplify_eq; try done).
  unfold ret in E. rewrite Hk in E. by simplify_eq.
Qed.

(** What [k] finds. *)
Lemma runs_entry {A} s regs user_regs a k (Q : A -> st (kernel H) -> Prop) :
  called (smem s) regs a -> 0 <= user_regs -> user_regs + SIZEOF_PT_REGS < two64 ->
  (forall m', user_entry m' regs user_regs (a_rcx a) (a_r11 a) -> changed (smem s) m' (in_words regs entry_words) ->
     called m' regs a ->
     runs (k (a_rax a) (a_rdi a) (a_rsi a) (a_rdx a) (a_rcx a) (a_r10 a) (a_r8 a)) (with_mem m' s) Q) ->
  runs (entry regs user_regs k) s Q.
Proof.
  intros [[R1 R2] Hm W1 W2 W3 W4 W5 W6 W7 W8] U1 U2 HQ. unfold entry.
  pose proof (load64_range _ _ _ W5). pose proof (load64_range _ _ _ W8).
  unfold SIZEOF_PT_REGS in *.
  assert (Ha : forall o, 0 <= o <= 184 -> regs +! o = regs + o) by (intros o Ho; by norm_words).
  replace (user_regs +! 192) with (user_regs + 192) by (by norm_words).
  rewrite !Ha by (unfold pr_r8, pr_r10, pr_r11, pr_rax, pr_rcx, pr_rdx, pr_rsi, pr_rdi, pr_rflags, pr_rip, pr_rsp, pr_cs, pr_ss, pr_ds, pr_es; lia).
  assert (Hmap : forall m o, (forall lo hi, mapped (smem s) lo hi -> mapped m lo hi) -> 0 <= o <= 184 ->
    mapped m (regs + o) (regs + o + 8)).
  { intros m o Hc Ho. apply Hc. eapply mapped_sub; [exact Hm|lia|lia]. }
  assert (Hall : forall m m' o, o ∈ entry_words -> changed (smem s) m (in_words regs entry_words) ->
    changed m m' (span (regs + o) 8) -> changed (smem s) m' (in_words regs entry_words)).
  { intros m m' o Ho C C'. eapply changed_trans; [exact C|]. eapply changed_weaken; [exact C'|].
    intros b Hb. by exists o. }
  assert (C0 : changed (smem s) (smem s) (in_words regs entry_words)) by done.
  assert (HQ' := HQ). clear HQ. unfold entry_words in Hall, C0.
  unfold pr_r8, pr_r10, pr_r11, pr_rax, pr_rcx, pr_rdx, pr_rsi, pr_rdi, pr_rflags, pr_rip, pr_rsp, pr_cs, pr_ss, pr_ds, pr_es in *.
  repeat (apply runs_bind; first
    [ eapply runs_ld; [simpl; load_back|]
    | apply runs_sto_changed; [eapply Hmap; [eapply ch_mapped; eassumption|lia]|];
      let m := fresh "m" in let C := fresh "C" in let L := fresh "L" in intros m C L; simpl in C, L;
      lazymatch goal with
      | Hc : changed (smem s) ?m1 (in_words _ _), C : changed ?m1 m _ |- _ =>
          assert (changed (smem s) m (in_words regs [152; 168; 160; 184; 112; 120; 176]))
            by (eapply Hall; [|exact Hc|exact C]; rewrite !elem_of_cons; tauto); clear Hc
      end ]).
  rewrite u64_small in L, L0, L5 by lia. apply (HQ' m5).
  - split; unfold pr_rflags, pr_rip, pr_rsp, pr_cs, pr_ss, pr_ds, pr_es; load_back.
  - assumption.
  - split; unfold pr_r8, pr_r10, pr_r11, pr_rax, pr_rcx, pr_rdx, pr_rsi, pr_rdi, SIZEOF_PT_REGS;
      try done; try solve [load_back]. by apply C5, C4, C3, C2, C1, C0, C.
Qed.

(** The handler is its entry, in a memory [m] that does not depend on the call, and the switch. *)
Lemma handler_enters s regs user_regs a :
  called (smem s) regs a -> 0 <= user_regs -> user_regs + SIZEOF_PT_REGS < two64 ->
  exists m, user_entry m regs user_regs (a_rcx a) (a_r11 a) /\
    changed (smem s) m (in_words regs entry_words) /\ called m regs a /\
    syscall_handler yield fuel regs user_regs s =
      after_entry regs (a_rax a) (a_rdi a) (a_rsi a) (a_rdx a) (a_rcx a) (a_r10 a) (a_r8 a) (with_mem m s).
Proof.
  intros Hc U1 U2. set (k := fun rax rdi rsi rdx rcx r10 r8 : Z => (rax, rdi, rsi, rdx, rcx, r10, r8)).
  assert (Hr : runs (entry regs user_regs (fun rax rdi rsi rdx rcx r10 r8 => ret (k rax rdi rsi rdx rcx r10 r8))) s
    (fun x s' => exists m, s' = with_mem m s /\ x = k (a_rax a) (a_rdi a) (a_rsi a) (a_rdx a) (a_rcx a) (a_r10 a) (a_r8 a) /\
       user_entry m regs user_regs (a_rcx a) (a_r11 a) /\
       changed (smem s) m (in_words regs entry_words) /\ called m regs a)).
  { eapply runs_entry; [exact Hc|done|done|]. intros m Hu Hch Hc'. apply runs_ret. by exists m. }
  apply runs_inv in Hr as (x & s' & E & m & -> & -> & Hu & Hch & Hc'). exists m. split_ands; try done.
  rewrite handler_entry. by apply (entry_eq _ _ k).
Qed.

Lemma syscall_unknown regs a : a_rax a ∉ known_calls ->
  syscall_result yield fuel regs (a_rax a) (a_rdi a) (a_rsi a) (a_rdx a) (a_rcx a) (a_r10 a) (a_r8 a) =
    ret (error k_hel_error_not_implemented).
Proof.
  intros Hn. unfold syscall_result, known_calls in *. rewrite !not_elem_of_cons in Hn. destr_ands.
  repeat match goal with |- context [?x =? ?y] => replace (x =? y) with false by lia end. done.
Qed.

Lemma getpid_answers s regs t th r1 r2 r3 r4 r5 r6 :
  mc_msr (k_cpu (smgr s)) !! IA32_KERNEL_GS_BASE = Some t -> obj_at thread_s s t = Some th ->
  syscall_result yield fuel regs k_getpid r1 r2 r3 r4 r5 r6 s = Some (th_id th, s).
Proof.
  intros Ht Hth. assert (Hr : runs (syscall_result yield fuel regs k_getpid r1 r2 r3 r4 r5 r6) s
    (fun r s' => r = th_id th /\ s' = s)).
  { unfold syscall_result. cbn -[getpid]. unfold getpid, get_current_thread. apply runs_bind. eapply runs_rdmsr; [exact Ht|]. by ksteps. }
  by apply runs_inv in Hr as (r & s' & -> & -> & ->).
Qed.
End Dispatch.

(** Writing [rax] afterwards. *)
Lemma user_entry_rax m m' regs user_regs rcx r11 :
  user_entry m regs user_regs rcx r11 -> changed m m' (span (regs + pr_rax) 8) -> user_entry m' regs user_regs rcx r11.
Proof.
  intros [E1 E2 E3 E4 E5 E6 E7] C. unfold pr_rax in C.
  split; (erewrite load64_changed; [eassumption|exact C|]); intros b Hb;
    unfold span, pr_rflags, pr_rip, pr_rsp, pr_cs, pr_ss, pr_ds, pr_es in *; lia.
Qed.
(** C7: the dispatcher.  It first makes the frame take the caller back to user mode, after its
    SYSCALL instruction, with its own flags and stack, and writes nothing else.  Then it calls the
    implementation of the number in [rax], with the registers each takes as its arguments, and puts
    the result into [rax]: a call it has no case for, [k_driver_bind] and [k_driver_dskt] among
    them, is answered with not-implemented, and [k_getpid] with the current thread's id; [k_exit]
    is left to its implementation, which answers nothing.  Whenever an implementation returns
    without having touched the frame, the handler returns with that result in [rax], and the frame
    still takes the caller back. *)
Theorem syscall_dispatch {H : Type} `{KernelHeap H} `{Garbage} `{Image}
    (yield : M (st (kernel H)) unit) (fuel : nat) (s : st (kernel H)) (regs user_regs : Z) (a : args) :
  called (smem s) regs a -> 0 <= user_regs -> user_regs + SIZEOF_PT_REGS < two64 ->
  let handler := syscall_handler yield fuel regs user_regs s in
  let back m := user_entry m regs user_regs (a_rcx a) (a_r11 a) in
  exists m, back m /\ changed (smem s) m (in_words regs entry_words) /\
    let calls (n : Z) (c : M (st (kernel H)) Z) :=
      a_rax a = n -> handler = (r <- c ;; sto (regs + pr_rax) r) (with_mem m s) in
    (a_rax a ∉ known_calls -> calls (a_rax a) (ret (error k_hel_error_not_implemented))) /\
    calls k_debug (k_hel_debug_impl (s32 (a_rdi a)) (a_rsi a)) /\
    calls k_physmap (k_hel_physmap_impl (a_rdi a) (a_rsi a)) /\
    calls k_physunmap (k_hel_physunmap_impl (a_rdi a) (a_rsi a)) /\
    calls k_driver_cskt (k_driver_cskt_impl (a_rdi a)) /\
    calls k_driver_connect (k_driver_connect_impl yield fuel (a_rdi a) (a_rsi a)) /\
    calls k_driver_listen (k_driver_listen_impl (a_rdi a)) /\
    calls k_driver_accept (k_driver_accept_impl yield fuel (a_rdi a) (a_r10 a)) /\
    calls k_driver_send (k_driver_send_impl (a_rdi a) (a_rsi a) (a_rdx a)) /\
    calls k_driver_recv (k_driver_recv_impl (a_rdi a) (a_rsi a) (a_rdx a)) /\
    calls k_clone (k_clone_impl yield fuel regs (a_rdi a) (a_rsi a) (a_rdx a) (a_r10 a) (a_r8 a)) /\
    (forall t th, mc_msr (k_cpu (smgr s)) !! IA32_KERNEL_GS_BASE = Some t -> obj_at thread_s s t = Some th ->
       calls k_getpid (ret (th_id th))) /\
    (a_rax a = k_exit -> handler = k_exit_impl (a_rdi a) (with_mem m s)) /\
    (forall c r s2, handler = (r <- c ;; sto (regs + pr_rax) r) (with_mem m s) ->
       c (with_mem m s) = Some (r, s2) -> back (smem s2) ->
       mapped (smem s2) (regs + pr_rax) (regs + pr_rax + 8) ->
       exists m2, handler = Some (tt, with_mem m2 s2) /\ back m2 /\ load64 m2 (regs + pr_rax) = Some (u64 r) /\
         changed (smem s2) m2 (span (regs + pr_rax) 8)).
Proof.
  intros Hc U1 U2 handler back. destruct (handler_enters yield fuel s regs user_regs a Hc U1 U2) as (m & Hu & Hch & Hc' & E).
  exists m. split; [exact Hu|]. split; [exact Hch|]. intros calls. pose proof (cd_range _ _ _ Hc) as [R1 R2].
  assert (Ea : regs +! pr_rax = regs + pr_rax) by (unfold pr_rax, SIZEOF_PT_REGS in *; by norm_words).
  assert (Hcase : forall n c, (n =? k_exit) = false -> (a_rax a = n -> syscall_result yield fuel regs (a_rax a)
      (a_rdi a) (a_rsi a) (a_rdx a) (a_rcx a) (a_r10 a) (a_r8 a) (with_mem m s) = c (with_mem m s)) -> calls n c).
  { intros n c Hn Hr En. unfold handler. rewrite E. unfold after_entry. rewrite En, Hn, <- En, Ea.
    unfold bind. by rewrite Hr. }
  split; [|repeat (split; [solve [apply Hcase; [done|by intros ->]]|]); split; [|split]].
  - intros Hn. apply Hcase; [|intros _; by rewrite syscall_unknown].
    apply Z.eqb_neq. intros Ee. apply Hn. rewrite Ee. unfold known_calls. rewrite !elem_of_cons. tauto.
  - intros t th Ht Hth. apply Hcase; [done|]. intros ->. by eapply getpid_answers.
  - intros Ee. unfold handler. rewrite E. unfold after_entry. by rewrite Ee.
  - intros c r s2 Eh Er Hb Hm. assert (Hrun : runs (sto (regs + pr_rax) r) s2 (fun _ s3 => exists m2, s3 = with_mem m2 s2 /\
      changed (smem s2) m2 (span (regs + pr_rax) 8) /\ load64 m2 (regs + pr_rax) = Some (u64 r))).
    { apply runs_sto_changed; [exact Hm|]. intros m2 C2 L2. by exists m2. }
    apply runs_inv in Hrun as ([] & s3 & E3 & m2 & -> & C2 & L2). exists m2. split_ands; try done.
    + rewrite Eh. unfold bind. by rewrite Er.
    + by eapply user_entry_rax.
Qed.

(** A caller of [k_driver_bind]. *)
Definition sys_mem : mem := put_bytes 8320 [11; 0; 0; 128; 0; 0; 0; 0] (fill 8192 192 0 ∅).
Definition sys_state : st (kernel Z) :=
  St sys_mem (Kern 500000 (Bitmap 0 0) no_objects demo_statics demo_apic demo_machine demo_boot).
Lemma sys_called : called sys_mem 8192 (Args k_driver_bind 0 0 0 0 0 0 0).
Proof.
  split; try (vm_compute; reflexivity).
  - unfold SIZEOF_PT_REGS, two64. lia.
  - intros b Hb. unfold sys_mem. rewrite put_bytes_lookup. unfold SIZEOF_PT_REGS in Hb.
    case_decide; [apply lookup_lt_is_Some_2; simpl in *; lia|]. apply fill_mapped. lia.
Qed.

Lemma syscall_dispatch_witness :
  exists m, user_entry m 8192 8384 0 0 /\
    syscall_handler (ret tt) 0 8192 8384 sys_state =
      (r <- ret (error k_hel_error_not_implemented) ;; sto (8192 + pr_rax) r) (with_mem m sys_state).
Proof.
  destruct (syscall_dispatch (ret tt) 0 sys_state 8192 8384 _ sys_called ltac:(lia) ltac:(unfold SIZEOF_PT_REGS, two64; lia))
    as (m & Hb & _ & Hu & _). exists m. split; [exact Hb|]. apply Hu; [|reflexivity].
  simpl. unfold known_calls. rewrite !not_elem_of_cons. split_ands; try (vm_compute; congruence). apply not_elem_of_nil.
Defined.
